(* ===== verification/_CoqProject ===== *)
-Q . S2P
Prelude.v
Value.v
RefValue.v
Protocol.v
Verify.v
Framing.v
Sha256.v
HashChain.v
Credit.v
Pump.v
FlowControl.v
Request.v
Metadata.v
ClientStream.v
ServingClient.v
ServingSystem.v
ServingProps.v
SessionWork.v
Server.v
ClientServing.v
Client.v
ClientProps.v
Metrics.v
ClientReconnect.v
ClientCalls.v
Resilience.v
Channels.v
Quic.v
QuicStreams.v
MemTransport.v
MsgConn.v
WebSocket.v
Transport.v
ServerConn.v
ServerHooks.v
ClientConn.v
ClientOptions.v
EndToEnd.v
Typed.v
RateLimit.v
Orphans.v
QuicEndpoint.v
Sender.v
ClientHandlers.v
ReverseStreams.v
StreamLink.v
ClientEnds.v
ServerEnds.v
Streams.v
StreamIsolation.v
ClientIsolation.v
Multiplex.v
Examples.v
