(* ===== verification/Prelude.v ===== *)
(** * value-rpc: a verification library

    value-rpc (Go) is a bidirectional RPC: a client opens one connection to a
    server and the two exchange MessagePack envelopes, unary calls and streams in
    both directions.  This library translates its core into Rocq functions and
    proves what makes it correct.

    ** The program and the files that model it

    - [Prelude]: this header, scopes, tactics and hint databases, 64-bit integers
      ([wrap64]), the state-and-events monad [M] in which effectful code is
      written, invariants of such code ([keeps]) and of step relations ([reach]).
    - [Value], [RefValue]: the value library go.arpabet.com/value is third-party
      code; [ValueLib] is the interface the program uses of it, with its
      documented laws, and [RefValueLib] an instance that shows the laws can hold
      and runs the examples.
    - [Protocol] (valuerpc/protocol.go, error.go, peer.go): message types, codes,
      errors, the dialect and every envelope constructor.
    - [Verify] (types.go, verify.go): argument checking.
    - [Framing] (rpc.go, quic/transport.go's frames): length-prefixed messages.
    - [Sha256], [HashChain] (hashchain.go, servingClient.authorizeResume): the
      reverse hash chain that authorizes the resumption of a session.
    - [Credit], [Pump] (credit.go, pump.go), [FlowControl]: the credit gate, the
      bounded stream pump with its goroutine, and the two of them connected over
      a wire, as sender and receiver of one stream.
    - [Request] (valueclient/request.go): a request in flight.  [ClientStream]
      (valueserver/serving_stream.go): its mirror for streams a server opens.
    - [Metadata] (metadata.go, principal.go, peer.go): contexts and metadata.
    - [ServingClient] (serving_client.go, serving_request.go, serving_stream.go,
      debug.go): the server's session: dispatch of frames, admission, handlers,
      streams, reverse calls.  [ServingSystem]: all interleavings of a session's
      goroutines as a step relation.  [ServingProps]: its operations one by one.
      [SessionWork]: everything a session does as one type of operations, and that
      none of them changes whose session it is.
    - [Server] (server.go, function.go, options.go): accepting, the handshake,
      sessions, registration, Close.
    - [ClientServing] (valueclient/serving.go): streams the client serves.
      [Client] (client.go, connection.go, sync_conn.go): the client.
      [ClientProps], [ClientReconnect], [ClientCalls]: its theorems.
      [ClientConn] (connection.go): a connection's queue and its two loops.
      [ClientOptions] (options.go and the constructors of client.go).
      [ClientHandlers] (client.go): the handlers and who is told what.
    - [Metrics] (metrics.go): the sinks both sides report to, and what the
      counters of examples/observability show.
    - [Resilience], [RateLimit] (interceptor.go, resilience/): the interceptor
      chain, circuit breaker, retry, bulkhead, fallback, the token bucket over
      binary64 floats, nested timeouts.
    - [Channels]: Go's select.  [MsgConn] (rpc.go's MsgConn interface): the class
      [MsgLink], what the RPC layer asks of a transport, with the framed stream
      and the WebSocket frames ([WebSocket]) as instances, and a framed stream under
      failing writes and closes.
    - [MemTransport] (transport_mem.go), [WebSocket] (transport_ws.go),
      [Transport] (transport.go, transport_conn.go, transport_tls.go, peercred*.go),
      [Quic], [QuicStreams], [QuicEndpoint] (quic/transport.go): the transports.
    - [ServerConn] (server.go): Run, handleConnection, the constructors.
      [ServerHooks] (server.go, api.go): the authorizer and the authenticator,
      with the hooks of examples/auth, peer, mtls and unix.
      [Sender] (serving_client.go): the session's sender goroutine and its own
      message constructors.  [ReverseStreams] (serving_stream.go): GetStream,
      PutStream and Chat toward the client.
    - [EndToEnd]: client, link and session composed into one unary call.
      [Typed] (codec.go, typed.go of both sides): typed calls on top of it.
    - [StreamLink]: one direction of one stream between any sending and any
      receiving end, the records [Sender] and [Receiver] being what each promises
      about its frames.  [ClientEnds] and [ServerEnds] show that the eight ends of
      the code keep the promises: request and streamOut, served stream and
      streamer, on both sides.  [Streams]: how each kind of stream is opened by
      the code of both sides, and its guarantees.  [StreamIsolation] (session) and
      [ClientIsolation]: what is done for other streams leaves this one alone.
      [Multiplex]: a client and a session with any number of streams over one
      connection, as one step relation; the record [Host] of [StreamLink] says
      what a larger system owes a stream in it for the stream to be completed.
      [Orphans]: what a reconnect leaves of open streams on the two sides.
    - [Examples] (examples/streaming, typed, peer, cancellation, first): handlers
      and codecs of the examples, with the theorems above applied to them.

    ** How code becomes definitions

    A method is one definition with the source's name, prefixed by its type where
    two types share it ([RequestCtx_Close], [ClientServing_Close]).  Structs are
    records, shared objects live in a heap ([gmap nat _]) and maps point to them,
    as the Go maps hold pointers.  Messages, metric calls and started goroutines
    are events, in order.  A channel that may be closed twice by mistake counts
    its closes.  An operation that blocks returns [None] or its old position, and
    a method is split where another goroutine can come in between.  Callbacks of
    the user, dial outcomes, the growth of append and the outcome of a select are
    arguments, so that theorems hold for all of them.  Integers that can overflow
    are wrapped to 64 (or 32) bits; a context's deadline is in nanoseconds from
    its creation.

    Two places take several atomic operations of the source as one step: a
    refused request's increment of the in-flight counter, the test and its undoing
    ([serveNewRequest]; the counter is above the limit in between), and the
    counter, map and wait group of a connection taken in or ended ([acceptConn],
    [connDone]).  [ServerConn] runs one connection without others in between; a
    panic of a hook or of the read loop is an argument there.

    ** What is proved

    - Flow control ([FlowControl]): no overflow, no loss, no reordering, no
      deadlock, for both roles and every window; the pump refines a bounded FIFO
      queue and drains on Close ([Pump]).
    - Sessions ([HashChain], [Server], [ClientReconnect]): exactly the links that
      hash forward within the window resume a session, under the same principal
      only; sessions never change hands; client and server recover from lost
      handshakes within the window.
    - Requests ([Request], [ServingProps], [ClientCalls], [ClientProps]): answered
      once, closed once, reported once; a frame touches its own request only; ids
      are never reused; a reconnect fails or replays each request exactly once.
    - Accounting ([ServingSystem], [ClientProps], [Server]): in-flight counters,
      stream counters, gauges and connection caps in every interleaving.
    - The wire ([Framing], [MsgConn], [Protocol], [Verify], [Metadata]): round
      trips, torn and oversized frames, what a framed stream delivers whatever its
      writes and closes do, argument checking against its specification.
    - Policies ([Resilience], [RateLimit]): the breaker's probe counter
      is accounted for in every interleaving and never sticks while probes report,
      the retry loop terminates with justified attempts, nested timeouts
      only tighten.
    - Transports ([MemTransport], [WebSocket], [Transport], [Quic],
      [QuicStreams]): the in-memory rendezvous in every interleaving; the stream table of a QUIC connection in every interleaving;
      finished requests leave no stream behind; handlers and connections of a
      listener are released; the same address connects.
    - Connections ([ServerConn], [ClientConn], [Sender]): a refused peer reaches
      nothing, requests are served in order, and the queues of both sides keep their order when connections are replaced.
    - The server's own streams ([ReverseStreams]): opening one is all or nothing.
    - Composition ([EndToEnd], [Typed]): one remote call, over any link, is the
      local application of the registered handler behind the server's checks.
    - Streams ([StreamLink], [Streams]): for get streams, put streams and chats,
      opened by either side, the code of both sides simulates the abstract flow of
      [FlowControl]; so in every interleaving the consumer receives exactly what
      the producer handed over, in order, within the window, sees the end only
      after everything, and any continuation can be completed.  A reconnect, a
      cancellation and, for a chat, the end of the other direction take an end out
      of operation and are treated in [Orphans], [ServingProps] and [ClientProps].
      The start of streamOut is not tied to the acknowledgement there.
    - Many streams ([StreamIsolation], [ClientIsolation], [Multiplex]): work for
      other requests leaves a stream's objects, registrations and ends as they
      were; and for get and put streams over one connection, opened, accepted,
      refused and run in any interleaving, each running stream keeps the
      guarantees of a single one and can be completed by steps of the whole
      system, which handle the frames of the others on the way.
    - Observation and admission ([Metrics], [ServerHooks]): the gauges are
      functions of the state; who attaches to a session presented its principal's
      credential; the authorizers of the examples let in exactly the peers whose
      connection has the identity they ask for.
    - Applications ([Examples]): every value of examples/streaming's count arrives
      and its sum is right, with other streams on the connection; the codecs of
      examples/typed survive the wire; the relay of examples/peer stamps the
      authenticated sender.

    Some theorems state behaviour that contradicts a comment or is unintended:
    [HashChain.current_link_replay_accepted], [Verify.optional_arg_rejects_wire_nil],
    [optional_params_reject_nil], [EndToEnd.large_sla_wraps],
    [FlowControl.nonpositive_window_stalls], [Credit.credit_overflow_stalls],
    [Framing.oversized_payload_desyncs], [ServingSystem.stream_limit_race],
    [duplicate_stream_id_leaks], [put_stream_end_unreported],
    [unary_panic_unanswered], [Resilience.lost_probe_blocks_forever],
    [half_open_closes_on_first_success], [late_success_admits_extra_probe], [ClientCalls.close_strands_requests],
    [QuicStreams.put_stream_credit_lost], [late_cancel_leaks], [late_credit_leaks],
    [reverse_request_refused], [Transport.unixpacket_mismatch],
    [nonpositive_limit_is_unlimited], [Orphans.reconnect_orphans_streams],
    [RateLimit.infinite_rate_blocks], [Streams.null_values_starve].

    ** Fuel and bounds

    [Resilience.Retry] gives its loop max(1, maxAttempts) iterations, which
    [retry_bounded_and_justified] shows to be enough; [VerifyHashStep] runs the
    source's window of iterations; [Pump.pump_close_drains] bounds the steps of a
    closing pump.  Everything else is structural.

    ** Not modelled

    What the operating system and the libraries do: sockets, TLS and QUIC
    handshakes, WebSocket framing and HTTP enter as the outcomes of the calls the
    code makes.  Logging, the interface declarations (api.go: their methods are
    the definitions of the client and the server), the main programs of the
    examples, which call the library and print, and their certificate generation.
    The in-memory transport's and the QUIC connection's clocks are arguments (a
    deadline either fired or not).

    [Multiplex] covers get and put streams the client opens; a chat is two
    directions over one pair of objects, and chats and the server's own streams
    are treated one at a time in [Streams], where the other streams enter through
    [StreamIsolation] and [ClientIsolation].  A reconnect ends the system of
    [Multiplex]; what it leaves is in [ClientReconnect] and [Orphans].  The
    conversions between strings and runes in examples/first are left out. *)

From stdpp Require Export prelude gmap strings list pretty.
From Stdlib Require Export Ascii ZArith Lia.
#[export] Set Default Goal Selector "!".

(** ** Scopes, hint databases and tactics of the development *)

Declare Scope vrpc_scope.
Delimit Scope vrpc_scope with vrpc.
Open Scope Z_scope.

(** [vrpc] holds the lemmas that close routine side conditions, [vrpc_rw] the
    rewriting rules every component shares. *)
Create HintDb vrpc.
Create Rewrite HintDb vrpc_rw.

(** Case analysis on the innermost [match]/[if] scrutinee, remembering it. *)
Ltac break_match :=
  match goal with
  | |- context [match ?x with _ => _ end] =>
      lazymatch x with
      | context [match _ with _ => _ end] => fail
      | _ => let E := fresh "E" in destruct x eqn:E
      end
  end.

Ltac break_match_in H :=
  match type of H with
  | context [match ?x with _ => _ end] =>
      lazymatch x with
      | context [match _ with _ => _ end] => fail
      | _ => let E := fresh "E" in destruct x eqn:E
      end
  end.

(** Rewrite everywhere with the hypothesis that gives the value of [x]. *)
Ltac subst_eq x :=
  match goal with
  | E : x = _ |- _ =>
      rewrite ?E;
      repeat match goal with
             | H : context [x] |- _ =>
                 lazymatch type of H with x = _ => fail | _ => rewrite E in H end
             end
  end.

(** Turn boolean comparisons on [Z] and [bool] in the context into [Prop]. *)
Ltac bool_to_prop :=
  repeat match goal with
  | H : (_ && _) = true |- _ => apply andb_prop in H; destruct H
  | H : (_ || _) = false |- _ => apply orb_false_elim in H; destruct H
  | H : negb _ = true |- _ => apply negb_true_iff in H
  | H : negb _ = false |- _ => apply negb_false_iff in H
  | H : (_ <=? _) = true |- _ => apply Z.leb_le in H
  | H : (_ <=? _) = false |- _ => apply Z.leb_gt in H
  | H : (_ <? _) = true |- _ => apply Z.ltb_lt in H
  | H : (_ <? _) = false |- _ => apply Z.ltb_ge in H
  | H : (_ =? _) = true |- _ => apply Z.eqb_eq in H
  | H : (_ =? _) = false |- _ => apply Z.eqb_neq in H
  | H : (_ >? _) = _ |- _ => rewrite Z.gtb_ltb in H
  | H : (_ >=? _) = _ |- _ => rewrite Z.geb_leb in H
  | H : bool_decide _ = true |- _ => apply bool_decide_eq_true in H
  | H : bool_decide _ = false |- _ => apply bool_decide_eq_false in H
  end.

(** Closes the arithmetic that is left after case analysis. *)
Ltac crush_arith := bool_to_prop; cbn in *; lia.

(** ** Machine integers

    Go's [int], [int64] (and [time.Duration]) are 64-bit two's complement on the
    platforms the code targets; [int32] and [uint32] appear in the error code
    and in the frame header. *)

Definition two63 : Z := 9223372036854775808.
Definition two64 : Z := 18446744073709551616.
Definition two32 : Z := 4294967296.

Definition wrap64 (z : Z) : Z := (z + two63) mod two64 - two63.
Definition wrap32 (z : Z) : Z := (z + 2147483648) mod two32 - 2147483648.
Definition wrapu32 (z : Z) : Z := z mod two32.

Definition in_int64 (z : Z) : Prop := - two63 <= z < two63.
Definition in_int32 (z : Z) : Prop := - 2147483648 <= z < 2147483648.

Lemma wrap64_id z : in_int64 z -> wrap64 z = z.
Proof. unfold wrap64, in_int64, two63, two64; intros; rewrite Z.mod_small; lia. Qed.

Lemma wrap64_range z : in_int64 (wrap64 z).
Proof.
  unfold wrap64, in_int64.
  pose proof (Z.mod_pos_bound (z + two63) two64 ltac:(reflexivity)).
  unfold two63, two64 in *; lia.
Qed.

Lemma wrap32_id z : in_int32 z -> wrap32 z = z.
Proof. unfold wrap32, in_int32, two32; intros; rewrite Z.mod_small; lia. Qed.

Lemma wrapu32_id z : 0 <= z < two32 -> wrapu32 z = z.
Proof. apply Z.mod_small. Qed.

Lemma wrap64_add a b : wrap64 (wrap64 a + b) = wrap64 (a + b).
Proof.
  unfold wrap64. f_equal. replace ((a + two63) mod two64 - two63 + b + two63) with ((a + two63) mod two64 + b) by lia.
  rewrite Zplus_mod_idemp_l. f_equal. lia.
Qed.

#[export] Hint Resolve wrap64_id wrap32_id wrapu32_id wrap64_range : vrpc.
#[export] Hint Extern 3 (in_int64 _) => unfold in_int64, two63 in *; lia : vrpc.

(** ** Effectful code: state passing with an output trace

    A Go method that mutates its receiver and emits messages, metric events or
    context cancellations is a function from the state to a result, the new
    state and the events it emitted, in order. *)

Definition M (S E A : Type) : Type := S -> A * S * list E.

#[export] Instance M_ret {S E} : MRet (M S E) := fun _ a s => (a, s, []).
#[export] Instance M_bind {S E} : MBind (M S E) := fun _ _ k m s =>
  let '(a, s1, o1) := m s in
  let '(b, s2, o2) := k a s1 in (b, s2, o1 ++ o2).

Section monad_ops.
Context {S E : Type}.
Definition gets {A} (f : S -> A) : M S E A := fun s => (f s, s, []).
Definition modify (f : S -> S) : M S E unit := fun s => (tt, f s, []).
Definition emit (e : E) : M S E unit := fun s => (tt, s, [e]).
Definition when (b : bool) (m : M S E unit) : M S E unit :=
  if b then m else mret tt.
Definition m_res {A} (r : A * S * list E) : A := r.1.1.
Definition m_st {A} (r : A * S * list E) : S := r.1.2.
Definition m_out {A} (r : A * S * list E) : list E := r.2.
End monad_ops.

(** The parts of a known outcome. *)
Lemma m_res_eq {S E A} (a : A) (s : S) (o : list E) : m_res (a, s, o) = a.
Proof. done. Qed.
Lemma m_outcome {S E A} (r : A * S * list E) a : m_res r = a -> r = (a, m_st r, m_out r).
Proof. intros <-. by destruct r as [[??]?]. Qed.
Lemma m_st_eq {S E A} (a : A) (s : S) (o : list E) : m_st (a, s, o) = s.
Proof. done. Qed.
Lemma m_out_eq {S E A} (a : A) (s : S) (o : list E) : m_out (a, s, o) = o.
Proof. done. Qed.

(** Monad laws, up to pointwise equality of computations. *)
Lemma M_left_id {S E A B} (a : A) (k : A -> M S E B) s :
  (mret a ≫= k) s = k a s.
Proof. unfold mbind, M_bind, mret, M_ret. by destruct (k a s) as [[??]?]. Qed.

Lemma M_assoc {S E A B C} (m : M S E A) (k : A -> M S E B) (h : B -> M S E C) s :
  ((m ≫= k) ≫= h) s = (m ≫= (fun a => k a ≫= h)) s.
Proof.
  unfold mbind, M_bind. destruct (m s) as [[a s1] o1].
  destruct (k a s1) as [[b s2] o2]. destruct (h b s2) as [[c s3] o3].
  by rewrite app_assoc.
Qed.

(** Reading the state first, and mapping the result last. *)
Lemma M_gets_bind {S E A B} (f : S -> A) (k : A -> M S E B) s :
  (gets f ≫= k) s = k (f s) s.
Proof. unfold mbind, M_bind, gets. by destruct (k (f s) s) as [[??]?]. Qed.

Lemma M_modify_bind {S E B} (f : S -> S) (k : unit -> M S E B) s :
  (modify f ≫= k) s = k tt (f s).
Proof. unfold mbind, M_bind, modify. by destruct (k tt (f s)) as [[??]?]. Qed.

(** Running the first computation, when its outcome is known. *)
Lemma M_run_bind {S E A B} (m : M S E A) (k : A -> M S E B) s a s1 o1 :
  m s = (a, s1, o1) -> (m ≫= k) s = (m_res (k a s1), m_st (k a s1), o1 ++ m_out (k a s1)).
Proof. intros Hm. unfold mbind, M_bind. rewrite Hm. by destruct (k a s1) as [[??]?]. Qed.

Lemma M_bind_res {S E A B} (m : M S E A) (k : A -> M S E B) s :
  m_res ((m ≫= k) s) = m_res (k (m_res (m s)) (m_st (m s))).
Proof.
  unfold mbind, M_bind, m_res, m_st. destruct (m s) as [[a s1] o1]. cbn. by destruct (k a s1) as [[??]?].
Qed.
Lemma M_bind_st {S E A B} (m : M S E A) (k : A -> M S E B) s :
  m_st ((m ≫= k) s) = m_st (k (m_res (m s)) (m_st (m s))).
Proof.
  unfold mbind, M_bind, m_res, m_st. destruct (m s) as [[a s1] o1]. cbn. by destruct (k a s1) as [[??]?].
Qed.

Lemma M_bind_out {S E A B} (m : M S E A) (k : A -> M S E B) s :
  m_out ((m ≫= k) s) = m_out (m s) ++ m_out (k (m_res (m s)) (m_st (m s))).
Proof.
  unfold mbind, M_bind, m_res, m_st, m_out. destruct (m s) as [[a s1] o1]. cbn. by destruct (k a s1) as [[??]?].
Qed.

Lemma M_bind_ret {S E A B} (m : M S E A) (g : A -> B) s :
  (m ≫= fun a => mret (g a)) s = (g (m_res (m s)), m_st (m s), m_out (m s)).
Proof.
  unfold mbind, M_bind, mret, M_ret, m_res, m_st, m_out.
  destruct (m s) as [[a s1] o1]. cbn. by rewrite app_nil_r.
Qed.

(** Invariants over the state and everything emitted so far: [keeps P m] says
    that running [m] from any state and history that satisfy [P] ends in one that
    does.  The rules below follow the structure of [m]. *)
Section keeps.
Context {S E : Type}.
Implicit Type P : S -> list E -> Prop.
Definition keeps {A} (P : S -> list E -> Prop) (m : M S E A) : Prop :=
  forall s o, P s o -> P (m_st (m s)) (o ++ m_out (m s)).
Lemma keeps_ret {A} P (a : A) : keeps P (mret a).
Proof. intros s o HP. unfold m_st, m_out. cbn. by rewrite app_nil_r. Qed.
Lemma keeps_bind {A B} P (m : M S E A) (k : A -> M S E B) :
  keeps P m -> (forall a, keeps P (k a)) -> keeps P (m ≫= k).
Proof.
  intros Hm Hk s o HP. specialize (Hm s o HP). unfold mbind, M_bind, m_st, m_out in *.
  destruct (m s) as [[a s1] o1]. specialize (Hk a s1 (o ++ o1) Hm). unfold m_st, m_out in Hk.
  destruct (k a s1) as [[b s2] o2]. cbn in *. by rewrite app_assoc.
Qed.
Lemma keeps_gets {A} P (f : S -> A) : keeps P (gets f).
Proof. intros s o HP. unfold m_st, m_out. cbn. by rewrite app_nil_r. Qed.
Lemma keeps_modify P f : (forall s o, P s o -> P (f s) o) -> keeps P (modify f).
Proof. intros Hf s o HP. unfold m_st, m_out. cbn. rewrite app_nil_r. auto. Qed.
Lemma keeps_emit P e : (forall s o, P s o -> P s (o ++ [e])) -> keeps P (emit e).
Proof. intros Hf s o HP. unfold m_st, m_out. cbn. auto. Qed.
Lemma keeps_when P b m : (b = true -> keeps P m) -> keeps P (when b m).
Proof. destruct b; cbn; intros; [auto | apply keeps_ret]. Qed.
Lemma keeps_let {A B} P (x : A) (k : A -> M S E B) : (forall a, keeps P (k a)) -> keeps P (k x).
Proof. auto. Qed.

Lemma keeps_assoc {A B C} P (m : M S E A) (k : A -> M S E B) (h : B -> M S E C) :
  keeps P (m ≫= fun a => k a ≫= h) -> keeps P ((m ≫= k) ≫= h).
Proof. intros Hk s o HP. rewrite M_assoc. by apply Hk. Qed.
Lemma keeps_and {A} P Q (m : M S E A) :
  keeps P m -> keeps Q m -> keeps (fun s o => P s o /\ Q s o) m.
Proof. intros HP HQ s o []. split; [by apply HP|by apply HQ]. Qed.
Lemma keeps_void {A} P (m : M S E A) : keeps P (m ≫= fun _ => mret tt) -> keeps P m.
Proof.
  intros Hm s o HP. specialize (Hm s o HP). revert Hm. unfold mbind, M_bind, mret, M_ret, m_st, m_out.
  destruct (m s) as [[a s1] o1]. cbn. by rewrite app_nil_r.
Qed.

(** Operations run one after the other. *)
Fixpoint seqM (l : list (M S E unit)) : M S E unit :=
  match l with
  | [] => mret tt
  | m :: l' => m ≫= fun _ => seqM l'
  end.
Lemma seqM_app l1 l2 s : seqM (l1 ++ l2) s = (seqM l1 ≫= fun _ => seqM l2) s.
Proof.
  revert s. induction l1 as [|m l1 IH]; intros s; cbn [seqM app]; [by rewrite M_left_id|].
  rewrite M_assoc. unfold mbind, M_bind. destruct (m s) as [[a s1] o1]. by rewrite IH.
Qed.
Lemma keeps_seqM P l : Forall (keeps P) l -> keeps P (seqM l).
Proof. induction 1; cbn; [apply keeps_ret | apply keeps_bind; auto]. Qed.
Lemma keeps_run {A} P (m : M S E A) s :
  keeps P m -> P s [] -> P (m_st (m s)) (m_out (m s)).
Proof. intros Hm HP. apply (Hm s [] HP). Qed.
End keeps.
#[export] Hint Resolve keeps_ret keeps_gets : vrpc.

(** Splits a computation into its primitive actions. *)
Ltac keeps_step :=
  lazymatch goal with
  | |- keeps _ (mret _) => apply keeps_ret
  | |- keeps _ (gets _) => apply keeps_gets
  | |- keeps _ (mbind _ _) => apply keeps_bind; [|intros ?]
  | |- keeps _ (when _ _) => apply keeps_when; intros ?
  | |- keeps _ (match ?x with _ => _ end) => destruct x eqn:?
  end.
Ltac keeps_split := repeat keeps_step.

(** Unfold the plumbing of [M] without touching the model's definitions. *)
Ltac unM := unfold mbind, M_bind, mret, M_ret, gets, modify, emit, when, m_res, m_st, m_out in *; cbn in *.

(** ** Reachability and invariants of step relations *)

Section reachability.
Context {S : Type} (step : S -> S -> Prop).
Inductive reach (s0 : S) : S -> Prop :=
| reach_here : reach s0 s0
| reach_next s1 s2 : reach s0 s1 -> step s1 s2 -> reach s0 s2.
(** Rule induction: what holds at the start and is preserved by every step
    holds in every reachable state. *)
Lemma reach_inv (P : S -> Prop) s0 s :
  P s0 -> (forall a b, P a -> step a b -> P b) -> reach s0 s -> P s.
Proof. intros H0 Hstep; induction 1; eauto. Qed.
Lemma reach_trans s0 s1 s2 : reach s0 s1 -> reach s1 s2 -> reach s0 s2.
Proof. intros ? H. induction H; eauto using reach. Qed.
End reachability.
#[export] Hint Constructors reach : vrpc.

(** ** Lists *)

Lemma list_snoc_cases {A} (l : list A) : l = [] \/ exists l' x, l = l' ++ [x].
Proof. induction l as [|x l _] using rev_ind; eauto. Qed.

Lemma firstn_app_exact {A} (l1 l2 : list A) n : length l1 = n -> take n (l1 ++ l2) = l1.
Proof. intros <-. by rewrite take_app_length. Qed.

Lemma skipn_app_exact {A} (l1 l2 : list A) n : length l1 = n -> drop n (l1 ++ l2) = l2.
Proof. intros <-. by rewrite drop_app_length. Qed.

(** Iterated application, with the step taken first: [iter_fun f (S n) x] is
    [iter_fun f n (f x)], the order a loop applies it in. *)
Fixpoint iter_fun {A} (f : A -> A) (n : nat) (x : A) : A :=
  match n with O => x | S n' => iter_fun f n' (f x) end.

Lemma iter_fun_add {A} (f : A -> A) n m x :
  iter_fun f (n + m) x = iter_fun f m (iter_fun f n x).
Proof. revert x; induction n; cbn; auto. Qed.

Lemma iter_fun_S {A} (f : A -> A) n x : iter_fun f (S n) x = f (iter_fun f n x).
Proof. replace (S n) with (n + 1)%nat by lia. by rewrite iter_fun_add. Qed.

(** ** Bytes and strings

    A Go string is a byte sequence; [ascii] is the 8-bit byte type. *)

Abbreviation byte := ascii (only parsing).

Definition Z_of_byte (b : ascii) : Z := Z.of_N (N_of_ascii b).
Definition byte_of_Z (z : Z) : ascii := ascii_of_N (Z.to_N (z mod 256)).

Lemma Z_of_byte_range b : 0 <= Z_of_byte b < 256.
Proof. unfold Z_of_byte. pose proof (N_ascii_bounded b). lia. Qed.

Lemma byte_of_Z_of_byte b : byte_of_Z (Z_of_byte b) = b.
Proof.
  unfold byte_of_Z. rewrite Z.mod_small by apply Z_of_byte_range.
  unfold Z_of_byte. by rewrite N2Z.id, ascii_N_embedding.
Qed.

Lemma Z_of_byte_of_Z z : Z_of_byte (byte_of_Z z) = z mod 256.
Proof.
  unfold Z_of_byte, byte_of_Z.
  pose proof (Z.mod_pos_bound z 256 ltac:(lia)).
  rewrite N_ascii_embedding by lia. lia.
Qed.

Definition bytes_of_string : string -> list ascii := String.list_ascii_of_string.
Definition string_of_bytes : list ascii -> string := String.string_of_list_ascii.

Lemma string_of_bytes_of_string s : string_of_bytes (bytes_of_string s) = s.
Proof. apply String.string_of_list_ascii_of_string. Qed.

Lemma bytes_of_string_of_bytes b : bytes_of_string (string_of_bytes b) = b.
Proof. apply String.list_ascii_of_string_of_list_ascii. Qed.

#[export] Hint Rewrite Z_of_byte_of_Z byte_of_Z_of_byte
  string_of_bytes_of_string bytes_of_string_of_bytes : vrpc_rw.
