(* ===== verification/Value.v ===== *)
(** * The dynamic value library

    Every message of value-rpc is a [value.Map] of the package
    [go.arpabet.com/value], which is not part of this repository.  It is
    therefore an interface here: [ValueLib] lists the operations the repository
    calls and, as laws, the behaviour its own documentation relies on
    (FINDINGS.md, "Root-cause theme": [Map.Get] of an absent key is the
    [value.Null] sentinel and never a Go [nil], accessors are typed by [Kind],
    and [Pack]/[Unpack] carry a map across the wire).

    A Go [value.Value] that may be [nil] is an [option Value]. *)

From S2P Require Import Prelude.
From Stdlib Require Import SpecFloat.

(** IEEE-754 binary64, Go's [float64]. *)
Abbreviation float64 := spec_float.
Definition f64_gtb (x y : float64) : bool := SFltb y x.

Class ValueLib := {
  (** Kinds used by the repository; the library may have others. *)
  Kind : Type;
  Kind_eq_dec :: EqDecision Kind;
  NULL : Kind;
  BOOL : Kind;
  NUMBER : Kind;
  STRING : Kind;
  LIST : Kind;
  MAP : Kind;
  kinds_distinct : NoDup [NULL; BOOL; NUMBER; STRING; LIST; MAP];

  (** A non-nil [value.Value]; [value.Number], [value.String], [value.List] are
      values of that kind. *)
  Value : Type;
  kindOf : Value -> Kind;

  (** [value.Null] and the comparison [v == value.Null]. *)
  Null : Value;
  isNull : Value -> bool;
  isNull_spec v : isNull v = true <-> v = Null;
  kind_Null : kindOf Null = NULL;

  (** Numbers: constructors and [Number.Long()], [Number.Double()]. *)
  Long : Z -> Value;
  Double : float64 -> Value;
  longOf : Value -> Z;
  doubleOf : Value -> float64;
  kind_Long n : kindOf (Long n) = NUMBER;
  kind_Double f : kindOf (Double f) = NUMBER;
  longOf_Long n : in_int64 n -> longOf (Long n) = n;
  longOf_range v : in_int64 (longOf v);
  doubleOf_Double f : doubleOf (Double f) = f;

  (** Strings. *)
  Utf8 : string -> Value;
  stringOf : Value -> string;
  kind_Utf8 s : kindOf (Utf8 s) = STRING;
  stringOf_Utf8 s : stringOf (Utf8 s) = s;

  (** Lists: [Len] and [GetAt]. *)
  listLen : Value -> nat;
  listGetAt : Value -> nat -> option Value;

  (** Maps. *)
  VMap : Type;
  MapV : VMap -> Value;
  mapOf : Value -> VMap;
  kind_MapV m : kindOf (MapV m) = MAP;
  mapOf_MapV m : mapOf (MapV m) = m;
  EmptyMap : VMap;
  Put : VMap -> string -> option Value -> VMap;
  Get : VMap -> string -> option Value;
  mapLen : VMap -> nat;
  Get_Empty k : Get EmptyMap k = Some Null;
  Get_Put_eq m k v : Get (Put m k (Some v)) k = Some v;
  Get_Put_nil m k : Get (Put m k None) k = Some Null;
  Get_Put_ne m k k' ov : k <> k' -> Get (Put m k ov) k' = Get m k';

  (** [Map.GetString(k)]: the string at [k], [value.EmptyString] when absent. *)
  GetString : VMap -> string -> Value;
  GetString_present m k v : Get m k = Some v -> kindOf v = STRING -> GetString m k = v;
  GetString_absent m k : Get m k = Some Null -> stringOf (GetString m k) = "";

  (** [value.ImmutableMapOf] and [Map.HashMap]. *)
  ImmutableMapOf : gmap string Value -> VMap;
  HashMap : VMap -> gmap string Value;
  HashMap_ImmutableMapOf g : HashMap (ImmutableMapOf g) = g;

  (** The wire form: MessagePack bytes; [None] is an error. *)
  Pack : VMap -> option (list ascii);
  Unpack : list ascii -> option Value;
  Unpack_Pack m b : Pack m = Some b ->
    exists m', Unpack b = Some (MapV m') /\ forall k, Get m' k = Get m k;

  (** Rendering, used in diagnostics only. *)
  mapString : VMap -> string;
  Jsonify : option Value -> string
}.

#[export] Hint Rewrite @kind_Null @kind_Long @kind_Double @doubleOf_Double
  @kind_Utf8 @stringOf_Utf8 @kind_MapV @mapOf_MapV @Get_Empty @Get_Put_eq
  @Get_Put_nil @HashMap_ImmutableMapOf : vrpc_rw.
#[export] Hint Resolve longOf_range : vrpc.

Section kinds.
Context `{ValueLib}.
Lemma kind_ne (i j : nat) (a b : Kind) :
  [NULL; BOOL; NUMBER; STRING; LIST; MAP] !! i = Some a ->
  [NULL; BOOL; NUMBER; STRING; LIST; MAP] !! j = Some b ->
  i <> j -> a <> b.
Proof.
  intros Hi Hj Hne ->. apply Hne.
  eapply NoDup_lookup; [apply kinds_distinct | exact Hi | exact Hj].
Qed.
Lemma NUMBER_ne_NULL : NUMBER <> NULL.
Proof. by apply (kind_ne 2 0). Qed.
Lemma STRING_ne_NULL : STRING <> NULL.
Proof. by apply (kind_ne 3 0). Qed.
Lemma MAP_ne_NULL : MAP <> NULL.
Proof. by apply (kind_ne 5 0). Qed.
Lemma LIST_ne_NULL : LIST <> NULL.
Proof. by apply (kind_ne 4 0). Qed.
Lemma LIST_ne_MAP : LIST <> MAP.
Proof. by apply (kind_ne 4 5). Qed.
Lemma STRING_ne_NUMBER : STRING <> NUMBER.
Proof. by apply (kind_ne 3 2). Qed.
Lemma MAP_ne_STRING : MAP <> STRING.
Proof. by apply (kind_ne 5 3). Qed.
Lemma MAP_ne_NUMBER : MAP <> NUMBER.
Proof. by apply (kind_ne 5 2). Qed.
Lemma isNull_Null : isNull Null = true.
Proof. by apply isNull_spec. Qed.
Lemma isNull_kind v : kindOf v <> NULL -> isNull v = false.
Proof.
  intros Hk. destruct (isNull v) eqn:E; [|done].
  apply isNull_spec in E as ->. by rewrite kind_Null in Hk.
Qed.
(** Maps are compared by what [Get] observes: that is all the wire keeps. *)
#[export] Instance VMap_equiv : Equiv VMap := fun m1 m2 => forall k, Get m1 k = Get m2 k.
#[export] Instance VMap_equivalence : Equivalence (≡@{VMap}).
Proof.
  split.
  - by intros m k.
  - by intros m1 m2 E k.
  - by intros m1 m2 m3 E1 E2 k; rewrite (E1 k).
Qed.
#[export] Instance Get_proper : Proper ((≡) ==> (=) ==> (=)) Get.
Proof. by intros m1 m2 E k ? <-. Qed.
#[export] Instance Put_proper : Proper ((≡) ==> (=) ==> (=) ==> (≡)) Put.
Proof.
  intros m1 m2 E k ? <- ov ? <- k'.
  destruct (decide (k = k')) as [<-|Hne].
  - destruct ov; by rewrite ?Get_Put_eq, ?Get_Put_nil.
  - by rewrite !Get_Put_ne.
Qed.
(** ** GetNumberField and GetStringField (valuerpc/protocol.go)
    Presence-checked accessors: the raw [Map.GetNumber] cannot distinguish an
    absent field from a zero. *)
Definition GetNumberField (m : VMap) (field : string) : option Value :=
  match Get m field with
  | None => None
  | Some v => if decide (kindOf v = NUMBER) then Some v else None
  end.
Definition GetStringField (m : VMap) (field : string) : option Value :=
  match Get m field with
  | None => None
  | Some v => if decide (kindOf v = STRING) then Some v else None
  end.
#[export] Instance GetNumberField_proper : Proper ((≡) ==> (=) ==> (=)) GetNumberField.
Proof. intros m1 m2 E k ? <-. unfold GetNumberField. by rewrite (E k). Qed.
#[export] Instance GetStringField_proper : Proper ((≡) ==> (=) ==> (=)) GetStringField.
Proof. intros m1 m2 E k ? <-. unfold GetStringField. by rewrite (E k). Qed.
Lemma GetNumberField_Empty k : GetNumberField EmptyMap k = None.
Proof.
  unfold GetNumberField. rewrite Get_Empty, decide_False; [done|].
  rewrite kind_Null. apply not_eq_sym, NUMBER_ne_NULL.
Qed.
Lemma GetStringField_Empty k : GetStringField EmptyMap k = None.
Proof.
  unfold GetStringField. rewrite Get_Empty, decide_False; [done|].
  rewrite kind_Null. apply not_eq_sym, STRING_ne_NULL.
Qed.
Lemma GetNumberField_Put_eq m k v :
  kindOf v = NUMBER -> GetNumberField (Put m k (Some v)) k = Some v.
Proof. intros Hk. unfold GetNumberField. by rewrite Get_Put_eq, decide_True. Qed.
Lemma GetStringField_Put_eq m k v :
  kindOf v = STRING -> GetStringField (Put m k (Some v)) k = Some v.
Proof. intros Hk. unfold GetStringField. by rewrite Get_Put_eq, decide_True. Qed.
Lemma GetNumberField_Put_ne m k k' ov :
  k <> k' -> GetNumberField (Put m k ov) k' = GetNumberField m k'.
Proof. intros Hne. unfold GetNumberField. by rewrite Get_Put_ne. Qed.
Lemma GetStringField_Put_ne m k k' ov :
  k <> k' -> GetStringField (Put m k ov) k' = GetStringField m k'.
Proof. intros Hne. unfold GetStringField. by rewrite Get_Put_ne. Qed.
Lemma GetNumberField_kind m k v : GetNumberField m k = Some v -> kindOf v = NUMBER.
Proof. unfold GetNumberField. repeat case_match; naive_solver. Qed.
Lemma GetStringField_kind m k v : GetStringField m k = Some v -> kindOf v = STRING.
Proof. unfold GetStringField. repeat case_match; naive_solver. Qed.
End kinds.

#[export] Hint Rewrite @GetNumberField_Empty @GetStringField_Empty @isNull_Null : vrpc_rw.
#[export] Hint Resolve NUMBER_ne_NULL STRING_ne_NULL MAP_ne_NULL LIST_ne_NULL LIST_ne_MAP
  STRING_ne_NUMBER MAP_ne_STRING MAP_ne_NUMBER not_eq_sym : vrpc.

(** Replace a map by an equivalent one in every field access. *)
Ltac equiv_rw E :=
  rewrite ?(GetNumberField_proper _ _ E _ _ eq_refl),
          ?(GetStringField_proper _ _ E _ _ eq_refl), ?(E _).

(** Closes [kindOf v <> K] from a hypothesis giving the kind of [v]. *)
Ltac kind_ne :=
  match goal with
  | E : kindOf ?v = _ |- kindOf ?v <> _ => rewrite E; auto with vrpc
  end.
