(* ===== verification/RefValue.v ===== *)
(** * A concrete value library

    An executable instance of [ValueLib], so that every hypothesis about the
    external library is known to be satisfiable and the witnesses of the
    development can be evaluated.  Maps are association lists, newest binding
    first; the wire form is a self-delimiting binary code. *)

From S2P Require Import Prelude Value.
From Stdlib Require Import SpecFloat.
From stdpp Require Import countable.

Inductive rkind := KNull | KBool | KNumber | KString | KList | KMap.

#[export] Instance rkind_eq_dec : EqDecision rkind.
Proof. solve_decision. Defined.

Inductive rval :=
| RNull
| RBool (b : bool)
| RLong (z : Z)
| RDouble (f : float64)
| RString (s : string)
| RListNil
| RListCons (v rest : rval)
| RMapNil
| RMapCons (k : string) (v rest : rval).

Definition rkindOf (v : rval) : rkind :=
  match v with
  | RNull => KNull
  | RBool _ => KBool
  | RLong _ | RDouble _ => KNumber
  | RString _ => KString
  | RListNil | RListCons _ _ => KList
  | RMapNil | RMapCons _ _ _ => KMap
  end.

Definition risNull (v : rval) : bool := match v with RNull => true | _ => false end.
Definition rlongOf (v : rval) : Z := match v with RLong z => wrap64 z | _ => 0 end.
Definition rdoubleOf (v : rval) : float64 :=
  match v with RDouble f => f | _ => S754_nan end.
Definition rstringOf (v : rval) : string := match v with RString s => s | _ => "" end.

Fixpoint rlistLen (v : rval) : nat :=
  match v with RListCons _ r => S (rlistLen r) | _ => O end.
Fixpoint rlistGetAt (v : rval) (i : nat) : option rval :=
  match v, i with
  | RListCons x _, O => Some x
  | RListCons _ r, S i' => rlistGetAt r i'
  | _, _ => None
  end.

Abbreviation rmap := (list (string * rval)).

Definition rMapV (m : rmap) : rval := foldr (fun kv r => RMapCons kv.1 kv.2 r) RMapNil m.
Fixpoint rmapOf (v : rval) : rmap :=
  match v with RMapCons k x r => (k, x) :: rmapOf r | _ => [] end.

Definition rPut (m : rmap) (k : string) (ov : option rval) : rmap :=
  (k, default RNull ov) :: m.
Fixpoint rGet (m : rmap) (k : string) : option rval :=
  match m with
  | [] => Some RNull
  | (k', v) :: m' => if decide (k' = k) then Some v else rGet m' k
  end.
Definition rGetString (m : rmap) (k : string) : rval :=
  match rGet m k with Some (RString s) => RString s | _ => RString "" end.
Definition rmapLen (m : rmap) : nat := length (remove_dups m.*1).

(** ** The wire code *)

Definition rleaf : Type := (bool + Z) + (string + (bool * positive * Z)).

Definition f64_tree (f : float64) : gen_tree rleaf :=
  match f with
  | S754_zero s => GenNode 0 [GenLeaf (inl (inl s))]
  | S754_infinity s => GenNode 1 [GenLeaf (inl (inl s))]
  | S754_nan => GenNode 2 []
  | S754_finite s m e => GenLeaf (inr (inr (s, m, e)))
  end.
Definition tree_f64 (t : gen_tree rleaf) : float64 :=
  match t with
  | GenNode 0 [GenLeaf (inl (inl s))] => S754_zero s
  | GenNode 1 [GenLeaf (inl (inl s))] => S754_infinity s
  | GenLeaf (inr (inr (s, m, e))) => S754_finite s m e
  | _ => S754_nan
  end.

Fixpoint rtree (v : rval) : gen_tree rleaf :=
  match v with
  | RNull => GenNode 0 []
  | RBool b => GenLeaf (inl (inl b))
  | RLong z => GenLeaf (inl (inr z))
  | RDouble f => GenNode 1 [f64_tree f]
  | RString s => GenLeaf (inr (inl s))
  | RListNil => GenNode 2 []
  | RListCons x r => GenNode 3 [rtree x; rtree r]
  | RMapNil => GenNode 4 []
  | RMapCons k x r => GenNode 5 [GenLeaf (inr (inl k)); rtree x; rtree r]
  end.
Fixpoint treer (t : gen_tree rleaf) : rval :=
  match t with
  | GenLeaf (inl (inl b)) => RBool b
  | GenLeaf (inl (inr z)) => RLong z
  | GenNode 1 [f] => RDouble (tree_f64 f)
  | GenLeaf (inr (inl s)) => RString s
  | GenNode 2 [] => RListNil
  | GenNode 3 [x; r] => RListCons (treer x) (treer r)
  | GenNode 4 [] => RMapNil
  | GenNode 5 [GenLeaf (inr (inl k)); x; r] => RMapCons k (treer x) (treer r)
  | _ => RNull
  end.

Lemma treer_rtree v : treer (rtree v) = v.
Proof.
  induction v as [| | |f| | |? IH1 ? IH2| |? ? IH1 ? IH2]; cbn;
    rewrite ?IH1, ?IH2; try done.
  by destruct f.
Qed.

(** Bits of a positive number, least significant first. *)
Fixpoint bits_of (p : positive) : list ascii :=
  match p with
  | xH => []
  | xO p' => "0"%char :: bits_of p'
  | xI p' => "1"%char :: bits_of p'
  end.
Fixpoint of_bits (l : list ascii) : option positive :=
  match l with
  | [] => Some xH
  | c :: l' =>
      p ← of_bits l';
      if decide (c = "0"%char) then Some (xO p)
      else if decide (c = "1"%char) then Some (xI p) else None
  end.

Lemma of_bits_of p : of_bits (bits_of p) = Some p.
Proof. induction p; cbn; rewrite ?IHp; done. Qed.

Definition rPack (m : rmap) : option (list ascii) :=
  Some (bits_of (encode (rtree (rMapV m)))).
Definition rUnpack (b : list ascii) : option rval :=
  p ← of_bits b; treer <$> decode p.

Lemma rmapOf_rMapV m : rmapOf (rMapV m) = m.
Proof. unfold rMapV. induction m as [|[k v] m IH]; cbn; by rewrite ?IH. Qed.

Lemma rUnpack_rPack m b : rPack m = Some b -> rUnpack b = Some (rMapV m).
Proof.
  unfold rPack, rUnpack. intros [= <-]. rewrite of_bits_of. cbn.
  rewrite decode_encode. cbn. by rewrite treer_rtree.
Qed.

#[program] Definition RefValueLib : ValueLib := {|
  Kind := rkind;
  NULL := KNull; BOOL := KBool; NUMBER := KNumber; STRING := KString;
  LIST := KList; MAP := KMap;
  Value := rval; kindOf := rkindOf;
  Null := RNull; isNull := risNull;
  Long := RLong; Double := RDouble; longOf := rlongOf; doubleOf := rdoubleOf;
  Utf8 := RString; stringOf := rstringOf;
  listLen := rlistLen; listGetAt := rlistGetAt;
  VMap := rmap; MapV := rMapV; mapOf := rmapOf;
  EmptyMap := []; Put := rPut; Get := rGet; mapLen := rmapLen;
  GetString := rGetString;
  ImmutableMapOf := map_to_list; HashMap := list_to_map;
  Pack := rPack; Unpack := rUnpack;
  mapString := fun _ => ""; Jsonify := fun _ => ""
|}.
Next Obligation.
  apply (bool_decide_unpack (NoDup [KNull; KBool; KNumber; KString; KList; KMap])).
  vm_compute. exact I.
Qed.
Next Obligation. intros v; split; [by destruct v | by intros ->]. Qed.
Next Obligation. done. Qed.
Next Obligation. done. Qed.
Next Obligation. done. Qed.
Next Obligation. intros n Hn. by apply wrap64_id. Qed.
Next Obligation.
  intros []; cbn; auto with vrpc.
Qed.
Next Obligation. done. Qed.
Next Obligation. done. Qed.
Next Obligation. done. Qed.
Next Obligation. by intros [|[]]. Qed.
Next Obligation. apply rmapOf_rMapV. Qed.
Next Obligation. done. Qed.
Next Obligation. intros m k v. cbn. by rewrite decide_True. Qed.
Next Obligation. intros m k. cbn. by rewrite decide_True. Qed.
Next Obligation. intros m k k' ov Hne. cbn. by rewrite decide_False. Qed.
Next Obligation. intros m k v E Hk. unfold rGetString. rewrite E. by destruct v. Qed.
Next Obligation. intros m k E. unfold rGetString. by rewrite E. Qed.
Next Obligation. intros g. apply list_to_map_to_list. Qed.
Next Obligation.
  intros m b Hp. exists m. split; [by apply rUnpack_rPack | done].
Qed.

(** Packing never fails in this instance. *)
Lemma RefValueLib_Pack (m : @VMap RefValueLib) :
  @Pack RefValueLib m = Some (bits_of (encode (rtree (rMapV m)))).
Proof. reflexivity. Qed.
