(* ===== verification/Protocol.v ===== *)
(** * The wire protocol: message types, dialects, envelopes, error codes

    Models valuerpc/protocol.go, valuerpc/error.go and the envelope builders of
    valuerpc/peer.go (with their copies in valueserver/serving_client.go).

    A [Dialect] names the fields of the envelope.  The process-wide
    [DefaultDialect] is an argument [d] of every definition that reads it, so
    the theorems hold for any dialect whose field names are pairwise distinct
    ([dialect_ok]); [NewDialect] is one. *)

From S2P Require Import Prelude Value RefValue.
From Stdlib Require Import SpecFloat.

(** ** Message types (MessageType is an int64 numbered by iota) *)

Definition HandshakeRequest : Z := 0.
Definition HandshakeResponse : Z := 1.
Definition FunctionRequest : Z := 2.
Definition FunctionResponse : Z := 3.
Definition GetStreamRequest : Z := 4.
Definition PutStreamRequest : Z := 5.
Definition ChatRequest : Z := 6.
Definition ErrorResponse : Z := 7.
Definition StreamReady : Z := 8.
Definition StreamValue : Z := 9.
Definition StreamEnd : Z := 10.
Definition CancelRequest : Z := 11.
(** 12 and 13 are reserved. *)
Definition StreamCredit : Z := 14.

Definition message_types : list Z :=
  [HandshakeRequest; HandshakeResponse; FunctionRequest; FunctionResponse;
   GetStreamRequest; PutStreamRequest; ChatRequest; ErrorResponse; StreamReady;
   StreamValue; StreamEnd; CancelRequest; StreamCredit].

(** ** Error codes (valuerpc/error.go; Code is an int32) *)

Definition CodeOK : Z := 0.
Definition CodeUnknown : Z := 1.
Definition CodeCanceled : Z := 2.
Definition CodeInvalidArgument : Z := 3.
Definition CodeDeadlineExceeded : Z := 4.
Definition CodeNotFound : Z := 5.
Definition CodeResourceExhausted : Z := 6.
Definition CodeUnavailable : Z := 7.
Definition CodeUnauthenticated : Z := 8.
Definition CodeInternal : Z := 9.

Definition Code_String (c : Z) : string :=
  if c =? CodeOK then "OK"
  else if c =? CodeCanceled then "Canceled"
  else if c =? CodeInvalidArgument then "InvalidArgument"
  else if c =? CodeDeadlineExceeded then "DeadlineExceeded"
  else if c =? CodeNotFound then "NotFound"
  else if c =? CodeResourceExhausted then "ResourceExhausted"
  else if c =? CodeUnavailable then "Unavailable"
  else if c =? CodeUnauthenticated then "Unauthenticated"
  else if c =? CodeInternal then "Internal"
  else "Unknown".

(** Go errors, as far as the code distinguishes them: a coded [valuerpc.Error] pointer,
    the two context sentinels, an opaque error, and an error wrapping another
    one ([xerrors.Errorf] with [%w]). *)
Inductive goerror :=
| ErrRpc (code : Z) (msg : string)
| ErrDeadlineExceeded
| ErrCanceled
| ErrPlain (msg : string)
| ErrWrap (msg : string) (inner : goerror).

#[export] Instance goerror_eq_dec : EqDecision goerror.
Proof. solve_decision. Defined.

(** [err.Error()]; for a coded error, the [Error] method of valuerpc.Error. *)
Fixpoint Error_String (e : goerror) : string :=
  match e with
  | ErrRpc code msg => "vrpc " +:+ Code_String code +:+ ": " +:+ msg
  | ErrDeadlineExceeded => "context deadline exceeded"
  | ErrCanceled => "context canceled"
  | ErrPlain msg => msg
  | ErrWrap msg inner => msg +:+ ": " +:+ Error_String inner
  end.

(** [xerrors.As(err, &e)] for [e] a pointer to Error: the first coded error in the chain. *)
Fixpoint errors_As (e : goerror) : option Z :=
  match e with
  | ErrRpc code _ => Some code
  | ErrWrap _ inner => errors_As inner
  | _ => None
  end.

Definition CodeOf (err : option goerror) : Z :=
  match err with
  | None => CodeOK
  | Some e => match errors_As e with Some c => c | None => CodeUnknown end
  end.

(** valuerpc/peer.go HandlerErrorCode and its copy handlerErrCode in
    valueserver/serving_client.go. *)
Definition HandlerErrorCode (e : goerror) : Z :=
  let code := CodeOf (Some e) in
  if negb (code =? CodeUnknown) then code
  else match e with
       | ErrDeadlineExceeded => CodeDeadlineExceeded
       | ErrCanceled => CodeCanceled
       | _ => CodeInternal
       end.

(** ** Dialects *)

Record Dialect := mkDialect {
  Magic : string;
  Version : float64;
  HandshakeRequestId : Z;
  MessageTypeField : string;
  MagicField : string;
  VersionField : string;
  RequestIdField : string;
  TimeoutField : string;
  ClientIdField : string;
  SessionTokenField : string;
  AuthField : string;
  FunctionNameField : string;
  ArgumentsField : string;
  ResultField : string;
  ErrorField : string;
  CodeField : string;
  CreditField : string;
  MetadataField : string;
  ValueField : string
}.

(** The float64 literal 1.0. *)
Definition f64_one : float64 := S754_finite false 4503599627370496 (-52).

Definition NewDialect : Dialect :=
  mkDialect "vRPC" f64_one 0 "t" "m" "v" "rid" "sla" "cid" "tok" "auth" "fn" "args"
            "res" "err" "code" "cr" "md" "val".

(** The envelope fields of a dialect, and what it takes for two peers to read
    each other's envelopes: no two fields share a name. *)
Definition dialect_fields (d : Dialect) : list string :=
  [MessageTypeField d; MagicField d; VersionField d; RequestIdField d; TimeoutField d;
   ClientIdField d; SessionTokenField d; AuthField d; FunctionNameField d;
   ArgumentsField d; ResultField d; ErrorField d; CodeField d; CreditField d;
   MetadataField d; ValueField d].

Class dialect_ok (d : Dialect) : Prop := {
  dialect_fields_NoDup : NoDup (dialect_fields d);
  dialect_hs_id : in_int64 (HandshakeRequestId d)
}.

#[export] Instance NewDialect_ok : dialect_ok NewDialect.
Proof.
  split; [|unfold in_int64, two63; cbn; lia].
  apply (bool_decide_unpack (NoDup (dialect_fields NewDialect))). vm_compute. exact I.
Qed.

Lemma dialect_field_ne d `{!dialect_ok d} (i j : nat) a b :
  dialect_fields d !! i = Some a -> dialect_fields d !! j = Some b -> i <> j -> a <> b.
Proof.
  intros Hi Hj Hne ->. apply Hne.
  eapply NoDup_lookup; [apply dialect_fields_NoDup | exact Hi | exact Hj].
Qed.

(** Position of a field in [dialect_fields], for [field_ne]. *)
Ltac field_index f :=
  lazymatch f with
  | MessageTypeField _ => constr:(0%nat) | MagicField _ => constr:(1%nat)
  | VersionField _ => constr:(2%nat) | RequestIdField _ => constr:(3%nat)
  | TimeoutField _ => constr:(4%nat) | ClientIdField _ => constr:(5%nat)
  | SessionTokenField _ => constr:(6%nat) | AuthField _ => constr:(7%nat)
  | FunctionNameField _ => constr:(8%nat) | ArgumentsField _ => constr:(9%nat)
  | ResultField _ => constr:(10%nat) | ErrorField _ => constr:(11%nat)
  | CodeField _ => constr:(12%nat) | CreditField _ => constr:(13%nat)
  | MetadataField _ => constr:(14%nat) | ValueField _ => constr:(15%nat)
  end.

(** Solves [f d <> g d] for two distinct fields of a well-formed dialect. *)
Ltac field_ne :=
  lazymatch goal with
  | |- ?f <> ?g =>
      let i := field_index f in let j := field_index g in
      eapply (dialect_field_ne _ i j); [reflexivity | reflexivity | discriminate]
  end.
#[export] Hint Extern 1 (_ <> _) => field_ne : vrpc.

(** Reads a field out of an envelope built with [Put]. *)
Ltac env_step :=
  first
    [ rewrite Get_Put_eq | rewrite Get_Put_nil
    | rewrite GetNumberField_Put_eq by (autorewrite with vrpc_rw; done)
    | rewrite GetStringField_Put_eq by (autorewrite with vrpc_rw; done)
    | rewrite Get_Put_ne by field_ne
    | rewrite GetNumberField_Put_ne by field_ne
    | rewrite GetStringField_Put_ne by field_ne ].
Ltac env_simpl := repeat env_step; autorewrite with vrpc_rw.

Section envelopes.
Context `{ValueLib} (d : Dialect).

(** ** protocol.go *)

Definition MessageType_Long (t : Z) : Value := Long t.

Definition Dialect_NewHandshakeRequest (clientId : Z) (token : string) : VMap :=
  let req :=
    Put (Put (Put (Put (Put EmptyMap
      (MagicField d) (Some (Utf8 (Magic d))))
      (VersionField d) (Some (Double (Version d))))
      (MessageTypeField d) (Some (MessageType_Long HandshakeRequest)))
      (RequestIdField d) (Some (Long (HandshakeRequestId d))))
      (ClientIdField d) (Some (Long clientId)) in
  if negb (bool_decide (token = "")) then Put req (SessionTokenField d) (Some (Utf8 token))
  else req.

Definition Dialect_NewHandshakeResponse (token : string) : VMap :=
  let resp :=
    Put (Put (Put (Put EmptyMap
      (MagicField d) (Some (Utf8 (Magic d))))
      (VersionField d) (Some (Double (Version d))))
      (MessageTypeField d) (Some (MessageType_Long HandshakeResponse)))
      (RequestIdField d) (Some (Long (HandshakeRequestId d))) in
  if negb (bool_decide (token = "")) then Put resp (SessionTokenField d) (Some (Utf8 token))
  else resp.

Definition NewStreamCredit (requestId : Value) (credit : Z) : VMap :=
  Put (Put (Put EmptyMap
    (MessageTypeField d) (Some (MessageType_Long StreamCredit)))
    (RequestIdField d) (Some requestId))
    (CreditField d) (Some (Long credit)).

Definition ValidMagicAndVersion (req : VMap) : bool :=
  match GetStringField req (MagicField d) with
  | None => false
  | Some magic =>
      if negb (bool_decide (stringOf magic = Magic d)) then false
      else match GetNumberField req (VersionField d) with
           | None => false
           | Some version => if f64_gtb (doubleOf version) (Version d) then false else true
           end
  end.

(** ** peer.go *)

Definition NewFunctionRequest (requestId : Z) (name : string) (args : option Value) : VMap :=
  let req :=
    Put (Put (Put EmptyMap
      (MessageTypeField d) (Some (MessageType_Long FunctionRequest)))
      (RequestIdField d) (Some (Long requestId)))
      (FunctionNameField d) (Some (Utf8 name)) in
  match args with
  | Some a => Put req (ArgumentsField d) (Some a)
  | None => req
  end.

Definition NewFunctionResult (requestId : Value) (result : option Value) : VMap :=
  let resp :=
    Put (Put EmptyMap
      (MessageTypeField d) (Some (MessageType_Long FunctionResponse)))
      (RequestIdField d) (Some requestId) in
  match result with
  | Some r => Put resp (ResultField d) (Some r)
  | None => resp
  end.

(** [msg] is the message after [fmt.Sprintf] of the format and its arguments. *)
Definition NewFunctionError (requestId : Value) (code : Z) (msg : string) : VMap :=
  Put (Put (Put (Put EmptyMap
    (MessageTypeField d) (Some (MessageType_Long ErrorResponse)))
    (RequestIdField d) (Some requestId))
    (CodeField d) (Some (Long code)))
    (ErrorField d) (Some (Utf8 msg)).

Definition NewStreamRequest (mt : Z) (requestId : Z) (name : string) (args : option Value) : VMap :=
  let req :=
    Put (Put (Put EmptyMap
      (MessageTypeField d) (Some (MessageType_Long mt)))
      (RequestIdField d) (Some (Long requestId)))
      (FunctionNameField d) (Some (Utf8 name)) in
  match args with
  | Some a => Put req (ArgumentsField d) (Some a)
  | None => req
  end.

Definition NewStreamReady (requestId : Value) : VMap :=
  Put (Put EmptyMap
    (MessageTypeField d) (Some (MessageType_Long StreamReady)))
    (RequestIdField d) (Some requestId).

Definition NewStreamValue (requestId : Value) (val : option Value) : VMap :=
  Put (Put (Put EmptyMap
    (MessageTypeField d) (Some (MessageType_Long StreamValue)))
    (RequestIdField d) (Some requestId))
    (ValueField d) val.

Definition NewStreamEnd (requestId : Value) (val : option Value) : VMap :=
  let resp :=
    Put (Put EmptyMap
      (MessageTypeField d) (Some (MessageType_Long StreamEnd)))
      (RequestIdField d) (Some requestId) in
  match val with
  | Some v => Put resp (ValueField d) (Some v)
  | None => resp
  end.

(** [NewHandlerError] and its copy [handlerError] on the server: the plain
    message of a coded error, the rendered error otherwise. *)
Definition NewHandlerError (requestId : Value) (where_ : string) (err : goerror) : VMap :=
  let msg := match err with ErrRpc _ m => m | e => Error_String e end in
  NewFunctionError requestId (HandlerErrorCode err) (where_ +:+ ": " +:+ msg).

(** The request of a system message: a [CancelRequest] (client sendSystemRequest,
    server cancelClientStream). *)
Definition NewSystemRequest (requestId : Z) (mt : Z) : VMap :=
  Put (Put EmptyMap
    (MessageTypeField d) (Some (MessageType_Long mt)))
    (RequestIdField d) (Some (Long requestId)).

(** ** Reading an envelope *)

(** The message type as the dispatchers read it: [MessageType(mt.Long())]. *)
Definition messageType (m : VMap) : option Z :=
  match GetNumberField m (MessageTypeField d) with
  | Some v => Some (longOf v)
  | None => None
  end.

Definition requestIdOf (m : VMap) : option Z :=
  match GetNumberField m (RequestIdField d) with
  | Some v => Some (longOf v)
  | None => None
  end.

(** The coded error a peer rebuilds from an ErrorResponse (server side,
    completePendingCall and handleInbound). *)
Definition decodeError (resp : VMap) : goerror :=
  let code := match GetNumberField resp (CodeField d) with
              | Some c => wrap32 (longOf c)
              | None => CodeUnknown
              end in
  let msg := match GetStringField resp (ErrorField d) with
             | Some s => stringOf s
             | None => ""
             end in
  ErrRpc code msg.

(** An absent or Null field is a Go [nil] for the caller (BUG-4/5). *)
Definition fieldOrNil (m : VMap) (field : string) : option Value :=
  match Get m field with
  | Some v => if decide (kindOf v = NULL) then None else Some v
  | None => None
  end.

End envelopes.

(** ** Theorems *)

Section envelope_theorems.
Context `{ValueLib} (d : Dialect) `{!dialect_ok d}.

#[export] Instance ValidMagicAndVersion_proper :
  Proper ((≡) ==> (=)) (ValidMagicAndVersion d).
Proof. intros m1 m2 E. unfold ValidMagicAndVersion. by equiv_rw E. Qed.

#[export] Instance messageType_proper : Proper ((≡) ==> (=)) (messageType d).
Proof. intros m1 m2 E. unfold messageType. by equiv_rw E. Qed.

#[export] Instance requestIdOf_proper : Proper ((≡) ==> (=)) (requestIdOf d).
Proof. intros m1 m2 E. unfold requestIdOf. by equiv_rw E. Qed.

#[export] Instance decodeError_proper : Proper ((≡) ==> (=)) (decodeError d).
Proof. intros m1 m2 E. unfold decodeError. by equiv_rw E. Qed.

#[export] Instance fieldOrNil_proper : Proper ((≡) ==> (=) ==> (=)) fieldOrNil.
Proof. intros m1 m2 E k ? <-. unfold fieldOrNil. by equiv_rw E. Qed.

(** [equiv_rw] for whole-envelope readers too. *)
Ltac env_rw E :=
  equiv_rw E;
  rewrite ?(ValidMagicAndVersion_proper _ _ E), ?(messageType_proper _ _ E),
          ?(requestIdOf_proper _ _ E), ?(decodeError_proper _ _ E),
          ?(fieldOrNil_proper _ _ E _ _ eq_refl).

Lemma f64_gtb_irrefl x : f64_gtb x x = false.
Proof.
  unfold f64_gtb, SFltb, SFcompare. destruct x as [| [] | |[] m e]; try done.
  all: by rewrite Z.compare_refl, Pos.compare_cont_refl.
Qed.

Lemma messageType_system requestId mt :
  in_int64 mt -> messageType d (NewSystemRequest d requestId mt) = Some mt.
Proof.
  intros Hmt. unfold messageType, NewSystemRequest, MessageType_Long. env_simpl.
  by rewrite longOf_Long.
Qed.

(** The handshake the client sends is the one the server reads: its magic and
    version are accepted and the type, client id and token come back. *)
Lemma handshake_request_read clientId token :
  in_int64 clientId ->
  let req := Dialect_NewHandshakeRequest d clientId token in
  ValidMagicAndVersion d req = true /\
  messageType d req = Some HandshakeRequest /\
  longOf <$> GetNumberField req (ClientIdField d) = Some clientId /\
  match GetStringField req (SessionTokenField d) with
  | Some v => stringOf v
  | None => ""
  end = token.
Proof.
  intros Hcid req. subst req.
  unfold ValidMagicAndVersion, messageType, Dialect_NewHandshakeRequest, MessageType_Long.
  destruct (decide (token = "")) as [->|Hne].
  - rewrite !bool_decide_true by done. cbn [negb]. env_simpl.
    rewrite bool_decide_true, f64_gtb_irrefl by done. cbn.
    by rewrite !longOf_Long by (unfold HandshakeRequest; auto with vrpc).
  - rewrite (bool_decide_false (token = "")) by done. cbn [negb]. env_simpl.
    rewrite bool_decide_true, f64_gtb_irrefl by done. cbn.
    by rewrite !longOf_Long by (unfold HandshakeRequest; auto with vrpc).
Qed.

Lemma handshake_response_read token :
  let resp := Dialect_NewHandshakeResponse d token in
  ValidMagicAndVersion d resp = true /\
  messageType d resp = Some HandshakeResponse /\
  match GetStringField resp (SessionTokenField d) with
  | Some v => stringOf v
  | None => ""
  end = token.
Proof.
  intros resp. subst resp.
  unfold ValidMagicAndVersion, messageType, Dialect_NewHandshakeResponse, MessageType_Long.
  destruct (decide (token = "")) as [->|Hne].
  - rewrite !bool_decide_true by done. cbn [negb]. env_simpl.
    rewrite bool_decide_true, f64_gtb_irrefl by done. cbn.
    by rewrite !longOf_Long by (unfold HandshakeResponse; auto with vrpc).
  - rewrite (bool_decide_false (token = "")) by done. cbn [negb]. env_simpl.
    rewrite bool_decide_true, f64_gtb_irrefl by done. cbn.
    by rewrite !longOf_Long by (unfold HandshakeResponse; auto with vrpc).
Qed.

(** What a map built with the wire law looks like to its reader. *)
Lemma unpack_equiv m b :
  Pack m = Some b -> exists m', Unpack b = Some (MapV m') /\ m' ≡ m.
Proof. intros Hp. destruct (Unpack_Pack m b Hp) as (m' & Hu & Heq). by exists m'. Qed.

Lemma decodeError_NewFunctionError rid code msg :
  in_int32 code -> decodeError d (NewFunctionError d rid code msg) = ErrRpc code msg.
Proof.
  intros Hc. unfold decodeError, NewFunctionError. env_simpl.
  rewrite longOf_Long by (unfold in_int32, in_int64, two63 in *; lia).
  by rewrite wrap32_id.
Qed.

Lemma HandlerErrorCode_coded code msg :
  code <> CodeUnknown -> HandlerErrorCode (ErrRpc code msg) = code.
Proof. intros Hc. unfold HandlerErrorCode. cbn. by rewrite (proj2 (Z.eqb_neq _ _) Hc). Qed.

Lemma HandlerErrorCode_not_unknown e : HandlerErrorCode e <> CodeUnknown.
Proof.
  unfold HandlerErrorCode. destruct (CodeOf (Some e) =? CodeUnknown) eqn:E; cbn.
  - by destruct e.
  - by apply Z.eqb_neq.
Qed.

Lemma fieldOrNil_absent m k : Get m k = Some Null -> fieldOrNil m k = None.
Proof. intros E. unfold fieldOrNil. by rewrite E, decide_True by apply kind_Null. Qed.

(** The dialect [d] with another version: the same field names and magic. *)
Definition with_version (v : float64) : Dialect :=
  mkDialect (Magic d) v (HandshakeRequestId d) (MessageTypeField d) (MagicField d)
    (VersionField d) (RequestIdField d) (TimeoutField d) (ClientIdField d)
    (SessionTokenField d) (AuthField d) (FunctionNameField d) (ArgumentsField d)
    (ResultField d) (ErrorField d) (CodeField d) (CreditField d) (MetadataField d)
    (ValueField d).

(** The server reads the session token of a handshake, if there is one. *)
Definition handshakeTokenOf (m : VMap) : string :=
  match GetStringField m (SessionTokenField d) with
  | Some v => stringOf v
  | None => ""
  end.

(** The handshake request and response survive serialization: the peer reads
    the magic, a version it accepts, the message type, the client id and the
    session token that were sent. *)
Theorem handshake_over_the_wire clientId token b b' :
  in_int64 clientId ->
  Pack (Dialect_NewHandshakeRequest d clientId token) = Some b ->
  Pack (Dialect_NewHandshakeResponse d token) = Some b' ->
  exists req resp,
    Unpack b = Some (MapV req) /\ ValidMagicAndVersion d req = true /\
    messageType d req = Some HandshakeRequest /\
    longOf <$> GetNumberField req (ClientIdField d) = Some clientId /\
    handshakeTokenOf req = token /\
    Unpack b' = Some (MapV resp) /\ ValidMagicAndVersion d resp = true /\
    messageType d resp = Some HandshakeResponse /\ handshakeTokenOf resp = token.
Proof.
  intros Hcid Hb Hb'.
  apply unpack_equiv in Hb as (req & Hreq & E). apply unpack_equiv in Hb' as (resp & Hresp & E').
  exists req, resp. unfold handshakeTokenOf. env_rw E. env_rw E'.
  destruct (handshake_request_read clientId token Hcid) as (? & ? & ? & ?).
  destruct (handshake_response_read token) as (? & ? & ?). done.
Qed.

Theorem version_gate v clientId token :
  ValidMagicAndVersion d (Dialect_NewHandshakeRequest (with_version v) clientId token) =
    negb (f64_gtb v (Version d)) /\
  (v = S754_nan -> ValidMagicAndVersion d (Dialect_NewHandshakeRequest (with_version v) clientId token) = true).
Proof.
  assert (ValidMagicAndVersion d (Dialect_NewHandshakeRequest (with_version v) clientId token) =
          negb (f64_gtb v (Version d))) as E.
  { unfold ValidMagicAndVersion, Dialect_NewHandshakeRequest. cbn.
    case_bool_decide; cbn [negb]; env_simpl; rewrite bool_decide_true by done; cbn;
      by destruct (f64_gtb v (Version d)). }
  split; [done|]. intros ->. rewrite E. unfold f64_gtb, SFltb, SFcompare.
  by destruct (Version d) as [| [] | | []].
Qed.

(** The text a handler error travels with: the plain message of a coded error,
    the rendered error otherwise. *)
Definition wireMessage (err : goerror) : string :=
  match err with ErrRpc _ m => m | e => Error_String e end.

(** A handler error sent as an error response is decoded by the peer to the
    code the handler asked for (Internal when it had none) and its message
    prefixed with the place it happened; the code is never Unknown. *)
Theorem error_over_the_wire rid where_ err b :
  in_int32 (HandlerErrorCode err) ->
  Pack (NewHandlerError d rid where_ err) = Some b ->
  HandlerErrorCode err <> CodeUnknown /\
  (forall c, errors_As err = Some c -> c <> CodeUnknown -> HandlerErrorCode err = c) /\
  exists resp, Unpack b = Some (MapV resp) /\ messageType d resp = Some ErrorResponse /\
    Get resp (RequestIdField d) = Some rid /\
    decodeError d resp = ErrRpc (HandlerErrorCode err) (where_ +:+ ": " +:+ wireMessage err).
Proof.
  intros Hc Hb. split_and!; [apply HandlerErrorCode_not_unknown| |].
  { intros c Ec Hne. unfold HandlerErrorCode, CodeOf. rewrite Ec.
    by rewrite (proj2 (Z.eqb_neq _ _) Hne). }
  apply unpack_equiv in Hb as (resp & Hresp & E). exists resp.
  env_rw E. split_and!; [done| |..].
  - unfold NewHandlerError, NewFunctionError, messageType. env_simpl.
    by rewrite longOf_Long by (unfold ErrorResponse; auto with vrpc).
  - unfold NewHandlerError, NewFunctionError. by env_simpl.
  - unfold NewHandlerError. rewrite decodeError_NewFunctionError by done. by destruct err.
Qed.

End envelope_theorems.


Section protocol_witness.
#[local] Existing Instance RefValueLib.

Lemma handshake_over_the_wire_witness :
  exists b req, Pack (Dialect_NewHandshakeRequest NewDialect 42 "deadbeef") = Some b /\
    Unpack b = Some (MapV req) /\ ValidMagicAndVersion NewDialect req = true /\
    handshakeTokenOf NewDialect req = "deadbeef".
Proof.
  destruct (handshake_over_the_wire NewDialect 42 "deadbeef" _ _
    ltac:(unfold in_int64, two63; lia) (RefValueLib_Pack _) (RefValueLib_Pack _)) as (req & _ & Hu & Hv & _ & _ & Ht & _).
  eexists _, req. split; [apply RefValueLib_Pack|]. by rewrite Hu, Hv.
Defined.

(** A newer client is refused, an older one accepted. *)
Lemma version_gate_witness :
  ValidMagicAndVersion NewDialect
    (Dialect_NewHandshakeRequest (with_version NewDialect (S754_finite false 4503599627370496 (-51))) 7 "") = false /\
  ValidMagicAndVersion NewDialect
    (Dialect_NewHandshakeRequest (with_version NewDialect (S754_finite false 4503599627370496 (-53))) 7 "") = true /\
  ValidMagicAndVersion NewDialect
    (Dialect_NewHandshakeRequest (with_version NewDialect S754_nan) 7 "") = true.
Proof.
  split_and!.
  - rewrite (proj1 (version_gate NewDialect _ 7 "")). reflexivity.
  - rewrite (proj1 (version_gate NewDialect _ 7 "")). reflexivity.
  - apply (proj2 (version_gate NewDialect _ 7 "")). reflexivity.
Defined.

Lemma error_over_the_wire_witness :
  exists b resp, Pack (NewHandlerError NewDialect (Long 5) "handler" (ErrWrap "w" (ErrRpc CodeNotFound "no row"))) = Some b /\
    Unpack b = Some (MapV resp) /\
    decodeError NewDialect resp = ErrRpc CodeNotFound "handler: w: vrpc NotFound: no row".
Proof.
  destruct (error_over_the_wire NewDialect (Long 5) "handler" (ErrWrap "w" (ErrRpc CodeNotFound "no row")) _
    ltac:(vm_compute; split; congruence) (RefValueLib_Pack _)) as (_ & _ & resp & Hu & _ & _ & Hd).
  eexists _, resp. split; [apply RefValueLib_Pack|]. split; [exact Hu|exact Hd].
Defined.
End protocol_witness.
