(* ===== verification/Verify.v ===== *)
(** * Type definitions and argument verification

    Models valuerpc/types.go and valuerpc/verify.go: the run-time type checks
    applied to the arguments and results of registered handlers. *)

From S2P Require Import Prelude Value RefValue.

Section verify.
Context `{ValueLib}.

(** ** types.go *)

Record ArgDef := Arg { argKind : Kind; argRequired : bool }.
Record ParamDef := Param { paramName : string; paramKind : Kind; paramRequired : bool }.

(** The implementations of the [TypeDef] interface; [OtherDef] is nil or an
    implementation of another package. *)
Inductive TypeDef :=
| AnyDef
| VoidDef
| ArgsDef (args : list ArgDef)
| ParamsDef (params : list ParamDef)
| ArgDefT (def : ArgDef)
| OtherDef.

Definition Any : TypeDef := AnyDef.
Definition Void : TypeDef := VoidDef.
Definition ListOf (args : list ArgDef) : TypeDef := ArgsDef args.
Definition MapOf (params : list ParamDef) : TypeDef := ParamsDef params.
Definition Bool : TypeDef := ArgDefT (Arg BOOL true).
Definition BoolOpt : TypeDef := ArgDefT (Arg BOOL false).
Definition Number : TypeDef := ArgDefT (Arg NUMBER true).
Definition NumberOpt : TypeDef := ArgDefT (Arg NUMBER false).
Definition String : TypeDef := ArgDefT (Arg STRING true).
Definition StringOpt : TypeDef := ArgDefT (Arg STRING false).

(** ** verify.go *)

Definition VerifyArg (arg : option Value) (def : ArgDef) : bool :=
  match arg with
  | None => negb (argRequired def)
  | Some v => bool_decide (kindOf v = argKind def)
  end.

Definition VerifyParam (value : option Value) (def : ParamDef) : bool :=
  match value with
  | None => negb (paramRequired def)
  | Some v => bool_decide (kindOf v = paramKind def)
  end.

(** [args == nil || args.Kind() == value.NULL] *)
Definition nilOrNull (args : option Value) : bool :=
  match args with
  | None => true
  | Some v => bool_decide (kindOf v = NULL)
  end.

(** The loop [for i, def := range argsDef.List]. *)
Fixpoint verifyArgsFrom (lst : Value) (i : nat) (defs : list ArgDef) : bool :=
  match defs with
  | [] => true
  | def :: defs' =>
      if negb (VerifyArg (listGetAt lst i) def) then false
      else verifyArgsFrom lst (S i) defs'
  end.

Definition VerifyArgs (args : option Value) (defs : list ArgDef) : bool :=
  if nilOrNull args then bool_decide (length defs = 0%nat)
  else match args with
       | None => false
       | Some v =>
           if negb (bool_decide (kindOf v = LIST)) then false
           else if negb (bool_decide (listLen v = length defs)) then false
           else verifyArgsFrom v 0 defs
       end.

(** The loop [for _, paramDef := range paramsDef.Map]. *)
Fixpoint verifyParamsLoop (cache : VMap) (defs : list ParamDef) : bool :=
  match defs with
  | [] => true
  | def :: defs' =>
      let val := Get cache (paramName def) in
      if match val with Some v => isNull v | None => false end
      then if paramRequired def then false else verifyParamsLoop cache defs'
      else if negb (VerifyParam val def) then false
      else verifyParamsLoop cache defs'
  end.

Definition VerifyParams (args : option Value) (defs : list ParamDef) : bool :=
  if nilOrNull args then bool_decide (length defs = 0%nat)
  else match args with
       | None => false
       | Some v =>
           if negb (bool_decide (kindOf v = MAP)) then false
           else verifyParamsLoop (mapOf v) defs
       end.

Definition Verify (args : option Value) (def : TypeDef) : bool :=
  match def with
  | AnyDef => true
  | VoidDef =>
      if nilOrNull args then true
      else match args with
           | None => false
           | Some v =>
               if decide (kindOf v = LIST) then bool_decide (listLen v = 0%nat)
               else if decide (kindOf v = MAP) then bool_decide (mapLen (mapOf v) = 0%nat)
               else false
           end
  | ArgDefT argDef => VerifyArg args argDef
  | ArgsDef argsDef => VerifyArgs args argsDef
  | ParamsDef paramsDef => VerifyParams args paramsDef
  | OtherDef => false
  end.

(** ** Specification: which values conform to a type definition

    An optional argument may be left out, as nil or as the null it becomes on the
    wire; one that is there has the declared kind.  No arguments at all are an
    empty list or an empty map.  Null stands for a missing entry of a map. *)

Definition absent (args : option Value) : Prop :=
  match args with None => True | Some v => kindOf v = NULL end.

Definition arg_conforms (arg : option Value) (def : ArgDef) : Prop :=
  (absent arg /\ argRequired def = false) \/ exists v, arg = Some v /\ kindOf v = argKind def.

Definition param_conforms (m : VMap) (def : ParamDef) : Prop :=
  match Get m (paramName def) with
  | None => paramRequired def = false
  | Some v => (v = Null /\ paramRequired def = false) \/ (v <> Null /\ kindOf v = paramKind def)
  end.

Inductive conforms (args : option Value) : TypeDef -> Prop :=
| conf_any : conforms args AnyDef
| conf_void_absent : absent args -> conforms args VoidDef
| conf_void_list v : args = Some v -> kindOf v = LIST -> listLen v = 0%nat -> conforms args VoidDef
| conf_void_map v :
    args = Some v -> kindOf v = MAP -> mapLen (mapOf v) = 0%nat -> conforms args VoidDef
| conf_arg def : arg_conforms args def -> conforms args (ArgDefT def)
| conf_args_absent : absent args -> conforms args (ArgsDef [])
| conf_args v defs :
    args = Some v -> kindOf v = LIST -> listLen v = length defs ->
    (forall i def, defs !! i = Some def -> arg_conforms (listGetAt v i) def) ->
    conforms args (ArgsDef defs)
| conf_params_absent defs : absent args -> Forall (fun def => paramRequired def = false) defs -> conforms args (ParamsDef defs)
| conf_params v defs :
    args = Some v -> kindOf v = MAP ->
    (forall def, def ∈ defs -> param_conforms (mapOf v) def) ->
    conforms args (ParamsDef defs).

(** Where the code is stricter: an explicit null for an optional positional
    argument, and no arguments at all where a map of (optional) parameters is
    declared. *)
Definition null_for_optional (arg : option Value) (def : ArgDef) : Prop :=
  exists v, arg = Some v /\ kindOf v = NULL /\ argKind def <> NULL.
Definition nil_refused (args : option Value) (def : TypeDef) : Prop :=
  match def with
  | ArgDefT def => null_for_optional args def
  | ArgsDef defs => exists v i def, args = Some v /\ kindOf v = LIST /\ defs !! i = Some def /\ null_for_optional (listGetAt v i) def
  | ParamsDef defs => absent args /\ defs <> []
  | _ => False
  end.

(** ** Lemmas *)

Lemma nilOrNull_spec args : nilOrNull args = true <-> absent args.
Proof. destruct args; cbn; [apply bool_decide_eq_true | done]. Qed.

Lemma VerifyArg_spec arg def : VerifyArg arg def = true <-> arg_conforms arg def /\ ~ null_for_optional arg def.
Proof.
  unfold arg_conforms, null_for_optional. destruct arg as [v|]; cbn.
  - rewrite bool_decide_eq_true. split.
    + intros E. split; [by eauto|]. intros (v' & [= <-] & Hn & Hk). congruence.
    + intros [[[Hn _]|(v' & [= <-] & E)] Hno]; [|done]. destruct (decide (argKind def = NULL)); [congruence|]. destruct Hno. eauto.
  - rewrite negb_true_iff. split; [intros E; split; [by left|by intros (v & [=] & _)]|]. by intros [[[_ E]|(v & [=] & _)] _].
Qed.

Lemma verifyArgsFrom_all v i defs :
  verifyArgsFrom v i defs = true <->
  (forall j def, defs !! j = Some def -> VerifyArg (listGetAt v (i + j)) def = true).
Proof.
  revert i. induction defs as [|def defs IH]; intros i; cbn.
  - split; [intros _ j def Hj; by rewrite lookup_nil in Hj | done].
  - destruct (VerifyArg (listGetAt v i) def) eqn:E; cbn.
    + rewrite IH. split; intros Hall.
      * intros [|j] def' Hj; cbn in Hj.
        -- injection Hj as <-. by rewrite Nat.add_0_r.
        -- specialize (Hall j def' Hj). by rewrite Nat.add_succ_r.
      * intros j def' Hj. specialize (Hall (S j) def' Hj).
        by rewrite Nat.add_succ_r in Hall.
    + split; [done|]. intros Hall. specialize (Hall 0%nat def eq_refl).
      rewrite Nat.add_0_r in Hall. congruence.
Qed.

Lemma verifyParams_one m def :
  (if match Get m (paramName def) with Some v => isNull v | None => false end
   then negb (paramRequired def)
   else VerifyParam (Get m (paramName def)) def) = true <-> param_conforms m def.
Proof.
  unfold param_conforms, VerifyParam. destruct (Get m (paramName def)) as [v|].
  - destruct (isNull v) eqn:E.
    + apply isNull_spec in E as ->. rewrite negb_true_iff. naive_solver.
    + assert (v <> Null) by (intros ->; by rewrite isNull_Null in E).
      rewrite bool_decide_eq_true. naive_solver.
  - by rewrite negb_true_iff.
Qed.

Lemma verifyParamsLoop_spec m defs :
  verifyParamsLoop m defs = true <-> (forall def, def ∈ defs -> param_conforms m def).
Proof.
  induction defs as [|def defs IH]; cbn.
  - split; [intros _ def Hin; by apply elem_of_nil in Hin | done].
  - transitivity (param_conforms m def /\ verifyParamsLoop m defs = true).
    + rewrite <- verifyParams_one.
      destruct (match Get m (paramName def) with Some v => isNull v | None => false end).
      * destruct (paramRequired def); cbn; naive_solver.
      * destruct (VerifyParam (Get m (paramName def)) def); cbn; naive_solver.
    + rewrite IH. setoid_rewrite elem_of_cons. naive_solver.
Qed.

Lemma nilOrNull_false v : kindOf v <> NULL -> nilOrNull (Some v) = false.
Proof. intros Hk. by apply bool_decide_eq_false. Qed.

Lemma VerifyArgs_sound args defs : VerifyArgs args defs = true -> conforms args (ArgsDef defs) /\ ~ nil_refused args (ArgsDef defs).
Proof.
  unfold VerifyArgs. destruct (nilOrNull args) eqn:Hn.
  - intros Hl%bool_decide_eq_true. apply nilOrNull_spec in Hn.
    apply length_zero_iff_nil in Hl as ->. split; [by constructor|]. by intros (v & i & def & _ & _ & Hi & _).
  - destruct args as [v|]; [|done].
    repeat case_bool_decide; cbn; try done. intros Hl. pose proof (proj1 (verifyArgsFrom_all v 0 defs) Hl) as Hall. split.
    + eapply conf_args; [done..|]. intros i def Hi. by apply VerifyArg_spec, Hall.
    + intros (v' & i & def & [= <-] & _ & Hi & Hno). specialize (Hall i def Hi). by apply VerifyArg_spec in Hall as [_ []].
Qed.

Lemma VerifyArgs_complete args defs : conforms args (ArgsDef defs) -> ~ nil_refused args (ArgsDef defs) -> VerifyArgs args defs = true.
Proof.
  unfold VerifyArgs. intros Hc Hno. inv Hc.
  - match goal with Ha : absent _ |- _ => apply nilOrNull_spec in Ha; by rewrite Ha end.
  - rewrite nilOrNull_false by kind_ne. rewrite !bool_decide_true by done. cbn. apply verifyArgsFrom_all.
    intros j def Hj. apply VerifyArg_spec. split; [by auto|]. intros Hn. apply Hno. by exists v, j, def.
Qed.

Lemma VerifyParams_sound args defs :
  VerifyParams args defs = true -> conforms args (ParamsDef defs) /\ ~ nil_refused args (ParamsDef defs).
Proof.
  unfold VerifyParams. destruct (nilOrNull args) eqn:Hn.
  - intros Hl%bool_decide_eq_true. apply nilOrNull_spec in Hn.
    apply length_zero_iff_nil in Hl as ->. split; [by constructor|]. by intros [_ []].
  - destruct args as [v|]; [|done].
    repeat case_bool_decide; cbn; try done. intros Hl. split.
    + eapply conf_params; [done..|]. by apply verifyParamsLoop_spec.
    + intros [Ha _]. apply (proj2 (nilOrNull_spec (Some v))) in Ha. congruence.
Qed.

Lemma VerifyParams_complete args defs :
  conforms args (ParamsDef defs) -> ~ nil_refused args (ParamsDef defs) -> VerifyParams args defs = true.
Proof.
  unfold VerifyParams. intros Hc Hno. inv Hc.
  - destruct defs as [|def defs]; [|by destruct Hno].
    match goal with Ha : absent _ |- _ => apply nilOrNull_spec in Ha; by rewrite Ha end.
  - rewrite nilOrNull_false by kind_ne. rewrite !bool_decide_true by done. cbn. by apply verifyParamsLoop_spec.
Qed.

Lemma Verify_Void_spec args : Verify args VoidDef = true <-> conforms args VoidDef.
Proof.
  cbn. destruct (nilOrNull args) eqn:Hn.
  - split; [intros _ | done]. apply conf_void_absent. by apply nilOrNull_spec.
  - split.
    + destruct args as [v|]; [|done]. repeat case_decide; intros Hl; try done.
      * apply bool_decide_eq_true in Hl. eapply conf_void_list; done.
      * apply bool_decide_eq_true in Hl. eapply conf_void_map; done.
    + intros Hc. inv Hc.
      * match goal with Ha : absent _ |- _ => apply nilOrNull_spec in Ha; congruence end.
      * by rewrite decide_True, bool_decide_true.
      * rewrite decide_False by kind_ne. by rewrite decide_True, bool_decide_true.
Qed.


(** No arguments where a map of optional parameters is declared. *)
Theorem optional_params_reject_nil p defs :
  Verify None (ParamsDef (p :: defs)) = false /\ (Forall (fun def => paramRequired def = false) (p :: defs) -> conforms None (ParamsDef (p :: defs))).
Proof. split; [done|]. by constructor. Qed.

Theorem optional_arg_rejects_wire_nil req field :
  Get req field = Some Null ->
  Verify (Get req field) StringOpt = false /\
  Verify None StringOpt = true /\
  Verify (Get req field) Void = true.
Proof.
  intros E. rewrite E. cbn. rewrite !kind_Null.
  rewrite (bool_decide_false (NULL = STRING)) by auto with vrpc.
  by rewrite bool_decide_true.
Qed.

End verify.

Section verify_witness.
#[local] Existing Instance RefValueLib.

Lemma optional_arg_rejects_wire_nil_witness :
  Get (Put EmptyMap "args" None) "args" = Some Null /\
  Verify (Get (Put EmptyMap "args" None) "args") StringOpt = false.
Proof.
  split; [reflexivity|].
  apply (optional_arg_rejects_wire_nil (Put EmptyMap "args" None) "args"). reflexivity.
Defined.
End verify_witness.
