(* ===== verification/Framing.v ===== *)
(** * Length-prefix framing

    Models valuerpc/rpc.go (messageConnAdapter) and the frame helpers of
    quic/transport.go: [4-byte big-endian length N][N bytes payload].  The byte
    stream is a list of bytes ended by EOF; the reused write buffer is modelled
    with its backing array, so that stale contents would be seen. *)

From S2P Require Import Prelude Value RefValue.

(** ** encoding/binary and io *)

Definition PutUint32 (n : Z) : list ascii :=
  [byte_of_Z (n / 16777216); byte_of_Z (n / 65536); byte_of_Z (n / 256); byte_of_Z n].

Definition Uint32 (b : list ascii) : Z :=
  match b with
  | [b0; b1; b2; b3] =>
      ((Z_of_byte b0 * 256 + Z_of_byte b1) * 256 + Z_of_byte b2) * 256 + Z_of_byte b3
  | _ => 0
  end.

Inductive frame_error :=
| EOF
| UnexpectedEOF
| FrameTooLarge (n max : Z)
| UnpackError
| ExpectedMap
| PackError
| ErrClientClosed
| ConnError (msg : string).

(** io.ReadFull of [n] bytes: the bytes and the rest, or the error. *)
Definition ReadFull (stream : list ascii) (n : nat) : (list ascii * list ascii) + frame_error :=
  if bool_decide (n <= length stream)%nat then inl (take n stream, drop n stream)
  else if bool_decide (stream = []) then inr EOF else inr UnexpectedEOF.

Definition MaxFrameSize : Z := 16 * 1024 * 1024.
Definition reusableWriteBufCap : Z := 64 * 1024.

#[global] Opaque reusableWriteBufCap.

Section framing.
Context `{ValueLib}.

(** The receiver's fields that framing reads. *)
Record messageConnAdapter := mkConn {
  maxFrameSize : Z;
  writeTimeout : Z;
  shutdown : bool;
  writeBuf : list ascii        (* backing array; its length is the capacity *)
}.

Definition NewMsgConn (timeout maxFrame : Z) : messageConnAdapter :=
  mkConn maxFrame timeout false [].

(** ReadMessage: a message or an error, and the stream that is left. *)
Definition ReadMessage (t : messageConnAdapter) (stream : list ascii)
    : (VMap + frame_error) * list ascii :=
  match ReadFull stream 4 with
  | inr e => (inr e, [])
  | inl (lenBuf, stream1) =>
      let n := Uint32 lenBuf in
      if (0 <? maxFrameSize t) && (maxFrameSize t <? n) then (inr (FrameTooLarge n (maxFrameSize t)), stream1)
      else match ReadFull stream1 (Z.to_nat n) with
           | inr e => (inr e, [])
           | inl (payload, stream2) =>
               match Unpack payload with
               | None => (inr UnpackError, stream2)
               | Some msg =>
                   if decide (kindOf msg = MAP) then (inl (mapOf msg), stream2)
                   else (inr ExpectedMap, stream2)
               end
           end
  end.

(** Writing [src] over the front of [dst], as Go's copy does. *)
Definition overwrite (dst src : list ascii) : list ascii :=
  take (length dst) src ++ drop (length src) dst.

(** doWriteFrame: the bytes handed to the single conn.Write and the new buffer.
    [deadline] is the outcome of SetWriteDeadline where the stream has one
    ([Some e] is its error), [io] the outcome of conn.Write. *)
Definition doWriteFrame (t : messageConnAdapter) (deadline io : option string) (payload : list ascii)
    : option frame_error * list ascii * messageConnAdapter :=
  match (if 0 <? writeTimeout t then deadline else None) with
  | Some e => (Some (ConnError e), [], t)
  | None =>
      let need := (4 + length payload)%nat in
      let '(frame0, t') :=
        if Z.of_nat need <=? reusableWriteBufCap then
          let buf := if bool_decide (length (writeBuf t) < need)%nat
                     then replicate (Z.to_nat reusableWriteBufCap) (byte_of_Z 0) else writeBuf t in
          (take need buf, mkConn (maxFrameSize t) (writeTimeout t) (shutdown t) buf)
        else (replicate need (byte_of_Z 0), t) in
      let frame1 := overwrite (take 4 frame0) (PutUint32 (wrapu32 (Z.of_nat (length payload)))) ++ drop 4 frame0 in
      let frame := take 4 frame1 ++ overwrite (drop 4 frame1) payload in
      let t'' := if Z.of_nat need <=? reusableWriteBufCap
                 then mkConn (maxFrameSize t) (writeTimeout t) (shutdown t) (overwrite (writeBuf t') frame)
                 else t' in
      (ConnError <$> io, frame, t'')
  end.

Definition WriteMessage (t : messageConnAdapter) (deadline io : option string) (msg : VMap)
    : option frame_error * list ascii * messageConnAdapter :=
  if shutdown t then (Some ErrClientClosed, [], t)
  else match Pack msg with
       | None => (Some PackError, [], t)
       | Some payload => doWriteFrame t deadline io payload
       end.

Definition CloseConn (t : messageConnAdapter) : messageConnAdapter :=
  mkConn (maxFrameSize t) (writeTimeout t) true (writeBuf t).

(** ** quic/transport.go readFrame and writeFrame: the same format with the
    package-wide MaxFrameSize and a fresh buffer per frame. *)

Definition quic_readFrame (stream : list ascii) : (VMap + frame_error) * list ascii :=
  match ReadFull stream 4 with
  | inr e => (inr e, [])
  | inl (lenBuf, stream1) =>
      let n := Uint32 lenBuf in
      if (0 <? MaxFrameSize) && (MaxFrameSize <? n) then (inr (FrameTooLarge n MaxFrameSize), stream1)
      else match ReadFull stream1 (Z.to_nat n) with
           | inr e => (inr e, [])
           | inl (payload, stream2) =>
               match Unpack payload with
               | None => (inr UnpackError, stream2)
               | Some m =>
                   if decide (kindOf m = MAP) then (inl (mapOf m), stream2)
                   else (inr ExpectedMap, stream2)
               end
           end
  end.

Definition quic_writeFrame (io : option string) (m : VMap) : option frame_error * list ascii :=
  match Pack m with
  | None => (Some PackError, [])
  | Some payload =>
      let frame0 := replicate (4 + length payload) (byte_of_Z 0) in
      let frame1 := overwrite (take 4 frame0) (PutUint32 (wrapu32 (Z.of_nat (length payload)))) ++ drop 4 frame0 in
      (ConnError <$> io, take 4 frame1 ++ overwrite (drop 4 frame1) payload)
  end.

(** ** Specification *)

(** The frame of a payload. *)
Definition frame_of (payload : list ascii) : list ascii :=
  PutUint32 (Z.of_nat (length payload)) ++ payload.

Definition fits (t : messageConnAdapter) (payload : list ascii) : Prop :=
  Z.of_nat (length payload) < two32 /\
  (0 < maxFrameSize t -> Z.of_nat (length payload) <= maxFrameSize t).

(** ** Lemmas *)

Lemma Uint32_PutUint32 n : 0 <= n < two32 -> Uint32 (PutUint32 n) = n.
Proof.
  intros Hn. unfold Uint32, PutUint32. rewrite !Z_of_byte_of_Z.
  unfold two32 in Hn. Z.to_euclidean_division_equations. lia.
Qed.

Lemma length_PutUint32 n : length (PutUint32 n) = 4%nat.
Proof. done. Qed.

Lemma overwrite_full dst src : length dst = length src -> overwrite dst src = src.
Proof.
  intros Hl. unfold overwrite. rewrite Hl, firstn_all, <- Hl, drop_all. apply app_nil_r.
Qed.

Lemma ReadFull_app a b n : length a = n -> ReadFull (a ++ b) n = inl (a, b).
Proof.
  intros Hn. unfold ReadFull. rewrite bool_decide_true by (rewrite length_app; lia).
  by rewrite firstn_app_exact, skipn_app_exact.
Qed.

Lemma ReadFull_short stream n :
  (length stream < n)%nat -> exists e, ReadFull stream n = inr e /\ (e = EOF \/ e = UnexpectedEOF).
Proof.
  intros Hn. unfold ReadFull. rewrite bool_decide_false by lia. case_bool_decide; eauto.
Qed.

(** The frame written is the header and the payload, whatever the buffer held. *)
Lemma frame_bytes (frame0 hdr payload : list ascii) :
  length hdr = 4%nat -> length frame0 = (4 + length payload)%nat ->
  let frame1 := overwrite (take 4 frame0) hdr ++ drop 4 frame0 in
  take 4 frame1 ++ overwrite (drop 4 frame1) payload = hdr ++ payload.
Proof.
  intros Hh Hf frame1. subst frame1.
  rewrite (overwrite_full (take 4 frame0) hdr) by (rewrite length_take; lia).
  rewrite firstn_app_exact, skipn_app_exact by done.
  rewrite overwrite_full; [done|]. rewrite length_drop. lia.
Qed.

Lemma doWriteFrame_bytes t io payload err frame t' :
  doWriteFrame t None io payload = (err, frame, t') ->
  frame = PutUint32 (wrapu32 (Z.of_nat (length payload))) ++ payload /\ err = ConnError <$> io /\
  maxFrameSize t' = maxFrameSize t /\ shutdown t' = shutdown t /\ writeTimeout t' = writeTimeout t.
Proof.
  unfold doWriteFrame. replace (if 0 <? writeTimeout t then None else None) with (@None string)
    by by destruct (0 <? writeTimeout t).
  destruct (Z.of_nat (4 + length payload) <=? reusableWriteBufCap) eqn:Hn; bool_to_prop.
  - intros [= <- <- <-]. split_and!; try reflexivity. apply frame_bytes; [reflexivity|].
    rewrite length_take. case_bool_decide as Hb; rewrite ?length_replicate; lia.
  - intros [= <- <- <-]. split_and!; try reflexivity. rewrite !drop_0.
    by rewrite overwrite_full by by rewrite length_replicate.
Qed.

Lemma ReadMessage_frame t payload rest :
  fits t payload ->
  ReadMessage t (frame_of payload ++ rest) =
  match Unpack payload with
  | None => (inr UnpackError, rest)
  | Some msg => if decide (kindOf msg = MAP) then (inl (mapOf msg), rest) else (inr ExpectedMap, rest)
  end.
Proof.
  intros [Hl Hm]. unfold ReadMessage, frame_of. rewrite <- app_assoc.
  rewrite ReadFull_app by done. rewrite Uint32_PutUint32 by lia.
  destruct (0 <? maxFrameSize t) eqn:E1; cbn [andb].
  - bool_to_prop. rewrite (proj2 (Z.ltb_ge _ _)) by lia.
    rewrite ReadFull_app by lia. by destruct (Unpack payload).
  - rewrite ReadFull_app by lia. by destruct (Unpack payload).
Qed.

(** Frames of a sequence of messages, as successive WriteMessage calls emit them. *)
Fixpoint write_all (t : messageConnAdapter) (ms : list VMap) : option (list ascii) :=
  match ms with
  | [] => Some []
  | m :: ms' =>
      match WriteMessage t None None m with
      | (None, frame, t') => rest ← write_all t' ms'; Some (frame ++ rest)
      | _ => None
      end
  end.

Fixpoint read_all (t : messageConnAdapter) (n : nat) (stream : list ascii) : option (list VMap * list ascii) :=
  match n with
  | O => Some ([], stream)
  | S n' =>
      match ReadMessage t stream with
      | (inl m, stream') => r ← read_all t n' stream'; Some (m :: r.1, r.2)
      | _ => None
      end
  end.

Lemma write_read_one t rt m payload err frame t' rest :
  shutdown t = false -> Pack m = Some payload -> fits rt payload ->
  WriteMessage t None None m = (err, frame, t') ->
  err = None /\ shutdown t' = false /\
  exists m', m' ≡ m /\ ReadMessage rt (frame ++ rest) = (inl m', rest).
Proof.
  intros Hs Hp Hf HW. unfold WriteMessage in HW. rewrite Hs, Hp in HW.
  apply doWriteFrame_bytes in HW as (-> & -> & _ & Hs' & _).
  split_and!; [done|congruence|].
  rewrite wrapu32_id by (destruct Hf; lia). fold (frame_of payload).
  rewrite ReadMessage_frame by done.
  destruct (Unpack_Pack m payload Hp) as (m' & Hu & Heq). rewrite Hu.
  rewrite decide_True by apply kind_MapV. rewrite mapOf_MapV. eauto.
Qed.

(** ** Properties *)

(** Messages written with WriteMessage are read back by ReadMessage, one for one
    and in order, leaving what follows untouched. *)
Theorem framing_roundtrip t rt ms stream rest :
  shutdown t = false ->
  (forall m, m ∈ ms -> exists payload, Pack m = Some payload /\ fits rt payload) ->
  write_all t ms = Some stream ->
  exists ms', read_all rt (length ms) (stream ++ rest) = Some (ms', rest) /\ Forall2 (≡) ms' ms.
Proof.
  revert t stream. induction ms as [|m ms IH]; intros t stream Hs Hall Hw.
  - injection Hw as <-. exists []. by split; [|constructor].
  - destruct (Hall m ltac:(apply elem_of_cons; by left)) as (payload & Hp & Hf).
    cbn in Hw. destruct (WriteMessage t None None m) as [[err frame] t'] eqn:HW.
    destruct (write_all t' ms) as [more|] eqn:Hmore; [|by destruct err].
    destruct (write_read_one t rt m payload err frame t' (more ++ rest) Hs Hp Hf HW)
      as (-> & Hs' & m' & Heq & HR).
    injection Hw as <-. destruct (IH t' more Hs') as (ms' & HR' & HF); [|done|].
    { intros x Hx. apply Hall. apply elem_of_cons. by right. }
    exists (m' :: ms'). cbn. rewrite <- app_assoc, HR, HR'. split; [done|by constructor].
Qed.

(** The adapter's own state: the reusable buffer is not allocated or has its
    full size. *)
Definition adapter_wf (t : messageConnAdapter) : Prop :=
  writeBuf t = [] \/ Z.of_nat (length (writeBuf t)) = reusableWriteBufCap.

Lemma length_overwrite dst src : length (overwrite dst src) = length dst.
Proof. unfold overwrite. rewrite length_app, length_take, length_drop. lia. Qed.

Lemma doWriteFrame_wf t deadline io payload :
  adapter_wf t ->
  let t' := (doWriteFrame t deadline io payload).2 in
  adapter_wf t' /\ maxFrameSize t' = maxFrameSize t /\ writeTimeout t' = writeTimeout t /\ shutdown t' = shutdown t.
Proof.
  intros Hw. unfold doWriteFrame. destruct (if 0 <? writeTimeout t then deadline else None); [done|].
  cbn zeta. destruct (Z.of_nat (4 + length payload) <=? reusableWriteBufCap) eqn:En; cbn [snd]; [|done].
  split_and!; try done. right. cbn [writeBuf]. rewrite length_overwrite. case_bool_decide as Hl.
  - rewrite length_replicate, Z2Nat.id; [done|]. bool_to_prop. lia.
  - destruct Hw as [Hw|Hw]; [|done]. rewrite Hw in Hl. cbn in Hl. lia.
Qed.

Inductive adapter_op := AWrite (deadline io : option string) (msg : VMap) | AClose.

Definition run_adapter_op (t : messageConnAdapter) (op : adapter_op) : messageConnAdapter :=
  match op with AWrite deadline io msg => (WriteMessage t deadline io msg).2 | AClose => CloseConn t end.

(** C37: After any sequence of writes, with any outcome, and closes, a
    connection adapter's reusable buffer is unallocated or has its full size,
    its limits are the constructor's, and once closed every write is refused
    without touching the stream. *)
Theorem adapter_well_formed timeout maxFrame ops :
  let t := foldl run_adapter_op (NewMsgConn timeout maxFrame) ops in
  adapter_wf t /\ maxFrameSize t = maxFrame /\ writeTimeout t = timeout /\
  (AClose ∈ ops -> forall deadline io msg, WriteMessage t deadline io msg = (Some ErrClientClosed, [], t)).
Proof.
  induction ops as [|op ops IH] using rev_ind.
  - cbn. split_and!; try done; [by left|by intros ?%elem_of_nil].
  - cbn zeta in *. rewrite foldl_snoc. set (t := foldl run_adapter_op _ ops) in *. destruct IH as (Hw & Hm & Ht & Hc).
    destruct op as [deadline io msg|]; cbn [run_adapter_op].
    + assert (AClose ∈ ops ++ [AWrite deadline io msg] -> AClose ∈ ops) as Hin.
      { intros [Hin|Hin%list_elem_of_singleton]%elem_of_app; [done|discriminate Hin]. }
      assert (AClose ∈ ops -> shutdown t = true) as Hsh.
      { intros Hcl. specialize (Hc Hcl None None msg). destruct (shutdown t) eqn:Es; [done|]. unfold WriteMessage in Hc.
        rewrite Es in Hc. destruct (Pack msg) as [p|]; [|done]. unfold doWriteFrame in Hc.
        destruct (if 0 <? writeTimeout t then None else None); [done|]. cbn zeta in Hc.
        destruct (Z.of_nat (4 + length p) <=? reusableWriteBufCap); done. }
      assert ((WriteMessage t deadline io msg).2 = t \/
        exists payload, shutdown t = false /\ (WriteMessage t deadline io msg).2 = (doWriteFrame t deadline io payload).2)
        as [-> |(payload & Es & ->)].
      { unfold WriteMessage. destruct (shutdown t); [by left|]. destruct (Pack msg) as [p|]; [|by left]. right. by exists p. }
      * split_and!; auto.
      * destruct (doWriteFrame_wf t deadline io payload Hw) as (Hw' & Hm' & Ht' & _).
        split_and!; [done|congruence|congruence|]. intros Hcl%Hin%Hsh. congruence.
    + split_and!; try done.
Qed.

Theorem frame_limit_enforced t stream n :
  0 < maxFrameSize t -> (4 <= length stream)%nat -> n = Uint32 (take 4 stream) -> maxFrameSize t < n ->
  ReadMessage t stream = (inr (FrameTooLarge n (maxFrameSize t)), drop 4 stream).
Proof.
  intros Hm Hl -> Hn. unfold ReadMessage, ReadFull. rewrite bool_decide_true by done.
  by rewrite (proj2 (Z.ltb_lt _ _) Hm), (proj2 (Z.ltb_lt _ _) Hn).
Qed.

(** C36: A connection cut anywhere inside a frame makes the read fail with EOF
    or unexpected EOF; no partial message is ever delivered. *)
Theorem torn_frame_is_an_error t payload k :
  fits t payload -> (k < 4 + length payload)%nat ->
  exists e, ReadMessage t (take k (frame_of payload)) = (inr e, []) /\ (e = EOF \/ e = UnexpectedEOF).
Proof.
  intros [Hl Hm] Hk. unfold ReadMessage.
  destruct (Nat.lt_ge_cases k 4) as [H4|H4].
  - destruct (ReadFull_short (take k (frame_of payload)) 4) as (e & -> & He); [|by eauto].
    rewrite length_take. lia.
  - assert (take k (frame_of payload) = PutUint32 (Z.of_nat (length payload)) ++ take (k - 4) payload) as ->.
    { unfold frame_of. by rewrite take_app_ge by (rewrite length_PutUint32; lia). }
    rewrite ReadFull_app by done. rewrite Uint32_PutUint32 by lia.
    replace ((0 <? maxFrameSize t) && (maxFrameSize t <? Z.of_nat (length payload))) with false.
    2:{ destruct (0 <? maxFrameSize t) eqn:E; [|done]. bool_to_prop. symmetry.
        cbn. apply Z.ltb_ge. lia. }
    destruct (ReadFull_short (take (k - 4) payload) (Z.to_nat (Z.of_nat (length payload))))
      as (e & -> & He); [|by eauto].
    rewrite length_take. lia.
Qed.

Theorem oversized_payload_desyncs payload t io err frame t' :
  two32 <= Z.of_nat (length payload) ->
  doWriteFrame t None io payload = (err, frame, t') ->
  err = ConnError <$> io /\ length frame = (4 + length payload)%nat /\
  Uint32 (take 4 frame) < Z.of_nat (length payload).
Proof.
  intros Hl HW. apply doWriteFrame_bytes in HW as (-> & -> & _).
  rewrite firstn_app_exact by done. split_and!; [done|by rewrite length_app|].
  pose proof (Z.mod_pos_bound (Z.of_nat (length payload)) two32 ltac:(reflexivity)).
  rewrite Uint32_PutUint32; unfold wrapu32; lia.
Qed.

End framing.

Section framing_witness.
#[local] Existing Instance RefValueLib.

Definition demo_msg : VMap := Put EmptyMap "t" (Some (Long 11)).
Definition demo_conn : messageConnAdapter := NewMsgConn 0 MaxFrameSize.

Lemma demo_payload : exists payload, Pack demo_msg = Some payload /\ fits demo_conn payload.
Proof.
  eexists. split; [reflexivity|]. unfold fits. vm_compute. split; [reflexivity|discriminate].
Qed.

Lemma framing_roundtrip_witness :
  exists stream ms', write_all demo_conn [demo_msg; demo_msg] = Some stream /\
    read_all demo_conn 2 (stream ++ []) = Some (ms', []).
Proof.
  destruct demo_payload as (payload & Hp & Hf).
  destruct (write_all demo_conn [demo_msg; demo_msg]) as [stream|] eqn:E.
  - destruct (framing_roundtrip demo_conn demo_conn [demo_msg; demo_msg] stream []) as (ms' & HR & _).
    + reflexivity.
    + intros m [->|[->|Hn%elem_of_nil]%elem_of_cons]%elem_of_cons; [| |done]; exists payload; done.
    + exact E.
    + exists stream, ms'. split; [reflexivity|exact HR].
  - exfalso. revert E. cbn [write_all]. unfold WriteMessage. rewrite Hp.
    destruct (doWriteFrame demo_conn None None payload) as [[err fr] t1] eqn:E1.
    apply doWriteFrame_bytes in E1 as (_ & -> & _ & Hs & _). cbn. rewrite Hs.
    cbn [shutdown demo_conn NewMsgConn].
    destruct (doWriteFrame t1 None None payload) as [[err2 fr2] t2] eqn:E2.
    apply doWriteFrame_bytes in E2 as (_ & -> & _). cbn. discriminate.
Defined.

Lemma frame_limit_enforced_witness :
  ReadMessage (NewMsgConn 0 2) (PutUint32 3) = (inr (FrameTooLarge 3 2), []).
Proof. apply (frame_limit_enforced (NewMsgConn 0 2) (PutUint32 3) 3); vm_compute; congruence || reflexivity || lia. Defined.

Lemma torn_frame_is_an_error_witness :
  exists e, ReadMessage demo_conn (take 5 (frame_of [byte_of_Z 1; byte_of_Z 2])) = (inr e, []) /\
            (e = EOF \/ e = UnexpectedEOF).
Proof.
  apply (torn_frame_is_an_error demo_conn [byte_of_Z 1; byte_of_Z 2] 5).
  - unfold fits. vm_compute. split; [reflexivity|discriminate].
  - cbn. lia.
Defined.

Lemma oversized_payload_desyncs_witness :
  exists payload frame t', doWriteFrame demo_conn None None payload = (None, frame, t') /\
    Uint32 (take 4 frame) < Z.of_nat (length payload).
Proof.
  exists (replicate (Z.to_nat two32) (byte_of_Z 0)).
  destruct (doWriteFrame demo_conn None None (replicate (Z.to_nat two32) (byte_of_Z 0)))
    as [[err frame] t'] eqn:E.
  destruct (oversized_payload_desyncs (replicate (Z.to_nat two32) (byte_of_Z 0)) demo_conn None err frame t')
    as (-> & _ & Hlt).
  - rewrite length_replicate, Z2Nat.id; unfold two32; lia.
  - exact E.
  - exists frame, t'. split; [reflexivity|exact Hlt].
Defined.
End framing_witness.
