(* ===== verification/Sha256.v ===== *)
(** * SHA-256

    The hash function the resumption chain is built from (Go's crypto/sha256),
    executable, so that chain examples run on the real function.  The chain's
    theorems hold for every function with a 32-byte output; [sha256_length]
    discharges that for this one. *)

From S2P Require Import Prelude.

Definition w32 (z : Z) : Z := Z.land z 0xffffffff.
Definition add32 (a b : Z) : Z := w32 (a + b).
Definition rotr (n x : Z) : Z := Z.lor (Z.shiftr x n) (w32 (Z.shiftl x (32 - n))).
Definition not32 (x : Z) : Z := Z.lxor x 0xffffffff.

Definition Ch (x y z : Z) : Z := Z.lxor (Z.land x y) (Z.land (not32 x) z).
Definition Maj (x y z : Z) : Z := Z.lxor (Z.lxor (Z.land x y) (Z.land x z)) (Z.land y z).
Definition bigSigma0 (x : Z) : Z := Z.lxor (Z.lxor (rotr 2 x) (rotr 13 x)) (rotr 22 x).
Definition bigSigma1 (x : Z) : Z := Z.lxor (Z.lxor (rotr 6 x) (rotr 11 x)) (rotr 25 x).
Definition smallSigma0 (x : Z) : Z := Z.lxor (Z.lxor (rotr 7 x) (rotr 18 x)) (Z.shiftr x 3).
Definition smallSigma1 (x : Z) : Z := Z.lxor (Z.lxor (rotr 17 x) (rotr 19 x)) (Z.shiftr x 10).

(** The constants, from their definition: the first 32 bits of the fractional
    parts of the cube roots (square roots for the initial state) of the first
    primes. *)
Definition is_prime (n : Z) : bool :=
  forallb (fun d => negb (n mod d =? 0)) (map Z.of_nat (seq 2 (Z.to_nat n - 2))).

Definition primes (bound : nat) : list Z :=
  List.filter is_prime (map Z.of_nat (seq 2 (bound - 2))).

(** The greatest [r] with [r ^ k <= n], bit by bit from [bit]. *)
Fixpoint root_loop (k n : Z) (bit : nat) (r : Z) : Z :=
  match bit with
  | O => r
  | S b =>
      let r' := r + 2 ^ Z.of_nat b in
      root_loop k n b (if r' ^ k <=? n then r' else r)
  end.

Definition root_frac32 (k p : Z) : Z := root_loop k (p * 2 ^ (32 * k)) 40 0 mod 2 ^ 32.

Definition K256 : list Z := Eval vm_compute in map (root_frac32 3) (primes 312).

(** The eight working variables. *)
Record hstate := HS { ha : Z; hb : Z; hc : Z; hd : Z; he : Z; hf : Z; hg : Z; hh : Z }.

Definition H256 : hstate := Eval vm_compute in
  match map (root_frac32 2) (primes 20) with
  | [a; b; c; d; e; f; g; h] => HS a b c d e f g h
  | _ => HS 0 0 0 0 0 0 0 0
  end.

Definition round (s : hstate) (kw : Z * Z) : hstate :=
  let '(HS a b c d e f g h) := s in
  let t1 := add32 (add32 (add32 (add32 h (bigSigma1 e)) (Ch e f g)) kw.1) kw.2 in
  let t2 := add32 (bigSigma0 a) (Maj a b c) in
  HS (add32 t1 t2) a b c (add32 d t1) e f g.

(** The message schedule, newest word first. *)
Fixpoint schedule (n : nat) (w : list Z) : list Z :=
  match n with
  | O => w
  | S n' =>
      let x := add32 (add32 (add32 (smallSigma1 (nth 1 w 0)) (nth 6 w 0))
                            (smallSigma0 (nth 14 w 0))) (nth 15 w 0) in
      schedule n' (x :: w)
  end.

Definition addState (s t : hstate) : hstate :=
  HS (add32 (ha s) (ha t)) (add32 (hb s) (hb t)) (add32 (hc s) (hc t)) (add32 (hd s) (hd t))
     (add32 (he s) (he t)) (add32 (hf s) (hf t)) (add32 (hg s) (hg t)) (add32 (hh s) (hh t)).

Definition compress (s : hstate) (block : list Z) : hstate :=
  addState s (foldl round s (zip K256 (rev (schedule 48 (rev block))))).

Fixpoint words_of_bytes (l : list ascii) : list Z :=
  match l with
  | a :: b :: c :: d :: l' =>
      (((Z_of_byte a * 256 + Z_of_byte b) * 256 + Z_of_byte c) * 256 + Z_of_byte d) :: words_of_bytes l'
  | _ => []
  end.

Definition bytes_of_word (w : Z) : list ascii :=
  [byte_of_Z (w / 16777216); byte_of_Z (w / 65536); byte_of_Z (w / 256); byte_of_Z w].

(** Padding: a one bit, zeros up to 56 mod 64, the bit length as a 64-bit word. *)
Definition pad (m : list ascii) : list ascii :=
  let len := Z.of_nat (length m) in
  m ++ byte_of_Z 128 :: replicate (Z.to_nat ((55 - len) mod 64)) (byte_of_Z 0)
    ++ bytes_of_word (8 * len / 4294967296) ++ bytes_of_word (8 * len mod 4294967296).

Fixpoint blocks (fuel : nat) (l : list Z) : list (list Z) :=
  match fuel with
  | O => []
  | S n => match l with [] => [] | _ => take 16 l :: blocks n (drop 16 l) end
  end.

Definition digest (s : hstate) : list ascii :=
  bytes_of_word (ha s) ++ bytes_of_word (hb s) ++ bytes_of_word (hc s) ++ bytes_of_word (hd s) ++
  bytes_of_word (he s) ++ bytes_of_word (hf s) ++ bytes_of_word (hg s) ++ bytes_of_word (hh s).

Definition sha256 (m : list ascii) : list ascii :=
  let ws := words_of_bytes (pad m) in
  digest (foldl compress H256 (blocks (length ws) ws)).

Lemma sha256_length m : length (sha256 m) = 32%nat.
Proof. reflexivity. Qed.

(** FIPS 180-4 test vector: SHA-256 of the bytes of abc. *)
Example sha256_abc :
  Z_of_byte <$> sha256 (bytes_of_string "abc") =
  [0xba; 0x78; 0x16; 0xbf; 0x8f; 0x01; 0xcf; 0xea; 0x41; 0x41; 0x40; 0xde; 0x5d; 0xae; 0x22; 0x23;
   0xb0; 0x03; 0x61; 0xa3; 0x96; 0x17; 0x7a; 0x9c; 0xb4; 0x10; 0xff; 0x61; 0xf2; 0x00; 0x15; 0xad].
Proof. vm_compute. reflexivity. Qed.
