(* ===== verification/HashChain.v ===== *)
(** * The reverse hash chain

    Models valuerpc/hashchain.go (client-held chain, server-side verification)
    and servingClient.authorizeResume of valueserver/serving_client.go, which
    gates session resumption with it.  Go's encoding/hex is modelled as used;
    SHA-256 is a parameter [H] with a 32-byte output, instantiated in Sha256.v. *)

From S2P Require Import Prelude Sha256.

(** ** encoding/hex *)

Definition hexdigits : list ascii := bytes_of_string "0123456789abcdef".

Definition hex_digit (n : Z) : ascii := nth (Z.to_nat n) hexdigits "0"%char.

Definition fromHexChar (c : ascii) : option Z :=
  let z := Z_of_byte c in
  if (48 <=? z) && (z <=? 57) then Some (z - 48)
  else if (97 <=? z) && (z <=? 102) then Some (z - 87)
  else if (65 <=? z) && (z <=? 70) then Some (z - 55)
  else None.

Definition hexByte (b : ascii) : list ascii :=
  [hex_digit (Z_of_byte b / 16); hex_digit (Z_of_byte b mod 16)].

Definition EncodeToString (l : list ascii) : string := string_of_bytes (flat_map hexByte l).

(** hex.Decode; [None] is an error (invalid byte or odd length). *)
Fixpoint hexDecode (l : list ascii) : option (list ascii) :=
  match l with
  | [] => Some []
  | [_] => None
  | a :: b :: l' =>
      x ← fromHexChar a; y ← fromHexChar b; rest ← hexDecode l';
      Some (byte_of_Z (16 * x + y) :: rest)
  end.

(** ** Constants *)

Definition DefaultHashChainLen : Z := 10000.
Definition DefaultResyncWindow : Z := 1024.
Definition hashChainLinkBytes : nat := 32.

Definition decodeLink (s : string) : option (list ascii) :=
  if negb (bool_decide (String.length s = 2 * hashChainLinkBytes)%nat) then None
  else hexDecode (bytes_of_string s).

Section hashchain.
Context (H : list ascii -> list ascii).
Hypothesis H_len : forall x, length (H x) = hashChainLinkBytes.

(** ** The client's chain *)

Record HashChain := mkChain {
  links : list (list ascii);      (* links[0] = seed ... links[n] = anchor *)
  next : Z                        (* index of the next pre-image to reveal *)
}.

(** The loop [links[i] = sha256.Sum256(links[i-1])]. *)
Fixpoint hash_links (x : list ascii) (n : nat) : list (list ascii) :=
  match n with O => [x] | S n' => x :: hash_links (H x) n' end.

(** [seed] is what rand.Read filled links[0] with; [None] when it failed. *)
Definition NewHashChain (seed : option (list ascii)) (n : Z) : option HashChain :=
  let n := if n <=? 0 then DefaultHashChainLen else n in
  match seed with
  | None => None
  | Some x => Some (mkChain (hash_links x (Z.to_nat n)) (n - 1))
  end.

Definition Anchor (c : HashChain) : string :=
  EncodeToString (nth (length (links c) - 1) (links c) []).

Definition Next (c : HashChain) : string * HashChain :=
  if next c <? 0 then ("", c)
  else (EncodeToString (nth (Z.to_nat (next c)) (links c) []), mkChain (links c) (next c - 1)).

Definition Remaining (c : HashChain) : Z := next c + 1.

(** ** The server's check *)

(** The loop [for step := 1; step <= window; step++], [n] iterations left. *)
Fixpoint verify_loop (h target : list ascii) (step : Z) (n : nat) : Z * bool :=
  match n with
  | O => (0, false)
  | S n' =>
      let h' := H h in
      if bool_decide (h' = target) then (step, true) else verify_loop h' target (step + 1) n'
  end.

Definition VerifyHashStep (presented lastVerified : string) (window : Z) : Z * bool :=
  match decodeLink presented with
  | None => (0, false)
  | Some cur =>
      match decodeLink lastVerified with
      | None => (0, false)
      | Some target =>
          let window := if window <=? 0 then DefaultResyncWindow else window in
          verify_loop cur target 1 (Z.to_nat window)
      end
  end.

Definition SameToken (a b : string) : bool :=
  match decodeLink a with
  | None => false
  | Some da => match decodeLink b with
               | None => false
               | Some db => bool_decide (da = db)
               end
  end.

(** servingClient.authorizeResume: whether the resumption is authorized, and
    the session's resumeToken afterwards. *)
Definition authorizeResume (resumeToken presented : string) : bool * string :=
  if (VerifyHashStep presented resumeToken DefaultResyncWindow).2 then (true, presented)
  else if SameToken presented resumeToken then (true, resumeToken)
  else (false, resumeToken).

(** ** Lemmas *)

#[local] Arguments hex_digit : simpl never.
#[local] Arguments fromHexChar : simpl never.
#[local] Arguments Z.div : simpl never.
#[local] Arguments Z.modulo : simpl never.

Lemma fromHexChar_hex_digit n : 0 <= n < 16 -> fromHexChar (hex_digit n) = Some n.
Proof.
  intros Hn. rewrite <- (Z2Nat.id n) by lia.
  assert (Z.to_nat n < 16)%nat as Hm by lia. generalize dependent (Z.to_nat n). clear.
  intros m Hm. do 16 (destruct m as [|m]; [reflexivity|]). lia.
Qed.

Lemma hexDecode_encode l : hexDecode (flat_map hexByte l) = Some l.
Proof.
  induction l as [|b l IH]; [done|]. cbn.
  pose proof (Z_of_byte_range b) as Hb.
  rewrite !fromHexChar_hex_digit;
    [|split; [apply Z.div_pos; lia | apply Z.div_lt_upper_bound; lia] | apply Z.mod_pos_bound; lia].
cbn. rewrite IH. cbn [mbind option_bind]. do 2 f_equal.
  rewrite <- Z.div_mod by lia. apply byte_of_Z_of_byte.
Qed.

Lemma length_EncodeToString l : String.length (EncodeToString l) = (2 * length l)%nat.
Proof.
  unfold EncodeToString. induction l as [|b l IH]; [done|]. cbn in *. rewrite IH. lia.
Qed.

Lemma decodeLink_encode l :
  length l = hashChainLinkBytes -> decodeLink (EncodeToString l) = Some l.
Proof.
  intros Hl. unfold decodeLink. rewrite length_EncodeToString, Hl, bool_decide_true by done.
  unfold EncodeToString. cbn [negb]. rewrite bytes_of_string_of_bytes. apply hexDecode_encode.
Qed.

Lemma verify_loop_spec h target step n k ok :
  verify_loop h target step n = (k, ok) ->
  if ok then exists i, (1 <= i <= n)%nat /\ k = step + Z.of_nat i - 1 /\ iter_fun H i h = target /\
                       (forall j, (1 <= j < i)%nat -> iter_fun H j h <> target)
  else k = 0 /\ forall i, (1 <= i <= n)%nat -> iter_fun H i h <> target.
Proof.
  revert h step. induction n as [|n IH]; intros h step; cbn.
  - intros [= <- <-]. split; [done|lia].
  - case_bool_decide as E.
    + intros [= <- <-]. exists 1%nat. split_and!; [lia..|lia|done|lia].
    + intros Hv. specialize (IH _ _ Hv). destruct ok.
      * destruct IH as (i & Hi & -> & Ht & Hmin). exists (S i). split_and!; [lia..|lia|done|].
        intros [|[|j]] Hj; [lia|done|]. cbn. apply (Hmin (S j)). lia.
      * destruct IH as [-> Hn]. split; [done|]. intros [|[|i]] Hi; [lia|done|].
        cbn. apply (Hn (S i)). lia.
Qed.

Lemma verify_loop_complete h target step n i :
  (1 <= i <= n)%nat -> iter_fun H i h = target -> (verify_loop h target step n).2 = true.
Proof.
  intros Hi Ht. destruct (verify_loop h target step n) as [k ok] eqn:E.
  apply verify_loop_spec in E. destruct ok; [done|]. destruct E as [_ E].
  exfalso. by apply (E i).
Qed.

Lemma hash_links_lookup x n i : (i <= n)%nat -> hash_links x n !! i = Some (iter_fun H i x).
Proof.
  revert x i. induction n as [|n IH]; intros x [|i] Hi; cbn; try done; [lia|].
  apply IH. lia.
Qed.

Lemma length_hash_links x n : length (hash_links x n) = S n.
Proof. revert x. induction n as [|n IH]; intros x; cbn; [done|]. by rewrite IH. Qed.

Lemma hash_links_nth x n i : (i <= n)%nat -> nth i (hash_links x n) [] = iter_fun H i x.
Proof. intros Hi. apply nth_lookup_Some. by apply hash_links_lookup. Qed.

Lemma iter_H_length x n : length x = hashChainLinkBytes -> length (iter_fun H n x) = hashChainLinkBytes.
Proof. destruct n; [done|]. rewrite iter_fun_S. intros _. apply H_len. Qed.

(** A link [i] of a chain grown from [seed], as the wire carries it. *)
Definition link_token (seed : list ascii) (i : nat) : string := EncodeToString (iter_fun H i seed).

Lemma decode_link_token seed i :
  length seed = hashChainLinkBytes -> decodeLink (link_token seed i) = Some (iter_fun H i seed).
Proof. intros Hs. apply decodeLink_encode. by apply iter_H_length. Qed.

(** A link [g] steps before the last accepted one is authorized, for any gap the
    window covers, and becomes the new last accepted one. *)
Lemma authorizeResume_forward seed i g :
  length seed = hashChainLinkBytes -> 1 <= Z.of_nat g <= DefaultResyncWindow ->
  authorizeResume (link_token seed (i + g)) (link_token seed i) = (true, link_token seed i).
Proof.
  intros Hs Hg. unfold authorizeResume, VerifyHashStep.
  rewrite !decode_link_token by done. cbn [Z.leb DefaultResyncWindow].
  rewrite (verify_loop_complete _ _ _ _ g); [done| |by rewrite iter_fun_add].
  unfold DefaultResyncWindow in *. split; [lia|].
  change (if 1024 <=? 0 then 1024 else 1024) with 1024. lia.
Qed.

(** No power of [H] up to [bound] returns to [x]. *)
Definition no_cycle (x : list ascii) (bound : nat) : Prop :=
  forall k, (1 <= k <= bound)%nat -> iter_fun H k x <> x.

(** A link revealed before the last accepted one is refused. *)
Lemma authorizeResume_old_link seed i k n :
  length seed = hashChainLinkBytes -> (1 <= k <= n)%nat ->
  no_cycle (iter_fun H i seed) (n + Z.to_nat DefaultResyncWindow) ->
  authorizeResume (link_token seed i) (link_token seed (i + k)) = (false, link_token seed i).
Proof.
  intros Hs Hk Hnc. unfold authorizeResume, VerifyHashStep, SameToken.
  rewrite !decode_link_token by done.
  change (if DefaultResyncWindow <=? 0 then DefaultResyncWindow else DefaultResyncWindow)
    with DefaultResyncWindow.
  destruct (verify_loop _ _ 1 _) as [s ok] eqn:E. apply verify_loop_spec in E.
  rewrite iter_fun_add in *. destruct ok; cbn.
  - destruct E as (j & Hj & _ & Ht & _). exfalso. rewrite <- iter_fun_add in Ht.
    by apply (Hnc (k + j)%nat); [lia|].
  - rewrite bool_decide_false; [done|]. apply (Hnc k). lia.
Qed.


(** The chain after [k] calls of [Next]. *)
Fixpoint next_n (k : nat) (c : HashChain) : HashChain :=
  match k with O => c | S k' => next_n k' (Next c).2 end.

Lemma next_n_state k seed n :
  (Z.of_nat k <= Z.of_nat n) ->
  next_n k (mkChain (hash_links seed n) (Z.of_nat n - 1)) =
  mkChain (hash_links seed n) (Z.of_nat n - Z.of_nat k - 1).
Proof.
  intros Hk. assert (forall m, Z.of_nat k <= m ->
    next_n k (mkChain (hash_links seed n) (m - 1)) = mkChain (hash_links seed n) (m - Z.of_nat k - 1)) as Hg.
  { clear Hk. induction k as [|k IH]; intros m Hm; cbn [next_n].
    - f_equal. lia.
    - unfold Next. cbn [next links snd]. rewrite (proj2 (Z.ltb_ge _ _)) by lia. cbn [snd].
      rewrite IH by lia. f_equal. lia. }
  by apply Hg.
Qed.

(** ** Properties *)

Theorem VerifyHashStep_correct presented lastVerified window k ok :
  VerifyHashStep presented lastVerified window = (k, ok) ->
  let w := if window <=? 0 then DefaultResyncWindow else window in
  (ok = true <-> exists cur target i, decodeLink presented = Some cur /\
      decodeLink lastVerified = Some target /\ 1 <= i <= w /\
      iter_fun H (Z.to_nat i) cur = target /\ k = i /\
      forall j, 1 <= j < i -> iter_fun H (Z.to_nat j) cur <> target) /\
  (ok = false -> k = 0 /\ forall cur target i, decodeLink presented = Some cur ->
      decodeLink lastVerified = Some target -> 1 <= i <= w ->
      iter_fun H (Z.to_nat i) cur <> target).
Proof.
  intros Hv w. unfold VerifyHashStep in Hv.
  destruct (decodeLink presented) as [cur|]; [|injection Hv as <- <-; naive_solver].
  destruct (decodeLink lastVerified) as [target|]; [|injection Hv as <- <-; naive_solver].
  fold w in Hv. apply verify_loop_spec in Hv. destruct ok.
  - split; [|done]. split; [intros _|done].
    destruct Hv as (i & Hi & -> & Ht & Hmin). exists cur, target, (Z.of_nat i).
    rewrite Nat2Z.id. split_and!; [done..|lia|lia|done|lia|].
    intros j Hj. apply Hmin. lia.
  - destruct Hv as [-> Hn]. split.
    + split; [done|]. intros (cur' & target' & i & [= <-] & [= <-] & Hi & Ht & _).
      exfalso. apply (Hn (Z.to_nat i)); [lia|done].
    + intros _. split; [done|]. intros cur' target' i [= <-] [= <-] Hi. apply Hn. lia.
Qed.

(** A chain of n links reveals, on its k-th use, exactly the (n-1-k)-fold hash
    of the seed below its anchor, counts down its remaining links, and returns
    the empty link when exhausted. *)
Theorem chain_reveals_in_order seed n c k :
  NewHashChain (Some seed) n = Some c -> 0 < n -> 0 <= Z.of_nat k <= n ->
  Anchor c = link_token seed (Z.to_nat n) /\
  Remaining (next_n k c) = n - Z.of_nat k /\
  (Next (next_n k c)).1 =
    (if Z.of_nat k <? n then link_token seed (Z.to_nat (n - 1 - Z.of_nat k)) else "").
Proof.
  intros Hc Hn Hk. unfold NewHashChain in Hc. rewrite (proj2 (Z.leb_gt _ _)) in Hc by lia.
  injection Hc as <-. pose proof (next_n_state k seed (Z.to_nat n) ltac:(lia)) as Hst.
  rewrite Z2Nat.id in Hst by lia. rewrite Hst. split_and!.
  - unfold Anchor. cbn [links]. rewrite length_hash_links.
    replace (S (Z.to_nat n) - 1)%nat with (Z.to_nat n) by lia. by rewrite hash_links_nth.
  - unfold Remaining. cbn. lia.
  - unfold Next. cbn [next links]. destruct (Z.of_nat k <? n) eqn:E; bool_to_prop.
    + rewrite (proj2 (Z.ltb_ge _ _)) by lia. cbn [fst].
      rewrite hash_links_nth by lia. unfold link_token. do 2 f_equal. lia.
    + by rewrite (proj2 (Z.ltb_lt _ _)) by lia.
Qed.

Lemma authorizeResume_sound tok presented ok tok' :
  authorizeResume tok presented = (ok, tok') ->
  (ok = true <-> exists cur last, decodeLink presented = Some cur /\ decodeLink tok = Some last /\
      exists i, 0 <= i <= DefaultResyncWindow /\ iter_fun H (Z.to_nat i) cur = last) /\
  (ok = false -> tok' = tok) /\
  (ok = true -> tok' = presented \/ (tok' = tok /\ decodeLink presented = decodeLink tok)).
Proof.
  unfold authorizeResume. destruct (VerifyHashStep presented tok DefaultResyncWindow) as [k b] eqn:E.
  unfold VerifyHashStep, SameToken in *.
  change (if DefaultResyncWindow <=? 0 then DefaultResyncWindow else DefaultResyncWindow)
    with DefaultResyncWindow in E.
  destruct (decodeLink presented) as [cur|] eqn:Ep; [|injection E as <- <-; cbn; intros [= <- <-]; naive_solver].
  destruct (decodeLink tok) as [last|] eqn:Et; [|injection E as <- <-; cbn; intros [= <- <-]; naive_solver].
  apply verify_loop_spec in E. destruct b; cbn.
  - destruct E as (i & Hi & _ & Ht & _). intros [= <- <-]. split_and!; [|done|auto].
    split; [intros _|done]. exists cur, last. split_and!; [done..|]. exists (Z.of_nat i).
    rewrite Nat2Z.id. split; [lia|done].
  - destruct E as [_ Hn]. case_bool_decide as Eq; intros [= <- <-]; subst; split_and!; auto; try done.
    + split; [intros _|done]. exists last, last. split_and!; [done..|]. exists 0.
      split; [unfold DefaultResyncWindow; lia|done].
    + split; [done|]. intros (cur' & last' & [= <-] & [= <-] & i & Hi & Ht). exfalso.
      destruct (Z.eq_dec i 0) as [->|]; [done|]. apply (Hn (Z.to_nat i)); [lia|done].
Qed.

(** C9: A session is resumed exactly when the presented reverse-hash-chain
    link and the stored token both decode and the presented link hashes
    forward to the stored one in at most DefaultResyncWindow steps; a refused
    attempt leaves the stored token unchanged, an accepted one stores the
    presented link (or keeps an equal one). *)
Theorem authorizeResume_correct tok presented ok tok' :
  authorizeResume tok presented = (ok, tok') ->
  (ok = true <-> exists cur last, decodeLink presented = Some cur /\ decodeLink tok = Some last /\
      exists i, 0 <= i <= DefaultResyncWindow /\ iter_fun H (Z.to_nat i) cur = last) /\
  (ok = false -> tok' = tok) /\
  (ok = true -> tok' = presented \/ (tok' = tok /\ decodeLink presented = decodeLink tok)).
Proof. apply authorizeResume_sound. Qed.

(** When the hash has no short cycle through the current link, every link
    revealed before the one the server holds is refused and leaves the
    session's token unchanged. *)
Theorem replayed_link_refused seed i k n :
  length seed = hashChainLinkBytes -> (1 <= k <= n)%nat ->
  no_cycle (iter_fun H i seed) (n + Z.to_nat DefaultResyncWindow) ->
  authorizeResume (link_token seed i) (link_token seed (i + k)) = (false, link_token seed i).
Proof. apply authorizeResume_old_link. Qed.

Theorem current_link_replay_accepted tok :
  is_Some (decodeLink tok) -> exists tok', authorizeResume tok tok = (true, tok').
Proof.
  intros [x Hx]. unfold authorizeResume, SameToken. rewrite Hx, bool_decide_true by done.
  destruct (VerifyHashStep tok tok DefaultResyncWindow).2; eauto.
Qed.

Theorem no_resumption_without_link tok presented :
  decodeLink tok = None \/ decodeLink presented = None ->
  authorizeResume tok presented = (false, tok).
Proof.
  unfold authorizeResume, VerifyHashStep, SameToken. intros [E|E]; rewrite E.
  - by destruct (decodeLink presented).
  - done.
Qed.

End hashchain.

Section hashchain_witness.
(** A seed of 32 zero bytes; the hash is SHA-256, or a toy hash (a 32-byte counter)
    where the full window is walked. *)
Definition zero_seed : list ascii := replicate 32 (byte_of_Z 0).

Definition toy_hash (x : list ascii) : list ascii :=
  match x with
  | a :: b :: _ =>
      (if Z_of_byte a =? 255 then [byte_of_Z 0; byte_of_Z (Z_of_byte b + 1)]
       else [byte_of_Z (Z_of_byte a + 1); b]) ++ replicate 30 (byte_of_Z 0)
  | _ => replicate 32 (byte_of_Z 0)
  end.

Lemma toy_hash_length x : length (toy_hash x) = hashChainLinkBytes.
Proof. destruct x as [|a [|b x]]; cbn; try done. by destruct (_ =? 255). Qed.

Fixpoint no_return (h : list ascii -> list ascii) (x y : list ascii) (n : nat) : bool :=
  match n with O => true | S n' => negb (bool_decide (h y = x)) && no_return h x (h y) n' end.

Lemma no_return_sound h x y n k :
  no_return h x y n = true -> (1 <= k <= n)%nat -> iter_fun h k y <> x.
Proof.
  revert y k. induction n as [|n IH]; intros y k; cbn; [lia|].
  intros [Hh Hr]%andb_prop Hk. destruct k as [|[|k]]; [lia| |].
  - cbn. intros E. by rewrite bool_decide_true in Hh.
  - cbn. apply (IH _ (S k)); [done|lia].
Qed.

Lemma VerifyHashStep_correct_witness :
  VerifyHashStep sha256 (link_token sha256 zero_seed 1) (link_token sha256 zero_seed 3) 0 = (2, true) /\
  (1 <= 2 <= DefaultResyncWindow).
Proof.
  assert (VerifyHashStep sha256 (link_token sha256 zero_seed 1) (link_token sha256 zero_seed 3) 0
          = (2, true)) as E by (vm_compute; reflexivity).
  split; [exact E|].
  destruct (proj1 (proj1 (VerifyHashStep_correct sha256 _ _ _ _ _ E)) eq_refl)
    as (cur & target & i & _ & _ & Hi & _ & Hk & _).
  rewrite <- Hk in Hi. exact Hi.
Defined.

Lemma chain_reveals_in_order_witness :
  Anchor (mkChain (hash_links sha256 zero_seed 3) 2) = link_token sha256 zero_seed 3.
Proof.
  apply (chain_reveals_in_order sha256 zero_seed 3 (mkChain (hash_links sha256 zero_seed 3) 2) 1).
  - reflexivity.
  - lia.
  - lia.
Defined.

Lemma authorizeResume_correct_witness :
  exists i, 0 <= i <= DefaultResyncWindow /\
    iter_fun sha256 (Z.to_nat i) (iter_fun sha256 1 zero_seed) = iter_fun sha256 2 zero_seed.
Proof.
  assert (authorizeResume sha256 (link_token sha256 zero_seed 2) (link_token sha256 zero_seed 1)
          = (true, link_token sha256 zero_seed 1)) as E by (vm_compute; reflexivity).
  destruct (proj1 (proj1 (authorizeResume_correct sha256 _ _ _ _ E)) eq_refl)
    as (cur & last & Hp & Ht & i & Hi & He).
  assert (cur = iter_fun sha256 1 zero_seed) as -> by (vm_compute in Hp; injection Hp as <-; reflexivity).
  assert (last = iter_fun sha256 2 zero_seed) as -> by (vm_compute in Ht; injection Ht as <-; reflexivity).
  exists i. split; [exact Hi | exact He].
Defined.

Lemma replayed_link_refused_witness :
  authorizeResume toy_hash (link_token toy_hash zero_seed 5) (link_token toy_hash zero_seed 7) =
  (false, link_token toy_hash zero_seed 5).
Proof.
  apply (replayed_link_refused toy_hash toy_hash_length zero_seed 5 2 3).
  - reflexivity.
  - lia.
  - intros k Hk. apply (no_return_sound _ _ _ (3 + Z.to_nat DefaultResyncWindow)); [|exact Hk].
    vm_compute. reflexivity.
Defined.

Lemma current_link_replay_accepted_witness :
  exists tok', authorizeResume sha256 (link_token sha256 zero_seed 1) (link_token sha256 zero_seed 1)
               = (true, tok').
Proof. apply current_link_replay_accepted. eexists. vm_compute. reflexivity. Defined.

Lemma no_resumption_without_link_witness :
  authorizeResume sha256 "" (link_token sha256 zero_seed 1) = (false, "").
Proof. apply no_resumption_without_link. left. reflexivity. Defined.
End hashchain_witness.
