(* ===== verification/Credit.v ===== *)
(** * The credit gate: sender side of stream flow control

    Models valuerpc/credit.go.  The mutex makes every method atomic; the
    condition variable makes [Acquire] wait, which is a blocked call here
    ([None]) that may be retried after any other operation. *)

From S2P Require Import Prelude.

Record CreditGate := mkGate { credit : Z; closed : bool }.

Definition NewCreditGate : CreditGate := mkGate 0 false.

(** [Acquire]: [None] while the loop waits, otherwise the result and new state. *)
Definition Acquire (g : CreditGate) : option (bool * CreditGate) :=
  if (credit g <=? 0) && negb (closed g) then None
  else if closed g then Some (false, g)
  else Some (true, mkGate (wrap64 (credit g - 1)) (closed g)).

Definition Grant (n : Z) (g : CreditGate) : CreditGate :=
  if n <=? 0 then g else mkGate (wrap64 (credit g + n)) (closed g).

Definition CloseGate (g : CreditGate) : CreditGate := mkGate (credit g) true.

(** ** Operation sequences *)

Inductive gate_op := OpAcquire | OpGrant (n : Z) | OpClose.

(** Runs a sequence of operations; a blocked [Acquire] is left waiting and does
    not change the gate.  Returns the gate and the number of credits handed out. *)
Fixpoint run_ops (ops : list gate_op) (g : CreditGate) : CreditGate * Z :=
  match ops with
  | [] => (g, 0)
  | OpAcquire :: ops' =>
      match Acquire g with
      | Some (true, g') => let '(g'', n) := run_ops ops' g' in (g'', n + 1)
      | Some (false, g') => run_ops ops' g'
      | None => run_ops ops' g
      end
  | OpGrant n :: ops' => run_ops ops' (Grant n g)
  | OpClose :: ops' => run_ops ops' (CloseGate g)
  end.

(** Credits granted by a sequence (non-positive grants are ignored). *)
Fixpoint granted (ops : list gate_op) : Z :=
  match ops with
  | [] => 0
  | OpGrant n :: ops' => Z.max 0 n + granted ops'
  | _ :: ops' => granted ops'
  end.

(** ** Lemmas *)

Lemma granted_nonneg ops : 0 <= granted ops.
Proof. induction ops as [|[] ops IH]; cbn; lia. Qed.

Lemma Acquire_true g g' :
  0 <= credit g < two63 -> Acquire g = Some (true, g') ->
  0 < credit g /\ credit g' = credit g - 1 /\ closed g' = closed g /\ closed g = false.
Proof.
  unfold Acquire. intros Hr. destruct (closed g) eqn:Hc.
  - by rewrite andb_false_r.
  - rewrite andb_true_r. destruct (credit g <=? 0) eqn:E; [done|]. intros [= <-]. cbn.
    apply Z.leb_gt in E. rewrite wrap64_id by auto with vrpc. lia.
Qed.

Lemma Acquire_blocks_iff g : Acquire g = None <-> credit g <= 0 /\ closed g = false.
Proof.
  unfold Acquire. destruct (closed g); cbn.
  - rewrite andb_false_r. naive_solver.
  - rewrite andb_true_r. destruct (credit g <=? 0) eqn:E; bool_to_prop; naive_solver lia.
Qed.

Lemma Grant_exact n g :
  0 <= credit g -> credit g + Z.max 0 n < two63 ->
  credit (Grant n g) = credit g + Z.max 0 n /\ closed (Grant n g) = closed g.
Proof.
  intros H0 Hb. unfold Grant. destruct (n <=? 0) eqn:E; bool_to_prop; cbn; split; try done; [lia|].
  rewrite wrap64_id by auto with vrpc. lia.
Qed.

(** Conservation over any sequence: credits handed out plus credits left are the
    credits there were plus the credits granted. *)
Lemma run_ops_conserves ops g :
  0 <= credit g -> credit g + granted ops < two63 ->
  let '(g', n) := run_ops ops g in
  0 <= n /\ 0 <= credit g' /\ n + credit g' = credit g + granted ops.
Proof.
  revert g. induction ops as [|op ops IH]; intros g H0 Hb; cbn; [lia|].
  pose proof (granted_nonneg ops) as Hg.
  destruct op as [|n|]; cbn in Hb.
  - destruct (Acquire g) as [[[] g']|] eqn:E.
    + apply Acquire_true in E as (Hp & Hc & _); [|lia].
      specialize (IH g' ltac:(lia) ltac:(lia)). destruct (run_ops ops g'). lia.
    + assert (g' = g) as -> by (unfold Acquire in E; repeat case_match; naive_solver).
      specialize (IH g ltac:(lia) ltac:(lia)). destruct (run_ops ops g). lia.
    + specialize (IH g ltac:(lia) ltac:(lia)). destruct (run_ops ops g). lia.
  - destruct (Grant_exact n g) as [Hc _]; [lia..|].
    specialize (IH (Grant n g) ltac:(lia) ltac:(lia)). destruct (run_ops ops (Grant n g)). lia.
  - specialize (IH (CloseGate g) ltac:(cbn; lia) ltac:(cbn; lia)).
    destruct (run_ops ops (CloseGate g)). cbn in *. lia.
Qed.

Lemma closed_forever ops g : closed g = true -> closed (run_ops ops g).1 = true /\ (run_ops ops g).2 = 0.
Proof.
  revert g. induction ops as [|[|n|] ops IH]; intros g Hc; cbn; [done|..].
  - unfold Acquire. rewrite Hc, andb_false_r. cbn. by apply IH.
  - apply IH. unfold Grant. by destruct (n <=? 0).
  - by apply IH.
Qed.

(** ** Properties *)

Theorem credit_gate_safe ops :
  granted ops < two63 ->
  let '(g, acquired) := run_ops ops NewCreditGate in
  0 <= acquired <= granted ops /\ credit g = granted ops - acquired.
Proof.
  intros Hb. pose proof (run_ops_conserves ops NewCreditGate) as Hc. cbn in Hc.
  specialize (Hc ltac:(lia) ltac:(lia)). destruct (run_ops ops NewCreditGate) as [g n]. lia.
Qed.

Lemma credit_gate_safe_witness :
  let '(g, acquired) := run_ops [OpAcquire; OpGrant 2; OpAcquire; OpAcquire; OpAcquire] NewCreditGate in
  0 <= acquired <= 2 /\ credit g = 2 - acquired.
Proof.
  apply (credit_gate_safe [OpAcquire; OpGrant 2; OpAcquire; OpAcquire; OpAcquire]).
  vm_compute. reflexivity.
Defined.

Theorem credit_gate_progress g :
  (exists r, Acquire (CloseGate g) = Some (false, r)) /\
  (closed g = false -> 0 < credit g < two63 ->
   Acquire g = Some (true, mkGate (credit g - 1) false)) /\
  (closed g = false -> 0 <= credit g -> forall n, 0 < n -> credit g + n < two63 ->
   Acquire (Grant n g) = Some (true, mkGate (credit g + n - 1) false)).
Proof.
  split; [|split].
  - unfold Acquire, CloseGate. cbn. rewrite andb_false_r. eauto.
  - intros Hc Hr. unfold Acquire. rewrite Hc, (proj2 (Z.leb_gt _ _)) by lia. cbn.
    by rewrite wrap64_id by auto with vrpc.
  - intros Hc H0 n Hn Hb. unfold Acquire, Grant.
    rewrite (proj2 (Z.leb_gt n 0)) by lia. cbn [credit closed].
    rewrite (wrap64_id (credit g + n)) by auto with vrpc.
    rewrite Hc, (proj2 (Z.leb_gt _ _)) by lia. cbn.
    by rewrite wrap64_id by auto with vrpc.
Qed.

Lemma credit_gate_progress_witness :
  Acquire (Grant 3 NewCreditGate) = Some (true, mkGate 2 false).
Proof.
  apply (proj2 (proj2 (credit_gate_progress NewCreditGate)) eq_refl ltac:(cbn; lia) 3 ltac:(lia)).
  vm_compute. reflexivity.
Defined.

Theorem credit_overflow_stalls :
  let big := two63 - 1 in
  let g := Grant big (Grant big NewCreditGate) in
  closed g = false /\ credit g = -2 /\ Acquire g = None.
Proof. vm_compute. auto. Qed.
