(* ===== verification/Pump.v ===== *)
(** * The stream pump

    Models valuerpc/pump.go: the bounded queue between a connection's shared
    read loop and one application channel.  The queue is a Go slice with an
    explicit head index, compacted in place and reset when it drains, so the
    model keeps the slice length, its capacity and the head; the pump goroutine
    [run] is a program counter over its two atomic sections (the locked one that
    takes a value, the channel send outside the lock).

    [V] is the element type with [nilv] the Go [nil] written over consumed
    slots; [growcap] is the capacity [append] picks for a full slice of a given
    length, which the language leaves open beyond being large enough. *)

From S2P Require Import Prelude.

Definition DefaultMaxPending : Z := 4096.

Section pump.
Context {V : Type} (nilv : V) (growcap : nat -> nat).

(** Where the pump goroutine is. *)
Inductive pump_pc := AtLock | Sending (v : V) | Finished.

Record StreamPump := mkPump {
  queue : list V;
  qcap : nat;
  head : nat;
  inputEnd : bool;
  overflow : bool;
  stopped : bool;        (* stopCh is closed *)
  maxPending : Z;
  pc : pump_pc;
  outSent : list V;      (* values sent into out, oldest first *)
  outCloses : nat        (* how many times out was closed *)
}.

Definition NewStreamPump (maxp : Z) : StreamPump :=
  mkPump [] 0 0 false false false (if maxp <=? 0 then DefaultMaxPending else maxp) AtLock [] 0.

Definition set_queue (p : StreamPump) (q : list V) (c h : nat) : StreamPump :=
  mkPump q c h (inputEnd p) (overflow p) (stopped p) (maxPending p) (pc p) (outSent p) (outCloses p).
Definition set_pc (p : StreamPump) (x : pump_pc) : StreamPump :=
  mkPump (queue p) (qcap p) (head p) (inputEnd p) (overflow p) (stopped p) (maxPending p) x
    (outSent p) (outCloses p).

(** [copy(queue, queue[head:])], nil out the tail, reslice to the live part. *)
Definition compact (q : list V) (h : nat) : list V :=
  let live := drop h q in
  let n := length live in
  let q1 := live ++ drop n q in
  let q2 := take n q1 ++ replicate (length q1 - n) nilv in
  take n q2.

Definition append (p : StreamPump) (v : V) : StreamPump :=
  let len := length (queue p) in
  let c := if bool_decide (len < qcap p)%nat then qcap p else growcap len in
  set_queue p (queue p ++ [v]) c (head p).

Definition pendingLen (p : StreamPump) : Z := Z.of_nat (length (queue p)) - Z.of_nat (head p).

Definition Push (v : V) (p : StreamPump) : bool * StreamPump :=
  if inputEnd p || stopped p then (false, p)
  else if maxPending p <=? pendingLen p then
    (false, mkPump (queue p) (qcap p) (head p) true true (stopped p) (maxPending p) (pc p)
              (outSent p) (outCloses p))
  else
    let p' := if bool_decide (0 < head p)%nat && bool_decide (length (queue p) = qcap p)
              then set_queue p (compact (queue p) (head p)) (qcap p) 0 else p in
    (true, append p' v).

Definition Close (p : StreamPump) : StreamPump :=
  mkPump (queue p) (qcap p) (head p) true (overflow p) (stopped p) (maxPending p) (pc p)
    (outSent p) (outCloses p).

Definition Stop (p : StreamPump) : StreamPump :=
  mkPump (queue p) (qcap p) (head p) (inputEnd p) (overflow p) true (maxPending p) (pc p)
    (outSent p) (outCloses p).

Definition Overflowed (p : StreamPump) : bool := overflow p.

(** [return] from [run]: the deferred [close(p.out)]. *)
Definition finish (p : StreamPump) : StreamPump :=
  mkPump (queue p) (qcap p) (head p) (inputEnd p) (overflow p) (stopped p) (maxPending p) Finished
    (outSent p) (S (outCloses p)).

(** The locked section of [run]: [None] while it waits on the condition. *)
Definition run_locked (p : StreamPump) : option StreamPump :=
  if bool_decide (pendingLen p = 0) && negb (inputEnd p) && negb (stopped p) then None
  else if stopped p then Some (finish p)
  else if bool_decide (pendingLen p = 0) then Some (finish p)
  else match queue p !! head p with
       | None => None (* unreachable: the head is inside the slice *)
       | Some v =>
           let q := <[head p := nilv]> (queue p) in
           let h := S (head p) in
           let p' := if bool_decide (h = length q) then set_queue p [] (qcap p) 0
                     else set_queue p q (qcap p) h in
           Some (set_pc p' (Sending v))
       end.

(** The [select] outside the lock: the send succeeds (the consumer took the
    value or the channel had room) or the stop channel is closed. *)
Definition run_sent (v : V) (p : StreamPump) : StreamPump :=
  mkPump (queue p) (qcap p) (head p) (inputEnd p) (overflow p) (stopped p) (maxPending p) AtLock
    (outSent p ++ [v]) (outCloses p).

(** One action of the pump goroutine when the consumer is willing to receive. *)
Definition run_step (p : StreamPump) : option StreamPump :=
  match pc p with
  | AtLock => run_locked p
  | Sending v => Some (run_sent v p)
  | Finished => None
  end.

(** ** All interleavings of the producer, the owner and the pump goroutine *)

Inductive pump_label := LPush (v : V) (ok : bool) | LClose | LStop | LTake | LSend (v : V) | LAbandon.

Inductive pump_step : StreamPump -> pump_label -> StreamPump -> Prop :=
| ps_push p v ok p' : Push v p = (ok, p') -> pump_step p (LPush v ok) p'
| ps_close p : pump_step p LClose (Close p)
| ps_stop p : pump_step p LStop (Stop p)
| ps_take p p' : pc p = AtLock -> run_locked p = Some p' -> pump_step p LTake p'
| ps_send p v : pc p = Sending v -> pump_step p (LSend v) (run_sent v p)
| ps_abandon p v : pc p = Sending v -> stopped p = true -> pump_step p LAbandon (finish p).

(** Traces: the accepted values are those whose [Push] returned true. *)
Inductive pump_trace (p0 : StreamPump) : list V -> StreamPump -> Prop :=
| pt_nil : pump_trace p0 [] p0
| pt_step acc p l p' :
    pump_trace p0 acc p -> pump_step p l p' ->
    pump_trace p0 (match l with LPush v true => acc ++ [v] | _ => acc end) p'.

(** ** Well-formedness and the abstract queue *)

(** The values accepted and not yet taken, the abstract FIFO. *)
Definition live (p : StreamPump) : list V := drop (head p) (queue p).

Definition in_hand (p : StreamPump) : list V :=
  match pc p with Sending v => [v] | _ => [] end.

Record pump_wf (p : StreamPump) : Prop := {
  wf_head : (head p < length (queue p))%nat \/ (head p = 0%nat /\ queue p = []);
  wf_cap : (length (queue p) <= qcap p)%nat;
  wf_consumed : take (head p) (queue p) = replicate (head p) nilv;
  wf_pos : 0 < maxPending p;
  wf_bound : Z.of_nat (length (live p)) <= maxPending p;
  wf_closes : outCloses p = match pc p with Finished => 1%nat | _ => 0%nat end;
  wf_overflow : overflow p = true -> inputEnd p = true;
  wf_done : pc p = Finished -> stopped p = true \/ (inputEnd p = true /\ live p = [])
}.

End pump.

Arguments AtLock {V}.
Arguments Finished {V}.
Arguments StreamPump : clear implicits.

(** ** Lemmas *)

Section pump_lemmas.
Context {V : Type} (nilv : V) (growcap : nat -> nat).
Hypothesis growcap_larger : forall n, (n < growcap n)%nat.

Implicit Types p : StreamPump V.

Lemma compact_spec (q : list V) h : compact nilv q h = drop h q.
Proof.
  unfold compact. set (l := drop h q). rewrite take_app_length.
  by rewrite take_app_length.
Qed.

Lemma live_length p :
  (head p <= length (queue p))%nat -> Z.of_nat (length (live p)) = pendingLen p.
Proof. intros. unfold live, pendingLen. rewrite length_drop. lia. Qed.

Lemma wf_head_le p : pump_wf nilv p -> (head p <= length (queue p))%nat.
Proof. intros Hwf. destruct (wf_head _ _ Hwf) as [|[-> _]]; lia. Qed.

Lemma pending_zero p : pump_wf nilv p -> pendingLen p = 0 <-> live p = [].
Proof.
  intros Hwf. rewrite <- live_length by by apply wf_head_le.
  rewrite <- length_zero_iff_nil. lia.
Qed.

Lemma NewStreamPump_wf maxp : pump_wf nilv (NewStreamPump maxp).
Proof.
  unfold NewStreamPump, DefaultMaxPending.
  split; cbn; try done; try lia; auto; destruct (maxp <=? 0) eqn:E; bool_to_prop; lia.
Qed.

(** [Push] on an open pump with room appends to the abstract queue. *)
Lemma Push_true v p p' :
  pump_wf nilv p -> Push nilv growcap v p = (true, p') ->
  live p' = live p ++ [v] /\ pc p' = pc p /\ outSent p' = outSent p /\
  stopped p' = stopped p /\ inputEnd p' = inputEnd p /\ inputEnd p = false /\ stopped p = false /\
  overflow p' = overflow p /\ maxPending p' = maxPending p /\ outCloses p' = outCloses p /\
  Z.of_nat (length (live p)) < maxPending p.
Proof.
  intros Hwf. pose proof (wf_head_le p Hwf) as Hle. unfold Push.
  destruct (inputEnd p || stopped p) eqn:Ei; [done|]. apply orb_false_elim in Ei as [Ei Es].
  destruct (maxPending p <=? pendingLen p) eqn:Eb; [done|]. apply Z.leb_gt in Eb.
  rewrite <- live_length in Eb by done. intros [= <-].
  destruct (bool_decide (0 < head p)%nat && bool_decide (length (queue p) = qcap p));
    unfold append, live, set_queue; cbn; repeat split; try done.
  - by rewrite compact_spec, drop_0.
  - by rewrite drop_app_le.
Qed.

Lemma Push_wf v p b p' :
  pump_wf nilv p -> Push nilv growcap v p = (b, p') -> pump_wf nilv p'.
Proof.
  intros Hwf HP. destruct b.
  - pose proof (Push_true v p p' Hwf HP) as (Hl & Hpc & Ho & Hs & Hi & Hi0 & Hs0 & Hov & Hm & Hc & Hb).
    revert HP. unfold Push. rewrite Hi0, Hs0. cbn [orb].
    destruct (maxPending p <=? pendingLen p); [done|].
    intros [= Hp']. split.
    + rewrite <- Hp'. unfold append. destruct (_ && _); cbn; rewrite length_app; cbn.
      * left. lia.
      * left. pose proof (wf_head_le p Hwf). lia.
    + rewrite <- Hp'. unfold append.
      pose proof (wf_cap _ _ Hwf) as Hcap.
      destruct (_ && _); cbn; rewrite length_app; cbn; case_bool_decide; try lia.
      all: match goal with |- context [growcap ?n] => pose proof (growcap_larger n) end; lia.
    + rewrite <- Hp'. unfold append. pose proof (wf_head_le p Hwf).
      destruct (_ && _); cbn; [done|]. rewrite take_app_le by lia. apply (wf_consumed _ _ Hwf).
    + rewrite Hm. apply (wf_pos _ _ Hwf).
    + rewrite Hm, Hl, length_app. cbn. lia.
    + rewrite Hc, Hpc. apply (wf_closes _ _ Hwf).
    + rewrite Hov, Hi. apply (wf_overflow _ _ Hwf).
    + rewrite Hpc, Hs, Hi. intros Hf. destruct (wf_done _ _ Hwf Hf) as [|[]]; congruence.
  - revert HP. unfold Push. destruct (inputEnd p || stopped p) eqn:Ei; [by intros [= <-]|].
    apply orb_false_elim in Ei as [Ei Es].
    destruct (maxPending p <=? pendingLen p); [|done]. intros [= <-].
    destruct Hwf as [H1 H2 H3 H4 H5 H6 H7 H8]. split; cbn in *; auto.
    intros Hf. destruct (H8 Hf) as [|[]]; congruence.
Qed.

Lemma Close_wf p : pump_wf nilv p -> pump_wf nilv (Close p).
Proof. intros []; split; cbn in *; auto. intros Hf. destruct (wf_done0 Hf) as [|[]]; auto. Qed.

Lemma Stop_wf p : pump_wf nilv p -> pump_wf nilv (Stop p).
Proof. intros []; split; cbn in *; auto. Qed.

(** The locked section takes the oldest value, or finishes. *)
Lemma run_locked_spec p p' :
  pump_wf nilv p -> pc p = AtLock -> run_locked nilv p = Some p' ->
  (p' = finish p /\ (stopped p = true \/ (inputEnd p = true /\ live p = []))) \/
  (exists v, live p = v :: live p' /\ pc p' = Sending v /\ outSent p' = outSent p /\
     stopped p = false /\ stopped p' = stopped p /\ inputEnd p' = inputEnd p /\
     overflow p' = overflow p /\
     maxPending p' = maxPending p /\ outCloses p' = outCloses p /\ pump_wf nilv p').
Proof.
  intros Hwf Hpc. pose proof (pending_zero p Hwf) as Hz. unfold run_locked.
  destruct (bool_decide (pendingLen p = 0) && negb (inputEnd p) && negb (stopped p)) eqn:E1; [done|].
  destruct (stopped p) eqn:Es; [intros [= <-]; auto|].
  case_bool_decide as Ez.
  - intros [= <-]. left. split; [done|]. right. split; [|by apply Hz].
    destruct (inputEnd p); [done|]. by cbn in E1.
  - destruct (queue p !! head p) as [v|] eqn:Ev; [|done]. intros [= <-]. right. exists v.
    assert (head p < length (queue p))%nat as Hlt by by eapply lookup_lt_Some.
    assert (live p = v :: drop (S (head p)) (queue p)) as Hlive
      by (unfold live; by rewrite (drop_S _ v)).
    rewrite length_insert.
    assert (drop (S (head p)) (<[head p:=nilv]> (queue p)) = drop (S (head p)) (queue p)) as Hd
      by (apply drop_insert_lt; lia).
    destruct Hwf as [H1 H2 H3 H4 H5 H6 H7 H8].
    rewrite Hlive in H5. cbn in H5.
    case_bool_decide as Eh; cbn.
    + assert (drop (S (head p)) (queue p) = []) as Hnil by (rewrite Eh; apply drop_all).
      rewrite Hlive, Hnil. repeat split; try done; cbn; auto with lia.
      rewrite H6, Hpc. done.
    + unfold live in *; cbn. rewrite Hd, Hlive. repeat split; try done; cbn; auto.
      * rewrite length_insert. left. lia.
      * by rewrite length_insert.
      * rewrite (take_S_r _ _ nilv) by (rewrite list_lookup_insert_eq; [done|lia]).
        rewrite take_insert_ge by lia. rewrite H3. by rewrite <- replicate_S_end.
      * unfold live; cbn. rewrite Hd. lia.
      * by rewrite H6, Hpc.
Qed.

Lemma finish_wf p :
  pump_wf nilv p -> pc p <> Finished -> (stopped p = true \/ (inputEnd p = true /\ live p = [])) ->
  pump_wf nilv (finish p).
Proof.
  intros [] Hpc Hd. split; cbn in *; auto.
  rewrite wf_closes0. by destruct (pc p).
Qed.

Lemma run_sent_wf v p : pump_wf nilv p -> pc p = Sending v -> pump_wf nilv (run_sent v p).
Proof. intros [] Hpc. split; cbn in *; auto; [by rewrite wf_closes0, Hpc | done]. Qed.

Lemma pump_step_wf p l p' : pump_wf nilv p -> pump_step nilv growcap p l p' -> pump_wf nilv p'.
Proof.
  intros Hwf Hs. inv Hs.
  - by eapply Push_wf.
  - by apply Close_wf.
  - by apply Stop_wf.
  - destruct (run_locked_spec p p' Hwf) as [[-> Hd]|(v & _ & _ & _ & _ & _ & _ & _ & _ & _ & ?)];
      [done..| |done].
    apply finish_wf; [done|congruence|done].
  - by eapply run_sent_wf.
  - apply finish_wf; [done|congruence|auto].
Qed.

Lemma pump_trace_wf p0 acc p : pump_wf nilv p0 -> pump_trace nilv growcap p0 acc p -> pump_wf nilv p.
Proof. intros H0 Ht. induction Ht; [done|]. by eapply pump_step_wf. Qed.

End pump_lemmas.

(** ** Abstract specification: a bounded FIFO with close and stop *)

Section fifo_spec.
Context {V : Type}.

Record fifo := mkFifo {
  f_pending : list V;      (* accepted, not yet taken *)
  f_hand : option V;       (* taken, being handed to the consumer *)
  f_sent : list V;         (* handed to the consumer *)
  f_ended : bool;
  f_overflowed : bool;
  f_stopped : bool;
  f_done : bool            (* the output channel is closed *)
}.

(** [bound] is the pending bound.  The array, its capacity and its head are gone. *)
Inductive fifo_step (bound : Z) : fifo -> @pump_label V -> fifo -> Prop :=
| fs_accept q h s o d v :
    Z.of_nat (length q) < bound ->
    fifo_step bound (mkFifo q h s false o false d) (LPush v true) (mkFifo (q ++ [v]) h s false o false d)
| fs_refuse q h s e o st d v :
    e = true \/ st = true ->
    fifo_step bound (mkFifo q h s e o st d) (LPush v false) (mkFifo q h s e o st d)
| fs_overflow q h s o d v :
    Z.of_nat (length q) = bound ->
    fifo_step bound (mkFifo q h s false o false d) (LPush v false) (mkFifo q h s true true false d)
| fs_close q h s e o st d :
    fifo_step bound (mkFifo q h s e o st d) LClose (mkFifo q h s true o st d)
| fs_stop q h s e o st d :
    fifo_step bound (mkFifo q h s e o st d) LStop (mkFifo q h s e o true d)
| fs_take v q s e o :
    fifo_step bound (mkFifo (v :: q) None s e o false false) LTake (mkFifo q (Some v) s e o false false)
| fs_finish q s e o st :
    st = true \/ (e = true /\ q = []) ->
    fifo_step bound (mkFifo q None s e o st false) LTake (mkFifo q None s e o st true)
| fs_send q v s e o st d :
    fifo_step bound (mkFifo q (Some v) s e o st d) (LSend v) (mkFifo q None (s ++ [v]) e o st d)
| fs_abandon q v s e o :
    fifo_step bound (mkFifo q (Some v) s e o true false) LAbandon (mkFifo q None s e o true true).

(** The abstraction function. *)
Definition abs_pump (p : StreamPump V) : fifo :=
  mkFifo (live p) (match pc p with Sending v => Some v | _ => None end) (outSent p)
    (inputEnd p) (overflow p) (stopped p) (match pc p with Finished => true | _ => false end).

End fifo_spec.

Section pump_theorems.
Context {V : Type} (nilv : V) (growcap : nat -> nat).
Hypothesis growcap_larger : forall n, (n < growcap n)%nat.
Implicit Types p : StreamPump V.

Lemma abs_push p v b p' :
  pump_wf nilv p -> Push nilv growcap v p = (b, p') ->
  fifo_step (maxPending p) (abs_pump p) (LPush v b) (abs_pump p').
Proof.
  intros Hwf HP. destruct b.
  - pose proof (Push_true nilv growcap v p p' Hwf HP) as
      (Hl & Hpc & Ho & Hs & Hi & Hi0 & Hs0 & Hov & Hm & Hc & Hb).
    unfold abs_pump. rewrite Hl, Hpc, Ho, Hs, Hi, Hi0, Hs0, Hov. by constructor.
  - revert HP. unfold Push. destruct (inputEnd p || stopped p) eqn:Ei.
    + intros [= <-]. apply orb_true_iff in Ei. by constructor.
    + apply orb_false_elim in Ei as [Ei Es].
      destruct (maxPending p <=? pendingLen p) eqn:Eb; [|done]. intros [= <-].
      apply Z.leb_le in Eb. rewrite <- live_length in Eb by by eapply wf_head_le.
      pose proof (wf_bound _ _ Hwf). unfold abs_pump, live in *. cbn. rewrite Ei, Es.
      apply fs_overflow. lia.
Qed.

Lemma pump_step_refines p l p' :
  pump_wf nilv p -> pump_step nilv growcap p l p' ->
  fifo_step (maxPending p) (abs_pump p) l (abs_pump p').
Proof.
  intros Hwf Hs. inv Hs.
  - by apply abs_push.
  - by constructor.
  - by constructor.
  - destruct (run_locked_spec nilv p p' Hwf) as
      [[-> Hd]|(v & Hl & Hpc & Ho & Hst & Hst' & Hi & Hov & _ & _ & _)]; [done..| |].
    + unfold abs_pump. cbn. unfold live. cbn. subst_eq (pc p).
      by apply fs_finish.
    + unfold abs_pump. rewrite Hl, Hpc, Ho, Hst', Hst, Hi, Hov.
      subst_eq (pc p). apply fs_take.
  - unfold abs_pump. cbn. subst_eq (pc p). constructor.
  - unfold abs_pump. cbn. subst_eq (pc p).
    subst_eq (stopped p). constructor.
Qed.

Lemma pump_step_maxPending p l p' : pump_step nilv growcap p l p' -> maxPending p' = maxPending p.
Proof.
  intros Hs. inv Hs; try done.
  - match goal with HP : Push _ _ _ _ = _ |- _ => revert HP end.
    unfold Push. repeat case_match; intros [= ? <-]; done.
  - match goal with HP : run_locked _ _ = _ |- _ => revert HP end.
    unfold run_locked. repeat case_match; intros [= <-]; done.
Qed.

(** Order and content of the output, on the abstract machine. *)
Lemma pump_trace_fifo p0 acc p :
  pump_wf nilv p0 -> outSent p0 ++ in_hand p0 ++ live p0 = [] ->
  pump_trace nilv growcap p0 acc p ->
  exists lost, acc = outSent p ++ in_hand p ++ lost ++ live p /\
    (stopped p = false -> lost = []) /\ (lost <> [] -> pc p = Finished).
Proof.
  intros Hwf0 Hemp Ht. induction Ht as [|acc p l p' Ht IH Hs].
  - exists []. rewrite app_nil_l. by rewrite Hemp.
  - destruct IH as (lost & Hacc & Hst & Hfin).
    pose proof (pump_trace_wf nilv growcap growcap_larger _ _ _ Hwf0 Ht) as Hwf.
    inv Hs.
    + destruct ok.
      * pose proof (Push_true nilv growcap v p p' Hwf ltac:(done)) as
          (Hl & Hpc & Ho & Hs & Hi & Hi0 & Hs0 & _).
        exists []. rewrite (Hst Hs0).
        unfold in_hand in *. rewrite Hl, Hpc, Ho. split; [|done].
        rewrite !app_nil_l, !app_assoc. done.
      * assert (live p' = live p /\ pc p' = pc p /\ outSent p' = outSent p /\ stopped p' = stopped p)
          as (E1 & E2 & E3 & E4).
        { match goal with HP : Push _ _ _ _ = _ |- _ => revert HP end.
          unfold Push. repeat case_match; intros [= <-]; done. }
        exists lost. unfold in_hand in *. by rewrite E1, E2, E3, E4.
    + exists lost. done.
    + exists lost. done.
    + destruct (run_locked_spec nilv p p' Hwf) as
        [[-> Hd]|(v & Hl & Hpc & Ho & Hst0 & Hst' & _)]; [done..| |].
      * exists lost. unfold in_hand in *. subst_eq (pc p). cbn. auto.
      * exists []. rewrite (Hst Hst0). unfold in_hand.
        subst_eq (pc p). rewrite Hl, Hpc, Ho. done.
    + exists lost. unfold in_hand in *. subst_eq (pc p). cbn in *.
      split; [by rewrite <- app_assoc|]. split; [done|].
      intros Hn. by specialize (Hfin Hn).
    + assert (lost = []) as ->.
      { destruct lost; [done|]. by rewrite Hfin in * by done. }
      exists [v]. unfold in_hand in *. subst_eq (pc p). cbn in *.
      split; [done|]. split; [congruence|done].
Qed.

(** The pump goroutine running against a willing consumer. *)
Fixpoint run_n (fuel : nat) (p : StreamPump V) : StreamPump V :=
  match fuel with
  | O => p
  | S n => match run_step nilv p with Some p' => run_n n p' | None => p end
  end.

Lemma run_n_drains n p :
  pump_wf nilv p -> inputEnd p = true -> stopped p = false -> pc p = AtLock ->
  length (live p) = n ->
  let p' := run_n (2 * n + 1) p in
  pc p' = Finished /\ outSent p' = outSent p ++ live p /\ outCloses p' = 1%nat.
Proof.
  revert p. induction n as [|n IH]; intros p Hwf Hi Hs Hpc Hl.
  - apply length_zero_iff_nil in Hl. cbn. unfold run_step. rewrite Hpc.
    unfold run_locked. rewrite Hi, Hs. cbn. rewrite !andb_false_r. cbn.
    rewrite bool_decide_true by (by apply (pending_zero nilv p Hwf)). cbn.
    rewrite Hl, app_nil_r. split_and!; [done..|]. by rewrite (wf_closes _ _ Hwf), Hpc.
  - destruct (run_locked nilv p) as [p1|] eqn:E1.
    2:{ exfalso. revert E1. unfold run_locked. rewrite Hi, Hs. cbn. rewrite !andb_false_r. cbn.
        case_bool_decide as Ez; [done|]. pose proof (wf_head _ _ Hwf) as Hh.
        destruct (queue p !! head p) eqn:Eq; [done|]. intros _. apply lookup_ge_None in Eq.
        destruct Hh as [?|[E0 Eq0]]; [lia|].
        apply Ez. unfold pendingLen. by rewrite E0, Eq0. }
    destruct (run_locked_spec nilv p p1 Hwf Hpc E1) as
      [[-> [?|[_ He]]]|(v & Hlv & Hpc1 & Ho1 & _ & Hs1 & Hi1 & _ & _ & _ & Hwf1)].
    + congruence.
    + by rewrite He in Hl.
    + assert (run_n (2 * S n + 1) p = run_n (2 * n + 1) (run_sent v p1)) as ->.
      { replace (2 * S n + 1)%nat with (S (S (2 * n + 1))) by lia.
        cbn [run_n]. unfold run_step. by rewrite Hpc, E1, Hpc1. }
      rewrite Hlv in Hl.
      specialize (IH (run_sent v p1)).
      destruct IH as (IH1 & IH2 & IH3); try (cbn; congruence).
      * by apply run_sent_wf.
      * unfold live in *. cbn in *. lia.
      * split_and!; [exact IH1| |exact IH3]. rewrite IH2, Hlv. cbn.
        by rewrite Ho1, <- app_assoc.
Qed.

Lemma pump_capacity p0 acc p B :
  pump_wf nilv p0 -> (qcap p0 <= B)%nat ->
  (forall n, Z.of_nat n < maxPending p0 -> (growcap n <= B)%nat) ->
  pump_trace nilv growcap p0 acc p -> (qcap p <= B)%nat /\ maxPending p = maxPending p0.
Proof.
  intros Hwf0 H0 HB Ht. induction Ht as [|acc p l p' Ht IH Hs]; [done|].
  destruct IH as [IH1 IH2]. rewrite (pump_step_maxPending _ _ _ Hs), IH2. split; [|done].
  pose proof (pump_trace_wf nilv growcap growcap_larger _ _ _ Hwf0 Ht) as Hwf.
  pose proof (wf_head_le nilv p Hwf) as Hle.
  inv Hs; try done.
  - match goal with HP : Push _ _ _ _ = _ |- _ => revert HP end. unfold Push.
    destruct (inputEnd p || stopped p); [by intros [= ? <-]|].
    destruct (maxPending p <=? pendingLen p) eqn:Eb; [by intros [= ? <-]|]. intros [= <- <-].
    apply Z.leb_gt in Eb. unfold append.
    destruct (bool_decide (0 < head p)%nat && bool_decide (length (queue p) = qcap p)) eqn:Ec;
      cbn; destruct (bool_decide (_ < qcap p)%nat) eqn:Hn; try done;
      apply bool_decide_eq_false in Hn.
    + exfalso. apply Hn. rewrite compact_spec, length_drop.
      apply andb_prop in Ec as [E1 E2]. bool_to_prop. lia.
    + apply HB. rewrite <- IH2. apply andb_false_iff in Ec. unfold pendingLen in Eb.
      pose proof (wf_cap _ _ Hwf). destruct Ec; bool_to_prop; lia.
  - match goal with HP : run_locked _ _ = _ |- _ => revert HP end.
    unfold run_locked. repeat case_match; intros [= <-]; done.
Qed.


(** ** Properties *)

(** C18: Every step of the stream pump's implementation (head index,
    compaction, growing buffer, goroutine program counter) is a step of an
    abstract bounded FIFO queue. *)
Theorem pump_refines_fifo maxp acc p l p' :
  pump_trace nilv growcap (NewStreamPump maxp) acc p ->
  pump_step nilv growcap p l p' ->
  fifo_step (maxPending p) (abs_pump p) l (abs_pump p').
Proof.
  intros Ht. apply pump_step_refines.
  by eapply pump_trace_wf; [done| apply NewStreamPump_wf |].
Qed.

(** What the pump has put on its output channel is a prefix of the accepted values;
    unless it was stopped, the rest is in hand or queued. *)
Theorem pump_order_lossless maxp acc p :
  pump_trace nilv growcap (NewStreamPump maxp) acc p ->
  outSent p `prefix_of` acc /\
  (stopped p = false -> acc = outSent p ++ in_hand p ++ live p) /\
  (pc p = Finished -> stopped p = false -> outSent p = acc) /\
  (outCloses p <= 1)%nat /\ (outCloses p = 1%nat <-> pc p = Finished).
Proof.
  intros Ht. pose proof (NewStreamPump_wf nilv maxp) as Hwf0.
  pose proof (pump_trace_wf nilv growcap growcap_larger _ _ _ Hwf0 Ht) as Hwf.
  destruct (pump_trace_fifo _ _ _ Hwf0 eq_refl Ht) as (lost & Hacc & Hst & Hfin).
  pose proof (wf_closes _ _ Hwf) as Hc. split_and!.
  - rewrite Hacc. by apply prefix_app_r.
  - intros Hs. by rewrite (Hst Hs) in Hacc.
  - intros Hpc Hs. destruct (wf_done _ _ Hwf Hpc) as [|[_ Hl]]; [congruence|].
    rewrite Hacc, (Hst Hs), Hl. unfold in_hand. rewrite Hpc. cbn. by rewrite app_nil_r.
  - rewrite Hc. destruct (pc p); lia.
  - rewrite Hc. by destruct (pc p).
Qed.

Theorem pump_bounded maxp acc p B :
  (forall n, Z.of_nat n < maxPending (@NewStreamPump V maxp) -> (growcap n <= B)%nat) ->
  pump_trace nilv growcap (NewStreamPump maxp) acc p ->
  Z.of_nat (length (live p)) <= maxPending (@NewStreamPump V maxp) /\
  (length (queue p) <= qcap p <= B)%nat /\
  take (head p) (queue p) = replicate (head p) nilv.
Proof.
  intros HB Ht. pose proof (NewStreamPump_wf nilv maxp) as Hwf0.
  pose proof (pump_trace_wf nilv growcap growcap_larger _ _ _ Hwf0 Ht) as Hwf.
  destruct (pump_capacity _ _ _ B Hwf0 ltac:(cbn; lia) HB Ht) as [Hcap Hm].
  pose proof (wf_bound _ _ Hwf). pose proof (wf_cap _ _ Hwf).
  rewrite Hm in *. split_and!; [lia..|]. apply (wf_consumed _ _ Hwf).
Qed.

(** *** Termination, in every interleaving

    [remaining] bounds what the goroutine has still to do once the input has
    ended; only its own actions lower it. *)
Inductive pump_run : StreamPump V -> list (@pump_label V) -> StreamPump V -> Prop :=
| pr_nil p : pump_run p [] p
| pr_cons p l p1 ls p2 : pump_step nilv growcap p l p1 -> pump_run p1 ls p2 -> pump_run p (l :: ls) p2.

Definition goroutine (l : @pump_label V) : bool :=
  match l with LTake | LSend _ | LAbandon => true | _ => false end.

Definition remaining (p : StreamPump V) : nat :=
  match pc p with
  | Finished => 0
  | AtLock => 2 * length (live p) + 1
  | Sending _ => 2 * length (live p) + 2
  end.

Lemma ended_step maxp acc p l p' :
  pump_trace nilv growcap (NewStreamPump maxp) acc p -> inputEnd p = true -> pump_step nilv growcap p l p' ->
  pump_trace nilv growcap (NewStreamPump maxp) acc p' /\ inputEnd p' = true /\
  (goroutine l = false -> remaining p' = remaining p) /\
  (goroutine l = true -> (remaining p' < remaining p)%nat) /\
  (goroutine l = true -> stopped p = false -> S (remaining p') = remaining p).
Proof.
  intros Ht Hi Hs. pose proof (NewStreamPump_wf nilv maxp) as Hwf0.
  pose proof (pump_trace_wf nilv growcap growcap_larger _ _ _ Hwf0 Ht) as Hwf.
  pose proof (pt_step _ _ _ _ _ _ _ Ht Hs) as Ht'.
  inv Hs; cbn [goroutine] in *.
  - match goal with HP : Push _ _ _ _ = _ |- _ => unfold Push in HP; rewrite Hi in HP; injection HP as <- <- end.
    done.
  - done.
  - done.
  - destruct (run_locked_spec nilv p p' Hwf) as
      [[-> Hd]|(v & Hl & Hpc & Ho & Hst & Hst' & Hi' & _)]; [done..| |]; unfold remaining.
    + cbn. subst_eq (pc p). split_and!; try done; [lia|].
      intros _ Hns. destruct Hd as [?|[_ Hl]]; [congruence|]. by rewrite Hl.
    + rewrite Hpc, Hl, Hi'. subst_eq (pc p). cbn [length]. split_and!; try done; lia.
  - unfold remaining. cbn. subst_eq (pc p). unfold live. cbn. split_and!; try done; lia.
  - unfold remaining. cbn. subst_eq (pc p). split_and!; try done; [lia|congruence].
Qed.

Lemma stopped_stays p l p' : pump_step nilv growcap p l p' -> stopped p' = false -> stopped p = false.
Proof.
  intros Hs. inv Hs; try done.
  - match goal with HP : Push _ _ _ _ = _ |- _ => revert HP end.
    unfold Push. repeat case_match; intros [= <- <-]; cbn; congruence.
  - match goal with HP : run_locked _ _ = _ |- _ => revert HP end.
    unfold run_locked. repeat case_match; intros [= <-]; cbn; congruence.
Qed.

Lemma ended_run maxp acc p ls p' :
  pump_trace nilv growcap (NewStreamPump maxp) acc p -> inputEnd p = true -> pump_run p ls p' ->
  pump_trace nilv growcap (NewStreamPump maxp) acc p' /\ inputEnd p' = true /\
  (length (List.filter goroutine ls) + remaining p' <= remaining p)%nat /\
  (stopped p' = false -> stopped p = false /\ (length (List.filter goroutine ls) + remaining p' = remaining p)%nat).
Proof.
  intros Ht Hi Hr. induction Hr as [p|p l p1 ls p2 Hs Hr IH]; [cbn; split_and!; done || lia|].
  destruct (ended_step _ _ _ _ _ Ht Hi Hs) as (Ht1 & Hi1 & Hsame & Hless & Hone).
  destruct (IH Ht1 Hi1) as (Ht2 & Hi2 & Hle & Heq). split_and!; [done..| |].
  - cbn. destruct (goroutine l); cbn; [specialize (Hless eq_refl)|rewrite (Hsame eq_refl) in Hle]; lia.
  - intros Hns. destruct (Heq Hns) as [Hns1 Heq']. pose proof (stopped_stays _ _ _ Hs Hns1) as Hns0.
    split; [done|]. cbn. destruct (goroutine l); cbn; [specialize (Hone eq_refl Hns0)|specialize (Hsame eq_refl)]; lia.
Qed.

(** The goroutine can move until it has finished: it waits for nothing but a
    consumer, and once stopped not even for that. *)
Lemma ended_can_move p :
  pump_wf nilv p -> inputEnd p = true -> pc p <> Finished ->
  exists l p', goroutine l = true /\ pump_step nilv growcap p l p' /\ (stopped p = true -> forall v, l <> LSend v).
Proof.
  intros Hwf Hi Hpc. destruct (pc p) as [|v|] eqn:Epc; [| |done].
  - destruct (run_locked nilv p) as [p'|] eqn:E.
    { exists LTake, p'. split_and!; [done|by constructor|done]. }
    exfalso. revert E. unfold run_locked. rewrite Hi. cbn. rewrite !andb_false_r. cbn.
    case_match; [done|]. case_bool_decide as Ez; [done|]. case_match; [done|]. intros _.
    match goal with E : queue p !! head p = None |- _ => apply lookup_ge_None in E end.
    destruct (wf_head _ _ Hwf) as [?|[E0 Eq0]]; [lia|]. apply Ez. unfold pendingLen. by rewrite E0, Eq0.
  - destruct (stopped p) eqn:Es.
    + exists LAbandon, (finish p). split_and!; [done|by eapply ps_abandon|done].
    + exists (LSend v), (run_sent v p). split_and!; [done|by constructor|done].
Qed.


Theorem pump_stop_prompt p v :
  (pc p = AtLock -> run_locked nilv (Stop p) = Some (finish (Stop p))) /\
  (pc p = Sending v -> pump_step nilv growcap (Stop p) LAbandon (finish (Stop p))) /\
  Push nilv growcap v (Stop p) = (false, Stop p).
Proof.
  split_and!.
  - intros _. unfold run_locked. cbn. by rewrite andb_false_r.
  - intros Hpc. by apply (ps_abandon nilv growcap (Stop p) v).
  - unfold Push. cbn. by rewrite orb_true_r.
Qed.

Theorem pump_push_result maxp acc p v b p' :
  pump_trace nilv growcap (NewStreamPump maxp) acc p ->
  Push nilv growcap v p = (b, p') ->
  (b = true <-> inputEnd p = false /\ stopped p = false /\
                Z.of_nat (length (live p)) < maxPending p) /\
  (b = false -> live p' = live p /\ inputEnd p' = inputEnd p || negb (stopped p) /\
                overflow p' = overflow p || (negb (inputEnd p) && negb (stopped p))).
Proof.
  intros Ht HP. pose proof (NewStreamPump_wf nilv maxp) as Hwf0.
  pose proof (pump_trace_wf nilv growcap growcap_larger _ _ _ Hwf0 Ht) as Hwf.
  pose proof (wf_head_le nilv p Hwf) as Hle. revert HP. unfold Push.
  rewrite <- (live_length p Hle).
  destruct (inputEnd p) eqn:Ei; cbn [orb]; [intros [= <- <-]; rewrite Ei, ?orb_false_r; naive_solver|].
  destruct (stopped p) eqn:Es; [intros [= <- <-]; rewrite Ei, ?orb_false_r; naive_solver|].
  destruct (maxPending p <=? Z.of_nat (length (live p))) eqn:Eb; bool_to_prop.
  - intros [= <- <-]. split; [naive_solver lia|]. cbn. rewrite orb_true_r. done.
  - intros [= <- <-]. naive_solver.
Qed.

End pump_theorems.

(** ** A concrete run *)

Section pump_witness.
Open Scope nat_scope.

Definition demo_grow (n : nat) : nat := 2 * n + 1.
Definition demo0 : StreamPump nat := NewStreamPump 4.
Definition demo1 : StreamPump nat := (Push 0 demo_grow 7 demo0).2.
Definition demo2 : StreamPump nat := (Push 0 demo_grow 8 demo1).2.

Lemma demo_grow_larger n : n < demo_grow n.
Proof. unfold demo_grow. lia. Qed.

Lemma demo_trace : pump_trace 0 demo_grow demo0 [7; 8] demo2.
Proof.
  apply (pt_step _ _ _ [7] demo1 (LPush 8 true) demo2); [|by constructor].
  apply (pt_step _ _ _ [] demo0 (LPush 7 true) demo1); [|by constructor]. constructor.
Qed.

Lemma pump_refines_fifo_witness :
  fifo_step 4%Z (abs_pump demo2) (LPush 9 true) (abs_pump (Push 0 demo_grow 9 demo2).2).
Proof.
  apply (pump_refines_fifo 0 demo_grow demo_grow_larger 4 [7; 8] demo2 (LPush 9 true)).
  - exact demo_trace.
  - by constructor.
Defined.

Lemma pump_order_lossless_witness : [7; 8] = outSent demo2 ++ in_hand demo2 ++ live demo2.
Proof.
  apply (pump_order_lossless 0 demo_grow demo_grow_larger 4 [7; 8] demo2 demo_trace).
  reflexivity.
Defined.

Lemma pump_bounded_witness : (Z.of_nat (length (live demo2)) <= 4)%Z /\ qcap demo2 <= 9.
Proof.
  destruct (pump_bounded 0 demo_grow demo_grow_larger 4 [7; 8] demo2 9) as (H1 & H2 & _).
  - intros n Hn. change (maxPending (@NewStreamPump nat 4)) with 4%Z in Hn. unfold demo_grow. lia.
  - exact demo_trace.
  - split; [exact H1 | apply H2].
Defined.

(** Close with two values queued, a push refused, and the goroutine's five
    actions. *)
Definition demo_labels : list (@pump_label nat) := [LTake; LPush 9 false; LSend 7; LTake; LSend 8; LTake].
Definition demo_end : StreamPump nat := run_n 0 5 (Close demo2).

Lemma demo_drain : pump_run 0 demo_grow (Close demo2) demo_labels demo_end.
Proof.
  apply (pr_cons _ _ _ _ (run_n 0 1 (Close demo2))); [by constructor|].
  apply (pr_cons _ _ _ _ (run_n 0 1 (Close demo2))); [by constructor|].
  apply (pr_cons _ _ _ _ (run_n 0 2 (Close demo2))); [by constructor|].
  apply (pr_cons _ _ _ _ (run_n 0 3 (Close demo2))); [by constructor|].
  apply (pr_cons _ _ _ _ (run_n 0 4 (Close demo2))); [by constructor|].
  apply (pr_cons _ _ _ _ (run_n 0 5 (Close demo2))); [by constructor|]. constructor.
Qed.


Lemma pump_stop_prompt_witness : run_locked 0 (Stop demo2) = Some (finish (Stop demo2)).
Proof. apply (pump_stop_prompt 0 demo_grow demo2 5). reflexivity. Defined.

Lemma pump_push_result_witness : live (Push 0 demo_grow 9 (Stop demo2)).2 = live demo2.
Proof.
  apply (pump_push_result 0 demo_grow demo_grow_larger 4 [7; 8] (Stop demo2) 9 false).
  - apply (pt_step _ _ _ [7; 8] demo2 LStop (Stop demo2)); [exact demo_trace | constructor].
  - reflexivity.
  - reflexivity.
Defined.
End pump_witness.
