(* ===== verification/FlowControl.v ===== *)
(** * Credit-based flow control, end to end

    One direction of one stream: the sender's credit gate (valuerpc/credit.go)
    and sending loop, the connection in both directions, the receiver's pump
    (valuerpc/pump.go) and the credit replenishment hook, which the four
    receivers share in shape (valueclient/request.go grantRecv,
    valueserver/serving_request.go grantInbound, valueserver/serving_stream.go
    grantRecv, valueclient/serving.go grantInbound).

    The system is a step relation over all interleavings of the sender
    goroutine, the two connection loops, the pump goroutine and the consumer. *)

From S2P Require Import Prelude Credit Pump.

(** ** The replenishment hook *)

(** One delivery: count it and, once half the window was drained, grant what was
    counted.  Returns the new counter and the credit message, if any. *)
Definition grantRecv (creditWindow recvDelivered : Z) : Z * option Z :=
  let delivered := recvDelivered + 1 in
  let batch := creditWindow / 2 in
  let batch := if batch <? 1 then 1 else batch in
  if batch <=? delivered then (0, Some delivered) else (delivered, None).

(** The batch size the hook works with. *)
Definition batchOf (creditWindow : Z) : Z :=
  let batch := creditWindow / 2 in if batch <? 1 then 1 else batch.

Section flow.
Context {V : Type} (nilv : V) (growcap : nat -> nat).
Hypothesis growcap_larger : forall n, (n < growcap n)%nat.

Record flow := mkFlow {
  gate : CreditGate;            (* sender *)
  sent : list V;                (* values the sender put on the wire, ever *)
  wireValues : list V;          (* StreamValue frames in transit *)
  wireCredits : list Z;         (* StreamCredit frames in transit *)
  pump : StreamPump V;          (* receiver *)
  recvDelivered : Z;            (* receiver's counter, pump goroutine only *)
  hookPending : bool;           (* a value was handed over, onDeliver has not run yet *)
  established : bool;           (* the initial window was granted *)
  window : Z                    (* creditWindow *)
}.

Inductive flow_step : flow -> flow -> Prop :=
(** The sender acquires a credit and sends a value. *)
| fl_send g' v s :
    Acquire (gate s) = Some (true, g') ->
    flow_step s (mkFlow g' (sent s ++ [v]) (wireValues s ++ [v]) (wireCredits s) (pump s)
                   (recvDelivered s) (hookPending s) (established s) (window s))
(** The receiving connection loop pushes a value into the pump. *)
| fl_recv v w b p' s :
    wireValues s = v :: w -> Push nilv growcap v (pump s) = (b, p') ->
    flow_step s (mkFlow (gate s) (sent s) w (wireCredits s) p'
                   (recvDelivered s) (hookPending s) (established s) (window s))
(** The pump goroutine takes a value (its hook for the previous one has run). *)
| fl_take p' s :
    hookPending s = false -> pc (pump s) = AtLock -> run_locked nilv (pump s) = Some p' ->
    flow_step s (mkFlow (gate s) (sent s) (wireValues s) (wireCredits s) p'
                   (recvDelivered s) false (established s) (window s))
(** The consumer receives the value in hand. *)
| fl_deliver v s :
    pc (pump s) = Sending v ->
    flow_step s (mkFlow (gate s) (sent s) (wireValues s) (wireCredits s) (run_sent v (pump s))
                   (recvDelivered s) true (established s) (window s))
(** onDeliver. *)
| fl_hook s :
    hookPending s = true ->
    flow_step s (mkFlow (gate s) (sent s) (wireValues s)
                   (wireCredits s ++ match (grantRecv (window s) (recvDelivered s)).2 with
                                     | Some n => [n] | None => [] end)
                   (pump s) (grantRecv (window s) (recvDelivered s)).1 false
                   (established s) (window s))
(** The initial window is granted once, after the acknowledgement was received
    where the receiver is the initiator. *)
| fl_establish s :
    established s = false -> (recvDelivered s = -1 -> outSent (pump s) <> []) ->
    flow_step s (mkFlow (gate s) (sent s) (wireValues s) (wireCredits s ++ [window s]) (pump s)
                   (recvDelivered s) (hookPending s) true (window s))
(** A credit message reaches the sender. *)
| fl_credit n cs s :
    wireCredits s = n :: cs ->
    flow_step s (mkFlow (Grant n (gate s)) (sent s) (wireValues s) cs (pump s)
                   (recvDelivered s) (hookPending s) (established s) (window s)).

(** The receiver is the initiator (client GetStream/Chat, server reverse
    GetStream/Chat): the StreamReady acknowledgement is pushed as a nil before any
    credit exists, and the counter starts at -1. *)
Definition init_initiator (maxPending : Z) : flow :=
  mkFlow NewCreditGate [] [] [] (Push nilv growcap nilv (NewStreamPump maxPending)).2
    (-1) false false maxPending.

(** The receiver is the responder (server put-stream/chat, client reverse): no
    acknowledgement travels through the pump. *)
Definition init_responder (maxPending : Z) : flow :=
  mkFlow NewCreditGate [] [] [] (NewStreamPump maxPending) 0 false false maxPending.

(** ** The conservation invariant *)

Definition zsum (l : list Z) : Z := foldr Z.add 0 l.
Definition b2z (b : bool) : Z := if b then 1 else 0.
Definition zlen {A} (l : list A) : Z := Z.of_nat (length l).

Record flow_inv (s : flow) : Prop := {
  fi_wf : pump_wf nilv (pump s);
  fi_open : inputEnd (pump s) = false /\ stopped (pump s) = false /\ overflow (pump s) = false;
  fi_max : maxPending (pump s) = window s;
  fi_window : 0 < window s < two63;
  fi_gate : closed (gate s) = false /\ 0 <= credit (gate s);
  fi_credits : Forall (fun n => 0 < n) (wireCredits s);
  fi_delivered : -1 <= recvDelivered s < batchOf (window s);
  fi_pre : established s = false ->
    credit (gate s) = 0 /\ wireCredits s = [] /\ wireValues s = [];
  fi_ack : recvDelivered s = -1 -> established s = true \/ outSent (pump s) <> [] ->
    hookPending s = true;
  fi_hook : hookPending s = true -> pc (pump s) = AtLock;
  fi_conserve :
    credit (gate s) + zsum (wireCredits s) + zlen (wireValues s) + zlen (live (pump s)) +
    zlen (in_hand (pump s)) + b2z (hookPending s) + recvDelivered s =
    if established s then window s else 0
}.

Lemma zsum_app l1 l2 : zsum (l1 ++ l2) = zsum l1 + zsum l2.
Proof. unfold zsum. induction l1 as [|x l1 IH]; cbn; [lia|]. rewrite IH. lia. Qed.

Lemma zsum_nonneg l : Forall (fun n => 0 < n) l -> 0 <= zsum l.
Proof. unfold zsum. induction 1; cbn; lia. Qed.

Lemma zlen_app {A} (l1 l2 : list A) : zlen (l1 ++ l2) = zlen l1 + zlen l2.
Proof. unfold zlen. rewrite length_app. lia. Qed.

Lemma zlen_nonneg {A} (l : list A) : 0 <= zlen l.
Proof. unfold zlen. lia. Qed.

Lemma batchOf_bounds w : 0 < w -> 1 <= batchOf w <= w.
Proof.
  unfold batchOf. intros Hw.
  pose proof (Z.div_le_upper_bound w 2 w ltac:(lia) ltac:(lia)).
  destruct (w / 2 <? 1) eqn:E; bool_to_prop; lia.
Qed.

Lemma grantRecv_spec w dlv :
  0 < w -> -1 <= dlv < batchOf w ->
  let '(d', o) := grantRecv w dlv in
  0 <= d' < batchOf w /\
  match o with Some n => d' = 0 /\ n = dlv + 1 /\ 0 < n | None => d' = dlv + 1 end.
Proof.
  intros Hw Hd. pose proof (batchOf_bounds w Hw). change (grantRecv w dlv) with
    (if batchOf w <=? dlv + 1 then (0, Some (dlv + 1)) else (dlv + 1, @None Z)).
  destruct (batchOf w <=? dlv + 1) eqn:E; bool_to_prop; lia.
Qed.

(** Reduce projections of explicit states only. *)
Ltac flow_cbn :=
  cbn [gate sent wireValues wireCredits pump recvDelivered hookPending established window].

(** The counter never undercounts what it has not granted yet. *)
Lemma flow_slack s : flow_inv s -> established s = true -> 0 <= b2z (hookPending s) + recvDelivered s.
Proof.
  intros Hi He. pose proof (fi_delivered _ Hi).
  destruct (Z.eq_dec (recvDelivered s) (-1)) as [E|]; [|destruct (hookPending s); cbn; lia].
  rewrite (fi_ack _ Hi E (or_introl He)). cbn. lia.
Qed.

Lemma flow_parts_nonneg s :
  flow_inv s ->
  0 <= zsum (wireCredits s) /\ 0 <= zlen (wireValues s) /\ 0 <= zlen (live (pump s)) /\
  0 <= zlen (in_hand (pump s)).
Proof.
  intros Hi. split_and!; auto using zlen_nonneg. apply zsum_nonneg, (fi_credits _ Hi).
Qed.

Lemma Push_open v p :
  pump_wf nilv p -> inputEnd p = false -> stopped p = false -> zlen (live p) < maxPending p ->
  exists p', Push nilv growcap v p = (true, p').
Proof.
  intros Hwf Hi Hs Hl. unfold Push. rewrite Hi, Hs. cbn [orb].
  rewrite <- live_length by by eapply wf_head_le. unfold zlen in Hl.
  rewrite (proj2 (Z.leb_gt _ _)) by lia. eauto.
Qed.

Lemma inv_send g' v s :
  flow_inv s -> Acquire (gate s) = Some (true, g') ->
  flow_inv (mkFlow g' (sent s ++ [v]) (wireValues s ++ [v]) (wireCredits s) (pump s)
                   (recvDelivered s) (hookPending s) (established s) (window s)).
Proof.
  intros Hi Ha. pose proof (flow_parts_nonneg s Hi). pose proof (fi_conserve _ Hi) as Hc.
  destruct (established s) eqn:He.
  2:{ destruct (fi_pre _ Hi He) as (Hz & _). exfalso.
      assert (Acquire (gate s) = None) by (apply Acquire_blocks_iff; rewrite Hz;
        split; [lia | apply (fi_gate _ Hi)]). congruence. }
  pose proof (flow_slack s Hi He). pose proof (fi_window _ Hi).
  pose proof (fi_gate _ Hi) as [Hcl Hge].
  apply Acquire_true in Ha as (Hp & Hg & Hcl' & _); [|lia].
  destruct Hi as [F1 F2 F3 F4 F5 F6 F7 F8 F9 F10 F11].
  split; flow_cbn; auto; try congruence.
  - split; [congruence | lia].
  - rewrite zlen_app. change (zlen [v]) with 1. lia.
Qed.

Lemma inv_recv v w b p' s :
  flow_inv s -> wireValues s = v :: w -> Push nilv growcap v (pump s) = (b, p') ->
  b = true /\
  flow_inv (mkFlow (gate s) (sent s) w (wireCredits s) p'
              (recvDelivered s) (hookPending s) (established s) (window s)).
Proof.
  intros Hi Hw HP. pose proof (flow_parts_nonneg s Hi). pose proof (fi_conserve _ Hi) as Hc.
  destruct (established s) eqn:He.
  2:{ destruct (fi_pre _ Hi He) as (_ & _ & E). by rewrite E in Hw. }
  pose proof (flow_slack s Hi He). pose proof (fi_gate _ Hi) as [Hcl Hge].
  destruct (fi_open _ Hi) as (Ho1 & Ho2 & Ho3).
  rewrite Hw in Hc. unfold zlen at 1 in Hc. cbn [length] in Hc.
  destruct (Push_open v (pump s) (fi_wf _ Hi) Ho1 Ho2) as [p1 Hp1].
  { rewrite (fi_max _ Hi). lia. }
  rewrite Hp1 in HP. injection HP as <- <-. split; [done|].
  pose proof (Push_true nilv growcap v _ _ (fi_wf _ Hi) Hp1) as
    (Hl & Hpc & Hou & Hs & Hin & _ & _ & Hov & Hm & _ & _).
  pose proof (Push_wf nilv growcap growcap_larger v _ _ _ (fi_wf _ Hi) Hp1) as Hwf1.
  destruct Hi as [F1 F2 F3 F4 F5 F6 F7 F8 F9 F10 F11].
  split; flow_cbn; auto; try congruence.
  - by rewrite Hpc.
  - rewrite Hl, zlen_app. unfold in_hand in *. rewrite Hpc. unfold zlen in *. cbn [length] in *. lia.
Qed.

Lemma inv_take p' s :
  flow_inv s -> hookPending s = false -> pc (pump s) = AtLock ->
  run_locked nilv (pump s) = Some p' ->
  flow_inv (mkFlow (gate s) (sent s) (wireValues s) (wireCredits s) p'
              (recvDelivered s) false (established s) (window s)).
Proof.
  intros Hi Hh Hpc Hr. destruct (fi_open _ Hi) as (Ho1 & Ho2 & Ho3).
  destruct (run_locked_spec nilv _ _ (fi_wf _ Hi) Hpc Hr) as
    [[_ [?|[? _]]]|(v & Hl & Hpc' & Hou & _ & Hs & Hin & Hov & Hm & _ & Hwf')]; [congruence..|].
  destruct Hi as [F1 F2 F3 F4 F5 F6 F7 F8 F9 F10 F11].
  split; flow_cbn; auto; try congruence.
  - intros E1 E2. rewrite Hou in E2. specialize (F9 E1 E2). congruence.
  - rewrite <- F11, Hh, Hl. unfold in_hand. rewrite Hpc, Hpc'. unfold zlen. cbn [length b2z]. lia.
Qed.

Lemma inv_deliver v s :
  flow_inv s -> pc (pump s) = Sending v ->
  flow_inv (mkFlow (gate s) (sent s) (wireValues s) (wireCredits s) (run_sent v (pump s))
              (recvDelivered s) true (established s) (window s)).
Proof.
  intros Hi Hpc.
  assert (hookPending s = false) as Hh.
  { destruct (hookPending s) eqn:E; [|done]. by rewrite (fi_hook _ Hi E) in Hpc. }
  destruct Hi as [F1 F2 F3 F4 F5 F6 F7 F8 F9 F10 F11].
  split; flow_cbn; auto.
  - by apply run_sent_wf.
  - rewrite <- F11, Hh. unfold in_hand. rewrite Hpc. unfold live, zlen. cbn. lia.
Qed.

Lemma inv_hook s :
  flow_inv s -> hookPending s = true ->
  flow_inv (mkFlow (gate s) (sent s) (wireValues s)
              (wireCredits s ++ match (grantRecv (window s) (recvDelivered s)).2 with
                                | Some n => [n] | None => [] end)
              (pump s) (grantRecv (window s) (recvDelivered s)).1 false
              (established s) (window s)).
Proof.
  intros Hi Hh. pose proof (flow_parts_nonneg s Hi). pose proof (fi_conserve _ Hi) as Hc.
  pose proof (fi_gate _ Hi) as [_ Hg].
  pose proof (grantRecv_spec (window s) (recvDelivered s) ltac:(apply (fi_window _ Hi))
                (fi_delivered _ Hi)) as Hgr.
  rewrite Hh in Hc. cbn [b2z] in Hc.
  destruct (grantRecv (window s) (recvDelivered s)) as [d' [n|]]; cbn [fst snd];
    destruct Hgr as [Hd' Ho].
  - destruct Ho as (Hd0 & Hn & Hn0).
    assert (established s = true) as He.
    { destruct (established s) eqn:E; [done|]. lia. }
    destruct Hi as [F1 F2 F3 F4 F5 F6 F7 F8 F9 F10 F11].
    split; flow_cbn; auto; try congruence; try lia.
    + apply Forall_app. auto.
    + rewrite zsum_app. change (zsum [n]) with (n + 0). cbn [b2z]. lia.
  - destruct Hi as [F1 F2 F3 F4 F5 F6 F7 F8 F9 F10 F11].
    split; flow_cbn; auto; try congruence; try lia.
    + by rewrite app_nil_r.
    + rewrite app_nil_r. auto.
    + rewrite app_nil_r. cbn [b2z]. lia.
Qed.

Lemma inv_establish s :
  flow_inv s -> established s = false -> (recvDelivered s = -1 -> outSent (pump s) <> []) ->
  flow_inv (mkFlow (gate s) (sent s) (wireValues s) (wireCredits s ++ [window s]) (pump s)
              (recvDelivered s) (hookPending s) true (window s)).
Proof.
  intros Hi He Hh. pose proof (fi_conserve _ Hi) as Hc. rewrite He in Hc.
  pose proof (fun E => fi_ack _ Hi E (or_intror (Hh E))) as Hack.
  destruct Hi as [F1 F2 F3 F4 F5 F6 F7 F8 F9 F10 F11].
  split; flow_cbn; auto; try congruence.
  - apply Forall_app. split; [done|]. constructor; [lia|done].
  - rewrite zsum_app. change (zsum [window s]) with (window s + 0). lia.
Qed.

Lemma inv_credit n cs s :
  flow_inv s -> wireCredits s = n :: cs ->
  flow_inv (mkFlow (Grant n (gate s)) (sent s) (wireValues s) cs (pump s)
              (recvDelivered s) (hookPending s) (established s) (window s)).
Proof.
  intros Hi Hcs. pose proof (flow_parts_nonneg s Hi) as (_ & N2 & N3 & N4).
  pose proof (fi_conserve _ Hi) as Hc. pose proof (fi_credits _ Hi) as Hf.
  rewrite Hcs in Hc, Hf. apply Forall_cons in Hf as [Hn Hf].
  pose proof (zsum_nonneg cs Hf). cbn [zsum foldr] in Hc. fold (zsum cs) in Hc.
  destruct (established s) eqn:He.
  2:{ destruct (fi_pre _ Hi He) as (_ & E & _). by rewrite E in Hcs. }
  pose proof (flow_slack s Hi He). pose proof (fi_window _ Hi).
  destruct (fi_gate _ Hi) as [Hcl Hg0].
  destruct (Grant_exact n (gate s)) as [Hg Hgc]; [lia..|].
  destruct Hi as [F1 F2 F3 F4 F5 F6 F7 F8 F9 F10 F11].
  split; flow_cbn; auto; try congruence.
  - split; [congruence|lia].
  - lia.
Qed.


Lemma flow_step_inv s s' : flow_inv s -> flow_step s s' -> flow_inv s'.
Proof.
  intros Hi Hs. inv Hs.
  - by apply inv_send.
  - by eapply inv_recv.
  - by apply inv_take.
  - by apply inv_deliver.
  - by apply inv_hook.
  - by apply inv_establish.
  - by apply inv_credit.
Qed.

Lemma init_responder_inv w : 0 < w < two63 -> flow_inv (init_responder w).
Proof.
  intros Hw. pose proof (batchOf_bounds w ltac:(lia)).
  split; flow_cbn; try done; try lia.
  - apply NewStreamPump_wf.
  - cbn. destruct (w <=? 0) eqn:E; bool_to_prop; lia.
  - cbn. lia.
Qed.

Lemma init_initiator_inv w : 0 < w < two63 -> flow_inv (init_initiator w).
Proof.
  intros Hw. pose proof (batchOf_bounds w ltac:(lia)).
  assert (maxPending (@NewStreamPump V w) = w) as Hm
    by (cbn; destruct (w <=? 0) eqn:E; bool_to_prop; lia).
  destruct (Push_open nilv (NewStreamPump w) (NewStreamPump_wf nilv w) eq_refl eq_refl) as [p' Hp].
  { rewrite Hm. change (0 < w). lia. }
  pose proof (Push_true nilv growcap nilv _ _ (NewStreamPump_wf nilv w) Hp) as
    (Hl & Hpc & Hou & Hs & Hin & _ & _ & Hov & Hm' & _ & _).
  pose proof (Push_wf nilv growcap growcap_larger nilv _ _ _ (NewStreamPump_wf nilv w) Hp) as Hwf.
  unfold init_initiator. rewrite Hp. cbn [snd].
  split; flow_cbn; try done; try lia; try congruence.
  - intros _ [?|Ho]; [done|]. by rewrite Hou in Ho.
  - rewrite Hl. unfold in_hand. rewrite Hpc. reflexivity.
Qed.

Lemma fi_credit_exact n cs s :
  flow_inv s -> wireCredits s = n :: cs -> credit (Grant n (gate s)) = credit (gate s) + n.
Proof.
  intros Hi Hcs. pose proof (inv_credit n cs s Hi Hcs) as Hi'.
  pose proof (fi_conserve _ Hi) as E1. pose proof (fi_conserve _ Hi') as E2.
  revert E2. flow_cbn. rewrite <- E1, Hcs. cbn [zsum foldr]. fold (zsum cs). lia.
Qed.

(** Order: what the consumer received, then what is on its way, is what was sent. *)
Definition flow_order (pre : list V) (s : flow) : Prop :=
  outSent (pump s) ++ in_hand (pump s) ++ live (pump s) ++ wireValues s = pre ++ sent s.

Lemma flow_step_order pre s s' :
  flow_inv s -> flow_step s s' -> flow_order pre s -> flow_order pre s'.
Proof.
  intros Hi Hs Ho. unfold flow_order in *. inv Hs; flow_cbn; try done.
  - rewrite !app_assoc, <- Ho, !app_assoc. done.
  - destruct (inv_recv v w b p' s Hi) as [-> _]; [done..|].
    pose proof (Push_true nilv growcap v _ _ (fi_wf _ Hi) ltac:(done)) as (Hl & Hpc & Hou & _).
    subst_eq (wireValues s). unfold in_hand in *. rewrite Hl, Hpc, Hou, <- Ho, <- !app_assoc. done.
  - destruct (fi_open _ Hi) as (Ho1 & Ho2 & _).
    destruct (run_locked_spec nilv (pump s) p' (fi_wf _ Hi)) as
      [[_ [?|[? _]]]|(v & Hl & Hpc' & Hou & _)]; [done..|congruence|congruence|].
    rewrite <- Ho, Hl, Hou. unfold in_hand. rewrite Hpc'. subst_eq (pc (pump s)). done.
  - rewrite <- Ho. unfold in_hand. cbn. subst_eq (pc (pump s)). by rewrite <- app_assoc.
Qed.

Lemma flow_reach_inv pre s0 s :
  flow_inv s0 -> flow_order pre s0 -> reach flow_step s0 s -> flow_inv s /\ flow_order pre s.
Proof.
  intros H1 H2 Hr. apply (reach_inv flow_step (fun s => flow_inv s /\ flow_order pre s) s0 s); auto.
  intros a b [Ha Hb] Hs. split; [by eapply flow_step_inv | by eapply flow_step_order].
Qed.

Lemma init_order_initiator w : 0 < w -> flow_order [nilv] (init_initiator w).
Proof.
  intros Hw. unfold init_initiator, flow_order.
  assert (maxPending (@NewStreamPump V w) = w) as Hm
    by (cbn; destruct (w <=? 0) eqn:E; bool_to_prop; lia).
  destruct (Push_open nilv (NewStreamPump w) (NewStreamPump_wf nilv w) eq_refl eq_refl) as [p' Hp].
  { rewrite Hm. change (0 < w). lia. }
  pose proof (Push_true nilv growcap nilv _ _ (NewStreamPump_wf nilv w) Hp) as (Hl & Hpc & Hou & _).
  rewrite Hp. flow_cbn. cbn [snd]. unfold in_hand. rewrite Hl, Hpc, Hou. done.
Qed.

(** ** Progress

    Work left on the receiving side: frames to push, values to take, to hand
    over, hooks to run.  Every receiver step makes it smaller. *)
Definition work (s : flow) : nat :=
  4 * length (wireValues s) + 3 * length (live (pump s)) +
  2 * length (in_hand (pump s)) + (if hookPending s then 1 else 0).

(** While the sender waits and no credit is in transit, a receiver step is enabled. *)
Lemma flow_receiver_step s :
  flow_inv s -> established s = true -> credit (gate s) = 0 -> wireCredits s = [] ->
  exists s', flow_step s s' /\ gate s' = gate s /\ established s' = true /\ (work s' < work s)%nat.
Proof.
  intros Hi He Hc0 Hcs. pose proof (fi_conserve _ Hi) as Hc. rewrite He, Hcs, Hc0 in Hc.
  pose proof (fi_delivered _ Hi). pose proof (batchOf_bounds (window s) ltac:(apply (fi_window _ Hi))).
  destruct (hookPending s) eqn:Hh.
  { eexists. split; [by apply fl_hook|]. split_and!; [done..|].
    unfold work. flow_cbn. rewrite Hh. lia. }
  destruct (wireValues s) as [|v w] eqn:Hw.
  2:{ destruct (Push nilv growcap v (pump s)) as [b p'] eqn:HP.
      destruct (inv_recv v w b p' s Hi Hw HP) as [-> _].
      pose proof (Push_true nilv growcap v _ _ (fi_wf _ Hi) HP) as (Hl & Hpc & _).
      eexists. split; [by eapply fl_recv|]. split_and!; [done..|].
      unfold work, in_hand. flow_cbn. rewrite Hw, Hl, Hpc, Hh, length_app. cbn. lia. }
  destruct (pc (pump s)) as [|v|] eqn:Hpc.
  - destruct (run_locked nilv (pump s)) as [p'|] eqn:Hr.
    + destruct (fi_open _ Hi) as (Ho1 & Ho2 & _).
      destruct (run_locked_spec nilv _ _ (fi_wf _ Hi) Hpc Hr) as
        [[_ [?|[? _]]]|(v & Hl & Hpc' & _)]; [congruence..|].
      eexists. split; [by eapply fl_take|]. split_and!; [done..|].
      unfold work, in_hand. flow_cbn. rewrite Hw, Hl, Hpc, Hpc', Hh. cbn. lia.
    + exfalso. revert Hr. unfold run_locked. destruct (fi_open _ Hi) as (-> & -> & _).
      rewrite !andb_true_r. case_bool_decide as Ez.
      * intros _. apply (pending_zero nilv _ (fi_wf _ Hi)) in Ez.
        unfold in_hand in Hc. rewrite Hpc, Ez in Hc.
        unfold zsum, zlen, b2z in Hc. cbn [length foldr] in Hc. lia.
      * destruct (queue (pump s) !! head (pump s)) eqn:Eq; [done|]. intros _.
        apply lookup_ge_None in Eq. destruct (wf_head _ _ (fi_wf _ Hi)) as [|[E0 E1]]; [lia|].
        apply Ez. unfold pendingLen. by rewrite E0, E1.
  - eexists. split; [by apply fl_deliver|]. split_and!; [done..|].
    unfold work, in_hand, live. flow_cbn. rewrite Hpc, Hh. cbn. lia.
  - exfalso. destruct (fi_open _ Hi) as (Ho1 & Ho2 & _).
    destruct (wf_done _ _ (fi_wf _ Hi) Hpc) as [|[]]; congruence.
Qed.

Lemma flow_credit_arrives s :
  flow_inv s -> established s = true -> credit (gate s) = 0 ->
  exists s', reach flow_step s s' /\ 0 < credit (gate s').
Proof.
  remember (work s) as n eqn:Hn. revert s Hn.
  induction n as [n IH] using (well_founded_induction lt_wf). intros s -> Hi He Hc0.
  destruct (wireCredits s) as [|c cs] eqn:Hcs.
  - destruct (flow_receiver_step s Hi He Hc0 Hcs) as (s1 & Hs1 & Hg1 & He1 & Hlt).
    destruct (IH _ Hlt s1 eq_refl) as (s2 & Hr & Hc); [|done|congruence|].
    { by eapply flow_step_inv. }
    exists s2. split; [|done]. eapply reach_trans; [|exact Hr]. eauto with vrpc.
  - eexists. split; [eapply reach_next; [constructor|]; by eapply fl_credit|]. flow_cbn.
    pose proof (fi_credits _ Hi) as Hf. rewrite Hcs in Hf. apply Forall_cons in Hf as [Hpos _].
    pose proof (fi_credit_exact c cs s Hi Hcs). lia.
Qed.

(** ** A window that is not positive *)

(** What holds forever when the initial grant is not positive. *)
Record stalled (s : flow) : Prop := {
  sl_gate : gate s = NewCreditGate;
  sl_sent : sent s = [] /\ wireValues s = [];
  sl_credits : Forall (fun n => n <= 0) (wireCredits s);
  sl_pump : pump s = NewStreamPump (window s);
  sl_hook : hookPending s = false;
  sl_window : window s <= 0
}.

Lemma stalled_step s s' : stalled s -> flow_step s s' -> stalled s'.
Proof.
  intros [Hg [Hs1 Hs2] Hc Hp Hh Hw] Hs. inv Hs.
  - rewrite Hg in *. done.
  - congruence.
  - rewrite Hp in *. done.
  - rewrite Hp in *. done.
  - congruence.
  - split; flow_cbn; auto. apply Forall_app. auto.
  - subst_eq (wireCredits s). apply Forall_cons in Hc as [Hn Hc].
    split; flow_cbn; auto. unfold Grant. by rewrite Hg, (proj2 (Z.leb_le _ _)).
Qed.

(** ** Properties *)

(** A receiver that opened the stream grants its window once the stream is ready and
    half-windows as its consumer reads: its pump never overflows nor holds more than
    the window, and the values sent are those delivered, in hand, queued and on the
    wire, in order. *)
Theorem flow_initiator_safe w s :
  0 < w < two63 -> reach flow_step (init_initiator w) s ->
  overflow (pump s) = false /\ zlen (live (pump s)) <= w /\
  nilv :: sent s = outSent (pump s) ++ in_hand (pump s) ++ live (pump s) ++ wireValues s /\
  (forall v rest, wireValues s = v :: rest -> (Push nilv growcap v (pump s)).1 = true).
Proof.
  intros Hw Hr.
  destruct (flow_reach_inv [nilv] _ _ (init_initiator_inv w Hw)
              (init_order_initiator w ltac:(lia)) Hr) as [Hi Ho].
  assert (window s = w) as Hws.
  { clear -Hr. induction Hr as [|? ? ? IH Hs]; [done|]. rewrite <- IH. by inv Hs. }
  split_and!.
  - apply (fi_open _ Hi).
  - rewrite <- Hws, <- (fi_max _ Hi). apply (wf_bound _ _ (fi_wf _ Hi)).
  - by symmetry.
  - intros v rest Hv. destruct (Push nilv growcap v (pump s)) as [b p'] eqn:HP.
    by destruct (inv_recv v rest b p' s Hi Hv HP) as [-> _].
Qed.

(** The same for a receiver that did not open the stream. *)
Theorem flow_responder_safe w s :
  0 < w < two63 -> reach flow_step (init_responder w) s ->
  overflow (pump s) = false /\ zlen (live (pump s)) <= w /\
  sent s = outSent (pump s) ++ in_hand (pump s) ++ live (pump s) ++ wireValues s /\
  (forall v rest, wireValues s = v :: rest -> (Push nilv growcap v (pump s)).1 = true).
Proof.
  intros Hw Hr.
  destruct (flow_reach_inv [] _ _ (init_responder_inv w Hw) eq_refl Hr) as [Hi Ho].
  assert (window s = w) as Hws.
  { clear -Hr. induction Hr as [|? ? ? IH Hs]; [done|]. rewrite <- IH. by inv Hs. }
  split_and!.
  - apply (fi_open _ Hi).
  - rewrite <- Hws, <- (fi_max _ Hi). apply (wf_bound _ _ (fi_wf _ Hi)).
  - by symmetry.
  - intros v rest Hv. destruct (Push nilv growcap v (pump s)) as [b p'] eqn:HP.
    by destruct (inv_recv v rest b p' s Hi Hv HP) as [-> _].
Qed.

(** From every reachable state of an established stream the sender can get a credit. *)
Theorem flow_never_stuck w s :
  0 < w < two63 ->
  reach flow_step (init_initiator w) s \/ reach flow_step (init_responder w) s ->
  established s = true ->
  exists s', reach flow_step s s' /\ exists g', Acquire (gate s') = Some (true, g').
Proof.
  intros Hw Hr He.
  assert (flow_inv s) as Hi.
  { destruct Hr as [Hr|Hr]; [|by destruct (flow_reach_inv [] _ _ (init_responder_inv w Hw) eq_refl Hr)].
    by destruct (flow_reach_inv [nilv] _ _ (init_initiator_inv w Hw)
                   (init_order_initiator w ltac:(lia)) Hr). }
  assert (exists s', reach flow_step s s' /\ 0 < credit (gate s')) as (s' & Hs' & Hc').
  { destruct (fi_gate _ Hi) as [_ Hg].
    destruct (Z.eq_dec (credit (gate s)) 0) as [E|]; [by apply flow_credit_arrives|].
    exists s. split; [constructor|lia]. }
  exists s'. split; [done|].
  assert (flow_inv s') as Hi' by (eapply reach_inv; eauto using flow_step_inv).
  destruct (fi_gate _ Hi') as [Hcl _]. unfold Acquire. rewrite Hcl.
  rewrite (proj2 (Z.leb_gt _ _)) by lia. cbn. eauto.
Qed.

Theorem nonpositive_window_stalls w s :
  w <= 0 -> reach flow_step (init_responder w) s ->
  sent s = [] /\ Acquire (gate s) = None.
Proof.
  intros Hw Hr. assert (stalled s) as Hst.
  { eapply (reach_inv flow_step stalled); [|apply stalled_step|exact Hr]. by split. }
  split; [apply (sl_sent _ Hst)|]. by rewrite (sl_gate _ Hst).
Qed.

End flow.

Section flow_witness.

Definition demo_flow : flow (V:=nat) :=
  mkFlow (Grant 2 NewCreditGate) [] [] [] (NewStreamPump 2) 0 false true 2.

Lemma demo_flow_reach : reach (flow_step 0%nat demo_grow) (init_responder 2) demo_flow.
Proof.
  eapply reach_next; [eapply reach_next; [constructor|]|].
  - by apply fl_establish.
  - by eapply fl_credit.
Qed.

Lemma demo_flow_reach_initiator :
  reach (flow_step 0%nat demo_grow) (init_initiator 0%nat demo_grow 2) (init_initiator 0%nat demo_grow 2).
Proof. constructor. Qed.

Lemma flow_initiator_safe_witness :
  overflow (pump (init_initiator 0%nat demo_grow 2)) = false.
Proof.
  apply (flow_initiator_safe 0%nat demo_grow demo_grow_larger 2); [unfold two63; lia|constructor].
Defined.

Lemma flow_responder_safe_witness : overflow (pump demo_flow) = false.
Proof.
  apply (flow_responder_safe 0%nat demo_grow demo_grow_larger 2); [unfold two63; lia|].
  exact demo_flow_reach.
Defined.

Lemma flow_never_stuck_witness :
  exists s', reach (flow_step 0%nat demo_grow) demo_flow s' /\
             exists g', Acquire (gate s') = Some (true, g').
Proof.
  apply (flow_never_stuck 0%nat demo_grow demo_grow_larger 2); [unfold two63; lia| |reflexivity].
  right. exact demo_flow_reach.
Defined.

Lemma nonpositive_window_stalls_witness :
  exists s, reach (flow_step 0%nat demo_grow) (init_responder 0) s /\ wireCredits s = [0] /\
            Acquire (gate s) = None.
Proof.
  exists (mkFlow NewCreditGate [] [] [0] (NewStreamPump 0) 0 false true 0).
  assert (reach (flow_step 0%nat demo_grow) (init_responder 0)
            (mkFlow NewCreditGate [] [] [0] (NewStreamPump 0) 0 false true 0)) as Hr.
  { eapply reach_next; [constructor|]. by apply (fl_establish 0%nat demo_grow (init_responder 0)). }
  split; [exact Hr|]. split; [reflexivity|].
  apply (nonpositive_window_stalls 0%nat demo_grow 0 _ ltac:(lia) Hr).
Defined.
End flow_witness.
