(* ===== verification/Request.v ===== *)
(** * The client's in-flight request

    Models valueclient/request.go: [rpcRequestCtx], the object that correlates one
    outgoing request with the frames the server sends back.  Its result channel
    is the output of a pump for the streaming kinds and a plain buffered channel
    otherwise; both are kept, with the number of times each Go channel was
    closed, because closing a channel twice panics.

    The callbacks [grantCredit] and [metrics] are events here; the client turns
    them into messages and metric calls. *)

From S2P Require Import Prelude Value RefValue Protocol Credit Pump FlowControl.

Inductive streamKind := unaryKind | getStreamKind | putStreamKind | chatKind.

#[export] Instance streamKind_eq_dec : EqDecision streamKind.
Proof. solve_decision. Defined.

(** valueclient/error.go *)
Definition ErrNoResponse : goerror := ErrPlain "no response".
Definition ErrNoMessageType : goerror := ErrPlain "message type not found".
Definition ErrIdFieldNotFound : goerror := ErrPlain "request id not found".
Definition ErrTimeoutError : goerror := ErrPlain "timeout error".
Definition ErrRequestNotFound : goerror := ErrPlain "request not found".
Definition ErrUnsupportedMessageType : goerror := ErrPlain "message type not supported".

(** [xerrors.Is(err, target)] for a sentinel [target]. *)
Fixpoint errors_Is (e target : goerror) : bool :=
  bool_decide (e = target) ||
  match e with ErrWrap _ inner => errors_Is inner target | _ => false end.

(** The metrics code of a request's terminal error. *)
Definition metricsCode (err : option goerror) : Z :=
  match err with
  | None => CodeOK
  | Some e =>
      if errors_Is e ErrTimeoutError || errors_Is e ErrDeadlineExceeded then CodeDeadlineExceeded
      else if errors_Is e ErrCanceled then CodeCanceled
      else CodeOf err
  end.

Inductive req_ev :=
| RGrant (n : Z)                        (* grantCredit(n) *)
| RRequestEnd (name : string) (code : Z). (* metrics.RequestEnd *)

Section request.
Context `{ValueLib} (d : Dialect) (growcap : nat -> nat).

Record rpcRequestCtx := mkReq {
  rc_requestId : Z;
  rc_kind : streamKind;
  rc_req : VMap;
  rc_receiveCap : Z;
  rc_resultBuf : list (option Value);      (* resultCh of the unary and put kinds *)
  rc_resultCloses : nat;                   (* times that channel was closed *)
  rc_resultPump : option (StreamPump (option Value));
  rc_sendCredit : option CreditGate;
  rc_doneCloses : nat;                     (* times done was closed *)
  rc_closeOnce : bool;
  rc_cancelOnce : bool;
  rc_getClosed : bool;
  rc_putClosed : bool;
  rc_resultErr : option goerror;
  rc_creditWindow : Z;
  rc_recvDelivered : Z;
  rc_grantCredit : bool;                   (* the callback is set *)
  rc_metrics : bool                        (* metrics are set *)
}.

Definition rc_with_direct (b : list (option Value)) (n : nat) (t : rpcRequestCtx) :=
  mkReq (rc_requestId t) (rc_kind t) (rc_req t) (rc_receiveCap t) b n (rc_resultPump t)
    (rc_sendCredit t) (rc_doneCloses t) (rc_closeOnce t) (rc_cancelOnce t) (rc_getClosed t)
    (rc_putClosed t) (rc_resultErr t) (rc_creditWindow t) (rc_recvDelivered t)
    (rc_grantCredit t) (rc_metrics t).
Definition rc_with_pump (p : option (StreamPump (option Value))) (t : rpcRequestCtx) :=
  mkReq (rc_requestId t) (rc_kind t) (rc_req t) (rc_receiveCap t) (rc_resultBuf t)
    (rc_resultCloses t) p (rc_sendCredit t) (rc_doneCloses t) (rc_closeOnce t) (rc_cancelOnce t)
    (rc_getClosed t) (rc_putClosed t) (rc_resultErr t) (rc_creditWindow t) (rc_recvDelivered t)
    (rc_grantCredit t) (rc_metrics t).
Definition rc_with_gate (g : option CreditGate) (t : rpcRequestCtx) :=
  mkReq (rc_requestId t) (rc_kind t) (rc_req t) (rc_receiveCap t) (rc_resultBuf t)
    (rc_resultCloses t) (rc_resultPump t) g (rc_doneCloses t) (rc_closeOnce t) (rc_cancelOnce t)
    (rc_getClosed t) (rc_putClosed t) (rc_resultErr t) (rc_creditWindow t) (rc_recvDelivered t)
    (rc_grantCredit t) (rc_metrics t).
Definition rc_with_done (n : nat) (once : bool) (t : rpcRequestCtx) :=
  mkReq (rc_requestId t) (rc_kind t) (rc_req t) (rc_receiveCap t) (rc_resultBuf t)
    (rc_resultCloses t) (rc_resultPump t) (rc_sendCredit t) n once (rc_cancelOnce t)
    (rc_getClosed t) (rc_putClosed t) (rc_resultErr t) (rc_creditWindow t) (rc_recvDelivered t)
    (rc_grantCredit t) (rc_metrics t).
Definition rc_with_flags (cancel get put : bool) (t : rpcRequestCtx) :=
  mkReq (rc_requestId t) (rc_kind t) (rc_req t) (rc_receiveCap t) (rc_resultBuf t)
    (rc_resultCloses t) (rc_resultPump t) (rc_sendCredit t) (rc_doneCloses t) (rc_closeOnce t)
    cancel get put (rc_resultErr t) (rc_creditWindow t) (rc_recvDelivered t)
    (rc_grantCredit t) (rc_metrics t).
Definition rc_with_err (e : option goerror) (t : rpcRequestCtx) :=
  mkReq (rc_requestId t) (rc_kind t) (rc_req t) (rc_receiveCap t) (rc_resultBuf t)
    (rc_resultCloses t) (rc_resultPump t) (rc_sendCredit t) (rc_doneCloses t) (rc_closeOnce t)
    (rc_cancelOnce t) (rc_getClosed t) (rc_putClosed t) e (rc_creditWindow t)
    (rc_recvDelivered t) (rc_grantCredit t) (rc_metrics t).
Definition rc_with_delivered (n : Z) (t : rpcRequestCtx) :=
  mkReq (rc_requestId t) (rc_kind t) (rc_req t) (rc_receiveCap t) (rc_resultBuf t)
    (rc_resultCloses t) (rc_resultPump t) (rc_sendCredit t) (rc_doneCloses t) (rc_closeOnce t)
    (rc_cancelOnce t) (rc_getClosed t) (rc_putClosed t) (rc_resultErr t) (rc_creditWindow t)
    n (rc_grantCredit t) (rc_metrics t).

(** The pump and credit-gate fields depend on the kind only. *)
Definition receives (k : streamKind) : bool :=
  bool_decide (k = getStreamKind) || bool_decide (k = chatKind).
Definition sends (k : streamKind) : bool :=
  bool_decide (k = putStreamKind) || bool_decide (k = chatKind).

Definition NewRequestCtx (requestId : Z) (kind : streamKind) (req : VMap)
    (receiveCap maxPending : Z) (grantCredit metrics : bool) : rpcRequestCtx :=
  let maxPending' := if maxPending <=? 0 then DefaultMaxPending else maxPending in
  mkReq requestId kind req receiveCap [] 0
    (if receives kind then Some (NewStreamPump maxPending') else None)
    (if sends kind then Some NewCreditGate else None)
    0 false false false false None
    (if receives kind then maxPending' else 0)
    (if receives kind then -1 else 0)
    grantCredit metrics.

Abbreviation R := (M rpcRequestCtx req_ev).

Definition is_some {A} (o : option A) : bool := match o with Some _ => true | None => false end.

Definition sendInitialCredit : R unit :=
  t ← gets id;
  when (is_some (rc_resultPump t) && rc_grantCredit t) (emit (RGrant (rc_creditWindow t))).

Definition RequestCtx_grantRecv : R unit :=
  t ← gets id;
  let '(n, g) := grantRecv (rc_creditWindow t) (rc_recvDelivered t) in
  modify (rc_with_delivered n) ≫= fun _ =>
  match g with
  | Some n => when (rc_grantCredit t) (emit (RGrant n))
  | None => mret tt
  end.

Definition RequestCtx_Name (t : rpcRequestCtx) : string :=
  stringOf (GetString (rc_req t) (FunctionNameField d)).

(** [notifyResult]: [None] when the direct send would block (the buffer is full
    and the request is not done).  After closeResult the send panics and is
    recovered, or the done case is taken: false either way. *)
Definition notifyResult (res : option Value) : R (option bool) :=
  t ← gets id;
  match rc_resultPump t with
  | Some p =>
      let '(b, p') := Push None growcap res p in
      modify (rc_with_pump (Some p')) ≫= fun _ => mret (Some b)
  | None =>
      if negb (bool_decide (rc_doneCloses t = 0%nat)) then mret (Some false)
      else if Z.of_nat (length (rc_resultBuf t)) <? rc_receiveCap t then
        modify (fun t => rc_with_direct (rc_resultBuf t ++ [res]) (rc_resultCloses t) t) ≫= fun _ =>
        mret (Some true)
      else mret None
  end.

Definition RequestCtx_Error (t : rpcRequestCtx) (defaultError : option goerror) : option goerror :=
  match rc_resultErr t with Some e => Some e | None => defaultError end.

Definition RequestCtx_closeResult : R unit :=
  t ← gets id;
  if rc_closeOnce t then mret tt
  else
    modify (fun t => rc_with_done (S (rc_doneCloses t)) true t) ≫= fun _ =>
    modify (fun t => rc_with_gate (CloseGate <$> rc_sendCredit t) t) ≫= fun _ =>
    modify (fun t => match rc_resultPump t with
                     | Some p => rc_with_pump (Some (Close p)) t
                     | None => rc_with_direct (rc_resultBuf t) (S (rc_resultCloses t)) t
                     end) ≫= fun _ =>
    when (rc_metrics t) (emit (RRequestEnd (RequestCtx_Name t) (metricsCode (RequestCtx_Error t None)))).

Definition RequestCtx_Close : R unit :=
  modify (fun t => rc_with_flags (rc_cancelOnce t) true (rc_putClosed t) t) ≫= fun _ =>
  modify (fun t => rc_with_flags (rc_cancelOnce t) (rc_getClosed t) true t) ≫= fun _ =>
  modify (fun t => rc_with_pump (Stop <$> rc_resultPump t) t) ≫= fun _ =>
  RequestCtx_closeResult.

Definition IsGetOpen (t : rpcRequestCtx) : bool := negb (rc_getClosed t).
Definition IsPutOpen (t : rpcRequestCtx) : bool := negb (rc_putClosed t).

Definition TryGetClose : R bool :=
  modify (fun t => rc_with_flags (rc_cancelOnce t) true (rc_putClosed t) t) ≫= fun _ =>
  RequestCtx_closeResult ≫= fun _ =>
  t ← gets id;
  mret (if decide (rc_kind t = chatKind) then rc_putClosed t else true).

Definition TryPutClose : R bool :=
  modify (fun t => rc_with_flags (rc_cancelOnce t) (rc_getClosed t) true t) ≫= fun _ =>
  t ← gets id;
  if decide (rc_kind t = putStreamKind) then RequestCtx_closeResult ≫= fun _ => mret true
  else mret (rc_getClosed t).

Definition SetError (err : goerror) : R unit := modify (rc_with_err (Some err)).

(** sendCredit.Grant, as the response loop calls it. *)
Definition RequestCtx_Grant (n : Z) : R unit :=
  modify (fun t => rc_with_gate (Grant n <$> rc_sendCredit t) t).

(** The select of SingleResp: which case fired. *)
Inductive single_case :=
| ResultReceived (v : option Value)
| ResultClosed
| CtxDone (ctxErr : goerror)
| TimerFired (ctxErr : option goerror).

(** The outcome, and whether onTimeout ran. *)
Definition SingleResp (t : rpcRequestCtx) (c : single_case) : (option Value + goerror) * bool :=
  match c with
  | ResultReceived v => (inl v, false)
  | ResultClosed => (inr (default ErrNoResponse (RequestCtx_Error t (Some ErrNoResponse))), false)
  | CtxDone e => (inr e, true)
  | TimerFired (Some e) => (inr e, true)
  | TimerFired None => (inr (default ErrTimeoutError (RequestCtx_Error t (Some ErrTimeoutError))), true)
  end.

(** ** Everything that can happen to a request

    The response loop, the caller, streamOut, the pump goroutine and the
    consumer; an operation that would block is left out of the run. *)

Inductive req_op :=
| OpNotify (v : option Value)
| OpGrantCredit (n : Z)
| OpSetError (e : goerror)
| OpReqClose
| OpTryGetClose
| OpTryPutClose
| OpInitialCredit
| OpAcquireCredit
| OpPumpTake
| OpPumpDeliver
| OpPumpAbandon
| OpReceive.

Definition on_pump (f : StreamPump (option Value) -> option (StreamPump (option Value))) : R bool :=
  t ← gets id;
  match rc_resultPump t with
  | Some p =>
      match f p with
      | Some p' => modify (rc_with_pump (Some p')) ≫= fun _ => mret true
      | None => mret false
      end
  | None => mret false
  end.

Definition run_req_op (op : req_op) : R unit :=
  match op with
  | OpNotify v => notifyResult v ≫= fun _ => mret tt
  | OpGrantCredit n => RequestCtx_Grant n
  | OpSetError e => SetError e
  | OpReqClose => RequestCtx_Close
  | OpTryGetClose => TryGetClose ≫= fun _ => mret tt
  | OpTryPutClose => TryPutClose ≫= fun _ => mret tt
  | OpInitialCredit => sendInitialCredit
  | OpAcquireCredit =>
      modify (fun t => rc_with_gate
        (match rc_sendCredit t with
         | Some g => match Acquire g with Some (_, g') => Some g' | None => Some g end
         | None => None
         end) t)
  | OpPumpTake => on_pump (fun p => match pc p with AtLock => run_locked None p | _ => None end) ≫= fun _ => mret tt
  | OpPumpDeliver =>
      b ← on_pump (fun p => match pc p with Sending v => Some (run_sent v p) | _ => None end);
      if b : bool then RequestCtx_grantRecv else mret tt
  | OpPumpAbandon =>
      on_pump (fun p => match pc p with
                        | Sending _ => if stopped p then Some (finish p) else None
                        | _ => None
                        end) ≫= fun _ => mret tt
  | OpReceive => modify (fun t => rc_with_direct (tail (rc_resultBuf t)) (rc_resultCloses t) t)
  end.

(** ** The lifecycle invariant *)

Definition is_end (e : req_ev) : bool := match e with RRequestEnd _ _ => true | _ => false end.
Definition ends (o : list req_ev) : nat := length (List.filter is_end o).

Lemma ends_app o1 o2 : ends (o1 ++ o2) = (ends o1 + ends o2)%nat.
Proof. unfold ends. by rewrite List.filter_app, length_app. Qed.

Definition b2n (b : bool) : nat := if b then 1%nat else 0%nat.

(** [req_core]: the once-only effects happened exactly when closeOnce fired, and
    everybody who waits on the request was released then. *)
Record req_core (k : streamKind) (metrics : bool) (t : rpcRequestCtx) (o : list req_ev) : Prop := {
  ri_kind : rc_kind t = k;
  ri_metrics : rc_metrics t = metrics;
  ri_done : rc_doneCloses t = b2n (rc_closeOnce t);
  ri_ends : ends o = b2n (rc_closeOnce t && metrics);
  ri_pump : match rc_resultPump t with
            | Some p => receives k = true /\ pump_wf (None : option Value) p /\ rc_resultCloses t = 0%nat /\
                        (rc_closeOnce t = true -> inputEnd p = true)
            | None => receives k = false /\ rc_resultCloses t = b2n (rc_closeOnce t)
            end;
  ri_gate : match rc_sendCredit t with
            | Some g => sends k = true /\ (rc_closeOnce t = true -> closed g = true)
            | None => sends k = false
            end
}.

(** closeOnce fired exactly when a side that owns the close has finished. *)
Definition owner_closed (t : rpcRequestCtx) : Prop :=
  rc_getClosed t = true \/ (rc_kind t = putStreamKind /\ rc_putClosed t = true).

Definition req_inv (k : streamKind) (metrics : bool) (t : rpcRequestCtx) (o : list req_ev) : Prop :=
  req_core k metrics t o /\ (rc_closeOnce t = true <-> owner_closed t).

Lemma NewRequestCtx_inv id k req cap mp g m :
  req_inv k m (NewRequestCtx id k req cap mp g m) [].
Proof.
  unfold NewRequestCtx, req_inv, owner_closed. split; [|cbn; naive_solver].
  split; cbn; try done.
  - destruct k; cbn; (split_and!; [done|apply NewStreamPump_wf|done|done]) || done.
  - by destruct k.
Qed.

Lemma Push_input v p b p' :
  Push (None : option Value) growcap v p = (b, p') -> inputEnd p = true -> inputEnd p' = true.
Proof. unfold Push. intros HP E. rewrite E in HP. by injection HP as <- <-. Qed.

Lemma run_locked_input (p p' : StreamPump (option Value)) :
  run_locked None p = Some p' -> inputEnd p' = inputEnd p.
Proof. unfold run_locked. repeat case_match; intros [= <-]; done. Qed.

Lemma Acquire_closed g b g' : Acquire g = Some (b, g') -> closed g' = closed g.
Proof. unfold Acquire. repeat case_match; by intros [= <- <-]. Qed.

Lemma Grant_closed n g : closed (Grant n g) = closed g.
Proof. unfold Grant. by destruct (n <=? 0). Qed.

Section preservation.
Hypothesis Hgrow : forall n, (n < growcap n)%nat.
Context (k : streamKind) (metrics : bool).

(** An update that leaves closeOnce and the two flags alone only has to keep the
    core. *)
Lemma keeps_core (m : R unit) :
  keeps (req_core k metrics) m ->
  (forall t, rc_closeOnce (m_st (m t)) = rc_closeOnce t /\ rc_getClosed (m_st (m t)) = rc_getClosed t /\
             rc_putClosed (m_st (m t)) = rc_putClosed t /\ rc_kind (m_st (m t)) = rc_kind t) ->
  keeps (req_inv k metrics) m.
Proof.
  intros Hm Hf t o [Hc Ho]. split; [by apply Hm|].
  destruct (Hf t) as (E1 & E2 & E3 & E4). unfold owner_closed. by rewrite E1, E2, E3, E4.
Qed.

Lemma notifyResult_core v : keeps (req_core k metrics) (notifyResult v).
Proof.
  intros t o []. unfold notifyResult. unM. destruct (rc_resultPump t) as [p|] eqn:Ep.
  - destruct (Push None growcap v p) as [b p'] eqn:HP. cbn. rewrite app_nil_r.
    destruct ri_pump0 as (Hr & Hwf & Hc & Hi). split; cbn; try done.
    split_and!; [done|by eapply Push_wf|done|]. intros Ho. eapply Push_input; [exact HP|auto].
  - repeat (break_match; cbn); rewrite app_nil_r; split; cbn; rewrite ?Ep; done.
Qed.

Lemma on_pump_core f :
  (forall p p', pump_wf None p -> f p = Some p' -> pump_wf None p' /\ inputEnd p' = inputEnd p) ->
  keeps (req_core k metrics) (on_pump f).
Proof.
  intros Hf t o []. unfold on_pump. unM. destruct (rc_resultPump t) as [p|] eqn:Ep.
  - destruct (f p) as [p'|] eqn:E; cbn; rewrite app_nil_r; [|split; cbn; rewrite ?Ep; done].
    destruct ri_pump0 as (Hr & Hwf & Hc & Hi). destruct (Hf p p' Hwf E) as [Hwf' Hi'].
    split; cbn; try done. split_and!; try done. rewrite Hi'. auto.
  - cbn. rewrite app_nil_r. split; cbn; rewrite ?Ep; done.
Qed.

Lemma closeResult_core : keeps (req_core k metrics) RequestCtx_closeResult.
Proof.
  intros t o []. unfold RequestCtx_closeResult. unM. destruct (rc_closeOnce t) eqn:Eo; cbn.
  { rewrite app_nil_r. split; rewrite ?Eo; done. }
  assert (Hg : match CloseGate <$> rc_sendCredit t with
               | Some g => sends k = true /\ (true = true -> closed g = true)
               | None => sends k = false
               end) by (destruct (rc_sendCredit t); cbn; naive_solver).
  destruct (rc_resultPump t) as [p|] eqn:Ep; cbn; rewrite ?Ep; cbn.
  - destruct ri_pump0 as (Hr & Hwf & Hc & _).
    destruct (rc_metrics t) eqn:Em; cbn; subst metrics; cbn in *;
      (split; cbn; rewrite ?ends_app, ?ri_ends0, ?ri_done0; cbn; auto using Close_wf).
  - destruct ri_pump0 as (Hr & Hc).
    destruct (rc_metrics t) eqn:Em; cbn; subst metrics; cbn in *;
      (split; cbn; rewrite ?Ep, ?ends_app, ?ri_ends0, ?ri_done0, ?Hc; cbn; auto).
Qed.

Lemma closeResult_effect t :
  let t' := m_st (RequestCtx_closeResult t) in
  rc_closeOnce t' = true /\ rc_getClosed t' = rc_getClosed t /\ rc_putClosed t' = rc_putClosed t /\
  rc_kind t' = rc_kind t.
Proof.
  unfold RequestCtx_closeResult. unM. destruct (rc_closeOnce t) eqn:E; cbn; [done|].
  destruct (rc_resultPump t) eqn:Ep; cbn; rewrite ?Ep; cbn; by destruct (rc_metrics t).
Qed.

Lemma flags_core c g p : keeps (req_core k metrics) (modify (rc_with_flags c g p)).
Proof. apply keeps_modify. intros t o []. by split. Qed.

Lemma sendInitialCredit_core : keeps (req_core k metrics) sendInitialCredit.
Proof.
  unfold sendInitialCredit. keeps_split. apply keeps_emit.
  intros t o []. split; rewrite ?ends_app; cbn; rewrite ?Nat.add_0_r; done.
Qed.

Lemma grantRecv_core : keeps (req_core k metrics) RequestCtx_grantRecv.
Proof.
  unfold RequestCtx_grantRecv. keeps_split; [apply keeps_modify|apply keeps_emit]; intros t' o' [];
    split; rewrite ?ends_app; cbn; rewrite ?Nat.add_0_r; done.
Qed.

(** The three closing methods. *)
Lemma close_inv (c : R unit) :
  keeps (req_core k metrics) c ->
  (forall t, rc_closeOnce (m_st (c t)) = true /\ owner_closed (m_st (c t))) ->
  keeps (req_inv k metrics) c.
Proof. intros Hc Ho t o [Hcore _]. split; [by apply Hc|]. destruct (Ho t). tauto. Qed.

Lemma Close_inv : keeps (req_inv k metrics) RequestCtx_Close.
Proof.
  apply close_inv.
  - unfold RequestCtx_Close. keeps_split.
    1,2: apply keeps_modify; intros t o []; by split.
    + apply keeps_modify. intros t o []. split; cbn; try done.
      destruct (rc_resultPump t); cbn in *; naive_solver auto using Stop_wf.
    + apply closeResult_core.
  - intros t. unfold RequestCtx_Close, mbind, M_bind, modify, m_st. cbn.
    match goal with |- context [RequestCtx_closeResult ?x] => set (t1 := x) end.
    pose proof (closeResult_effect t1) as (E1 & E2 & E3 & E4). unfold m_st, owner_closed in *.
    destruct (RequestCtx_closeResult t1) as [[??]?]. cbn in *. by rewrite E1, E2, E3, E4; auto.
Qed.

Lemma TryGetClose_inv : keeps (req_inv k metrics) (TryGetClose ≫= fun _ => mret tt).
Proof.
  apply close_inv.
  - unfold TryGetClose. keeps_split.
    + apply keeps_modify; intros t o []; by split.
    + apply closeResult_core.
  - intros t. unfold TryGetClose, mbind, M_bind, modify, gets, mret, M_ret, m_st. cbn.
    match goal with |- context [RequestCtx_closeResult ?x] => set (t1 := x) end.
    pose proof (closeResult_effect t1) as (E1 & E2 & E3 & E4). unfold m_st, owner_closed in *.
    destruct (RequestCtx_closeResult t1) as [[??]?]. cbn in *. by rewrite E1, E2, E3, E4; auto.
Qed.

Lemma TryPutClose_inv : keeps (req_inv k metrics) (TryPutClose ≫= fun _ => mret tt).
Proof.
  intros t o [Hcore Ho]. unfold TryPutClose, mbind, M_bind, modify, gets, mret, M_ret, m_st, m_out. cbn.
  case_decide as Ek; cbn.
  - match goal with |- context [RequestCtx_closeResult ?x] => set (t1 := x) end.
    assert (req_core k metrics t1 o) as Hc1 by (destruct Hcore; by split).
    apply closeResult_core in Hc1.
    pose proof (closeResult_effect t1) as (E1 & E2 & E3 & E4). unfold m_st, m_out, owner_closed in *.
    destruct (RequestCtx_closeResult t1) as [[??]?]. cbn in *. rewrite !app_nil_r.
    split; [done|]. unfold owner_closed. rewrite E1, E3, E4. cbn. naive_solver.
  - rewrite app_nil_r. split; [destruct Hcore; by split|]. unfold owner_closed in *. cbn in *. naive_solver.
Qed.

Lemma pump_take_ok (p p' : StreamPump (option Value)) :
  pump_wf None p -> match pc p with AtLock => run_locked None p | _ => None end = Some p' ->
  pump_wf None p' /\ inputEnd p' = inputEnd p.
Proof.
  intros Hwf E. destruct (pc p) eqn:Epc; try done. split; [|by eapply run_locked_input].
  eapply (pump_step_wf None growcap Hgrow p LTake); [done|]. by constructor.
Qed.

Lemma pump_deliver_ok (p p' : StreamPump (option Value)) :
  pump_wf None p -> match pc p with Sending v => Some (run_sent v p) | _ => None end = Some p' ->
  pump_wf None p' /\ inputEnd p' = inputEnd p.
Proof.
  intros Hwf E. destruct (pc p) eqn:Epc; try done. injection E as <-. split; [|done].
  by apply run_sent_wf.
Qed.

Lemma pump_abandon_ok (p p' : StreamPump (option Value)) :
  pump_wf None p ->
  match pc p with Sending _ => if stopped p then Some (finish p) else None | _ => None end = Some p' ->
  pump_wf None p' /\ inputEnd p' = inputEnd p.
Proof.
  intros Hwf E. destruct (pc p) eqn:Epc; try done. destruct (stopped p) eqn:Es; [|done].
  injection E as <-. split; [|done]. apply finish_wf; [done|congruence|auto].
Qed.

Lemma on_pump_flags f t :
  let t' := m_st (on_pump f t) in
  rc_closeOnce t' = rc_closeOnce t /\ rc_getClosed t' = rc_getClosed t /\
  rc_putClosed t' = rc_putClosed t /\ rc_kind t' = rc_kind t.
Proof. unfold on_pump. unM. repeat (break_match; cbn); done. Qed.

(** Every operation keeps the invariant. *)
Lemma run_req_op_inv op : keeps (req_inv k metrics) (run_req_op op).
Proof.
  destruct op; cbn [run_req_op];
    [ | | | apply Close_inv | apply TryGetClose_inv | apply TryPutClose_inv | | | | | | ];
    apply keeps_core.
  all: try (intros t; unfold notifyResult, RequestCtx_Grant, SetError, sendInitialCredit,
              RequestCtx_grantRecv, on_pump, grantRecv; unM; repeat (break_match; cbn); done).
  - keeps_split. apply notifyResult_core.
  - apply keeps_modify. intros t o []. split; cbn; try done.
    destruct (rc_sendCredit t); cbn in *; rewrite ?Grant_closed; done.
  - apply keeps_modify. intros t o []. by split.
  - apply sendInitialCredit_core.
  - apply keeps_modify. intros t o []. split; cbn; try done.
    destruct (rc_sendCredit t) as [g|]; cbn in *; [|done].
    destruct (Acquire g) as [[b g']|] eqn:E; [|done]. by rewrite (Acquire_closed _ _ _ E).
  - keeps_split. apply on_pump_core, pump_take_ok.
  - keeps_split; [apply on_pump_core, pump_deliver_ok|apply grantRecv_core].
  - keeps_split. apply on_pump_core, pump_abandon_ok.
  - apply keeps_modify. intros t o []. by split.
Qed.

End preservation.

(** ** The two sides of a chat finishing concurrently

    TryGetClose runs on the response loop and TryPutClose on the streamOut
    goroutine; each stores its own flag and then loads the other one (the
    atomics are sequentially consistent). *)

Inductive side := GetSide | PutSide.
Inductive side_pc := BeforeStore | BeforeLoad | Returned (finished : bool).

Record chat_race := mkRace { cr_get : bool; cr_put : bool; cr_getPc : side_pc; cr_putPc : side_pc }.

(** One atomic action of a side: the store of its flag, then the load. *)
Definition race_step (who : side) (s : chat_race) : chat_race :=
  match who with
  | GetSide =>
      match cr_getPc s with
      | BeforeStore => mkRace true (cr_put s) BeforeLoad (cr_putPc s)
      | BeforeLoad => mkRace (cr_get s) (cr_put s) (Returned (cr_put s)) (cr_putPc s)
      | Returned _ => s
      end
  | PutSide =>
      match cr_putPc s with
      | BeforeStore => mkRace (cr_get s) true (cr_getPc s) BeforeLoad
      | BeforeLoad => mkRace (cr_get s) (cr_put s) (cr_getPc s) (Returned (cr_get s))
      | Returned _ => s
      end
  end.

Definition race_inv (s : chat_race) : Prop :=
  (cr_get s = true <-> cr_getPc s <> BeforeStore) /\ (cr_put s = true <-> cr_putPc s <> BeforeStore) /\
  (cr_getPc s = Returned false -> cr_putPc s <> Returned false) /\
  (cr_getPc s = Returned true -> cr_put s = true) /\ (cr_putPc s = Returned true -> cr_get s = true).

Lemma race_step_inv who s : race_inv s -> race_inv (race_step who s).
Proof.
  unfold race_inv. destruct who, s as [[] [] [| |[]] [| |[]]]; cbn; intuition congruence.
Qed.

(** The race is the two methods: run alone, each side returns what its method
    returns. *)
Lemma race_is_TryGetClose t :
  rc_kind t = chatKind ->
  m_res (TryGetClose t) = rc_putClosed t /\
  cr_getPc (race_step GetSide (race_step GetSide (mkRace (rc_getClosed t) (rc_putClosed t) BeforeStore BeforeStore)))
    = Returned (m_res (TryGetClose t)).
Proof.
  intros Ek. unfold TryGetClose, mbind, M_bind, modify, gets, mret, M_ret, m_res. cbn.
  match goal with |- context [RequestCtx_closeResult ?x] => set (t1 := x) end.
  pose proof (closeResult_effect t1) as (E1 & E2 & E3 & E4). unfold m_st in *.
  destruct (RequestCtx_closeResult t1) as [[??]?]. cbn in *.
  rewrite decide_True by congruence. by rewrite E3.
Qed.

Lemma race_is_TryPutClose t :
  rc_kind t = chatKind ->
  cr_putPc (race_step PutSide (race_step PutSide (mkRace (rc_getClosed t) (rc_putClosed t) BeforeStore BeforeStore)))
    = Returned (m_res (TryPutClose t)).
Proof. intros Ek. unfold TryPutClose. unM. by rewrite decide_False by congruence. Qed.

(** ** Properties *)

(** Whatever the client's goroutines do to a request, its channels are closed at
    most once and its end is reported at most once; once closed it takes nothing. *)
(** C33: A client request of any kind, under any sequence of results, credits,
    errors, half closes, closes, pump steps and receives: its done channel is
    closed at most once and its result channel at most once, its end is
    reported to the metrics exactly once when it is closed and never before,
    it counts as closed exactly when the side that owns its end closed it, and
    once it is closed its credit gate refuses and no result is accepted. *)
Theorem request_finishes_once id k req cap mp g metrics ops :
  (forall n, (n < growcap n)%nat) ->
  let r := seqM (map run_req_op ops) (NewRequestCtx id k req cap mp g metrics) in
  let t := m_st r in
  (rc_doneCloses t <= 1)%nat /\
  (rc_resultCloses t + match rc_resultPump t with Some p => outCloses p | None => 0 end <= 1)%nat /\
  ends (m_out r) = b2n (rc_closeOnce t && metrics) /\
  (rc_closeOnce t = true <-> owner_closed t) /\
  (rc_closeOnce t = true -> rc_doneCloses t = 1%nat /\
     (forall gt, rc_sendCredit t = Some gt -> Acquire gt = Some (false, gt)) /\
     (forall v, m_res (notifyResult v t) = Some false)).
Proof.
  intros Hgrow r t.
  assert (req_inv k metrics t (m_out r)) as [[] Ho].
  { apply (keeps_run (req_inv k metrics) (seqM (map run_req_op ops))); [|apply NewRequestCtx_inv].
    apply keeps_seqM, Forall_map, Forall_true. intros op. by apply run_req_op_inv. }
  assert (rc_closeOnce t = true -> rc_doneCloses t = 1%nat) as Hd by by intros E; rewrite ri_done0, E.
  split_and!; auto.
  - rewrite ri_done0. destruct (rc_closeOnce t); cbn; lia.
  - destruct (rc_resultPump t) as [p|].
    + destruct ri_pump0 as (_ & Hwf & -> & _). rewrite (wf_closes _ _ Hwf). destruct (pc p); lia.
    + destruct ri_pump0 as (_ & ->). destruct (rc_closeOnce t); cbn; lia.
  - intros E. split_and!; [auto| |].
    + intros gt Eg. rewrite Eg in ri_gate0. destruct ri_gate0 as [_ Hc].
      unfold Acquire. by rewrite (Hc E), andb_false_r.
    + intros v. unfold notifyResult. unM. destruct (rc_resultPump t) as [p|].
      * destruct ri_pump0 as (_ & _ & _ & Hi). unfold Push. by rewrite (Hi E).
      * by rewrite bool_decide_false by (rewrite (Hd E); done).
Qed.

Theorem stream_end_delivers_all t p o :
  req_inv (rc_kind t) (rc_metrics t) t o ->
  rc_resultPump t = Some p -> stopped p = false -> pc p = AtLock ->
  exists p1, rc_resultPump (m_st (TryGetClose t)) = Some p1 /\
    let p2 := run_n None (2 * length (live p) + 1) p1 in
    pc p2 = Finished /\ outSent p2 = outSent p ++ live p /\ outCloses p2 = 1%nat.
Proof.
  intros [[] Ho] Ep Hs Hpc. rewrite Ep in ri_pump0. destruct ri_pump0 as (_ & Hwf & _ & Hi).
  unfold TryGetClose, mbind, M_bind, modify, gets, mret, M_ret, m_st. cbn.
  assert (exists p1, rc_resultPump (m_st (RequestCtx_closeResult
            (rc_with_flags (rc_cancelOnce t) true (rc_putClosed t) t))) = Some p1 /\
          pump_wf None p1 /\ inputEnd p1 = true /\ stopped p1 = false /\ pc p1 = AtLock /\
          live p1 = live p /\ outSent p1 = outSent p) as (p1 & E1 & Hwf1 & Hi1 & Hs1 & Hpc1 & Hl1 & Hsent1).
  { unfold RequestCtx_closeResult. unM. destruct (rc_closeOnce t) eqn:Eo; cbn.
    - exists p. rewrite Ep. auto 10.
    - rewrite Ep. cbn. destruct (rc_metrics t); cbn; exists (Close p);
        split_and!; auto using Close_wf. }
  unfold m_st in E1. destruct (RequestCtx_closeResult _) as [[??]?]. cbn in *.
  exists p1. split; [done|]. rewrite <- Hl1, <- Hsent1. by apply run_n_drains.
Qed.

(** In every interleaving of the two half-closes of a chat, at least one of
    them sees both halves closed, and it does so only when they are: the
    request is torn down and not before. *)
Theorem chat_teardown_decided sched :
  let s := foldl (fun s who => race_step who s) (mkRace false false BeforeStore BeforeStore) sched in
  (cr_getPc s = Returned false -> cr_putPc s <> Returned false) /\
  (cr_getPc s = Returned true -> cr_put s = true) /\
  (cr_putPc s = Returned true -> cr_get s = true).
Proof.
  intros s. assert (race_inv s) as (_ & _ & H1 & H2 & H3); [|done].
  subst s. assert (race_inv (mkRace false false BeforeStore BeforeStore)) as H0
    by (unfold race_inv; cbn; naive_solver).
  revert H0. generalize (mkRace false false BeforeStore BeforeStore).
  induction sched as [|who sched IH]; intros s0 H0; cbn; [done|]. by apply IH, race_step_inv.
Qed.

End request.


Section request_witness.
#[local] Existing Instance RefValueLib.

Definition demo_req_ctx : rpcRequestCtx :=
  NewRequestCtx 1 chatKind (Put EmptyMap "fn" (Some (Utf8 "echo"))) 1 4 true true.

Definition demo_ops : list req_op :=
  [OpNotify None; OpPumpTake; OpPumpDeliver; OpNotify (Some (Long 7)); OpTryGetClose; OpReqClose; OpTryPutClose].

(** The hook of [demo_growcap]: the capacity [append] could pick. *)
Definition demo_growcap (n : nat) : nat := (2 * n + 1)%nat.

Lemma request_finishes_once_witness :
  let r := seqM (map (run_req_op NewDialect demo_growcap) demo_ops) demo_req_ctx in
  rc_closeOnce (m_st r) = true /\ ends (m_out r) = 1%nat /\ (rc_doneCloses (m_st r) <= 1)%nat.
Proof.
  destruct (request_finishes_once NewDialect demo_growcap 1 chatKind
    (Put EmptyMap "fn" (Some (Utf8 "echo"))) 1 4 true true demo_ops) as (Hd & _ & He & _).
  - intros n. unfold demo_growcap. lia.
  - split; [reflexivity|]. split; [etransitivity; [exact He|reflexivity]|exact Hd].
Defined.

Lemma stream_end_delivers_all_witness :
  let t := m_st (notifyResult demo_growcap (Some (Long 7)) demo_req_ctx) in
  exists p1, rc_resultPump (m_st (TryGetClose NewDialect t)) = Some p1 /\
    outSent (run_n None 3 p1) = [Some (Long 7)].
Proof.
  intros t.
  destruct (stream_end_delivers_all NewDialect t
    (Push None demo_growcap (Some (Long 7)) (NewStreamPump 4)).2 []) as (p1 & E & _ & Hs & _);
    [|reflexivity..|exists p1; split; [exact E|exact Hs]].
  destruct (run_req_op_inv NewDialect demo_growcap ltac:(intros n; unfold demo_growcap; lia)
    chatKind true (OpNotify (Some (Long 7))) demo_req_ctx [] (NewRequestCtx_inv 1 chatKind _ 1 4 true true)) as [Hc Ho].
  split; [exact Hc|exact Ho].
Defined.
End request_witness.
