(* ===== verification/Metadata.v ===== *)
(** * Request contexts: metadata, principal, peer handle

    Models valuerpc/metadata.go, valuerpc/principal.go and valueserver/peer.go.
    A Go context is kept to what the code puts into it: the values stored under
    the three private keys, the deadline derived from the request's SLA, and the
    cancel function of the request, named by a number. *)

From S2P Require Import Prelude Value RefValue Protocol.

Abbreviation Metadata := (gmap string string).

Record reqctx := mkCtx {
  ctx_id : nat;                    (* which cancel function it has *)
  ctx_deadline : option Z;         (* nanoseconds from its creation; not positive: expired *)
  ctx_metadata : option Metadata;  (* metadataKey *)
  ctx_principal : option string;   (* principalKey *)
  ctx_peer : bool                  (* peerCtxKey *)
}.

Definition ContextWithMetadata (ctx : reqctx) (md : Metadata) : reqctx :=
  mkCtx (ctx_id ctx) (ctx_deadline ctx) (Some md) (ctx_principal ctx) (ctx_peer ctx).

(** A nil map reads as an empty one. *)
Definition MetadataFromContext (ctx : reqctx) : Metadata := default ∅ (ctx_metadata ctx).

Definition ContextWithPrincipal (ctx : reqctx) (principal : string) : reqctx :=
  mkCtx (ctx_id ctx) (ctx_deadline ctx) (ctx_metadata ctx) (Some principal) (ctx_peer ctx).

Definition PrincipalFromContext (ctx : reqctx) : string := default "" (ctx_principal ctx).

Definition contextWithPeer (ctx : reqctx) : reqctx :=
  mkCtx (ctx_id ctx) (ctx_deadline ctx) (ctx_metadata ctx) (ctx_principal ctx) true.

Section metadata.
Context `{ValueLib} (d : Dialect).

Definition EncodeMetadata (md : Metadata) : option VMap :=
  if bool_decide (size md = 0%nat) then None
  else Some (ImmutableMapOf (Utf8 <$> md)).

(** The entries of a value map whose value is a string, as Go strings. *)
Definition strings_of (hm : gmap string Value) : Metadata :=
  omap (fun v => if decide (kindOf v = STRING) then Some (stringOf v) else None) hm.

Definition DecodeMetadata (req : VMap) : option Metadata :=
  match Get req (MetadataField d) with
  | None => None
  | Some v =>
      if decide (kindOf v = MAP) then
        let hm := HashMap (mapOf v) in
        if bool_decide (size hm = 0%nat) then None else Some (strings_of hm)
      else None
  end.

(** Attaching metadata to an envelope, as every sender does. *)
Definition PutMetadata (req : VMap) (md : Metadata) : VMap :=
  match EncodeMetadata md with
  | Some m => Put req (MetadataField d) (Some (MapV m))
  | None => req
  end.

Lemma strings_of_Utf8 md : strings_of (Utf8 <$> md) = md.
Proof.
  apply map_eq. intros k. unfold strings_of. rewrite lookup_omap, lookup_fmap.
  destruct (md !! k) as [s|]; cbn; [|done].
  rewrite decide_True by apply kind_Utf8. by rewrite stringOf_Utf8.
Qed.

Theorem metadata_roundtrip req md :
  Get req (MetadataField d) = Some Null ->
  DecodeMetadata (PutMetadata req md) = if decide (md = ∅) then None else Some md.
Proof.
  intros Hreq. unfold PutMetadata, EncodeMetadata, DecodeMetadata.
  case_decide as Hmd.
  - subst. rewrite bool_decide_true by apply map_size_empty. rewrite Hreq.
    rewrite decide_False; [done|]. rewrite kind_Null. apply not_eq_sym, MAP_ne_NULL.
  - rewrite bool_decide_false by (rewrite map_size_empty_iff; done).
    rewrite Get_Put_eq, decide_True by apply kind_MapV.
    rewrite mapOf_MapV, HashMap_ImmutableMapOf, strings_of_Utf8.
    rewrite bool_decide_false; [done|].
    by rewrite map_size_fmap, map_size_empty_iff.
Qed.
End metadata.

Section metadata_witness.
#[local] Existing Instance RefValueLib.
Lemma metadata_roundtrip_witness :
  DecodeMetadata NewDialect (PutMetadata NewDialect EmptyMap {[ "traceparent" := "00-ab" ]}) =
  Some {[ "traceparent" := "00-ab" ]}.
Proof.
  rewrite (metadata_roundtrip NewDialect EmptyMap {[ "traceparent" := "00-ab" ]}); [reflexivity|].
  reflexivity.
Defined.
End metadata_witness.
