(* ===== verification/ClientStream.v ===== *)
(** * Server-initiated streams

    Models the [clientStream] object of valueserver/serving_stream.go: the
    initiator side of a stream the server opens toward its client.  It was
    written as a mirror of the client's request object (valueclient/request.go);
    [client_stream_mirrors_request] states that it is one. *)

From S2P Require Import Prelude Value RefValue Protocol Credit Pump FlowControl Request.

(** The kinds, from the server's point of view. *)
Inductive streamKind := getStreamKind | putStreamKind | chatKind.

#[export] Instance streamKind_eq_dec : EqDecision streamKind.
Proof. solve_decision. Defined.

Section client_stream.
Context `{ValueLib} (d : Dialect) (growcap : nat -> nat).

Record clientStream := mkCS {
  cs_requestId : Z;
  cs_kind : streamKind;
  cs_receiveCap : Z;
  cs_resultBuf : list (option Value);
  cs_resultCloses : nat;
  cs_resultPump : option (StreamPump (option Value));
  cs_sendCredit : option CreditGate;
  cs_doneCloses : nat;
  cs_closeOnce : bool;
  cs_getClosed : bool;
  cs_putClosed : bool;
  cs_resultErr : option goerror;
  cs_creditWindow : Z;
  cs_recvDelivered : Z;
  cs_grantCredit : bool
}.

Definition upd_cs_requestId f (t : clientStream) : clientStream :=
  mkCS (f (cs_requestId t)) (cs_kind t) (cs_receiveCap t) (cs_resultBuf t) (cs_resultCloses t) (cs_resultPump t) (cs_sendCredit t) (cs_doneCloses t) (cs_closeOnce t) (cs_getClosed t) (cs_putClosed t) (cs_resultErr t) (cs_creditWindow t) (cs_recvDelivered t) (cs_grantCredit t).
Definition upd_cs_kind f (t : clientStream) : clientStream :=
  mkCS (cs_requestId t) (f (cs_kind t)) (cs_receiveCap t) (cs_resultBuf t) (cs_resultCloses t) (cs_resultPump t) (cs_sendCredit t) (cs_doneCloses t) (cs_closeOnce t) (cs_getClosed t) (cs_putClosed t) (cs_resultErr t) (cs_creditWindow t) (cs_recvDelivered t) (cs_grantCredit t).
Definition upd_cs_receiveCap f (t : clientStream) : clientStream :=
  mkCS (cs_requestId t) (cs_kind t) (f (cs_receiveCap t)) (cs_resultBuf t) (cs_resultCloses t) (cs_resultPump t) (cs_sendCredit t) (cs_doneCloses t) (cs_closeOnce t) (cs_getClosed t) (cs_putClosed t) (cs_resultErr t) (cs_creditWindow t) (cs_recvDelivered t) (cs_grantCredit t).
Definition upd_cs_resultBuf f (t : clientStream) : clientStream :=
  mkCS (cs_requestId t) (cs_kind t) (cs_receiveCap t) (f (cs_resultBuf t)) (cs_resultCloses t) (cs_resultPump t) (cs_sendCredit t) (cs_doneCloses t) (cs_closeOnce t) (cs_getClosed t) (cs_putClosed t) (cs_resultErr t) (cs_creditWindow t) (cs_recvDelivered t) (cs_grantCredit t).
Definition upd_cs_resultCloses f (t : clientStream) : clientStream :=
  mkCS (cs_requestId t) (cs_kind t) (cs_receiveCap t) (cs_resultBuf t) (f (cs_resultCloses t)) (cs_resultPump t) (cs_sendCredit t) (cs_doneCloses t) (cs_closeOnce t) (cs_getClosed t) (cs_putClosed t) (cs_resultErr t) (cs_creditWindow t) (cs_recvDelivered t) (cs_grantCredit t).
Definition upd_cs_resultPump f (t : clientStream) : clientStream :=
  mkCS (cs_requestId t) (cs_kind t) (cs_receiveCap t) (cs_resultBuf t) (cs_resultCloses t) (f (cs_resultPump t)) (cs_sendCredit t) (cs_doneCloses t) (cs_closeOnce t) (cs_getClosed t) (cs_putClosed t) (cs_resultErr t) (cs_creditWindow t) (cs_recvDelivered t) (cs_grantCredit t).
Definition upd_cs_sendCredit f (t : clientStream) : clientStream :=
  mkCS (cs_requestId t) (cs_kind t) (cs_receiveCap t) (cs_resultBuf t) (cs_resultCloses t) (cs_resultPump t) (f (cs_sendCredit t)) (cs_doneCloses t) (cs_closeOnce t) (cs_getClosed t) (cs_putClosed t) (cs_resultErr t) (cs_creditWindow t) (cs_recvDelivered t) (cs_grantCredit t).
Definition upd_cs_doneCloses f (t : clientStream) : clientStream :=
  mkCS (cs_requestId t) (cs_kind t) (cs_receiveCap t) (cs_resultBuf t) (cs_resultCloses t) (cs_resultPump t) (cs_sendCredit t) (f (cs_doneCloses t)) (cs_closeOnce t) (cs_getClosed t) (cs_putClosed t) (cs_resultErr t) (cs_creditWindow t) (cs_recvDelivered t) (cs_grantCredit t).
Definition upd_cs_closeOnce f (t : clientStream) : clientStream :=
  mkCS (cs_requestId t) (cs_kind t) (cs_receiveCap t) (cs_resultBuf t) (cs_resultCloses t) (cs_resultPump t) (cs_sendCredit t) (cs_doneCloses t) (f (cs_closeOnce t)) (cs_getClosed t) (cs_putClosed t) (cs_resultErr t) (cs_creditWindow t) (cs_recvDelivered t) (cs_grantCredit t).
Definition upd_cs_getClosed f (t : clientStream) : clientStream :=
  mkCS (cs_requestId t) (cs_kind t) (cs_receiveCap t) (cs_resultBuf t) (cs_resultCloses t) (cs_resultPump t) (cs_sendCredit t) (cs_doneCloses t) (cs_closeOnce t) (f (cs_getClosed t)) (cs_putClosed t) (cs_resultErr t) (cs_creditWindow t) (cs_recvDelivered t) (cs_grantCredit t).
Definition upd_cs_putClosed f (t : clientStream) : clientStream :=
  mkCS (cs_requestId t) (cs_kind t) (cs_receiveCap t) (cs_resultBuf t) (cs_resultCloses t) (cs_resultPump t) (cs_sendCredit t) (cs_doneCloses t) (cs_closeOnce t) (cs_getClosed t) (f (cs_putClosed t)) (cs_resultErr t) (cs_creditWindow t) (cs_recvDelivered t) (cs_grantCredit t).
Definition upd_cs_resultErr f (t : clientStream) : clientStream :=
  mkCS (cs_requestId t) (cs_kind t) (cs_receiveCap t) (cs_resultBuf t) (cs_resultCloses t) (cs_resultPump t) (cs_sendCredit t) (cs_doneCloses t) (cs_closeOnce t) (cs_getClosed t) (cs_putClosed t) (f (cs_resultErr t)) (cs_creditWindow t) (cs_recvDelivered t) (cs_grantCredit t).
Definition upd_cs_creditWindow f (t : clientStream) : clientStream :=
  mkCS (cs_requestId t) (cs_kind t) (cs_receiveCap t) (cs_resultBuf t) (cs_resultCloses t) (cs_resultPump t) (cs_sendCredit t) (cs_doneCloses t) (cs_closeOnce t) (cs_getClosed t) (cs_putClosed t) (cs_resultErr t) (f (cs_creditWindow t)) (cs_recvDelivered t) (cs_grantCredit t).
Definition upd_cs_recvDelivered f (t : clientStream) : clientStream :=
  mkCS (cs_requestId t) (cs_kind t) (cs_receiveCap t) (cs_resultBuf t) (cs_resultCloses t) (cs_resultPump t) (cs_sendCredit t) (cs_doneCloses t) (cs_closeOnce t) (cs_getClosed t) (cs_putClosed t) (cs_resultErr t) (cs_creditWindow t) (f (cs_recvDelivered t)) (cs_grantCredit t).
Definition upd_cs_grantCredit f (t : clientStream) : clientStream :=
  mkCS (cs_requestId t) (cs_kind t) (cs_receiveCap t) (cs_resultBuf t) (cs_resultCloses t) (cs_resultPump t) (cs_sendCredit t) (cs_doneCloses t) (cs_closeOnce t) (cs_getClosed t) (cs_putClosed t) (cs_resultErr t) (cs_creditWindow t) (cs_recvDelivered t) (f (cs_grantCredit t)).

(** Its only events are the calls of grantCredit. *)
Abbreviation CS := (M clientStream Z).

Definition newClientStream (reqId : Z) (kind : streamKind) (receiveCap maxPending : Z) (grantCredit : bool)
    : clientStream :=
  let maxPending' := if maxPending <=? 0 then DefaultMaxPending else maxPending in
  let receives := bool_decide (kind = getStreamKind) || bool_decide (kind = chatKind) in
  let sends := bool_decide (kind = putStreamKind) || bool_decide (kind = chatKind) in
  mkCS reqId kind receiveCap [] 0
    (if receives then Some (NewStreamPump maxPending') else None)
    (if sends then Some NewCreditGate else None)
    0 false false false None
    (if receives then maxPending' else 0) (if receives then -1 else 0) grantCredit.

Definition ClientStream_sendInitialCredit : CS unit :=
  t ← gets id;
  when (is_some (cs_resultPump t) && cs_grantCredit t) (emit (cs_creditWindow t)).

Definition ClientStream_grantRecv : CS unit :=
  t ← gets id;
  let '(n, g) := grantRecv (cs_creditWindow t) (cs_recvDelivered t) in
  modify (upd_cs_recvDelivered (fun _ => n)) ≫= fun _ =>
  match g with Some n => when (cs_grantCredit t) (emit n) | None => mret tt end.

Definition ClientStream_notifyResult (res : option Value) : CS (option bool) :=
  t ← gets id;
  match cs_resultPump t with
  | Some p =>
      let '(b, p') := Push None growcap res p in
      modify (upd_cs_resultPump (fun _ => Some p')) ≫= fun _ => mret (Some b)
  | None =>
      if negb (bool_decide (cs_doneCloses t = 0%nat)) then mret (Some false)
      else if Z.of_nat (length (cs_resultBuf t)) <? cs_receiveCap t then
        modify (upd_cs_resultBuf (fun b => b ++ [res])) ≫= fun _ => mret (Some true)
      else mret None
  end.

Definition ClientStream_closeResult : CS unit :=
  t ← gets id;
  if cs_closeOnce t then mret tt
  else
    modify (fun t => upd_cs_doneCloses S (upd_cs_closeOnce (fun _ => true) t)) ≫= fun _ =>
    modify (upd_cs_sendCredit (fmap CloseGate)) ≫= fun _ =>
    modify (fun t => match cs_resultPump t with
                     | Some p => upd_cs_resultPump (fun _ => Some (Close p)) t
                     | None => upd_cs_resultCloses S t
                     end).

Definition ClientStream_Close : CS unit :=
  modify (upd_cs_getClosed (fun _ => true)) ≫= fun _ =>
  modify (upd_cs_putClosed (fun _ => true)) ≫= fun _ =>
  modify (upd_cs_resultPump (fmap Stop)) ≫= fun _ =>
  ClientStream_closeResult.

Definition ClientStream_IsPutOpen (t : clientStream) : bool := negb (cs_putClosed t).

Definition ClientStream_setError (err : goerror) : CS unit := modify (upd_cs_resultErr (fun _ => Some err)).

Definition ClientStream_err (t : clientStream) (def : goerror) : goerror := default def (cs_resultErr t).

Definition tryGetClose : CS bool :=
  modify (upd_cs_getClosed (fun _ => true)) ≫= fun _ =>
  ClientStream_closeResult ≫= fun _ =>
  t ← gets id;
  mret (if decide (cs_kind t = chatKind) then cs_putClosed t else true).

Definition tryPutClose : CS bool :=
  modify (upd_cs_putClosed (fun _ => true)) ≫= fun _ =>
  t ← gets id;
  if decide (cs_kind t = putStreamKind) then ClientStream_closeResult ≫= fun _ => mret true
  else mret (cs_getClosed t).

(** ** Equivalence with the client's request object *)

Definition kindOfRequest (k : Request.streamKind) : streamKind :=
  match k with
  | Request.chatKind => chatKind
  | Request.putStreamKind => putStreamKind
  | _ => getStreamKind
  end.

(** The clientStream a request object is: its metrics and cancelOnce dropped. *)
Definition as_client_stream (t : rpcRequestCtx) : clientStream :=
  mkCS (rc_requestId t) (kindOfRequest (rc_kind t)) (rc_receiveCap t) (rc_resultBuf t)
    (rc_resultCloses t) (rc_resultPump t) (rc_sendCredit t) (rc_doneCloses t) (rc_closeOnce t)
    (rc_getClosed t) (rc_putClosed t) (rc_resultErr t) (rc_creditWindow t) (rc_recvDelivered t)
    (rc_grantCredit t).

Definition grants_of (o : list req_ev) : list Z :=
  omap (fun e => match e with RGrant n => Some n | _ => None end) o.

(** Two computations do the same: equal results, corresponding states, the same
    credit grants. *)
Definition mirrors {A} (m : M rpcRequestCtx req_ev A) (c : CS A) : Prop :=
  forall t, rc_kind t <> unaryKind ->
    c (as_client_stream t) =
    (m_res (m t), as_client_stream (m_st (m t)), grants_of (m_out (m t))) /\
    rc_kind (m_st (m t)) = rc_kind t.

Lemma mirrors_bind {A B} (m : M rpcRequestCtx req_ev A) (c : CS A)
    (k : A -> M rpcRequestCtx req_ev B) (k' : A -> CS B) :
  mirrors m c -> (forall a, mirrors (k a) (k' a)) -> mirrors (m ≫= k) (c ≫= k').
Proof.
  intros Hm Hk t Ht. destruct (Hm t Ht) as [Ec Ek]. unfold mbind, M_bind, m_res, m_st, m_out in *.
  destruct (m t) as [[a s1] o1]. cbn in *. rewrite Ec.
  destruct (Hk a s1 ltac:(congruence)) as [Ec' Ek']. unfold m_res, m_st, m_out in *.
  destruct (k a s1) as [[b s2] o2]. cbn in *. rewrite Ec'. unfold grants_of.
  rewrite omap_app. split; congruence.
Qed.

Lemma mirrors_modify f g :
  (forall t, as_client_stream (f t) = g (as_client_stream t) /\ rc_kind (f t) = rc_kind t) ->
  mirrors (modify f) (modify g).
Proof. intros Hf t Ht. unM. destruct (Hf t) as [-> ->]. done. Qed.

Lemma closeResult_mirrors : mirrors (RequestCtx_closeResult d) ClientStream_closeResult.
Proof.
  intros t Ht. unfold RequestCtx_closeResult, ClientStream_closeResult. unM.
  destruct (rc_closeOnce t); cbn; [done|].
  destruct (rc_resultPump t); cbn; destruct (rc_metrics t); done.
Qed.

Lemma kind_chat k : k <> unaryKind -> kindOfRequest k = chatKind <-> k = Request.chatKind.
Proof. destruct k; cbn; naive_solver. Qed.
Lemma kind_put k : k <> unaryKind -> kindOfRequest k = putStreamKind <-> k = Request.putStreamKind.
Proof. destruct k; cbn; naive_solver. Qed.

(** The server's reverse-direction stream and the client's request context
    behave identically: constructor, credit grants, delivery, close and the
    two half-closes commute with the projection that forgets the client-only
    fields. *)
Theorem client_stream_mirrors_request :
  (forall id k cap mp g, k <> unaryKind -> forall req metrics,
     newClientStream id (kindOfRequest k) cap mp g = as_client_stream (NewRequestCtx id k req cap mp g metrics)) /\
  mirrors sendInitialCredit ClientStream_sendInitialCredit /\
  mirrors RequestCtx_grantRecv ClientStream_grantRecv /\
  (forall v, mirrors (notifyResult growcap v) (ClientStream_notifyResult v)) /\
  mirrors (RequestCtx_Close d) ClientStream_Close /\
  (forall e, mirrors (SetError e) (ClientStream_setError e)) /\
  mirrors (TryGetClose d) tryGetClose /\
  mirrors (TryPutClose d) tryPutClose.
Proof.
  split_and!.
  - intros id k cap mp g Hk req metrics. by destruct k.
  - intros t Ht. unfold sendInitialCredit, ClientStream_sendInitialCredit. unM.
    destruct (rc_resultPump t); cbn; [|done]. by destruct (rc_grantCredit t).
  - intros t Ht. unfold RequestCtx_grantRecv, ClientStream_grantRecv. unM.
    destruct (grantRecv (rc_creditWindow t) (rc_recvDelivered t)) as [n [g|]]; cbn; [|done].
    by destruct (rc_grantCredit t).
  - intros v t Ht. unfold notifyResult, ClientStream_notifyResult. unM.
    destruct (rc_resultPump t) as [p|]; cbn; [by destruct (Push None growcap v p)|].
    repeat (break_match; cbn); done.
  - unfold RequestCtx_Close, ClientStream_Close.
    repeat (apply mirrors_bind; [by apply mirrors_modify|intros ?]). apply closeResult_mirrors.
  - intros e. by apply mirrors_modify.
  - unfold TryGetClose, tryGetClose. apply mirrors_bind; [by apply mirrors_modify|intros ?].
    apply mirrors_bind; [apply closeResult_mirrors|intros ?].
    intros t Ht. unM. split; [|done]. pose proof (kind_chat _ Ht).
    repeat case_decide; naive_solver.
  - unfold TryPutClose, tryPutClose. apply mirrors_bind; [by apply mirrors_modify|intros ?].
    intros t Ht. pose proof (kind_put _ Ht) as Hk. unfold mbind, M_bind, gets, mret, M_ret. cbn.
    case_decide as E1; case_decide as E2; try naive_solver; unM.
    destruct (closeResult_mirrors t Ht) as [Ec Ek]. unfold m_res, m_st, m_out in *.
    destruct (RequestCtx_closeResult d t) as [[??]?]. cbn in *. rewrite Ec. cbn.
    unfold grants_of. rewrite !app_nil_r. done.
Qed.

End client_stream.
