(* ===== verification/ServingClient.v ===== *)
(** * The server's session with one client

    Models valueserver/serving_client.go and valueserver/serving_request.go (and
    the request side of valueserver/function.go, debug.go, options.go): the
    dispatch of inbound frames, the lifecycle of unary calls and of the three
    kinds of streams, and their accounting.

    [servingClient] is the session's state.  Serving requests are heap objects
    ([sc_requests]) because the read loop, the streamer goroutine and the pump
    goroutine share them through the request map and through captured pointers;
    a request id that is stored again leaves the old object reachable from its
    goroutines only.  Frames sent, metric calls, context cancellations and started
    goroutines are the output events, in program order.

    The outgoing queue is unbounded here: a full queue delays the goroutine that
    sends and changes nothing else.  Once the session is closed [send] may either
    still enqueue or fail, as Go's select picks; [pickDone] is that choice. *)

From S2P Require Import Prelude Value RefValue Protocol Verify Credit Pump FlowControl Metadata.
From S2P Require Import ClientStream.

(** ** function.go *)

Inductive functionType := singleFunction | outgoingStream | incomingStream | chat.

#[export] Instance functionType_eq_dec : EqDecision functionType.
Proof. solve_decision. Defined.

Definition functionType_iota (ft : functionType) : Z :=
  match ft with singleFunction => 0 | outgoingStream => 1 | incomingStream => 2 | chat => 3 end.

(** What a user handler did: returned a value or established its stream, returned
    an error, or panicked. *)
Inductive outcome {V : Type} :=
| Returned (res : option V)
| Failed (err : goerror)
| Panicked.
Arguments outcome : clear implicits.

Section serving.
Context `{ValueLib} (d : Dialect) (growcap : nat -> nat).

(** A registered function; [handler] stands for the callback of its kind
    (singleFn, outStream, inStream, chat), user code. *)
Record function := mkFunction {
  fn_name : string;
  fn_args : TypeDef;
  fn_res : TypeDef;
  fn_ft : functionType;
  fn_handler : reqctx -> option Value -> outcome Value
}.

(** options.go, the fields the session reads. *)
Record serverConfig := mkServerConfig {
  cfg_maxConcurrentRequests : Z;
  cfg_maxConcurrentStreams : Z;
  cfg_maxPending : Z;
  cfg_metadataExtractor : option (reqctx -> Metadata -> reqctx);
  cfg_debugPayload : bool                 (* DebugPayloadInErrors *)
}.

(** ** State *)

Record servingRequest := mkSR {
  sr_ft : functionType;
  sr_requestId : Value;
  sr_inPump : option (StreamPump (option Value));
  sr_sendCredit : option CreditGate;
  sr_cancel : option nat;
  sr_creditWindow : Z;
  sr_inboundDelivered : Z;
  sr_method : string;
  sr_code : Z;
  sr_closed : bool;
  sr_inClosed : bool;
  sr_doneCloses : nat
}.

(** The outcome of a server-to-client call. *)
Record callResult := mkCallResult { cr_value : option Value; cr_err : option goerror }.

Record servingClient := mkSC {
  sc_clientId : Z;
  sc_resumeToken : string;
  sc_principal : string;
  sc_functionMap : gmap string function;
  sc_cfg : serverConfig;
  sc_done : bool;
  sc_closeOnce : bool;
  sc_ctxCancelled : bool;                 (* the session context *)
  sc_cancelled : gset nat;                (* request contexts whose cancel ran *)
  sc_nextCtx : nat;
  sc_requestMap : gmap Z nat;             (* request id -> object *)
  sc_requests : gmap nat servingRequest;  (* the objects *)
  sc_nextLoc : nat;
  sc_requestCancels : gmap Z nat;
  sc_inFlight : Z;
  sc_liveStreams : Z;
  sc_pendingCalls : gmap Z nat;           (* server-initiated id -> result channel *)
  sc_callChans : gmap nat (list callResult); (* the channels, capacity 1 *)
  sc_pendingStreams : gmap Z nat;         (* server-initiated id -> stream *)
  sc_streams : gmap nat clientStream;
  sc_lastServerRequest : Z
}.

Definition upd_sr_ft f (t : servingRequest) : servingRequest :=
  mkSR (f (sr_ft t)) (sr_requestId t) (sr_inPump t) (sr_sendCredit t) (sr_cancel t) (sr_creditWindow t) (sr_inboundDelivered t) (sr_method t) (sr_code t) (sr_closed t) (sr_inClosed t) (sr_doneCloses t).
Definition upd_sr_requestId f (t : servingRequest) : servingRequest :=
  mkSR (sr_ft t) (f (sr_requestId t)) (sr_inPump t) (sr_sendCredit t) (sr_cancel t) (sr_creditWindow t) (sr_inboundDelivered t) (sr_method t) (sr_code t) (sr_closed t) (sr_inClosed t) (sr_doneCloses t).
Definition upd_sr_inPump f (t : servingRequest) : servingRequest :=
  mkSR (sr_ft t) (sr_requestId t) (f (sr_inPump t)) (sr_sendCredit t) (sr_cancel t) (sr_creditWindow t) (sr_inboundDelivered t) (sr_method t) (sr_code t) (sr_closed t) (sr_inClosed t) (sr_doneCloses t).
Definition upd_sr_sendCredit f (t : servingRequest) : servingRequest :=
  mkSR (sr_ft t) (sr_requestId t) (sr_inPump t) (f (sr_sendCredit t)) (sr_cancel t) (sr_creditWindow t) (sr_inboundDelivered t) (sr_method t) (sr_code t) (sr_closed t) (sr_inClosed t) (sr_doneCloses t).
Definition upd_sr_cancel f (t : servingRequest) : servingRequest :=
  mkSR (sr_ft t) (sr_requestId t) (sr_inPump t) (sr_sendCredit t) (f (sr_cancel t)) (sr_creditWindow t) (sr_inboundDelivered t) (sr_method t) (sr_code t) (sr_closed t) (sr_inClosed t) (sr_doneCloses t).
Definition upd_sr_creditWindow f (t : servingRequest) : servingRequest :=
  mkSR (sr_ft t) (sr_requestId t) (sr_inPump t) (sr_sendCredit t) (sr_cancel t) (f (sr_creditWindow t)) (sr_inboundDelivered t) (sr_method t) (sr_code t) (sr_closed t) (sr_inClosed t) (sr_doneCloses t).
Definition upd_sr_inboundDelivered f (t : servingRequest) : servingRequest :=
  mkSR (sr_ft t) (sr_requestId t) (sr_inPump t) (sr_sendCredit t) (sr_cancel t) (sr_creditWindow t) (f (sr_inboundDelivered t)) (sr_method t) (sr_code t) (sr_closed t) (sr_inClosed t) (sr_doneCloses t).
Definition upd_sr_method f (t : servingRequest) : servingRequest :=
  mkSR (sr_ft t) (sr_requestId t) (sr_inPump t) (sr_sendCredit t) (sr_cancel t) (sr_creditWindow t) (sr_inboundDelivered t) (f (sr_method t)) (sr_code t) (sr_closed t) (sr_inClosed t) (sr_doneCloses t).
Definition upd_sr_code f (t : servingRequest) : servingRequest :=
  mkSR (sr_ft t) (sr_requestId t) (sr_inPump t) (sr_sendCredit t) (sr_cancel t) (sr_creditWindow t) (sr_inboundDelivered t) (sr_method t) (f (sr_code t)) (sr_closed t) (sr_inClosed t) (sr_doneCloses t).
Definition upd_sr_closed f (t : servingRequest) : servingRequest :=
  mkSR (sr_ft t) (sr_requestId t) (sr_inPump t) (sr_sendCredit t) (sr_cancel t) (sr_creditWindow t) (sr_inboundDelivered t) (sr_method t) (sr_code t) (f (sr_closed t)) (sr_inClosed t) (sr_doneCloses t).
Definition upd_sr_inClosed f (t : servingRequest) : servingRequest :=
  mkSR (sr_ft t) (sr_requestId t) (sr_inPump t) (sr_sendCredit t) (sr_cancel t) (sr_creditWindow t) (sr_inboundDelivered t) (sr_method t) (sr_code t) (sr_closed t) (f (sr_inClosed t)) (sr_doneCloses t).
Definition upd_sr_doneCloses f (t : servingRequest) : servingRequest :=
  mkSR (sr_ft t) (sr_requestId t) (sr_inPump t) (sr_sendCredit t) (sr_cancel t) (sr_creditWindow t) (sr_inboundDelivered t) (sr_method t) (sr_code t) (sr_closed t) (sr_inClosed t) (f (sr_doneCloses t)).

Definition upd_sc_clientId f (t : servingClient) : servingClient :=
  mkSC (f (sc_clientId t)) (sc_resumeToken t) (sc_principal t) (sc_functionMap t) (sc_cfg t) (sc_done t) (sc_closeOnce t) (sc_ctxCancelled t) (sc_cancelled t) (sc_nextCtx t) (sc_requestMap t) (sc_requests t) (sc_nextLoc t) (sc_requestCancels t) (sc_inFlight t) (sc_liveStreams t) (sc_pendingCalls t) (sc_callChans t) (sc_pendingStreams t) (sc_streams t) (sc_lastServerRequest t).
Definition upd_sc_resumeToken f (t : servingClient) : servingClient :=
  mkSC (sc_clientId t) (f (sc_resumeToken t)) (sc_principal t) (sc_functionMap t) (sc_cfg t) (sc_done t) (sc_closeOnce t) (sc_ctxCancelled t) (sc_cancelled t) (sc_nextCtx t) (sc_requestMap t) (sc_requests t) (sc_nextLoc t) (sc_requestCancels t) (sc_inFlight t) (sc_liveStreams t) (sc_pendingCalls t) (sc_callChans t) (sc_pendingStreams t) (sc_streams t) (sc_lastServerRequest t).
Definition upd_sc_principal f (t : servingClient) : servingClient :=
  mkSC (sc_clientId t) (sc_resumeToken t) (f (sc_principal t)) (sc_functionMap t) (sc_cfg t) (sc_done t) (sc_closeOnce t) (sc_ctxCancelled t) (sc_cancelled t) (sc_nextCtx t) (sc_requestMap t) (sc_requests t) (sc_nextLoc t) (sc_requestCancels t) (sc_inFlight t) (sc_liveStreams t) (sc_pendingCalls t) (sc_callChans t) (sc_pendingStreams t) (sc_streams t) (sc_lastServerRequest t).
Definition upd_sc_functionMap f (t : servingClient) : servingClient :=
  mkSC (sc_clientId t) (sc_resumeToken t) (sc_principal t) (f (sc_functionMap t)) (sc_cfg t) (sc_done t) (sc_closeOnce t) (sc_ctxCancelled t) (sc_cancelled t) (sc_nextCtx t) (sc_requestMap t) (sc_requests t) (sc_nextLoc t) (sc_requestCancels t) (sc_inFlight t) (sc_liveStreams t) (sc_pendingCalls t) (sc_callChans t) (sc_pendingStreams t) (sc_streams t) (sc_lastServerRequest t).
Definition upd_sc_cfg f (t : servingClient) : servingClient :=
  mkSC (sc_clientId t) (sc_resumeToken t) (sc_principal t) (sc_functionMap t) (f (sc_cfg t)) (sc_done t) (sc_closeOnce t) (sc_ctxCancelled t) (sc_cancelled t) (sc_nextCtx t) (sc_requestMap t) (sc_requests t) (sc_nextLoc t) (sc_requestCancels t) (sc_inFlight t) (sc_liveStreams t) (sc_pendingCalls t) (sc_callChans t) (sc_pendingStreams t) (sc_streams t) (sc_lastServerRequest t).
Definition upd_sc_done f (t : servingClient) : servingClient :=
  mkSC (sc_clientId t) (sc_resumeToken t) (sc_principal t) (sc_functionMap t) (sc_cfg t) (f (sc_done t)) (sc_closeOnce t) (sc_ctxCancelled t) (sc_cancelled t) (sc_nextCtx t) (sc_requestMap t) (sc_requests t) (sc_nextLoc t) (sc_requestCancels t) (sc_inFlight t) (sc_liveStreams t) (sc_pendingCalls t) (sc_callChans t) (sc_pendingStreams t) (sc_streams t) (sc_lastServerRequest t).
Definition upd_sc_closeOnce f (t : servingClient) : servingClient :=
  mkSC (sc_clientId t) (sc_resumeToken t) (sc_principal t) (sc_functionMap t) (sc_cfg t) (sc_done t) (f (sc_closeOnce t)) (sc_ctxCancelled t) (sc_cancelled t) (sc_nextCtx t) (sc_requestMap t) (sc_requests t) (sc_nextLoc t) (sc_requestCancels t) (sc_inFlight t) (sc_liveStreams t) (sc_pendingCalls t) (sc_callChans t) (sc_pendingStreams t) (sc_streams t) (sc_lastServerRequest t).
Definition upd_sc_ctxCancelled f (t : servingClient) : servingClient :=
  mkSC (sc_clientId t) (sc_resumeToken t) (sc_principal t) (sc_functionMap t) (sc_cfg t) (sc_done t) (sc_closeOnce t) (f (sc_ctxCancelled t)) (sc_cancelled t) (sc_nextCtx t) (sc_requestMap t) (sc_requests t) (sc_nextLoc t) (sc_requestCancels t) (sc_inFlight t) (sc_liveStreams t) (sc_pendingCalls t) (sc_callChans t) (sc_pendingStreams t) (sc_streams t) (sc_lastServerRequest t).
Definition upd_sc_cancelled f (t : servingClient) : servingClient :=
  mkSC (sc_clientId t) (sc_resumeToken t) (sc_principal t) (sc_functionMap t) (sc_cfg t) (sc_done t) (sc_closeOnce t) (sc_ctxCancelled t) (f (sc_cancelled t)) (sc_nextCtx t) (sc_requestMap t) (sc_requests t) (sc_nextLoc t) (sc_requestCancels t) (sc_inFlight t) (sc_liveStreams t) (sc_pendingCalls t) (sc_callChans t) (sc_pendingStreams t) (sc_streams t) (sc_lastServerRequest t).
Definition upd_sc_nextCtx f (t : servingClient) : servingClient :=
  mkSC (sc_clientId t) (sc_resumeToken t) (sc_principal t) (sc_functionMap t) (sc_cfg t) (sc_done t) (sc_closeOnce t) (sc_ctxCancelled t) (sc_cancelled t) (f (sc_nextCtx t)) (sc_requestMap t) (sc_requests t) (sc_nextLoc t) (sc_requestCancels t) (sc_inFlight t) (sc_liveStreams t) (sc_pendingCalls t) (sc_callChans t) (sc_pendingStreams t) (sc_streams t) (sc_lastServerRequest t).
Definition upd_sc_requestMap f (t : servingClient) : servingClient :=
  mkSC (sc_clientId t) (sc_resumeToken t) (sc_principal t) (sc_functionMap t) (sc_cfg t) (sc_done t) (sc_closeOnce t) (sc_ctxCancelled t) (sc_cancelled t) (sc_nextCtx t) (f (sc_requestMap t)) (sc_requests t) (sc_nextLoc t) (sc_requestCancels t) (sc_inFlight t) (sc_liveStreams t) (sc_pendingCalls t) (sc_callChans t) (sc_pendingStreams t) (sc_streams t) (sc_lastServerRequest t).
Definition upd_sc_requests f (t : servingClient) : servingClient :=
  mkSC (sc_clientId t) (sc_resumeToken t) (sc_principal t) (sc_functionMap t) (sc_cfg t) (sc_done t) (sc_closeOnce t) (sc_ctxCancelled t) (sc_cancelled t) (sc_nextCtx t) (sc_requestMap t) (f (sc_requests t)) (sc_nextLoc t) (sc_requestCancels t) (sc_inFlight t) (sc_liveStreams t) (sc_pendingCalls t) (sc_callChans t) (sc_pendingStreams t) (sc_streams t) (sc_lastServerRequest t).
Definition upd_sc_nextLoc f (t : servingClient) : servingClient :=
  mkSC (sc_clientId t) (sc_resumeToken t) (sc_principal t) (sc_functionMap t) (sc_cfg t) (sc_done t) (sc_closeOnce t) (sc_ctxCancelled t) (sc_cancelled t) (sc_nextCtx t) (sc_requestMap t) (sc_requests t) (f (sc_nextLoc t)) (sc_requestCancels t) (sc_inFlight t) (sc_liveStreams t) (sc_pendingCalls t) (sc_callChans t) (sc_pendingStreams t) (sc_streams t) (sc_lastServerRequest t).
Definition upd_sc_requestCancels f (t : servingClient) : servingClient :=
  mkSC (sc_clientId t) (sc_resumeToken t) (sc_principal t) (sc_functionMap t) (sc_cfg t) (sc_done t) (sc_closeOnce t) (sc_ctxCancelled t) (sc_cancelled t) (sc_nextCtx t) (sc_requestMap t) (sc_requests t) (sc_nextLoc t) (f (sc_requestCancels t)) (sc_inFlight t) (sc_liveStreams t) (sc_pendingCalls t) (sc_callChans t) (sc_pendingStreams t) (sc_streams t) (sc_lastServerRequest t).
Definition upd_sc_inFlight f (t : servingClient) : servingClient :=
  mkSC (sc_clientId t) (sc_resumeToken t) (sc_principal t) (sc_functionMap t) (sc_cfg t) (sc_done t) (sc_closeOnce t) (sc_ctxCancelled t) (sc_cancelled t) (sc_nextCtx t) (sc_requestMap t) (sc_requests t) (sc_nextLoc t) (sc_requestCancels t) (f (sc_inFlight t)) (sc_liveStreams t) (sc_pendingCalls t) (sc_callChans t) (sc_pendingStreams t) (sc_streams t) (sc_lastServerRequest t).
Definition upd_sc_liveStreams f (t : servingClient) : servingClient :=
  mkSC (sc_clientId t) (sc_resumeToken t) (sc_principal t) (sc_functionMap t) (sc_cfg t) (sc_done t) (sc_closeOnce t) (sc_ctxCancelled t) (sc_cancelled t) (sc_nextCtx t) (sc_requestMap t) (sc_requests t) (sc_nextLoc t) (sc_requestCancels t) (sc_inFlight t) (f (sc_liveStreams t)) (sc_pendingCalls t) (sc_callChans t) (sc_pendingStreams t) (sc_streams t) (sc_lastServerRequest t).
Definition upd_sc_pendingCalls f (t : servingClient) : servingClient :=
  mkSC (sc_clientId t) (sc_resumeToken t) (sc_principal t) (sc_functionMap t) (sc_cfg t) (sc_done t) (sc_closeOnce t) (sc_ctxCancelled t) (sc_cancelled t) (sc_nextCtx t) (sc_requestMap t) (sc_requests t) (sc_nextLoc t) (sc_requestCancels t) (sc_inFlight t) (sc_liveStreams t) (f (sc_pendingCalls t)) (sc_callChans t) (sc_pendingStreams t) (sc_streams t) (sc_lastServerRequest t).
Definition upd_sc_callChans f (t : servingClient) : servingClient :=
  mkSC (sc_clientId t) (sc_resumeToken t) (sc_principal t) (sc_functionMap t) (sc_cfg t) (sc_done t) (sc_closeOnce t) (sc_ctxCancelled t) (sc_cancelled t) (sc_nextCtx t) (sc_requestMap t) (sc_requests t) (sc_nextLoc t) (sc_requestCancels t) (sc_inFlight t) (sc_liveStreams t) (sc_pendingCalls t) (f (sc_callChans t)) (sc_pendingStreams t) (sc_streams t) (sc_lastServerRequest t).
Definition upd_sc_pendingStreams f (t : servingClient) : servingClient :=
  mkSC (sc_clientId t) (sc_resumeToken t) (sc_principal t) (sc_functionMap t) (sc_cfg t) (sc_done t) (sc_closeOnce t) (sc_ctxCancelled t) (sc_cancelled t) (sc_nextCtx t) (sc_requestMap t) (sc_requests t) (sc_nextLoc t) (sc_requestCancels t) (sc_inFlight t) (sc_liveStreams t) (sc_pendingCalls t) (sc_callChans t) (f (sc_pendingStreams t)) (sc_streams t) (sc_lastServerRequest t).
Definition upd_sc_streams f (t : servingClient) : servingClient :=
  mkSC (sc_clientId t) (sc_resumeToken t) (sc_principal t) (sc_functionMap t) (sc_cfg t) (sc_done t) (sc_closeOnce t) (sc_ctxCancelled t) (sc_cancelled t) (sc_nextCtx t) (sc_requestMap t) (sc_requests t) (sc_nextLoc t) (sc_requestCancels t) (sc_inFlight t) (sc_liveStreams t) (sc_pendingCalls t) (sc_callChans t) (sc_pendingStreams t) (f (sc_streams t)) (sc_lastServerRequest t).
Definition upd_sc_lastServerRequest f (t : servingClient) : servingClient :=
  mkSC (sc_clientId t) (sc_resumeToken t) (sc_principal t) (sc_functionMap t) (sc_cfg t) (sc_done t) (sc_closeOnce t) (sc_ctxCancelled t) (sc_cancelled t) (sc_nextCtx t) (sc_requestMap t) (sc_requests t) (sc_nextLoc t) (sc_requestCancels t) (sc_inFlight t) (sc_liveStreams t) (sc_pendingCalls t) (sc_callChans t) (sc_pendingStreams t) (sc_streams t) (f (sc_lastServerRequest t)).

Inductive sc_ev :=
| ESend (m : VMap)                               (* a frame handed to the sender *)
| ERequestBegin (name : string)
| ERequestEnd (name : string) (code : Z)
| EStreamValue (name : string)
| ECloseConn
| EServe (ft : functionType) (req : VMap)        (* go t.serveFunctionRequest(ft, req) *)
| EStreamer (l : nat).                           (* go sr.outgoingStreamer(outC, t) *)

Abbreviation SC := (M servingClient sc_ev).

(** debug.go *)
Definition reqDetail (cfg : serverConfig) (req : VMap) : string :=
  if cfg_debugPayload cfg then ": " +:+ mapString req else "".
Definition valDetail (cfg : serverConfig) (v : option Value) : string :=
  if cfg_debugPayload cfg then ": " +:+ Jsonify v else "".

(** ** serving_request.go, the methods that touch the object only *)

(** setCode: compare-and-swap from CodeOK, so the first failure wins. *)
Definition setCode (c : Z) (t : servingRequest) : servingRequest :=
  if sr_code t =? CodeOK then upd_sr_code (fun _ => c) t else t.

Definition NewServingRequest (ft : functionType) (requestId : Value) : servingRequest :=
  mkSR ft requestId None
    (if bool_decide (ft = outgoingStream) || bool_decide (ft = chat) then Some NewCreditGate else None)
    None 0 0 "" CodeOK false false 0.

Definition setupInbound (maxPending : Z) (t : servingRequest) : servingRequest :=
  upd_sr_inPump (fun _ => Some (NewStreamPump maxPending))
    (upd_sr_creditWindow (fun _ => maxPending) t).

Definition closeInboundChan (t : servingRequest) : servingRequest :=
  if sr_inClosed t then t
  else upd_sr_inPump (fmap Close) (upd_sr_inClosed (fun _ => true) t).

Definition offer (val : option Value) (t : servingRequest) : bool * servingRequest :=
  match sr_inPump t with
  | None => (false, t)
  | Some p => let '(b, p') := Push None growcap val p in (b, upd_sr_inPump (fun _ => Some p') t)
  end.

(** ** Access to the shared objects *)

Definition get_request (l : nat) : SC (option servingRequest) := gets (fun t => sc_requests t !! l).
Definition set_request (l : nat) (r : servingRequest) : SC unit := modify (upd_sc_requests (insert l r)).
Definition upd_request (l : nat) (f : servingRequest -> servingRequest) : SC unit :=
  modify (upd_sc_requests (alter f l)).

(** A CancelFunc; cancelling twice is a no-op. *)
Definition cancelContext (c : nat) : SC unit := modify (upd_sc_cancelled (fun s => {[ c ]} ∪ s)).

(** cancelCtx *)
Definition cancelCtx (r : servingRequest) : SC unit :=
  match sr_cancel r with Some c => cancelContext c | None => mret tt end.

(** ServingRequest.Close *)
Definition ServingRequest_Close (l : nat) : SC unit :=
  get_request l ≫= fun o =>
  match o with
  | None => mret tt
  | Some r =>
      if sr_closed r then mret tt
      else
        upd_request l (fun r => upd_sr_doneCloses S (upd_sr_closed (fun _ => true) r)) ≫= fun _ =>
        cancelCtx r ≫= fun _ =>
        upd_request l (upd_sr_sendCredit (fmap CloseGate)) ≫= fun _ =>
        upd_request l (upd_sr_inClosed (fun _ => true)) ≫= fun _ =>
        upd_request l (upd_sr_inPump (fmap Stop))
  end.

(** ** serving_client.go *)

Variable pickDone : servingClient -> VMap -> bool.

Definition ErrClientClosed : goerror := ErrPlain "client closed".

(** send: enqueue, or ErrClientClosed once the session is closed. *)
Definition send (resp : VMap) : SC (option goerror) :=
  t ← gets id;
  if sc_done t && pickDone t resp then mret (Some ErrClientClosed)
  else emit (ESend resp) ≫= fun _ => mret None.

Definition send_ (resp : VMap) : SC unit := send resp ≫= fun _ => mret tt.

Definition deleteRequest (requestId : Value) : SC unit :=
  t ← gets id;
  match sc_requestMap t !! longOf requestId with
  | None => mret tt
  | Some l =>
      modify (upd_sc_requestMap (delete (longOf requestId))) ≫= fun _ =>
      modify (upd_sc_liveStreams (fun n => n - 1)) ≫= fun _ =>
      match sc_requests t !! l with
      | Some r => emit (ERequestEnd (sr_method r) (sr_code r))
      | None => mret tt (* unreachable: the map points to an object *)
      end
  end.

Definition closeRequest (l : nat) (r : servingRequest) : SC unit :=
  deleteRequest (sr_requestId r) ≫= fun _ => ServingRequest_Close l.

Definition grantInitialInbound (r : servingRequest) : SC unit :=
  send_ (NewStreamCredit d (sr_requestId r) (sr_creditWindow r)).

(** grantInbound, the pump's deliver hook. *)
Definition grantInbound (l : nat) : SC unit :=
  get_request l ≫= fun o =>
  match o with
  | None => mret tt
  | Some r =>
      let '(n, g) := grantRecv (sr_creditWindow r) (sr_inboundDelivered r) in
      upd_request l (upd_sr_inboundDelivered (fun _ => n)) ≫= fun _ =>
      match g with
      | Some k => send_ (NewStreamCredit d (sr_requestId r) k)
      | None => mret tt
      end
  end.

(** incomingStreamValue: an error when the request has no inbound side. *)
Definition incomingStreamValue (l : nat) (r : servingRequest) (req : VMap) : SC (option goerror) :=
  match sr_inPump r with
  | None => mret (Some (ErrPlain "incoming value stream not found in serving request"))
  | Some _ =>
      match Get req (ValueField d) with
      | Some v => if isNull v then mret None
                  else upd_request l (fun r => (offer (Some v) r).2) ≫= fun _ => mret None
      | None => upd_request l (fun r => (offer None r).2) ≫= fun _ => mret None
      end
  end.

Definition incomingStreamEnd (l : nat) (r : servingRequest) (req : VMap) : SC (option goerror) :=
  match sr_inPump r with
  | None => mret (Some (ErrPlain "incoming end stream not found in serving request"))
  | Some _ =>
      (match Get req (ValueField d) with
       | Some v => if isNull v then mret tt
                   else upd_request l (fun r => (offer (Some v) r).2) ≫= fun _ => emit (EStreamValue (sr_method r))
       | None => upd_request l (fun r => (offer None r).2) ≫= fun _ => emit (EStreamValue (sr_method r))
       end) ≫= fun _ =>
      upd_request l closeInboundChan ≫= fun _ =>
      if decide (sr_ft r = chat) then mret None
      else deleteRequest (sr_requestId r) ≫= fun _ => cancelCtx r ≫= fun _ => mret None
  end.

Definition serveRunningRequest (l : nat) (msgType : Z) (req : VMap) : SC (option goerror) :=
  get_request l ≫= fun o =>
  match o with
  | None => mret None (* unreachable: the map points to an object *)
  | Some r =>
      if msgType =? CancelRequest then
        upd_request l (setCode CodeCanceled) ≫= fun _ =>
        closeRequest l r ≫= fun _ => mret None
      else if msgType =? StreamValue then
        incomingStreamValue l r req ≫= fun e =>
        match e with
        | Some err => mret (Some err)
        | None =>
            emit (EStreamValue (sr_method r)) ≫= fun _ =>
            get_request l ≫= fun o' =>
            match o' with
            | Some r' =>
                if (match sr_inPump r' with Some p => Overflowed p | None => false end) then
                  send_ (NewFunctionError d (sr_requestId r) CodeResourceExhausted
                    ("inbound stream " +:+ pretty (longOf (sr_requestId r)) +:+
                     " truncated: client exceeded flow-control credit")) ≫= fun _ =>
                  upd_request l (setCode CodeResourceExhausted) ≫= fun _ =>
                  closeRequest l r ≫= fun _ => mret None
                else mret None
            | None => mret None
            end
        end
      else if msgType =? StreamEnd then incomingStreamEnd l r req
      else if msgType =? StreamCredit then
        match GetNumberField req (CreditField d) with
        | Some cr => upd_request l (upd_sr_sendCredit (fmap (Grant (longOf cr)))) ≫= fun _ => mret None
        | None => mret None
        end
      else t ← gets id; mret (Some (ErrPlain ("unknown message type" +:+ reqDetail (sc_cfg t) req)))
  end.

(** newServingRequest: creates the object, publishes it, grants the window. *)
Definition newServingRequest (ft : functionType) (reqId : Value) (name : string) (cancel : nat) : SC nat :=
  t ← gets id;
  let sr := upd_sr_method (fun _ => name) (upd_sr_cancel (fun _ => Some cancel) (NewServingRequest ft reqId)) in
  let inbound := bool_decide (ft = incomingStream) || bool_decide (ft = chat) in
  let sr := if inbound then setupInbound (cfg_maxPending (sc_cfg t)) sr else sr in
  let l := sc_nextLoc t in
  emit (ERequestBegin name) ≫= fun _ =>
  modify (upd_sc_nextLoc S) ≫= fun _ =>
  set_request l sr ≫= fun _ =>
  modify (upd_sc_requestMap (insert (longOf reqId) l)) ≫= fun _ =>
  modify (upd_sc_liveStreams (fun n => n + 1)) ≫= fun _ =>
  when inbound (grantInitialInbound sr) ≫= fun _ =>
  mret l.

Definition responseCode (resp : option VMap) : Z :=
  match resp with
  | None => CodeOK
  | Some m =>
      match GetNumberField m (MessageTypeField d) with
      | Some mt =>
          if longOf mt =? ErrorResponse then
            match GetNumberField m (CodeField d) with
            | Some c => wrap32 (longOf c)
            | None => CodeUnknown
            end
          else CodeOK
      | None => CodeOK
      end
  end.

(** time.Duration(ms) * time.Millisecond, at 64 bits. *)
Definition millis (ms : Z) : Z := wrap64 (ms * 1000000).

(** newRequestContext: the SLA bounds unary calls only. *)
Definition newRequestContext (req : VMap) (ft : functionType) : SC reqctx :=
  t ← gets id;
  modify (upd_sc_nextCtx S) ≫= fun _ =>
  let deadline :=
    if decide (ft = singleFunction) then
      match GetNumberField req (TimeoutField d) with
      | Some sla => if 0 <? longOf sla then Some (millis (longOf sla)) else None
      | None => None
      end
    else None in
  mret (mkCtx (sc_nextCtx t) deadline None None false).

(** A request that passed every check of doServeFunctionRequest. *)
Record admitted := mkAdmitted {
  ad_reqId : Value;
  ad_name : string;
  ad_fn : function;
  ad_args : option Value;
  ad_ctx : reqctx
}.

(** doServeFunctionRequest up to the switch: an error response or an admitted
    request with its handler context. *)
Definition admitRequest (ft : functionType) (req : VMap) : SC (VMap + admitted) :=
  t ← gets id;
  let reqId := match GetNumberField req (RequestIdField d) with Some v => v | None => Long 0 end in
  match GetStringField req (FunctionNameField d) with
  | None => mret (inl (NewFunctionError d reqId CodeInvalidArgument "function name field not found"))
  | Some nameV =>
      let name := stringOf nameV in
      match sc_functionMap t !! name with
      | None => mret (inl (NewFunctionError d reqId CodeNotFound ("function not found " +:+ name)))
      | Some fn =>
          let args := Get req (ArgumentsField d) in
          if negb (Verify args (fn_args fn)) then
            mret (inl (NewFunctionError d reqId CodeInvalidArgument
              ("function '" +:+ name +:+ "' invalid args" +:+ valDetail (sc_cfg t) args)))
          else if negb (bool_decide (fn_ft fn = ft)) then
            mret (inl (NewFunctionError d reqId CodeInvalidArgument
              ("function wrong type " +:+ name +:+ ", expected " +:+ pretty (functionType_iota (fn_ft fn)) +:+
               ", actual " +:+ pretty (functionType_iota ft))))
          else if negb (bool_decide (ft = singleFunction)) &&
                  (0 <? cfg_maxConcurrentStreams (sc_cfg t)) &&
                  (cfg_maxConcurrentStreams (sc_cfg t) <=? sc_liveStreams t) then
            mret (inl (NewFunctionError d reqId CodeResourceExhausted
              ("server busy: too many concurrent streams (max " +:+
               pretty (cfg_maxConcurrentStreams (sc_cfg t)) +:+ ")")))
          else
            newRequestContext req ft ≫= fun ctx =>
            let ctx := match DecodeMetadata d req with
                       | Some md =>
                           let ctx := ContextWithMetadata ctx md in
                           match cfg_metadataExtractor (sc_cfg t) with
                           | Some extract => extract ctx md
                           | None => ctx
                           end
                       | None => ctx
                       end in
            let ctx := if negb (bool_decide (sc_principal t = "")) then
                         ContextWithPrincipal ctx (sc_principal t) else ctx in
            mret (inr (mkAdmitted reqId name fn args (contextWithPeer ctx)))
      end
  end.

(** The switch up to the call of the handler: what is registered before it runs
    (for a stream, the object). *)
Definition startHandler (cancel : nat) (a : admitted) : SC nat :=
  match fn_ft (ad_fn a) with
  | singleFunction =>
      modify (upd_sc_requestCancels (insert (longOf (ad_reqId a)) cancel)) ≫= fun _ => mret 0%nat
  | ft => newServingRequest ft (ad_reqId a) (ad_name a) cancel
  end.

(** "out stream ", "in stream ", "chat " *)
Definition stream_where (ft : functionType) : string :=
  match ft with
  | singleFunction => "function " | outgoingStream => "out stream "
  | incomingStream => "in stream " | chat => "chat "
  end.

(** The rest of the switch, once the handler returned or panicked: the response,
    if any; [None] when the panic propagates. *)
Definition finishHandler (cancel : nat) (a : admitted) (l : nat) (o : outcome Value)
    : SC (option (option VMap)) :=
  match fn_ft (ad_fn a) with
  | singleFunction =>
      (* the deferred cancel and deletion run in every case *)
      cancelContext cancel ≫= fun _ =>
      modify (upd_sc_requestCancels (delete (longOf (ad_reqId a)))) ≫= fun _ =>
      t ← gets id;
      match o with
      | Panicked => mret None
      | Failed err => mret (Some (Some (NewHandlerError d (ad_reqId a) ("function " +:+ ad_name a) err)))
      | Returned res =>
          if negb (Verify res (fn_res (ad_fn a))) then
            mret (Some (Some (NewFunctionError d (ad_reqId a) CodeInternal
              ("function '" +:+ ad_name a +:+ "' invalid results" +:+ valDetail (sc_cfg t) res))))
          else mret (Some (Some (NewFunctionResult d (ad_reqId a) res)))
      end
  | ft =>
      match o with
      | Panicked => mret None
      | Failed err =>
          upd_request l (setCode (HandlerErrorCode err)) ≫= fun _ =>
          get_request l ≫= fun r =>
          (match r with Some r => closeRequest l r | None => mret tt end) ≫= fun _ =>
          mret (Some (Some (NewHandlerError d (ad_reqId a) (stream_where ft +:+ ad_name a) err)))
      | Returned _ =>
          if decide (ft = incomingStream) then mret (Some (Some (NewStreamReady d (ad_reqId a))))
          else emit (EStreamer l) ≫= fun _ => mret (Some None)
      end
  end.

(** The whole of doServeFunctionRequest, with the registered handler. *)
Definition doServeFunctionRequest (ft : functionType) (req : VMap) : SC (option (option VMap)) :=
  t ← gets id;
  let cancel := sc_nextCtx t in
  admitRequest ft req ≫= fun r =>
  match r with
  | inl resp => mret (Some (Some resp))
  | inr a =>
      startHandler cancel a ≫= fun l =>
      finishHandler cancel a l (fn_handler (ad_fn a) (ad_ctx a) (ad_args a))
  end.

Definition functionName (req : VMap) : string :=
  match GetStringField req (FunctionNameField d) with Some m => stringOf m | None => "" end.

(** What serveFunctionRequest does around doServeFunctionRequest: before, and
    after with its result. *)
Definition serveBegin (ft : functionType) (req : VMap) : SC unit :=
  when (bool_decide (ft = singleFunction)) (emit (ERequestBegin (functionName req))).

Definition serveEnd (ft : functionType) (req : VMap) (r : option (option VMap)) : SC unit :=
  (match r with
   | Some resp =>
       when (bool_decide (ft = singleFunction))
         (emit (ERequestEnd (functionName req) (responseCode resp))) ≫= fun _ =>
       match resp with Some m => send_ m | None => mret tt end
   | None => mret tt (* the recovered panic *)
   end) ≫= fun _ =>
  modify (upd_sc_inFlight (fun n => n - 1)).

Definition serveFunctionRequest (ft : functionType) (req : VMap) : SC unit :=
  serveBegin ft req ≫= fun _ =>
  doServeFunctionRequest ft req ≫= fun r =>
  serveEnd ft req r.

Definition functionTypeOf (msgType : Z) : option functionType :=
  if msgType =? FunctionRequest then Some singleFunction
  else if msgType =? GetStreamRequest then Some outgoingStream
  else if msgType =? PutStreamRequest then Some incomingStream
  else if msgType =? ChatRequest then Some chat
  else None.

Definition serveNewRequest (msgType : Z) (req : VMap) : SC (option goerror) :=
  match functionTypeOf msgType with
  | None => t ← gets id; mret (Some (ErrPlain ("unknown message type for new request" +:+ reqDetail (sc_cfg t) req)))
  | Some ft =>
      modify (upd_sc_inFlight (fun n => n + 1)) ≫= fun _ =>
      t ← gets id;
      let max := cfg_maxConcurrentRequests (sc_cfg t) in
      if (0 <? max) && (max <? sc_inFlight t) then
        modify (upd_sc_inFlight (fun n => n - 1)) ≫= fun _ =>
        match GetNumberField req (RequestIdField d) with
        | Some reqId =>
            send_ (NewFunctionError d reqId CodeResourceExhausted
              ("server busy: too many concurrent requests (max " +:+ pretty max +:+ ")")) ≫= fun _ => mret None
        | None => mret None
        end
      else emit (EServe ft req) ≫= fun _ => mret None
  end.

(** ** serving_stream.go: the session as the initiator *)

Definition StreamEstablishTimeout : Z := 10000.

Definition nextServerRequestId : SC Z :=
  modify (upd_sc_lastServerRequest (fun n => wrap64 (n + 1))) ≫= fun _ =>
  t ← gets id;
  mret (wrap64 (- sc_lastServerRequest t)).

Definition findPendingStream (reqId : Value) : SC (option nat) :=
  gets (fun t => sc_pendingStreams t !! longOf reqId).

(** Runs a method of the shared stream object; its credit grants are sent. *)
Definition on_stream {A} (l : nat) (m : M clientStream Z A) : SC (option A) :=
  t ← gets id;
  match sc_streams t !! l with
  | None => mret None
  | Some cs =>
      let '(a, cs', grants) := m cs in
      modify (upd_sc_streams (insert l cs')) ≫= fun _ =>
      seqM (map (fun n => send_ (NewStreamCredit d (Long (cs_requestId cs)) n)) grants) ≫= fun _ =>
      mret (Some a)
  end.

Definition deletePendingStream (reqId : Z) : SC unit := modify (upd_sc_pendingStreams (delete reqId)).

(** The read loop either goes on, with the error to log, or is blocked in a
    channel send. *)
Inductive handled := Handled (err : option goerror) | Blocked.

Definition value_or_nil (req : VMap) : option Value :=
  match Get req (ValueField d) with
  | Some v => if decide (kindOf v = NULL) then None else Some v
  | None => None
  end.

Definition handleInbound (l : nat) (msgType : Z) (req : VMap) : SC handled :=
  t ← gets id;
  match sc_streams t !! l with
  | None => mret (Handled None) (* unreachable: the map points to an object *)
  | Some cs =>
      let reqId := cs_requestId cs in
      if msgType =? StreamReady then
        on_stream l (ClientStream_notifyResult growcap None) ≫= fun r =>
        mret (match r with Some None => Blocked | _ => Handled None end)
      else if msgType =? StreamValue then
        match value_or_nil req with
        | None => mret (Handled None)
        | Some v =>
            on_stream l (ClientStream_notifyResult growcap (Some v)) ≫= fun r =>
            match r with
            | Some None => mret Blocked
            | Some (Some false) =>
                t ← gets id;
                let over := match sc_streams t !! l with
                            | Some cs => match cs_resultPump cs with Some p => Overflowed p | None => false end
                            | None => false
                            end in
                when over
                  (send_ (NewFunctionError d (Long reqId) CodeResourceExhausted
                     ("reverse stream " +:+ pretty reqId +:+ " truncated: peer exceeded flow-control credit")) ≫= fun _ =>
                   deletePendingStream reqId ≫= fun _ =>
                   on_stream l ClientStream_Close ≫= fun _ => mret tt) ≫= fun _ =>
                mret (Handled None)
            | _ => mret (Handled None)
            end
        end
      else if msgType =? StreamEnd then
        (match value_or_nil req with
         | None => mret (Some (Some true))
         | Some v => on_stream l (ClientStream_notifyResult growcap (Some v))
         end) ≫= fun r =>
        match r with
        | Some None => mret Blocked
        | _ =>
            on_stream l tryGetClose ≫= fun fin =>
            when (bool_decide (fin = Some true)) (deletePendingStream reqId) ≫= fun _ =>
            mret (Handled None)
        end
      else if msgType =? StreamCredit then
        (match GetNumberField req (CreditField d) with
         | Some cr => modify (upd_sc_streams (alter (upd_cs_sendCredit (fmap (Grant (longOf cr)))) l))
         | None => mret tt
         end) ≫= fun _ => mret (Handled None)
      else if msgType =? ErrorResponse then
        on_stream l (ClientStream_setError (decodeError d req)) ≫= fun _ =>
        deletePendingStream reqId ≫= fun _ =>
        on_stream l ClientStream_Close ≫= fun _ =>
        mret (Handled None)
      else mret (Handled None)
  end.

Definition cancelClientStream (l : nat) (reqId : Z) : SC unit :=
  send_ (NewSystemRequest d reqId CancelRequest) ≫= fun _ =>
  deletePendingStream reqId ≫= fun _ =>
  on_stream l ClientStream_Close ≫= fun _ => mret tt.

(** The select of awaitReady: which case fired. *)
Inductive ready_case := ReadyAck | ReadyClosed | ReadyCtxDone (e : goerror) | ReadySessionDone
                      | ReadyTimeout (ctxErr : option goerror).

Definition awaitReady (l : nat) (reqId : Z) (c : ready_case) : SC (option goerror) :=
  match c with
  | ReadyAck => mret None
  | ReadyClosed =>
      t ← gets id;
      mret (match sc_streams t !! l with
            | Some cs => Some (ClientStream_err cs (ErrRpc CodeUnavailable "reverse stream closed before ready"))
            | None => None
            end)
  | ReadyCtxDone e => cancelClientStream l reqId ≫= fun _ => mret (Some e)
  | ReadySessionDone => cancelClientStream l reqId ≫= fun _ => mret (Some ErrClientClosed)
  | ReadyTimeout (Some e) => cancelClientStream l reqId ≫= fun _ => mret (Some e)
  | ReadyTimeout None =>
      cancelClientStream l reqId ≫= fun _ =>
      mret (Some (ErrRpc CodeDeadlineExceeded ("reverse stream " +:+ pretty reqId +:+ ": client did not ack")))
  end.

(** watchStream when ctx is done before the stream. *)
Definition watchStream (l : nat) (reqId : Z) : SC unit := cancelClientStream l reqId.

(** openStream up to awaitReady: the request is registered before it is sent. *)
Definition openStream (mt : Z) (kind : streamKind) (name : string) (args : option Value) (receiveCap : Z)
    : SC (goerror + (Z * nat)) :=
  nextServerRequestId ≫= fun reqId =>
  t ← gets id;
  let l := sc_nextLoc t in
  modify (upd_sc_nextLoc S) ≫= fun _ =>
  modify (upd_sc_streams (insert l (newClientStream reqId kind receiveCap DefaultMaxPending true))) ≫= fun _ =>
  modify (upd_sc_pendingStreams (insert reqId l)) ≫= fun _ =>
  send (NewStreamRequest d mt reqId name args) ≫= fun e =>
  match e with
  | Some err =>
      deletePendingStream reqId ≫= fun _ =>
      on_stream l ClientStream_Close ≫= fun _ => mret (inl err)
  | None => mret (inr (reqId, l))
  end.

(** One iteration of streamOut: [v] is what putCh yields ([None]: closed); the
    result says whether the loop goes on, [None] while Acquire waits. *)
Definition streamOut_step (l : nat) (v : option (option Value)) : SC (option bool) :=
  t ← gets id;
  match sc_streams t !! l with
  | None => mret (Some false)
  | Some cs =>
      if negb (ClientStream_IsPutOpen cs) then mret (Some false)
      else match v with
           | None => send_ (NewStreamEnd d (Long (cs_requestId cs)) None) ≫= fun _ => mret (Some false)
           | Some val =>
               match cs_sendCredit cs with
               | None =>
                   send_ (NewStreamValue d (Long (cs_requestId cs)) val) ≫= fun _ => mret (Some true)
               | Some g =>
                   match Acquire g with
                   | None => mret None
                   | Some (false, _) => mret (Some false)
                   | Some (true, g') =>
                       modify (upd_sc_streams (insert l (upd_cs_sendCredit (fun _ => Some g') cs))) ≫= fun _ =>
                       send_ (NewStreamValue d (Long (cs_requestId cs)) val) ≫= fun _ => mret (Some true)
                   end
               end
           end
  end.

(** streamOut after its loop. *)
Definition streamOut_end (l : nat) (reqId : Z) : SC unit :=
  on_stream l tryPutClose ≫= fun fin =>
  when (bool_decide (fin = Some true)) (deletePendingStream reqId).

(** ** serving_client.go: reverse unary calls *)

(** CallFunction up to its select. *)
Definition CallFunction (ctx : reqctx) (name : string) (args : option Value) : SC (goerror + (Z * nat)) :=
  nextServerRequestId ≫= fun reqId =>
  t ← gets id;
  let c := sc_nextLoc t in
  modify (upd_sc_nextLoc S) ≫= fun _ =>
  modify (upd_sc_callChans (insert c [])) ≫= fun _ =>
  modify (upd_sc_pendingCalls (insert reqId c)) ≫= fun _ =>
  send (PutMetadata d (NewFunctionRequest d reqId name args) (MetadataFromContext ctx)) ≫= fun e =>
  match e with
  | Some err => modify (upd_sc_pendingCalls (delete reqId)) ≫= fun _ => mret (inl err)
  | None => mret (inr (reqId, c))
  end.

(** The select of CallFunction and the deferred deletion. *)
Inductive call_case := CallCtxDone (e : goerror) | CallSessionDone | CallReply (r : callResult).

Definition CallFunction_end (reqId : Z) (c : call_case) : SC callResult :=
  modify (upd_sc_pendingCalls (delete reqId)) ≫= fun _ =>
  mret (match c with
        | CallCtxDone e => mkCallResult None (Some e)
        | CallSessionDone => mkCallResult None (Some ErrClientClosed)
        | CallReply r => r
        end).

Definition completePendingCall (reqId : Value) (msgType : Z) (resp : VMap) : SC unit :=
  t ← gets id;
  match sc_pendingCalls t !! longOf reqId with
  | None => mret tt
  | Some c =>
      modify (upd_sc_pendingCalls (delete (longOf reqId))) ≫= fun _ =>
      let r := if msgType =? ErrorResponse then mkCallResult None (Some (decodeError d resp))
               else mkCallResult (fieldOrNil resp (ResultField d)) None in
      modify (upd_sc_callChans (alter (fun b => b ++ [r]) c))
  end.

(** ** Dispatch *)

Definition processRequest (req : VMap) : SC handled :=
  t ← gets id;
  match GetNumberField req (MessageTypeField d) with
  | None => mret (Handled (Some (ErrPlain ("empty message type" +:+ reqDetail (sc_cfg t) req))))
  | Some mt =>
      let msgType := longOf mt in
      match GetNumberField req (RequestIdField d) with
      | None => mret (Handled (Some (ErrPlain ("request id not found" +:+ reqDetail (sc_cfg t) req))))
      | Some reqId =>
          findPendingStream reqId ≫= fun ps =>
          match ps with
          | Some l => handleInbound l msgType req
          | None =>
              if (msgType =? FunctionResponse) || (msgType =? ErrorResponse) then
                completePendingCall reqId msgType req ≫= fun _ => mret (Handled None)
              else
                match sc_requestMap t !! longOf reqId with
                | Some l => serveRunningRequest l msgType req ≫= fun e => mret (Handled e)
                | None =>
                    if msgType =? CancelRequest then
                      (match sc_requestCancels t !! longOf reqId with
                       | Some c => cancelContext c
                       | None => mret tt
                       end) ≫= fun _ => mret (Handled None)
                    else serveNewRequest msgType req ≫= fun e => mret (Handled e)
                end
          end
      end
  end.

Definition replaceConn : SC unit := emit ECloseConn.

(** ServingClient.Close *)
Definition ServingClient_Close : SC unit :=
  t ← gets id;
  if sc_closeOnce t then mret tt
  else
    modify (upd_sc_closeOnce (fun _ => true)) ≫= fun _ =>
    modify (upd_sc_ctxCancelled (fun _ => true)) ≫= fun _ =>
    modify (upd_sc_done (fun _ => true)) ≫= fun _ =>
    emit ECloseConn ≫= fun _ =>
    seqM (map (fun kl : Z * nat => ServingRequest_Close kl.2) (map_to_list (sc_requestMap t))) ≫= fun _ =>
    seqM (map (fun kl : Z * nat => on_stream kl.2 ClientStream_Close ≫= fun _ => mret tt)
            (map_to_list (sc_pendingStreams t))).

(** NewServingClient *)
Definition NewServingClient (clientId : Z) (resumeToken principal : string)
    (functionMap : gmap string function) (cfg : serverConfig) : servingClient :=
  mkSC clientId resumeToken principal functionMap cfg false false false ∅ 0 ∅ ∅ 0 ∅ 0 0 ∅ ∅ ∅ ∅ 0.

(** ** outgoingStreamer *)

(** Where the streamer goroutine is: before StreamReady, at the select, waiting
    for a credit for a value, finished. *)
Inductive streamer_pc := SReady | SSelect | SAcquire (v : option Value) | SExit.

(** What the select yields: a value or the end of outC, or done. *)
Inductive out_case := OutValue (v : option Value) | OutClosed | OutDone.

Definition streamer_ready (l : nat) : SC streamer_pc :=
  get_request l ≫= fun o =>
  match o with
  | Some r => send_ (NewStreamReady d (sr_requestId r)) ≫= fun _ => mret SSelect
  | None => mret SExit
  end.

Definition streamer_select (l : nat) (c : out_case) : SC streamer_pc :=
  get_request l ≫= fun o =>
  match o with
  | None => mret SExit
  | Some r =>
      let val := match c with OutValue v => v | _ => None end in
      let ok := match c with OutValue _ => true | _ => false end in
      if negb ok || sr_closed r then
        send_ (NewStreamEnd d (sr_requestId r) val) ≫= fun _ =>
        closeRequest l r ≫= fun _ => mret SExit
      else mret (SAcquire val)
  end.

(** [None] while Acquire waits. *)
Definition streamer_acquire (l : nat) (v : option Value) : SC (option streamer_pc) :=
  get_request l ≫= fun o =>
  match o with
  | None => mret (Some SExit)
  | Some r =>
      match sr_sendCredit r with
      | Some g =>
          match Acquire g with
          | None => mret None
          | Some (false, _) => closeRequest l r ≫= fun _ => mret (Some SExit)
          | Some (true, g') =>
              upd_request l (upd_sr_sendCredit (fun _ => Some g')) ≫= fun _ =>
              send_ (NewStreamValue d (sr_requestId r) v) ≫= fun _ =>
              emit (EStreamValue (sr_method r)) ≫= fun _ => mret (Some SSelect)
          end
      | None =>
          send_ (NewStreamValue d (sr_requestId r) v) ≫= fun _ =>
          emit (EStreamValue (sr_method r)) ≫= fun _ => mret (Some SSelect)
      end
  end.

End serving.
