(* ===== verification/ServingSystem.v ===== *)
(** * The session's goroutines

    All interleavings of what runs on one session of the server: the connection
    read loop (any frame may arrive at any time), the goroutine of each request
    being served, split where other goroutines can interfere (the stream-limit
    check, the registration, the handler), the streamers, the pumps, the reverse
    calls and streams, and Close.  The invariants are the session's accounting:
    handler slots, open streams and the metrics gauge. *)

From S2P Require Import Prelude Value RefValue Protocol Verify Credit Pump FlowControl Metadata.
From S2P Require Import ClientStream ServingClient.

Section system.
Context `{ValueLib} (d : Dialect) (growcap : nat -> nat) (pickDone : servingClient -> VMap -> bool).

#[local] Arguments serveEnd : simpl never.
#[local] Arguments serveBegin : simpl never.
#[local] Arguments admitRequest : simpl never.
#[local] Arguments finishHandler : simpl never.

Inductive goroutine :=
| GServe (ft : functionType) (req : VMap)                            (* just started *)
| GAdmitted (ft : functionType) (req : VMap) (cancel : nat) (a : admitted)   (* past the checks *)
| GHandler (ft : functionType) (req : VMap) (cancel : nat) (a : admitted) (l : nat) (* in the handler *)
| GStreamer (l : nat) (pc : streamer_pc).

Definition spawned (o : list sc_ev) : list goroutine :=
  omap (fun e => match e with
                 | EServe ft req => Some (GServe ft req)
                 | EStreamer l => Some (GStreamer l SReady)
                 | _ => None
                 end) o.

(** The session, its goroutines, everything emitted, and two ghost counters: the
    registrations that replaced a live one under the same request id, and the
    unary handlers that panicked. *)
Record system := mkSystem {
  ses : servingClient;
  pool : list goroutine;
  hist : list sc_ev;
  overwritten : Z;
  panickedUnary : Z
}.

Abbreviation SC := (M servingClient sc_ev).

(** Runs a piece of session code in place of goroutine(s) [mid]. *)
Definition exec {A} (s : system) (p1 : list goroutine) (m : SC A) (mid : A -> list goroutine)
    (p2 : list goroutine) (ow pu : Z) : system :=
  let '(a, t, o) := m (ses s) in
  mkSystem t (p1 ++ mid a ++ p2 ++ spawned o) (hist s ++ o) (overwritten s + ow) (panickedUnary s + pu).

(** The code of serveFunctionRequest up to the switch. *)
Definition serve_admit (ft : functionType) (req : VMap) : SC (option admitted) :=
  serveBegin d ft req ≫= fun _ =>
  admitRequest d ft req ≫= fun r =>
  match r with
  | inl resp => serveEnd d pickDone ft req (Some (Some resp)) ≫= fun _ => mret None
  | inr a => mret (Some a)
  end.

Definition serve_finish (ft : functionType) (req : VMap) (cancel : nat) (a : admitted) (l : nat)
    (o : outcome Value) : SC unit :=
  finishHandler d cancel a l o ≫= fun r => serveEnd d pickDone ft req r.

(** An action of the pump goroutine of request [l]. *)
Definition pump_request (l : nat)
    (f : StreamPump (option Value) -> option (StreamPump (option Value))) (delivered : bool) : SC unit :=
  t ← gets id;
  match sc_requests t !! l with
  | Some r =>
      match sr_inPump r ≫= f with
      | Some p' =>
          upd_request l (upd_sr_inPump (fun _ => Some p')) ≫= fun _ =>
          when delivered (grantInbound d pickDone l)
      | None => mret tt
      end
  | None => mret tt
  end.

(** What other goroutines may do with the session at any time. *)
Inductive reverse_op :=
| RCall (ctx : reqctx) (name : string) (args : option Value)
| RCallEnd (reqId : Z) (c : call_case)
| ROpen (mt : Z) (k : streamKind) (name : string) (args : option Value) (cap : Z)
| RAwait (l : nat) (reqId : Z) (c : ready_case)
| RStreamOut (l : nat) (v : option (option Value))
| RStreamOutEnd (l : nat) (reqId : Z)
| RCancel (l : nat) (reqId : Z)
| RStream (l : nat) (m : M clientStream Z unit).

Definition run_reverse (op : reverse_op) : SC unit :=
  match op with
  | RCall ctx name args => CallFunction d pickDone ctx name args ≫= fun _ => mret tt
  | RCallEnd reqId c => CallFunction_end reqId c ≫= fun _ => mret tt
  | ROpen mt k name args cap => openStream d pickDone mt k name args cap ≫= fun _ => mret tt
  | RAwait l reqId c => awaitReady d pickDone l reqId c ≫= fun _ => mret tt
  | RStreamOut l v => streamOut_step d pickDone l v ≫= fun _ => mret tt
  | RStreamOutEnd l reqId => streamOut_end d pickDone l reqId
  | RCancel l reqId => cancelClientStream d pickDone l reqId
  | RStream l m => on_stream d pickDone l m ≫= fun _ => mret tt
  end.

Definition is_unary (a : admitted) : bool := bool_decide (fn_ft (ad_fn a) = singleFunction).

(** 1 when registering the admitted request replaces a live one. *)
Definition overwrites (t : servingClient) (a : admitted) : Z :=
  if is_unary a then 0 else match sc_requestMap t !! longOf (ad_reqId a) with Some _ => 1 | None => 0 end.

Inductive sys_step : system -> system -> Prop :=
| ss_recv s req :
    sys_step s (exec s (pool s) (processRequest d growcap pickDone req) (fun _ => []) [] 0 0)
| ss_admit s p1 p2 ft req :
    pool s = p1 ++ GServe ft req :: p2 ->
    sys_step s (exec s p1 (serve_admit ft req)
      (fun r => match r with Some a => [GAdmitted ft req (sc_nextCtx (ses s)) a] | None => [] end) p2 0 0)
| ss_start s p1 p2 ft req c a :
    pool s = p1 ++ GAdmitted ft req c a :: p2 ->
    sys_step s (exec s p1 (startHandler d pickDone c a) (fun l => [GHandler ft req c a l]) p2
      (overwrites (ses s) a) 0)
| ss_finish s p1 p2 ft req c a l o :
    pool s = p1 ++ GHandler ft req c a l :: p2 ->
    sys_step s (exec s p1 (serve_finish ft req c a l o) (fun _ => []) p2 0
      (match o with Panicked => if is_unary a then 1 else 0 | _ => 0 end))
| ss_ready s p1 p2 l :
    pool s = p1 ++ GStreamer l SReady :: p2 ->
    sys_step s (exec s p1 (streamer_ready d pickDone l) (fun x => [GStreamer l x]) p2 0 0)
| ss_select s p1 p2 l c :
    pool s = p1 ++ GStreamer l SSelect :: p2 ->
    sys_step s (exec s p1 (streamer_select d pickDone l c) (fun x => [GStreamer l x]) p2 0 0)
| ss_acquire s p1 p2 l v :
    pool s = p1 ++ GStreamer l (SAcquire v) :: p2 ->
    sys_step s (exec s p1 (streamer_acquire d pickDone l v)
      (fun x => [GStreamer l (default (SAcquire v) x)]) p2 0 0)
| ss_pump s l f b :
    (forall p p', f p = Some p' -> exists lab, pump_step None growcap p lab p') ->
    sys_step s (exec s (pool s) (pump_request l f b) (fun _ => []) [] 0 0)
| ss_reverse s op :
    sys_step s (exec s (pool s) (run_reverse op) (fun _ => []) [] 0 0)
| ss_close s :
    sys_step s (exec s (pool s) (ServingClient_Close d pickDone) (fun _ => []) [] 0 0).

Definition init_system (t : servingClient) : system := mkSystem t [] [] 0 0.

(** ** Accounting *)

Definition gauge_ev (e : sc_ev) : Z :=
  match e with ERequestBegin _ => 1 | ERequestEnd _ _ => -1 | _ => 0 end.
(** RequestBegin calls minus RequestEnd calls: the in-flight gauge. *)
Definition gauge (o : list sc_ev) : Z := zsum (map gauge_ev o).

Definition heap_ok (t : servingClient) : Prop :=
  (forall k l, sc_requestMap t !! k = Some l ->
     exists r, sc_requests t !! l = Some r /\ longOf (sr_requestId r) = k) /\
  (forall l r, sc_requests t !! l = Some r -> (l < sc_nextLoc t)%nat).

(** What the code that serves running requests keeps: it starts no handler, opens
    no stream, and retires a stream in the map, the counter and the metrics
    together. *)
Record acct (n0 dm dg lim : Z) (cfg : serverConfig) (t : servingClient) (o : list sc_ev) : Prop := {
  ac_inFlight : sc_inFlight t = n0;
  ac_map : sc_liveStreams t - Z.of_nat (size (sc_requestMap t)) = dm;
  ac_gauge : sc_liveStreams t - gauge o = dg;
  ac_lim : sc_liveStreams t <= lim;
  ac_spawn : spawned o = [];
  ac_heap : heap_ok t;
  ac_cfg : sc_cfg t = cfg
}.

Lemma gauge_app o1 o2 : gauge (o1 ++ o2) = gauge o1 + gauge o2.
Proof. unfold gauge. by rewrite map_app, zsum_app. Qed.

Lemma spawned_app o1 o2 : spawned (o1 ++ o2) = spawned o1 ++ spawned o2.
Proof. unfold spawned. apply omap_app. Qed.

Section running.
Context (n0 dm dg lim : Z) (cfg : serverConfig).
Abbreviation P := (acct n0 dm dg lim cfg).

(** Updates of anything else. *)
Lemma acct_other f :
  (forall t, sc_inFlight (f t) = sc_inFlight t /\ sc_liveStreams (f t) = sc_liveStreams t /\
             sc_requestMap (f t) = sc_requestMap t /\ sc_requests (f t) = sc_requests t /\
             sc_cfg (f t) = sc_cfg t /\ (sc_nextLoc t <= sc_nextLoc (f t))%nat) ->
  keeps P (modify f).
Proof.
  intros Hf. apply keeps_modify. intros t o [].
  destruct (Hf t) as (E1 & E2 & E3 & E4 & E5 & E6).
  split; rewrite ?E1, ?E2, ?E3, ?E5; try done.
  destruct ac_heap0 as [H1 H2]. split; rewrite ?E3, ?E4; [done|]. intros l r Hl. specialize (H2 l r Hl). lia.
Qed.

Lemma acct_emit e :
  gauge_ev e = 0 -> spawned [e] = [] -> keeps P (emit e).
Proof.
  intros Hg Hs. apply keeps_emit. intros t o [].
  split; rewrite ?gauge_app, ?spawned_app, ?ac_spawn0, ?Hs; try done.
  unfold gauge in *. cbn. lia.
Qed.

Lemma acct_send m : keeps P (send pickDone m).
Proof. unfold send. keeps_split. by apply acct_emit. Qed.

Lemma acct_send_ m : keeps P (send_ pickDone m).
Proof. unfold send_. keeps_split. apply acct_send. Qed.

Ltac other_fields := apply acct_other; intros ?; cbn; split_and!; first [done | lia].

Lemma acct_cancelContext c : keeps P (cancelContext c).
Proof. other_fields. Qed.

Lemma acct_cancelCtx r : keeps P (cancelCtx r).
Proof. unfold cancelCtx. keeps_split. apply acct_cancelContext. Qed.

Lemma acct_upd_request l f :
  (forall r, sr_requestId (f r) = sr_requestId r) -> keeps P (upd_request l f).
Proof.
  intros Hf. apply keeps_modify. intros t o []. split; cbn; try done.
  destruct ac_heap0 as [H1 H2]. split; cbn.
  - intros k l' Hk. destruct (H1 k l' Hk) as (r & Hr & Hid).
    rewrite lookup_alter. case_decide as E.
    + subst. rewrite Hr. cbn. eexists. split; [done|]. by rewrite Hf.
    + eauto.
  - intros l' r Hl. rewrite lookup_alter in Hl. case_decide as E.
    + subst. apply fmap_Some in Hl as (r0 & Hl & _). eauto.
    + eauto.
Qed.

Lemma acct_deleteRequest v : keeps P (deleteRequest v).
Proof.
  intros t o Hac. destruct Hac as [? ? ? ? ? [H1 H2] ?]. unfold deleteRequest. unM.
  destruct (sc_requestMap t !! longOf v) as [l|] eqn:El; cbn.
  - destruct (H1 _ _ El) as (r & Hr & Hid). rewrite Hr. cbn.
    pose proof (map_size_delete_Some (longOf v) (sc_requestMap t) (mk_is_Some _ _ El)) as Hsz.
    assert (size (sc_requestMap t) <> 0%nat).
    { rewrite map_size_empty_iff. intros E. by rewrite E, lookup_empty in El. }
    split; cbn; rewrite ?gauge_app, ?spawned_app; cbn; rewrite ?app_nil_r; try done; try lia.
    split; cbn; [|done]. intros k l'. rewrite lookup_delete_Some. naive_solver.
  - rewrite app_nil_r. by split.
Qed.

Lemma acct_ServingRequest_Close l : keeps P (ServingRequest_Close l).
Proof.
  unfold ServingRequest_Close, get_request. keeps_split; try (by apply acct_upd_request).
  apply acct_cancelCtx.
Qed.

Lemma acct_closeRequest l r : keeps P (closeRequest l r).
Proof. unfold closeRequest. keeps_split; [apply acct_deleteRequest|apply acct_ServingRequest_Close]. Qed.

Lemma acct_grantInbound l : keeps P (grantInbound d pickDone l).
Proof. unfold grantInbound, get_request. keeps_split; [by apply acct_upd_request|apply acct_send_]. Qed.

Lemma setCode_id c r : sr_requestId (setCode c r) = sr_requestId r.
Proof. unfold setCode. by destruct (sr_code r =? CodeOK). Qed.

Lemma closeInboundChan_id r : sr_requestId (closeInboundChan r) = sr_requestId r.
Proof. unfold closeInboundChan. by destruct (sr_inClosed r). Qed.

Lemma offer_id v r : sr_requestId (offer growcap v r).2 = sr_requestId r.
Proof. unfold offer. destruct (sr_inPump r); [|done]. by destruct (Push None growcap v s). Qed.

Lemma acct_incomingStreamValue l r req : keeps P (incomingStreamValue d growcap l r req).
Proof.
  unfold incomingStreamValue. keeps_split; apply acct_upd_request; intros; apply offer_id.
Qed.

Lemma acct_incomingStreamEnd l r req : keeps P (incomingStreamEnd d growcap l r req).
Proof.
  unfold incomingStreamEnd. keeps_split;
    first [ by apply acct_emit | apply acct_deleteRequest | apply acct_cancelCtx
          | apply acct_upd_request; intros; first [apply offer_id | apply closeInboundChan_id] ].
Qed.

Lemma acct_serveRunningRequest l mt req : keeps P (serveRunningRequest d growcap pickDone l mt req).
Proof.
  unfold serveRunningRequest, get_request. keeps_split;
    first [ apply acct_incomingStreamValue | apply acct_incomingStreamEnd | by apply acct_emit
          | apply acct_closeRequest | apply acct_send_
          | apply acct_upd_request; intros; first [apply setCode_id | done] ].
Qed.

Lemma acct_on_stream {A} l (m : M clientStream Z A) : keeps P (on_stream d pickDone l m).
Proof.
  unfold on_stream. keeps_split; [other_fields|]. apply keeps_seqM, Forall_map, Forall_true.
  intros. apply acct_send_.
Qed.

Lemma acct_deletePendingStream id : keeps P (deletePendingStream id).
Proof. unfold deletePendingStream. other_fields. Qed.

Lemma acct_handleInbound l mt req : keeps P (handleInbound d growcap pickDone l mt req).
Proof.
  unfold handleInbound. keeps_split;
    first [ apply acct_on_stream | apply acct_deletePendingStream | apply acct_send_ | other_fields ].
Qed.

Lemma acct_completePendingCall v mt req : keeps P (completePendingCall d v mt req).
Proof. unfold completePendingCall. keeps_split; other_fields. Qed.

Lemma acct_cancelClientStream l id : keeps P (cancelClientStream d pickDone l id).
Proof.
  unfold cancelClientStream. keeps_split;
    first [ apply acct_on_stream | apply acct_deletePendingStream | apply acct_send_ ].
Qed.

Lemma acct_nextServerRequestId : keeps P nextServerRequestId.
Proof. unfold nextServerRequestId. keeps_split; other_fields. Qed.

Lemma acct_run_reverse op : keeps P (run_reverse op).
Proof.
  destruct op; cbn [run_reverse];
    unfold CallFunction, CallFunction_end, openStream, awaitReady, streamOut_step, streamOut_end;
    keeps_split;
    first [ apply acct_nextServerRequestId | apply acct_on_stream | apply acct_deletePendingStream
          | apply acct_send_ | apply acct_send | apply acct_cancelClientStream | other_fields ].
Qed.

Lemma acct_pump_request l f b : keeps P (pump_request l f b).
Proof. unfold pump_request. keeps_split; [by apply acct_upd_request|apply acct_grantInbound]. Qed.

Lemma acct_ServingClient_Close : keeps P (ServingClient_Close d pickDone).
Proof.
  unfold ServingClient_Close. keeps_split; try other_fields.
  - by apply acct_emit.
  - apply keeps_seqM, Forall_map, Forall_true. intros. apply acct_ServingRequest_Close.
  - apply keeps_seqM, Forall_map, Forall_true. intros. keeps_split. apply acct_on_stream.
Qed.

Lemma acct_streamers l : keeps P (streamer_ready d pickDone l) /\
  (forall c, keeps P (streamer_select d pickDone l c)) /\
  (forall v, keeps P (streamer_acquire d pickDone l v)).
Proof.
  unfold streamer_ready, streamer_select, streamer_acquire, get_request. split_and!; intros;
    keeps_split; first [ apply acct_send_ | apply acct_closeRequest | by apply acct_emit
                       | by apply acct_upd_request ].
Qed.

End running.

(** ** Effects: how a piece of code moves the accounts *)

Record effect (dn dmap dg dl : Z) (sp : list goroutine) (t t' : servingClient) (o : list sc_ev) : Prop := {
  ef_inFlight : sc_inFlight t' = sc_inFlight t + dn;
  ef_map : sc_liveStreams t' - Z.of_nat (size (sc_requestMap t')) =
           sc_liveStreams t - Z.of_nat (size (sc_requestMap t)) + dmap;
  ef_gauge : gauge o = sc_liveStreams t' - sc_liveStreams t + dg;
  ef_live : sc_liveStreams t' <= sc_liveStreams t + dl;
  ef_spawn : spawned o = sp;
  ef_heap : heap_ok t';
  ef_cfg : sc_cfg t' = sc_cfg t
}.

Definition has_effect {A} (dn dmap dg dl : Z) (sp : list goroutine) (m : SC A) : Prop :=
  forall t, heap_ok t -> effect dn dmap dg dl sp t (m_st (m t)) (m_out (m t)).

(** Code that keeps the accounts has no effect on them. *)
Lemma acct_effect {A} (m : SC A) :
  (forall n0 dm dg lim cfg, keeps (acct n0 dm dg lim cfg) m) -> has_effect 0 0 0 0 [] m.
Proof.
  intros Hk t Ht.
  destruct (Hk (sc_inFlight t) (sc_liveStreams t - Z.of_nat (size (sc_requestMap t)))
              (sc_liveStreams t) (sc_liveStreams t) (sc_cfg t) t []) as [].
  { split; try done; try lia. unfold gauge. cbn. lia. }
  cbn [app] in *. split; try done; lia.
Qed.

Lemma effect_bind {A B} dn dmap dg dl sp dn' dmap' dg' dl' sp' (m : SC A) (k : A -> SC B) :
  has_effect dn dmap dg dl sp m -> (forall a, has_effect dn' dmap' dg' dl' sp' (k a)) ->
  has_effect (dn + dn') (dmap + dmap') (dg + dg') (dl + dl') (sp ++ sp') (m ≫= k).
Proof.
  intros Hm Hk t Ht. specialize (Hm t Ht). unfold mbind, M_bind, m_st, m_out in *.
  destruct (m t) as [[a t1] o1]. cbn in *. destruct Hm.
  specialize (Hk a t1 ef_heap0). unfold m_st, m_out in *.
  destruct (k a t1) as [[b t2] o2]. cbn in *. destruct Hk.
  split; rewrite ?gauge_app, ?spawned_app; try done; try lia; congruence.
Qed.

Lemma effect_ret {A} (a : A) : has_effect 0 0 0 0 [] (mret a).
Proof. apply acct_effect. intros. apply keeps_ret. Qed.

Lemma effect_eq {A} dn dmap dg dl sp dn' dmap' dg' dl' sp' (m : SC A) :
  has_effect dn dmap dg dl sp m ->
  dn = dn' -> dmap = dmap' -> dg = dg' -> dl <= dl' -> sp = sp' ->
  has_effect dn' dmap' dg' dl' sp' m.
Proof.
  intros Hm -> -> -> Hdl -> t Ht. destruct (Hm t Ht). split; try done. lia.
Qed.

Lemma effect_emit dg e :
  gauge_ev e = dg -> spawned [e] = [] -> has_effect 0 0 dg 0 [] (emit e).
Proof. intros Hg Hs t Ht. split; cbn; try done; lia. Qed.

Definition zb (b : bool) : Z := if b then 1 else 0.

Definition unaryT (ft : functionType) : bool := bool_decide (ft = singleFunction).

Lemma effect_serveBegin ft req : has_effect 0 0 (zb (unaryT ft)) 0 [] (serveBegin d ft req).
Proof.
  unfold serveBegin, unaryT. destruct (bool_decide (ft = singleFunction)); cbn.
  - by apply effect_emit.
  - apply effect_ret.
Qed.

Lemma effect_serveEnd ft req r :
  has_effect (-1) 0 (- zb (unaryT ft && match r with Some _ => true | None => false end)) 0 []
    (serveEnd d pickDone ft req r).
Proof.
  unfold serveEnd, unaryT. eapply effect_eq.
  - apply (effect_bind 0 0 (- zb (bool_decide (ft = singleFunction) && match r with Some _ => true | None => false end)) 0 []
             (-1) 0 0 0 []).
    + destruct r as [resp|].
      * rewrite andb_true_r. eapply effect_eq; [apply (effect_bind 0 0 (- zb (bool_decide (ft = singleFunction))) 0 [] 0 0 0 0 [])| |..];
          try done; try lia.
        -- destruct (bool_decide (ft = singleFunction)); cbn; [by apply effect_emit|apply effect_ret].
        -- intros _. destruct resp; [|apply effect_ret]. apply acct_effect. intros. apply acct_send_.
      * rewrite andb_false_r. apply effect_ret.
    + intros _ t Ht. split; cbn; try done; lia.
  - lia.
  - lia.
  - lia.
  - lia.
  - done.
Qed.

Lemma acct_newRequestContext n0 dm dg lim cfg req ft :
  keeps (acct n0 dm dg lim cfg) (newRequestContext d req ft).
Proof.
  unfold newRequestContext. keeps_split. apply acct_other. intros t. cbn. split_and!; done.
Qed.

Lemma effect_admitRequest ft req : has_effect 0 0 0 0 [] (admitRequest d ft req).
Proof.
  apply acct_effect. intros. unfold admitRequest. keeps_split. apply acct_newRequestContext.
Qed.

(** An admitted request has the type it was asked for and, for a stream, was
    admitted under the stream limit. *)
Lemma admitRequest_ok ft req t a :
  m_res (admitRequest d ft req t) = inr a ->
  fn_ft (ad_fn a) = ft /\
  (ft <> singleFunction -> 0 < cfg_maxConcurrentStreams (sc_cfg t) ->
   sc_liveStreams t < cfg_maxConcurrentStreams (sc_cfg t)).
Proof.
  unfold admitRequest, newRequestContext. unM.
  destruct (GetStringField req (FunctionNameField d)) as [nm|]; [|done].
  destruct (sc_functionMap t !! stringOf nm) as [fn|]; [|done].
  destruct (negb (Verify _ _)); [done|].
  destruct (negb (bool_decide (fn_ft fn = ft))) eqn:Eft; [done|].
  match goal with |- context [if ?b then _ else _] => destruct b eqn:Elim end; [done|].
  cbn. intros [= <-]. cbn. bool_to_prop. split; [done|]. intros Hne Hmax.
  rewrite (bool_decide_false (ft = singleFunction)), (proj2 (Z.ltb_lt _ _) Hmax) in Elim by done.
  cbn in Elim. bool_to_prop. lia.
Qed.

Lemma effect_newServingRequest ft reqId name c t :
  heap_ok t ->
  effect 0 (match sc_requestMap t !! longOf reqId with Some _ => 1 | None => 0 end) 0 1 []
    t (m_st (newServingRequest d pickDone ft reqId name c t))
      (m_out (newServingRequest d pickDone ft reqId name c t)).
Proof.
  intros Ht. unfold newServingRequest.
  set (inbound := bool_decide (ft = incomingStream) || bool_decide (ft = chat)).
  set (sr0 := upd_sr_method (fun _ => name) (upd_sr_cancel (fun _ => Some c) (NewServingRequest ft reqId))).
  set (sr := if inbound then setupInbound (cfg_maxPending (sc_cfg t)) sr0 else sr0).
  set (t1 := upd_sc_liveStreams (fun n => n + 1) (upd_sc_requestMap (insert (longOf reqId) (sc_nextLoc t))
               (upd_sc_requests (insert (sc_nextLoc t) sr) (upd_sc_nextLoc S t)))).
  assert (Hid : sr_requestId sr = reqId) by (subst sr; by destruct inbound).
  assert (heap_ok t1) as Ht1.
  { destruct Ht as [H1 H2]. split; cbn.
    - intros k l. rewrite lookup_insert. case_decide as Ek.
      + intros [= <-]. subst k. rewrite lookup_insert. rewrite decide_True by done. eauto with congruence.
      + intros Hk. destruct (H1 k l Hk) as (r & Hr & Hr').
        rewrite lookup_insert, decide_False; [by eauto|]. intros <-. apply H2 in Hr. lia.
    - intros l r. rewrite lookup_insert. case_decide as El; [intros _; lia|].
      intros Hl. apply H2 in Hl. lia. }
  assert (has_effect 0 0 0 0 [] (when inbound (grantInitialInbound d pickDone sr))) as Hg.
  { destruct inbound; cbn; [|apply effect_ret]. apply acct_effect. intros. apply acct_send_. }
  specialize (Hg t1 Ht1). unfold mbind, M_bind, gets, emit, modify, set_request, mret, M_ret, m_st, m_out in *.
  cbn. fold inbound sr. fold t1.
  destruct (when inbound (grantInitialInbound d pickDone sr) t1) as [[u t2] o2] eqn:E2.
  cbn in *. destruct Hg.
  assert (Z.of_nat (size (sc_requestMap t1)) = Z.of_nat (size (sc_requestMap t)) + 1 -
          match sc_requestMap t !! longOf reqId with Some _ => 1 | None => 0 end) as Hsz.
  { cbn. rewrite map_size_insert. destruct (sc_requestMap t !! longOf reqId); cbn; lia. }
  split; rewrite ?app_nil_r.
  - subst t1; cbn in *; lia.
  - subst t1; cbn in *. lia.
  - change (gauge ([ERequestBegin name] ++ o2) = sc_liveStreams t2 - sc_liveStreams t + 0).
    rewrite gauge_app. unfold gauge at 1. cbn. subst t1; cbn in *. lia.
  - subst t1; cbn in *. lia.
  - change (spawned ([ERequestBegin name] ++ o2) = []). rewrite spawned_app, ef_spawn0. done.
  - done.
  - subst t1; cbn in *. done.
Qed.

Lemma effect_startHandler c a t :
  heap_ok t ->
  effect 0 (overwrites t a) 0 (1 - zb (is_unary a)) []
    t (m_st (startHandler d pickDone c a t)) (m_out (startHandler d pickDone c a t)).
Proof.
  intros Ht. unfold startHandler, overwrites, is_unary.
  destruct (fn_ft (ad_fn a)) eqn:Eft; try (apply effect_newServingRequest; done).
  rewrite bool_decide_true by done. unM. split; cbn; try done; lia.
Qed.

(** A streamer is started exactly when an outgoing stream or chat is established. *)
Definition streamers_of (a : admitted) (l : nat) (o : outcome Value) : list goroutine :=
  match fn_ft (ad_fn a), o with
  | (outgoingStream | chat), Returned _ => [GStreamer l SReady]
  | _, _ => []
  end.

Definition panicked (o : outcome Value) : bool := match o with Panicked => true | _ => false end.

Lemma finish_unary c a l o t :
  fn_ft (ad_fn a) = singleFunction -> heap_ok t ->
  effect 0 0 0 0 [] t (m_st (finishHandler d c a l o t)) (m_out (finishHandler d c a l o t)) /\
  (m_res (finishHandler d c a l o t) = None <-> o = Panicked).
Proof.
  intros Eft Ht. unfold finishHandler. rewrite Eft. unM.
  destruct o as [res|err|]; [destruct (negb (Verify res (fn_res (ad_fn a))))|..]; cbn.
  all: split; [split; cbn; try done; lia | done].
Qed.

Lemma finish_stream c a l o t :
  fn_ft (ad_fn a) <> singleFunction -> heap_ok t ->
  effect 0 0 0 0 (streamers_of a l o) t (m_st (finishHandler d c a l o t)) (m_out (finishHandler d c a l o t)).
Proof.
  intros Eft Ht. unfold finishHandler, streamers_of.
  destruct o as [res|err|].
  - destruct (fn_ft (ad_fn a)) eqn:E; try done; case_decide; try done; unM; split; cbn; try done; lia.
  - assert (has_effect 0 0 0 0 [] (upd_request l (setCode (HandlerErrorCode err)) ≫= fun _ =>
              get_request l ≫= fun r =>
              (match r with Some r => closeRequest l r | None => mret tt end) ≫= fun _ =>
              mret (Some (Some (NewHandlerError d (ad_reqId a) (stream_where (fn_ft (ad_fn a)) +:+ ad_name a) err))))) as He.
    { apply acct_effect. intros. unfold get_request. keeps_split.
      - apply acct_upd_request, setCode_id.
      - apply acct_closeRequest. }
    specialize (He t Ht). by destruct (fn_ft (ad_fn a)).
  - assert (has_effect 0 0 0 0 [] (mret (M := SC) (A := option (option VMap)) None)) as He by apply effect_ret.
    specialize (He t Ht). by destruct (fn_ft (ad_fn a)).
Qed.

Lemma effect_serve_finish ft req c a l o t :
  fn_ft (ad_fn a) = ft -> heap_ok t ->
  effect (-1) 0 (- zb (is_unary a && negb (panicked o))) 0 (streamers_of a l o)
    t (m_st (serve_finish ft req c a l o t)) (m_out (serve_finish ft req c a l o t)).
Proof.
  intros Eft Ht. unfold serve_finish, is_unary. rewrite Eft.
  destruct (decide (ft = singleFunction)) as [Eu|Eu].
  - rewrite bool_decide_true by done. cbn [andb].
    destruct (finish_unary c a l o t) as [Hf Hr]; [congruence|done|].
    unfold mbind, M_bind, m_st, m_out, m_res in *. destruct (finishHandler d c a l o t) as [[r t1] o1]. cbn in *.
    pose proof (effect_serveEnd ft req r t1 (ef_heap _ _ _ _ _ _ _ _ Hf)) as He. unfold m_st, m_out in *.
    destruct (serveEnd d pickDone ft req r t1) as [[u t2] o2]. cbn in *.
    assert (streamers_of a l o = []) as -> by (unfold streamers_of; by rewrite Eft, Eu).
    assert (unaryT ft && match r with Some _ => true | None => false end = negb (panicked o)) as Eb.
    { unfold unaryT. rewrite bool_decide_true by done. cbn.
      destruct r as [r|], o; cbn; try done; naive_solver. }
    rewrite Eb in He. destruct Hf, He.
    split; rewrite ?gauge_app, ?spawned_app, ?ef_spawn0, ?ef_spawn1; try done; try lia; congruence.
  - rewrite bool_decide_false by done. cbn [andb zb].
    pose proof (finish_stream c a l o t ltac:(congruence) Ht) as Hf.
    unfold mbind, M_bind, m_st, m_out in *. destruct (finishHandler d c a l o t) as [[r t1] o1]. cbn in *.
    pose proof (effect_serveEnd ft req r t1 (ef_heap _ _ _ _ _ _ _ _ Hf)) as He. unfold m_st, m_out in *.
    destruct (serveEnd d pickDone ft req r t1) as [[u t2] o2]. cbn in *.
    assert (unaryT ft = false) as Eb by (unfold unaryT; by apply bool_decide_eq_false).
    rewrite Eb in He. cbn in He. destruct Hf, He.
    split; rewrite ?gauge_app, ?spawned_app, ?ef_spawn0, ?ef_spawn1, ?app_nil_r; try done; try lia; congruence.
Qed.

Lemma effect_serve_admit ft req t :
  heap_ok t ->
  let r := serve_admit ft req t in
  match m_res r with
  | None => effect (-1) 0 0 0 [] t (m_st r) (m_out r)
  | Some a =>
      effect 0 0 (zb (unaryT ft)) 0 [] t (m_st r) (m_out r) /\ fn_ft (ad_fn a) = ft /\
      (ft <> singleFunction -> 0 < cfg_maxConcurrentStreams (sc_cfg t) ->
       sc_liveStreams (m_st r) < cfg_maxConcurrentStreams (sc_cfg t))
  end.
Proof.
  intros Ht r. subst r. unfold serve_admit.
  pose proof (effect_serveBegin ft req t Ht) as Hb.
  unfold mbind, M_bind, mret, M_ret, m_st, m_out, m_res in *.
  destruct (serveBegin d ft req t) as [[u t0] o0]. cbn in *.
  pose proof (effect_admitRequest ft req t0 (ef_heap _ _ _ _ _ _ _ _ Hb)) as Ha.
  pose proof (admitRequest_ok ft req t0) as Hok. unfold m_st, m_out, m_res in *.
  destruct (admitRequest d ft req t0) as [[r t1] o1]. cbn in *. destruct r as [resp|a]; cbn.
  - pose proof (effect_serveEnd ft req (Some (Some resp)) t1 (ef_heap _ _ _ _ _ _ _ _ Ha)) as He.
    unfold m_st, m_out in *. destruct (serveEnd d pickDone ft req (Some (Some resp)) t1) as [[u2 t2] o2].
    cbn in *. rewrite andb_true_r in He. destruct Hb, Ha, He.
    split; rewrite ?app_nil_r, ?gauge_app, ?spawned_app, ?ef_spawn0, ?ef_spawn1, ?ef_spawn2;
      try done; try lia; congruence.
  - destruct (Hok a eq_refl) as [Hft Hlim]. destruct Hb, Ha. split_and!; [|done|].
    + split; rewrite ?app_nil_r, ?gauge_app, ?spawned_app, ?ef_spawn0, ?ef_spawn1;
        try done; try lia; congruence.
    + intros Hne Hmax. rewrite <- ef_cfg0 in Hmax |- *. specialize (Hlim Hne Hmax). lia.
Qed.

(** A frame either keeps the accounts or starts exactly one handler, under the
    request limit. *)
Definition frame_effect (req : VMap) (t t' : servingClient) (o : list sc_ev) : Prop :=
  effect 0 0 0 0 [] t t' o \/
  (exists ft, effect 1 0 0 0 [GServe ft req] t t' o /\
     (0 < cfg_maxConcurrentRequests (sc_cfg t) ->
      sc_inFlight t' <= cfg_maxConcurrentRequests (sc_cfg t))).

Lemma effect_serveNewRequest mt req t :
  heap_ok t ->
  let r := serveNewRequest d pickDone mt req t in frame_effect req t (m_st r) (m_out r).
Proof.
  intros Ht r. subst r. unfold serveNewRequest, frame_effect.
  destruct (functionTypeOf mt) as [ft|]; [|left; unM; split; cbn; try done; lia].
  rewrite M_modify_bind, M_gets_bind. cbn [id]. set (t1 := upd_sc_inFlight (fun n => n + 1) t).
  destruct ((0 <? cfg_maxConcurrentRequests (sc_cfg t1)) && (cfg_maxConcurrentRequests (sc_cfg t1) <? sc_inFlight t1)) eqn:Elim.
  - left. rewrite M_modify_bind. set (t2 := upd_sc_inFlight (fun n => n - 1) t1).
    assert (forall A (m : SC A), (forall n0 dm dg lim cfg, keeps (acct n0 dm dg lim cfg) m) ->
      effect 0 0 0 0 [] t (m_st (m t2)) (m_out (m t2))) as Hq.
    { intros A m Hm. destruct (acct_effect m Hm t2); [done|]. cbn in *. split; try done; lia. }
    apply Hq. intros. keeps_split. apply acct_send_.
  - right. exists ft. unM. split; [split; cbn; try done; lia|]. intros Hmax.
    rewrite (proj2 (Z.ltb_lt _ _) Hmax) in Elim. cbn in Elim. bool_to_prop. cbn in Elim. lia.
Qed.

Lemma effect_processRequest req t :
  heap_ok t ->
  let r := processRequest d growcap pickDone req t in frame_effect req t (m_st r) (m_out r).
Proof.
  intros Ht r. subst r. unfold processRequest. rewrite M_gets_bind. cbn [id].
  assert (forall A (m : SC A), (forall n0 dm dg lim cfg, keeps (acct n0 dm dg lim cfg) m) ->
    frame_effect req t (m_st (m t)) (m_out (m t))) as Hq by (intros; left; by apply acct_effect).
  destruct (GetNumberField req (MessageTypeField d)) as [mt|]; [|apply Hq; intros; apply keeps_ret].
  destruct (GetNumberField req (RequestIdField d)) as [reqId|]; [|apply Hq; intros; apply keeps_ret].
  unfold findPendingStream. rewrite M_gets_bind.
  destruct (sc_pendingStreams t !! longOf reqId); [apply Hq; intros; apply acct_handleInbound|].
  destruct (_ || _); [apply Hq; intros; keeps_split; apply acct_completePendingCall|].
  destruct (sc_requestMap t !! longOf reqId);
    [apply Hq; intros; keeps_split; apply acct_serveRunningRequest|].
  destruct (longOf mt =? CancelRequest).
  - apply Hq. intros. keeps_split. apply acct_cancelContext.
  - rewrite M_bind_ret. by apply effect_serveNewRequest.
Qed.

(** ** The system invariant *)

(** Goroutines that hold a handler slot; streams admitted and not registered yet;
    unary calls whose RequestBegin was reported. *)
Definition serving (g : goroutine) : Z :=
  match g with GServe _ _ | GAdmitted _ _ _ _ | GHandler _ _ _ _ _ => 1 | _ => 0 end.
Definition admittedStream (g : goroutine) : Z :=
  match g with GAdmitted _ _ _ a => 1 - zb (is_unary a) | _ => 0 end.
Definition unaryRunning (g : goroutine) : Z :=
  match g with GAdmitted _ _ _ a | GHandler _ _ _ a _ => zb (is_unary a) | _ => 0 end.

Definition zcount (f : goroutine -> Z) (l : list goroutine) : Z := zsum (map f l).

Lemma zcount_app f l1 l2 : zcount f (l1 ++ l2) = zcount f l1 + zcount f l2.
Proof. unfold zcount. by rewrite map_app, zsum_app. Qed.

Lemma zcount_cons f g l : zcount f (g :: l) = f g + zcount f l.
Proof. done. Qed.

Lemma zcount_le f f' l : (forall g, f g <= f' g) -> zcount f l <= zcount f' l.
Proof. intros Hf. induction l as [|g l IH]; [done|]. rewrite !zcount_cons. specialize (Hf g). lia. Qed.

Definition typed (g : goroutine) : Prop :=
  match g with GAdmitted ft _ _ a | GHandler ft _ _ a _ => fn_ft (ad_fn a) = ft | _ => True end.

Record sys_inv (cfg : serverConfig) (s : system) : Prop := {
  si_cfg : sc_cfg (ses s) = cfg;
  si_heap : heap_ok (ses s);
  si_slots : sc_inFlight (ses s) = zcount serving (pool s);
  si_maxRequests : 0 < cfg_maxConcurrentRequests cfg ->
    zcount serving (pool s) <= cfg_maxConcurrentRequests cfg;
  si_streams : sc_liveStreams (ses s) = Z.of_nat (size (sc_requestMap (ses s))) + overwritten s;
  si_gauge : gauge (hist s) = sc_liveStreams (ses s) + zcount unaryRunning (pool s) + panickedUnary s;
  si_maxStreams : 0 < cfg_maxConcurrentStreams cfg -> 0 < cfg_maxConcurrentRequests cfg ->
    sc_liveStreams (ses s) + zcount admittedStream (pool s) <=
    cfg_maxConcurrentStreams cfg - 1 + cfg_maxConcurrentRequests cfg;
  si_typed : Forall typed (pool s)
}.

Lemma zb_range b : 0 <= zb b <= 1.
Proof. destruct b; cbn; lia. Qed.

Lemma admitted_le_serving l : zcount admittedStream l <= zcount serving l.
Proof. apply zcount_le. intros []; cbn; try lia. pose proof (zb_range (is_unary a)). lia. Qed.

Ltac count := rewrite ?zcount_app, ?zcount_cons in *; cbn [serving admittedStream unaryRunning] in *;
  change (zcount serving []) with 0 in *; change (zcount admittedStream []) with 0 in *;
  change (zcount unaryRunning []) with 0 in *.

(** The bookkeeping every step shares: goroutines [g] are replaced by [mid], and
    the code had the given effect. *)
Lemma exec_inv {A} cfg s p1 g p2 (m : SC A) mid ow pu dn dg dl sp :
  sys_inv cfg s -> pool s = p1 ++ g ++ p2 ->
  effect dn ow dg dl sp (ses s) (m_st (m (ses s))) (m_out (m (ses s))) ->
  let mid' := mid (m_res (m (ses s))) in
  zcount serving (mid' ++ sp) = zcount serving g + dn ->
  zcount unaryRunning (mid' ++ sp) = zcount unaryRunning g + dg - pu ->
  (0 < cfg_maxConcurrentRequests cfg -> 0 < dn ->
     sc_inFlight (m_st (m (ses s))) <= cfg_maxConcurrentRequests cfg) ->
  (0 < cfg_maxConcurrentStreams cfg -> 0 < cfg_maxConcurrentRequests cfg ->
     dl + zcount admittedStream (mid' ++ sp) <= zcount admittedStream g \/
     (sc_liveStreams (m_st (m (ses s))) < cfg_maxConcurrentStreams cfg)) ->
  Forall typed (mid' ++ sp) ->
  sys_inv cfg (exec s p1 m mid p2 ow pu).
Proof.
  intros [] Hp He mid' Hs Hu Hmax Hlim Ht. subst mid'. unfold exec. unfold m_st, m_out, m_res in *.
  destruct (m (ses s)) as [[a t'] o]. cbn in *. destruct He. rewrite Hp in *.
  rewrite !Forall_app in si_typed0. destruct si_typed0 as (T1 & _ & T2). apply Forall_app in Ht as [T3 T4].
  rewrite ?zcount_app in *. subst sp.
  assert (zcount serving (p1 ++ mid a ++ p2 ++ spawned o) = sc_inFlight t') as Hslots
    by (rewrite ?zcount_app; lia).
  assert (0 < cfg_maxConcurrentRequests cfg -> sc_inFlight t' <= cfg_maxConcurrentRequests cfg) as Hbound.
  { intros Hpos. destruct (Z_lt_le_dec 0 dn); [by apply Hmax|]. specialize (si_maxRequests0 Hpos). lia. }
  split; cbn [ses pool hist overwritten panickedUnary]; rewrite ?zcount_app, ?gauge_app in *;
    try done; try congruence; try lia.
  - intros Hp1 Hp2. specialize (si_maxStreams0 Hp1 Hp2). destruct (Hlim Hp1 Hp2) as [Hl|Hl]; [lia|].
    specialize (Hbound Hp2). pose proof (admitted_le_serving (p1 ++ mid a ++ p2 ++ spawned o)) as Hle.
    rewrite ?zcount_app in *. lia.
  - rewrite !Forall_app. auto.
Qed.

(** Steps that replace no serving goroutine and keep the accounts. *)
Lemma quiet_step {A} cfg s p1 g p2 (m : SC A) mid :
  sys_inv cfg s -> pool s = p1 ++ g ++ p2 ->
  (forall n0 dm dg lim cfg, keeps (acct n0 dm dg lim cfg) m) ->
  (forall f, f = serving \/ f = unaryRunning \/ f = admittedStream ->
     zcount f (mid (m_res (m (ses s)))) = zcount f g) ->
  Forall typed (mid (m_res (m (ses s)))) ->
  sys_inv cfg (exec s p1 m mid p2 0 0).
Proof.
  intros Hi Hp Hk Hc Ht.
  pose proof (acct_effect m Hk (ses s) (si_heap _ _ Hi)) as He.
  eapply exec_inv; [done|exact Hp|exact He|..]; rewrite ?app_nil_r; rewrite ?Hc by auto; try done; try lia.
Qed.

Lemma sys_step_inv cfg s s' : sys_inv cfg s -> sys_step s s' -> sys_inv cfg s'.
Proof.
  intros Hi Hstep. pose proof (si_heap _ _ Hi) as Hheap.
  destruct (si_cfg _ _ Hi).
  assert (pool s = pool s ++ [] ++ []) as Hnil by by rewrite !app_nil_r.
  inv Hstep.
  - destruct (effect_processRequest req (ses s) Hheap) as [He|(ft & He & Hmax)].
    + eapply exec_inv; [done|exact Hnil|exact He|..]; cbn; try done; lia.
    + eapply exec_inv; [done|exact Hnil|exact He|..]; cbn; try done; try lia.
      by repeat constructor.
  - pose proof (effect_serve_admit ft req (ses s) Hheap) as He. cbn zeta in He.
    destruct (m_res (serve_admit ft req (ses s))) as [a|] eqn:Er.
    + destruct He as (He & Hft & Hlim). eapply (exec_inv _ _ _ [GServe ft req]); [done|done|exact He|..];
        rewrite ?Er; cbn; try done; try lia.
      * unfold is_unary, unaryT. rewrite Hft. lia.
      * intros Hs _. unfold is_unary. rewrite Hft.
        case_bool_decide as Eu; cbn; [left; lia|right; auto].
      * by repeat constructor.
    + eapply (exec_inv _ _ _ [GServe ft req]); [done|done|exact He|..]; rewrite ?Er; cbn; try done; lia.
  - pose proof (effect_startHandler c a (ses s) Hheap) as He.
    pose proof (si_typed _ _ Hi) as Ht. rewrite H0, Forall_app, Forall_cons in Ht. destruct Ht as (_ & Ht & _).
    eapply (exec_inv _ _ _ [GAdmitted ft req c a]); [done|done|exact He|..]; cbn; try done; try lia.
    by repeat constructor.
  - pose proof (si_typed _ _ Hi) as Ht. rewrite H0, Forall_app, Forall_cons in Ht. destruct Ht as (_ & Ht & _).
    pose proof (effect_serve_finish ft req c a l o (ses s) Ht Hheap) as He.
    assert (zcount serving (streamers_of a l o) = 0 /\ zcount unaryRunning (streamers_of a l o) = 0 /\
            zcount admittedStream (streamers_of a l o) = 0 /\ Forall typed (streamers_of a l o)) as (E1 & E2 & E3 & E4).
    { unfold streamers_of. destruct (fn_ft (ad_fn a)), o; cbn; split_and!; try done; by repeat constructor. }
    eapply (exec_inv _ _ _ [GHandler ft req c a l]); [done|done|exact He|..]; cbn [app]; try done.
    + rewrite E2. cbn. destruct o, (is_unary a); cbn; lia.
    + rewrite E3. cbn. left. lia.
  - eapply (quiet_step _ _ _ [_]); [done|done|intros; apply acct_streamers|..];
      [intros f [->|[-> | ->]]; done | by repeat constructor].
  - eapply (quiet_step _ _ _ [_]); [done|done|intros; apply acct_streamers|..];
      [intros f [->|[-> | ->]]; done | by repeat constructor].
  - eapply (quiet_step _ _ _ [_]); [done|done|intros; apply acct_streamers|..];
      [intros f [->|[-> | ->]]; done | by repeat constructor].
  - eapply quiet_step; [done|exact Hnil|intros; apply acct_pump_request|done|constructor].
  - eapply quiet_step; [done|exact Hnil|intros; apply acct_run_reverse|done|constructor].
  - eapply quiet_step; [done|exact Hnil|intros; apply acct_ServingClient_Close|done|constructor].
Qed.

(** ** Properties *)

Definition new_system (clientId : Z) (tok principal : string) (fm : gmap string function) (cfg : serverConfig) : system :=
  init_system (NewServingClient clientId tok principal fm cfg).

Lemma new_system_inv clientId tok principal fm cfg : sys_inv cfg (new_system clientId tok principal fm cfg).
Proof. split; cbn; try done; lia. Qed.

Lemma reachable_inv clientId tok principal fm cfg s :
  reach sys_step (new_system clientId tok principal fm cfg) s -> sys_inv cfg s.
Proof.
  apply (reach_inv sys_step (sys_inv cfg)); [apply new_system_inv|]. intros a b. apply sys_step_inv.
Qed.

(** C22: For every interleaving of the session's goroutines, the in-flight
    counter is the number of running request handlers, and a positive
    MaxConcurrentRequests is never exceeded. The increment of a request and
    its undoing when it is refused are one step, so the counter's transient
    value of the limit plus one is not a state. *)
Theorem handler_slots_bounded clientId tok principal fm cfg s :
  reach sys_step (new_system clientId tok principal fm cfg) s ->
  sc_inFlight (ses s) = zcount serving (pool s) /\
  (0 < cfg_maxConcurrentRequests cfg -> sc_inFlight (ses s) <= cfg_maxConcurrentRequests cfg).
Proof. intros Hr. destruct (reachable_inv _ _ _ _ _ _ Hr). rewrite si_slots0. auto. Qed.

(** C23: For every interleaving of the session's goroutines, the live-stream
    counter is the number of streams in the request map plus the entries that
    a duplicate id overwrote, and it exceeds the configured limit by less than
    the number of concurrent handlers. *)
Theorem stream_accounting clientId tok principal fm cfg s :
  reach sys_step (new_system clientId tok principal fm cfg) s ->
  sc_liveStreams (ses s) = Z.of_nat (size (sc_requestMap (ses s))) + overwritten s /\
  (0 < cfg_maxConcurrentStreams cfg -> 0 < cfg_maxConcurrentRequests cfg ->
   sc_liveStreams (ses s) <= cfg_maxConcurrentStreams cfg - 1 + cfg_maxConcurrentRequests cfg).
Proof.
  intros Hr. destruct (reachable_inv _ _ _ _ _ _ Hr). split; [done|]. intros Hs Hm.
  specialize (si_maxStreams0 Hs Hm).
  assert (0 <= zcount admittedStream (pool s)); [|lia].
  change 0 with (zcount admittedStream []). clear. induction (pool s) as [|g l IH]; [done|].
  rewrite zcount_cons. change (zcount admittedStream []) with 0 in *.
  destruct g; cbn; try lia. pose proof (zb_range (is_unary a)). lia.
Qed.

(** RequestBegin minus RequestEnd is at every moment the number of live streams
    plus the running unary handlers, plus the unary handlers that panicked. *)
Theorem metrics_gauge_balanced clientId tok principal fm cfg s :
  reach sys_step (new_system clientId tok principal fm cfg) s ->
  gauge (hist s) = sc_liveStreams (ses s) + zcount unaryRunning (pool s) + panickedUnary s /\
  (pool s = [] -> gauge (hist s) = Z.of_nat (size (sc_requestMap (ses s))) + overwritten s + panickedUnary s).
Proof.
  intros Hr. destruct (reachable_inv _ _ _ _ _ _ Hr). split; [done|].
  intros Hp. rewrite si_gauge0, Hp, si_streams0. cbn. lia.
Qed.

(** ** Executable schedules

    [act] lets one goroutine take its next step; [run] follows a schedule.  Every
    schedule is a run of the step relation. *)

Inductive action :=
| ARecv (req : VMap)                      (* a frame arrives *)
| AServe (i : nat) (o : outcome Value)    (* goroutine i serves; o if it is in the handler *)
| AStream (i : nat) (c : out_case)        (* goroutine i streams; c if it is at the select *)
| AClose.

Definition act (s : system) (x : action) : system :=
  match x with
  | ARecv req => exec s (pool s) (processRequest d growcap pickDone req) (fun _ => []) [] 0 0
  | AClose => exec s (pool s) (ServingClient_Close d pickDone) (fun _ => []) [] 0 0
  | AServe i o =>
      let p1 := take i (pool s) in let p2 := drop (S i) (pool s) in
      match pool s !! i with
      | Some (GServe ft req) =>
          exec s p1 (serve_admit ft req)
            (fun r => match r with Some a => [GAdmitted ft req (sc_nextCtx (ses s)) a] | None => [] end) p2 0 0
      | Some (GAdmitted ft req c a) =>
          exec s p1 (startHandler d pickDone c a) (fun l => [GHandler ft req c a l]) p2 (overwrites (ses s) a) 0
      | Some (GHandler ft req c a l) =>
          exec s p1 (serve_finish ft req c a l o) (fun _ => []) p2 0
            (match o with Panicked => if is_unary a then 1 else 0 | _ => 0 end)
      | _ => s
      end
  | AStream i c =>
      let p1 := take i (pool s) in let p2 := drop (S i) (pool s) in
      match pool s !! i with
      | Some (GStreamer l SReady) => exec s p1 (streamer_ready d pickDone l) (fun x => [GStreamer l x]) p2 0 0
      | Some (GStreamer l SSelect) => exec s p1 (streamer_select d pickDone l c) (fun x => [GStreamer l x]) p2 0 0
      | Some (GStreamer l (SAcquire v)) =>
          exec s p1 (streamer_acquire d pickDone l v) (fun x => [GStreamer l (default (SAcquire v) x)]) p2 0 0
      | _ => s
      end
  end.

Definition run (s : system) (xs : list action) : system := foldl act s xs.

Lemma act_reach s x : reach sys_step s (act s x).
Proof.
  assert (forall s', sys_step s s' -> reach sys_step s s') as Hone by (intros; by eapply reach_next; [apply reach_here|]).
  destruct x as [req|i o|i c|]; cbn; try (apply Hone; constructor).
  all: destruct (pool s !! i) as [g|] eqn:Ei; [|apply reach_here].
  all: apply take_drop_middle in Ei; symmetry in Ei.
  all: destruct g as [| | |? []]; try apply reach_here; apply Hone; by constructor.
Qed.

Lemma run_reach s xs : reach sys_step s (run s xs).
Proof.
  revert s. induction xs as [|x xs IH]; intros s; cbn; [apply reach_here|].
  eapply reach_trans; [apply act_reach|apply IH].
Qed.

End system.

(** ** Runs *)

Section runs.
#[local] Existing Instance RefValueLib.

Definition demo_growcap (n : nat) : nat := (2 * n + 1)%nat.
Definition demo_pick (t : servingClient) (m : VMap) : bool := true.

Definition ok_handler : reqctx -> option Value -> outcome Value := fun _ _ => Returned None.
Definition demo_functions : gmap string function :=
  {[ "get" := mkFunction "get" Any Void outgoingStream ok_handler;
     "put" := mkFunction "put" Any Void incomingStream ok_handler;
     "call" := mkFunction "call" Any Any singleFunction ok_handler ]}.
Definition demo_cfg : serverConfig := mkServerConfig 2 1 4 None false.
Definition demo_sys0 : system := new_system 7 "" "" demo_functions demo_cfg.
Definition demo_run (xs : list action) : system := run NewDialect demo_growcap demo_pick demo_sys0 xs.
Definition open_frame (mt id : Z) (name : string) : VMap := NewStreamRequest NewDialect mt id name None.

Lemma demo_reach xs : reach (sys_step NewDialect demo_growcap demo_pick) demo_sys0 (demo_run xs).
Proof. apply run_reach. Qed.

(** Two unary calls use both handler slots; the third request is refused. *)
Definition slots_schedule : list action :=
  [ARecv (NewFunctionRequest NewDialect 1 "call" None); ARecv (NewFunctionRequest NewDialect 2 "call" None);
   ARecv (NewFunctionRequest NewDialect 3 "call" None)].

Lemma handler_slots_bounded_witness :
  sc_inFlight (ses (demo_run slots_schedule)) = 2 /\
  sc_inFlight (ses (demo_run slots_schedule)) <= cfg_maxConcurrentRequests demo_cfg.
Proof.
  destruct (handler_slots_bounded NewDialect demo_growcap demo_pick 7 "" "" demo_functions demo_cfg
    (demo_run slots_schedule) (demo_reach _)) as [_ Hb].
  split; [vm_compute; reflexivity|]. apply Hb. vm_compute. reflexivity.
Defined.

(** Two stream requests pass the limit check before either is registered: with a
    limit of 1, two streams are open. *)
Definition race_schedule : list action :=
  [ARecv (open_frame GetStreamRequest 1 "get"); ARecv (open_frame GetStreamRequest 2 "get");
   AServe 0 Panicked; AServe 1 Panicked; AServe 0 Panicked; AServe 1 Panicked].

Lemma stream_accounting_witness :
  let s := demo_run race_schedule in
  sc_liveStreams (ses s) = Z.of_nat (size (sc_requestMap (ses s))) + overwritten s /\ sc_liveStreams (ses s) <= 2.
Proof.
  destruct (stream_accounting NewDialect demo_growcap demo_pick 7 "" "" demo_functions demo_cfg
    (demo_run race_schedule) (demo_reach _)) as [Ha Hb].
  split; [exact Ha|]. apply Hb; vm_compute; reflexivity.
Defined.

Theorem stream_limit_race :
  exists s, reach (sys_step NewDialect demo_growcap demo_pick) demo_sys0 s /\
    cfg_maxConcurrentStreams (sc_cfg (ses s)) = 1 /\ sc_liveStreams (ses s) = 2 /\
    size (sc_requestMap (ses s)) = 2%nat.
Proof. exists (demo_run race_schedule). split; [apply demo_reach|]. split_and!; vm_compute; reflexivity. Qed.

(** The same request id twice: the second registration replaces the first, and
    one slot stays counted after both streamers ended. *)
Definition leak_schedule : list action :=
  [ARecv (open_frame GetStreamRequest 1 "get"); ARecv (open_frame GetStreamRequest 1 "get");
   AServe 0 Panicked; AServe 1 Panicked; AServe 0 Panicked; AServe 1 Panicked;
   AServe 0 (Returned None); AServe 0 (Returned None);
   AStream 0 OutClosed; AStream 0 OutClosed; AStream 1 OutClosed; AStream 1 OutClosed].

Definition streamers_exited (s : system) : bool :=
  forallb (fun g => match g with GStreamer _ SExit => true | _ => false end) (pool s).

Theorem duplicate_stream_id_leaks :
  exists s, reach (sys_step NewDialect demo_growcap demo_pick) demo_sys0 s /\
    streamers_exited s = true /\ sc_requestMap (ses s) = ∅ /\ sc_liveStreams (ses s) = 1 /\
    overwritten s = 1.
Proof. exists (demo_run leak_schedule). split; [apply demo_reach|]. split_and!; vm_compute; reflexivity. Qed.

(** A put-stream that is open when the session closes is never reported as
    ended: no goroutine is left that could. *)
Definition put_close_schedule : list action :=
  [ARecv (open_frame PutStreamRequest 1 "put"); AServe 0 Panicked; AServe 0 Panicked; AServe 0 (Returned None);
   AClose].

Theorem put_stream_end_unreported :
  exists s, reach (sys_step NewDialect demo_growcap demo_pick) demo_sys0 s /\
    pool s = [] /\ sc_done (ses s) = true /\ gauge (hist s) = 1 /\ sc_liveStreams (ses s) = 1.
Proof.
  exists (demo_run put_close_schedule). split; [apply demo_reach|].
  split; [apply length_zero_iff_nil|split_and!]; vm_compute; reflexivity.
Qed.

(** A unary handler that panics: the slot is released, no response is sent and
    the gauge stays up. *)
Definition panic_schedule : list action :=
  [ARecv (NewFunctionRequest NewDialect 1 "call" None); AServe 0 Panicked; AServe 0 Panicked; AServe 0 Panicked].

Definition frames_sent (o : list sc_ev) : nat :=
  length (List.filter (fun e => match e with ESend _ => true | _ => false end) o).

Theorem unary_panic_unanswered :
  exists s, reach (sys_step NewDialect demo_growcap demo_pick) demo_sys0 s /\
    pool s = [] /\ sc_inFlight (ses s) = 0 /\ gauge (hist s) = 1 /\ frames_sent (hist s) = 0%nat.
Proof.
  exists (demo_run panic_schedule). split; [apply demo_reach|].
  split; [apply length_zero_iff_nil|split_and!]; vm_compute; reflexivity.
Qed.

Lemma metrics_gauge_balanced_witness :
  gauge (hist (demo_run panic_schedule)) = 0 + 0 + 1.
Proof.
  rewrite (proj1 (metrics_gauge_balanced NewDialect demo_growcap demo_pick 7 "" "" demo_functions demo_cfg
    (demo_run panic_schedule) (demo_reach _))). vm_compute. reflexivity.
Defined.

End runs.
