(* ===== verification/ServingProps.v ===== *)
(** * What the session does with each frame

    Functional properties of valueserver/serving_client.go, serving_request.go and
    serving_stream.go: graceful end of a client stream, cancellation, the
    responses of unary calls, session teardown, and the reverse calls. *)

From S2P Require Import Prelude Value RefValue Protocol Verify Credit Pump FlowControl Metadata.
From S2P Require Import ClientStream ServingClient ServingSystem.

Section props.
Context `{ValueLib} (d : Dialect) `{!dialect_ok d} (growcap : nat -> nat)
  (pickDone : servingClient -> VMap -> bool).

(** ** Message types of the envelopes *)

Lemma messageType_of t : in_int64 t -> forall m, GetNumberField m (MessageTypeField d) = Some (Long t) ->
  messageType d m = Some t.
Proof. intros Ht m E. unfold messageType. by rewrite E, longOf_Long. Qed.

Lemma error_response_id rid code msg :
  Get (NewFunctionError d rid code msg) (RequestIdField d) = Some rid /\
  messageType d (NewFunctionError d rid code msg) = Some ErrorResponse.
Proof.
  unfold NewFunctionError. split; [by env_simpl|].
  apply messageType_of; [unfold ErrorResponse; auto with vrpc|]. by env_simpl.
Qed.

Lemma result_response_id rid res :
  Get (NewFunctionResult d rid res) (RequestIdField d) = Some rid /\
  messageType d (NewFunctionResult d rid res) = Some FunctionResponse.
Proof.
  unfold NewFunctionResult. destruct res; (split; [by env_simpl|]);
    (apply messageType_of; [unfold FunctionResponse; auto with vrpc|]; by env_simpl).
Qed.

(** A response to request [rid]: a result or an error. *)
Definition is_response (rid : Value) (m : VMap) : Prop :=
  Get m (RequestIdField d) = Some rid /\
  (messageType d m = Some FunctionResponse \/ messageType d m = Some ErrorResponse).

Lemma error_is_response rid code msg : is_response rid (NewFunctionError d rid code msg).
Proof. destruct (error_response_id rid code msg). split; auto. Qed.
Lemma result_is_response rid res : is_response rid (NewFunctionResult d rid res).
Proof. destruct (result_response_id rid res). split; auto. Qed.
Lemma handler_error_is_response rid w err : is_response rid (NewHandlerError d rid w err).
Proof. apply error_is_response. Qed.
#[local] Hint Resolve error_is_response result_is_response handler_error_is_response : vrpc.

(** The request id a request is answered with. *)
Definition reply_id (req : VMap) : Value :=
  match GetNumberField req (RequestIdField d) with Some v => v | None => Long 0 end.

Lemma admit_error ft req t resp :
  m_res (admitRequest d ft req t) = inl resp ->
  is_response (reply_id req) resp /\ m_st (admitRequest d ft req t) = t /\ m_out (admitRequest d ft req t) = [].
Proof.
  unfold admitRequest, reply_id, newRequestContext. unM.
  destruct (GetStringField req (FunctionNameField d)) as [nm|]; cbn; [|intros [= <-]; auto with vrpc].
  destruct (sc_functionMap t !! stringOf nm) as [fn|]; cbn; [|intros [= <-]; auto with vrpc].
  destruct (negb (Verify _ _)); cbn; [intros [= <-]; auto with vrpc|].
  destruct (negb (bool_decide (fn_ft fn = ft))); cbn; [intros [= <-]; auto with vrpc|].
  match goal with |- context [if ?b then _ else _] => destruct b end; cbn; [intros [= <-]; auto with vrpc|done].
Qed.

Lemma admit_success ft req t a :
  m_res (admitRequest d ft req t) = inr a ->
  ad_reqId a = reply_id req /\ fn_ft (ad_fn a) = ft /\ m_out (admitRequest d ft req t) = [] /\
  m_st (admitRequest d ft req t) = upd_sc_nextCtx S t /\ ctx_peer (ad_ctx a) = true /\
  sc_functionMap t !! ad_name a = Some (ad_fn a) /\
  Verify (ad_args a) (fn_args (ad_fn a)) = true.
Proof.
  unfold admitRequest, reply_id, newRequestContext. unM.
  destruct (GetStringField req (FunctionNameField d)) as [nm|]; cbn; [|done].
  destruct (sc_functionMap t !! stringOf nm) as [fn|] eqn:Ef; cbn; [|done].
  destruct (negb (Verify _ _)) eqn:Ev; cbn; [done|].
  destruct (negb (bool_decide (fn_ft fn = ft))) eqn:Eft; cbn; [done|].
  match goal with |- context [if ?b then _ else _] => destruct b end; cbn; [done|].
  intros [= <-]. cbn. bool_to_prop. auto 10.
Qed.

Lemma send_open m t : sc_done t = false -> send_ pickDone m t = (tt, t, [ESend m]).
Proof. intros Hd. unfold send_, send. unM. by rewrite Hd. Qed.

(** Whether the registered handler of a request panics. *)
Definition handler_panics (ft : functionType) (req : VMap) (t : servingClient) : bool :=
  match m_res (admitRequest d ft req t) with
  | inr a => match fn_handler (ad_fn a) (ad_ctx a) (ad_args a) with Panicked => true | _ => false end
  | inl _ => false
  end.

Lemma doServe_unary req t :
  handler_panics singleFunction req t = false ->
  exists resp t', doServeFunctionRequest d pickDone singleFunction req t = (Some (Some resp), t', []) /\
    is_response (reply_id req) resp /\ sc_done t' = sc_done t /\ sc_inFlight t' = sc_inFlight t /\
    (sc_requestCancels t' = sc_requestCancels t \/
     sc_requestCancels t' = delete (longOf (reply_id req)) (sc_requestCancels t)) /\
    sc_requestMap t' = sc_requestMap t /\ sc_liveStreams t' = sc_liveStreams t /\
    (sc_nextCtx t' = S (sc_nextCtx t) -> sc_nextCtx t ∈ sc_cancelled t').
Proof.
  unfold handler_panics, doServeFunctionRequest. intros Hp. rewrite M_gets_bind. cbn [id].
  unfold mbind, M_bind. destruct (admitRequest d singleFunction req t) as [[r t1] o1] eqn:Ea.
  cbn in Hp. destruct r as [resp|a].
  - destruct (admit_error singleFunction req t resp) as (Hr & Ht & Ho); [by rewrite Ea|].
    rewrite Ea in Ht, Ho. cbn in Ht, Ho. subst. exists resp, t. cbn. split_and!; auto. intros; lia.
  - destruct (admit_success singleFunction req t a) as (Hid & Hft & Ho & Ht & _); [by rewrite Ea|].
    rewrite Ea in Ht, Ho. cbn in Ht, Ho. subst o1 t1.
    unfold startHandler, finishHandler. rewrite Hft. unM.
    assert (forall resp, is_response (reply_id req) resp -> let t' :=
      upd_sc_requestCancels (delete (longOf (ad_reqId a)))
        (upd_sc_cancelled (fun s => {[sc_nextCtx t]} ∪ s)
          (upd_sc_requestCancels (insert (longOf (ad_reqId a)) (sc_nextCtx t)) (upd_sc_nextCtx S t))) in
      is_response (reply_id req) resp /\ sc_done t' = sc_done t /\ sc_inFlight t' = sc_inFlight t /\
      (sc_requestCancels t' = sc_requestCancels t \/
       sc_requestCancels t' = delete (longOf (reply_id req)) (sc_requestCancels t)) /\
      sc_requestMap t' = sc_requestMap t /\ sc_liveStreams t' = sc_liveStreams t /\
      (sc_nextCtx t' = S (sc_nextCtx t) -> sc_nextCtx t ∈ sc_cancelled t')) as Hfin.
    { intros resp Hr t'. subst t'. cbn. rewrite Hid, delete_insert_eq. split_and!; auto. set_solver. }
    destruct (fn_handler (ad_fn a) (ad_ctx a) (ad_args a)) as [res|err|]; [| |done].
    + destruct (negb (Verify res (fn_res (ad_fn a)))); cbn; eexists _, _; (split; [reflexivity|]);
        apply Hfin; rewrite Hid; auto with vrpc.
    + cbn. eexists _, _. split; [reflexivity|]. apply Hfin. rewrite Hid. auto with vrpc.
Qed.

(** C15: A unary request whose handler does not panic produces exactly one
    response frame carrying the request's id (result or error), one
    RequestBegin and one RequestEnd with the response's code, in that order;
    its handler slot and its cancel function are released and its context is
    cancelled. *)
Theorem unary_answered_once req t :
  sc_done t = false -> handler_panics singleFunction req t = false ->
  exists resp, is_response (reply_id req) resp /\
    m_out (serveFunctionRequest d pickDone singleFunction req t) =
      [ERequestBegin (functionName d req); ERequestEnd (functionName d req) (responseCode d (Some resp)); ESend resp] /\
    let t' := m_st (serveFunctionRequest d pickDone singleFunction req t) in
    sc_inFlight t' = sc_inFlight t - 1 /\ sc_requestMap t' = sc_requestMap t /\
    (sc_requestCancels t' = sc_requestCancels t \/
     sc_requestCancels t' = delete (longOf (reply_id req)) (sc_requestCancels t)) /\
    (sc_nextCtx t' = S (sc_nextCtx t) -> sc_nextCtx t ∈ sc_cancelled t').
Proof.
  intros Hd Hp. destruct (doServe_unary req t Hp) as (resp & t' & E & Hr & Hd' & Hin & Hc & Hm & _ & Hx).
  exists resp. split; [done|]. unfold serveFunctionRequest, serveBegin, serveEnd.
  rewrite bool_decide_true by done. unfold mbind, M_bind, when, emit, m_out, m_st, modify. cbn.
  rewrite E. cbn. rewrite send_open by congruence. cbn. rewrite Hin. auto.
Qed.

(** ** Graceful end of a client stream *)

Lemma lookup_upd_request l f t : sc_requests (m_st (upd_request l f t)) !! l = f <$> sc_requests t !! l.
Proof. unM. by rewrite lookup_alter, decide_True. Qed.

Lemma deleteRequest_frame v t :
  let t' := m_st (deleteRequest v t) in
  sc_requests t' = sc_requests t /\ sc_cancelled t' = sc_cancelled t /\
  sc_requestMap t' = delete (longOf v) (sc_requestMap t).
Proof.
  unfold deleteRequest. rewrite M_gets_bind. cbn [id].
  destruct (sc_requestMap t !! longOf v) as [l|] eqn:E.
  - rewrite !M_modify_bind. destruct (sc_requests t !! l); done.
  - cbn. by rewrite delete_id.
Qed.

Lemma cancelCtx_frame r t :
  let t' := m_st (cancelCtx r t) in
  sc_requests t' = sc_requests t /\ sc_requestMap t' = sc_requestMap t /\
  (forall c, sr_cancel r = Some c -> c ∈ sc_cancelled t').
Proof. unfold cancelCtx, cancelContext. destruct (sr_cancel r); cbn; split_and!; try done. set_solver. Qed.

(** The pump [p'], once the sender has ended the stream, delivers everything
    [p] had accepted, in order, and then closes its channel exactly once. *)
Definition delivers_then_ends (p p' : StreamPump (option Value)) : Prop :=
  let q := run_n None (2 * length (live p) + 1) p' in
  pc q = Finished /\ outSent q = outSent p ++ live p /\ outCloses q = 1%nat.

(** A StreamEnd for an inbound stream without a final value lets the consumer
    read every value accepted so far, and then ends the stream. *)
Theorem stream_end_is_graceful l r p req t :
  sc_requests t !! l = Some r -> sr_inPump r = Some p -> sr_inClosed r = false ->
  pump_wf None p -> stopped p = false -> pc p = AtLock ->
  Get req (ValueField d) = Some Null ->
  let x := serveRunningRequest d growcap pickDone l StreamEnd req t in
  m_res x = None /\
  exists r' p', sc_requests (m_st x) !! l = Some r' /\ sr_inPump r' = Some p' /\
    delivers_then_ends p p' /\
    sr_closed r' = sr_closed r /\ sr_sendCredit r' = sr_sendCredit r /\
    (sr_ft r = chat -> sc_requestMap (m_st x) = sc_requestMap t /\ sc_cancelled (m_st x) = sc_cancelled t) /\
    (sr_ft r <> chat -> sc_requestMap (m_st x) = delete (longOf (sr_requestId r)) (sc_requestMap t) /\
       (forall c, sr_cancel r = Some c -> c ∈ sc_cancelled (m_st x))).
Proof.
  intros Hr Hp Hic Hwf Hs Hpc Hv x. subst x. unfold serveRunningRequest, get_request. rewrite M_gets_bind, Hr.
  change (StreamEnd =? CancelRequest) with false. change (StreamEnd =? StreamValue) with false.
  change (StreamEnd =? StreamEnd) with true. cbn match.
  unfold incomingStreamEnd. rewrite Hp, Hv, isNull_Null, M_left_id.
  assert (sc_requests (m_st (upd_request l closeInboundChan t)) !! l = Some (closeInboundChan r)) as Hl.
  { rewrite lookup_upd_request, Hr. done. }
  assert (sr_inPump (closeInboundChan r) = Some (Close p) /\ sr_closed (closeInboundChan r) = sr_closed r /\
          sr_sendCredit (closeInboundChan r) = sr_sendCredit r) as (Hp' & Hc' & Hg').
  { unfold closeInboundChan. rewrite Hic. cbn. by rewrite Hp. }
  assert (delivers_then_ends p (Close p)) as Hdrain.
  { apply (run_n_drains None (length (live p)) (Close p)); auto using Close_wf. }
  unfold upd_request in *. rewrite M_modify_bind.
  destruct (decide (sr_ft r = chat)) as [Ec|Ec].
  - cbn. cbn in Hl. split; [done|]. exists (closeInboundChan r), (Close p). split_and!; try done; apply Hdrain.
  - unfold mbind, M_bind. cbn in Hl.
    set (t1 := upd_sc_requests (alter closeInboundChan l) t) in *.
    destruct (deleteRequest_frame (sr_requestId r) t1) as (E1 & E2 & E3). unfold m_st in *.
    destruct (deleteRequest (sr_requestId r) t1) as [[u2 t2] o2]. cbn in *.
    destruct (cancelCtx_frame r t2) as (F1 & F2 & F3). unfold m_st in *.
    destruct (cancelCtx r t2) as [[u3 t3] o3]. cbn in *.
    split; [done|]. exists (closeInboundChan r), (Close p). rewrite F1, E1. split_and!; try done; try apply Hdrain.
    intros _. by rewrite F2, E3.
Qed.

(** ** Cancellation of a stream *)

Lemma ServingRequest_Close_effect l r t :
  sc_requests t !! l = Some r -> sr_closed r = false ->
  let t' := m_st (ServingRequest_Close l t) in
  (exists r', sc_requests t' !! l = Some r' /\ sr_closed r' = true /\ sr_inClosed r' = true /\
     sr_doneCloses r' = S (sr_doneCloses r) /\ sr_requestId r' = sr_requestId r /\
     sr_sendCredit r' = CloseGate <$> sr_sendCredit r /\ sr_inPump r' = Stop <$> sr_inPump r) /\
  (forall l', l' <> l -> sc_requests t' !! l' = sc_requests t !! l') /\
  (forall c, sr_cancel r = Some c -> c ∈ sc_cancelled t') /\ sc_cancelled t ⊆ sc_cancelled t' /\
  sc_requestMap t' = sc_requestMap t /\ m_out (ServingRequest_Close l t) = [].
Proof.
  intros Hr Hc. unfold ServingRequest_Close, get_request. rewrite M_gets_bind, Hr, Hc.
  unfold upd_request, cancelCtx, cancelContext. rewrite M_modify_bind.
  destruct (sr_cancel r) as [c|]; rewrite ?M_modify_bind; unM.
  all: rewrite ?M_left_id; cbn; rewrite !lookup_alter, !decide_True by done; rewrite Hr; cbn.
  all: split_and!; try done; try set_solver.
  all: try (eexists; split_and!; done).
  all: intros l' Hne; by rewrite !lookup_alter, !decide_False by done.
Qed.

Lemma deleteRequest_effect v l r t :
  sc_requestMap t !! longOf v = Some l -> sc_requests t !! l = Some r ->
  deleteRequest v t =
  (tt, upd_sc_liveStreams (fun n => n - 1) (upd_sc_requestMap (delete (longOf v)) t),
   [ERequestEnd (sr_method r) (sr_code r)]).
Proof.
  intros Hm Hr. unfold deleteRequest. rewrite M_gets_bind. cbn [id]. rewrite Hm, !M_modify_bind.
  cbn [sc_requests upd_sc_liveStreams upd_sc_requestMap]. by rewrite Hr.
Qed.

Lemma ServingRequest_Close_live l t : sc_liveStreams (m_st (ServingRequest_Close l t)) = sc_liveStreams t.
Proof.
  unfold ServingRequest_Close, get_request. rewrite M_gets_bind.
  destruct (sc_requests t !! l) as [r|]; [|done]. destruct (sr_closed r); [done|].
  unfold upd_request, cancelCtx, cancelContext. rewrite M_modify_bind.
  destruct (sr_cancel r); rewrite ?M_modify_bind, ?M_left_id, ?M_modify_bind; done.
Qed.

(** Everything that waits on the request has been released. *)
Definition released (r : servingRequest) : Prop :=
  sr_closed r = true /\ (forall g, sr_sendCredit r = Some g -> Acquire g = Some (false, g)) /\
  (forall p, sr_inPump r = Some p -> stopped p = true).

(** Tearing a registered stream down, with its terminal code. *)
Lemma closeRequest_effect l r t :
  sc_requestMap t !! longOf (sr_requestId r) = Some l -> sc_requests t !! l = Some r -> sr_closed r = false ->
  let x := closeRequest l r t in
  m_out x = [ERequestEnd (sr_method r) (sr_code r)] /\
  sc_requestMap (m_st x) = delete (longOf (sr_requestId r)) (sc_requestMap t) /\
  sc_liveStreams (m_st x) = sc_liveStreams t - 1 /\
  (forall c, sr_cancel r = Some c -> c ∈ sc_cancelled (m_st x)) /\
  exists r', sc_requests (m_st x) !! l = Some r' /\ released r'.
Proof.
  intros Hm Hr Hc x. subst x. unfold closeRequest, mbind, M_bind.
  rewrite (deleteRequest_effect _ l r) by done.
  set (t1 := upd_sc_liveStreams _ _).
  destruct (ServingRequest_Close_effect l r t1) as ((r' & Hr' & Hc' & _ & _ & _ & Hg & Hp) & _ & Hcx & _ & Hmap & Ho); [done|done|].
  pose proof (ServingRequest_Close_live l t1) as Hlive. unfold m_st, m_out in *.
  destruct (ServingRequest_Close l t1) as [[u t2] o]. cbn in *. subst o. rewrite Hmap, Hlive.
  split_and!; try done. exists r'. split; [done|]. unfold released. split_and!; try done.
  - intros g. rewrite Hg. destruct (sr_sendCredit r); cbn; [|done]. intros [= <-].
    unfold Acquire. cbn. by rewrite andb_false_r.
  - intros p. rewrite Hp. destruct (sr_inPump r); cbn; [|done]. by intros [= <-].
Qed.

(** C34: A CancelRequest frame for a live stream removes it, reports its end
    once with code Canceled (or the code already recorded), cancels the
    handler's context, closes the credit gate and stops the inbound pump. *)
Theorem cancel_tears_stream_down rid l r t :
  in_int64 rid -> sc_pendingStreams t !! rid = None ->
  sc_requestMap t !! rid = Some l -> sc_requests t !! l = Some r -> longOf (sr_requestId r) = rid ->
  sr_closed r = false ->
  let x := processRequest d growcap pickDone (NewSystemRequest d rid CancelRequest) t in
  m_res x = Handled None /\
  m_out x = [ERequestEnd (sr_method r) (if sr_code r =? CodeOK then CodeCanceled else sr_code r)] /\
  sc_requestMap (m_st x) = delete rid (sc_requestMap t) /\
  sc_liveStreams (m_st x) = sc_liveStreams t - 1 /\
  (forall c, sr_cancel r = Some c -> c ∈ sc_cancelled (m_st x)) /\
  exists r', sc_requests (m_st x) !! l = Some r' /\ released r'.
Proof.
  intros Hid Hps Hm Hr Hrid Hc x. subst x. unfold processRequest. rewrite M_gets_bind. cbn [id].
  unfold NewSystemRequest, MessageType_Long. env_simpl.
  rewrite !longOf_Long by (unfold CancelRequest; auto with vrpc).
  unfold findPendingStream. rewrite M_gets_bind, longOf_Long, Hps by done.
  change ((CancelRequest =? FunctionResponse) || (CancelRequest =? ErrorResponse)) with false. cbn match.
  rewrite Hm, M_bind_ret. unfold serveRunningRequest, get_request. rewrite M_gets_bind, Hr.
  change (CancelRequest =? CancelRequest) with true. cbn match.
  unfold upd_request. rewrite M_modify_bind, M_bind_ret. cbn [m_res m_st m_out fst snd].
  set (t1 := upd_sc_requests (alter (setCode CodeCanceled) l) t).
  assert (sc_requests t1 !! l = Some (setCode CodeCanceled r)) as Hr1.
  { subst t1. cbn. by rewrite lookup_alter, decide_True, Hr by done. }
  assert (closeRequest l r = closeRequest l (setCode CodeCanceled r)) as -> by (unfold closeRequest; by rewrite setCode_id).
  destruct (closeRequest_effect l (setCode CodeCanceled r) t1) as (E1 & E2 & E3 & E4 & E5).
  - by rewrite setCode_id, Hrid.
  - done.
  - unfold setCode. by destruct (sr_code r =? CodeOK).
  - rewrite setCode_id, Hrid in E2. unfold m_out, m_st in *.
    assert (sr_method (setCode CodeCanceled r) = sr_method r /\ sr_cancel (setCode CodeCanceled r) = sr_cancel r /\
            sr_code (setCode CodeCanceled r) = if sr_code r =? CodeOK then CodeCanceled else sr_code r) as (F1 & F2 & F3).
    { unfold setCode. by destruct (sr_code r =? CodeOK). }
    rewrite F1, F3 in E1. rewrite F2 in E4. split_and!; done.
Qed.

(** ** Closing the session *)

Definition object_ok (r : servingRequest) : Prop :=
  sr_closed r = true ->
  (forall g, sr_sendCredit r = Some g -> closed g = true) /\ (forall p, sr_inPump r = Some p -> stopped p = true).

Lemma Close_releases l r t :
  sc_requests t !! l = Some r -> object_ok r ->
  let t' := m_st (ServingRequest_Close l t) in
  (exists r', sc_requests t' !! l = Some r' /\ released r' /\ object_ok r') /\
  (forall l', l' <> l -> sc_requests t' !! l' = sc_requests t !! l').
Proof.
  intros Hr Hok. destruct (sr_closed r) eqn:Hc.
  - unfold ServingRequest_Close, get_request. rewrite M_gets_bind, Hr, Hc. cbn. split; [|done].
    exists r. destruct (Hok Hc) as [Hg Hp]. split_and!; try done. split_and!; try done.
    intros g Eg. unfold Acquire. by rewrite (Hg g Eg), andb_false_r.
  - destruct (ServingRequest_Close_effect l r t Hr Hc) as ((r' & Hr' & Hc' & _ & _ & _ & Hg & Hp) & Ho & _).
    split; [|done]. exists r'. split; [done|].
    assert (forall g, sr_sendCredit r' = Some g -> closed g = true) as Hg'.
    { intros g. rewrite Hg. destruct (sr_sendCredit r); cbn; [|done]. by intros [= <-]. }
    assert (forall p, sr_inPump r' = Some p -> stopped p = true) as Hp'.
    { intros p. rewrite Hp. destruct (sr_inPump r); cbn; [|done]. by intros [= <-]. }
    split; [|done]. split_and!; try done.
    intros g Eg. unfold Acquire. by rewrite (Hg' g Eg), andb_false_r.
Qed.

Lemma close_all_releases (ls : list (Z * nat)) t :
  (forall l r, sc_requests t !! l = Some r -> object_ok r) ->
  let t' := m_st (seqM (map (fun kl : Z * nat => ServingRequest_Close kl.2) ls) t) in
  (forall k l r, (k, l) ∈ ls -> sc_requests t !! l = Some r ->
     exists r', sc_requests t' !! l = Some r' /\ released r') /\
  (forall l r, sc_requests t !! l = Some r -> released r -> exists r', sc_requests t' !! l = Some r' /\ released r').
Proof.
  revert t. induction ls as [|[k0 l0] ls IH]; intros t Hok; cbn.
  { split; [|by eauto]. intros k l r Hin. by apply not_elem_of_nil in Hin. }
  unfold mbind, M_bind. destruct (ServingRequest_Close l0 t) as [[u t1] o1] eqn:E1.
  assert ((forall l r, sc_requests t1 !! l = Some r -> object_ok r) /\
          (forall r, sc_requests t !! l0 = Some r -> exists r', sc_requests t1 !! l0 = Some r' /\ released r') /\
          (forall l, l <> l0 -> sc_requests t1 !! l = sc_requests t !! l)) as (Hok1 & Hrel & Hoth).
  { destruct (sc_requests t !! l0) as [r0|] eqn:E0.
    - destruct (Close_releases l0 r0 t E0 (Hok _ _ E0)) as ((r' & Hr' & Hrel & Hok') & Hoth).
      unfold m_st in *. rewrite E1 in *. cbn in *. split_and!; [|by eauto|done].
      intros l r Hl. destruct (decide (l = l0)) as [->|Hne].
      { rewrite Hr' in Hl. by injection Hl as <-. }
      rewrite Hoth in Hl by done. eauto.
    - unfold ServingRequest_Close, get_request in E1. rewrite M_gets_bind, E0 in E1.
      injection E1 as <- <- <-. split_and!; try done. }
  specialize (IH t1 Hok1). unfold m_st in *.
  destruct (seqM (map (fun kl : Z * nat => ServingRequest_Close kl.2) ls) t1) as [[u2 t2] o2]. cbn in *.
  destruct IH as [IHa IHb].
  assert (forall l r, sc_requests t !! l = Some r -> released r -> exists r', sc_requests t1 !! l = Some r' /\ released r') as Hkeep.
  { intros l r Hl Hr. destruct (decide (l = l0)) as [->|Hne]; [eauto|]. rewrite Hoth by done. eauto. }
  split.
  - intros k l r Hin Hl. apply elem_of_cons in Hin as [[= -> ->]|Hin].
    + destruct (Hrel r Hl) as (r' & Hr' & Hx). eauto.
    + destruct (decide (l = l0)) as [->|Hne].
      * destruct (Hrel r Hl) as (r' & Hr' & Hx). eauto.
      * eapply IHa; [done|]. by rewrite Hoth.
  - intros l r Hl Hr. destruct (Hkeep l r Hl Hr) as (r' & Hr' & Hx). eauto.
Qed.

(** The flags a closed session has, which nothing resets. *)
Definition is_closed (t : servingClient) (o : list sc_ev) : Prop :=
  sc_done t = true /\ sc_closeOnce t = true /\ sc_ctxCancelled t = true.

Lemma closed_request_close l : keeps is_closed (ServingRequest_Close l).
Proof.
  unfold ServingRequest_Close, get_request, upd_request, cancelCtx, cancelContext.
  keeps_split; by apply keeps_modify.
Qed.

Lemma on_stream_keeps (R : gmap nat servingRequest) l :
  keeps (fun t o => is_closed t o /\ sc_requests t = R) (on_stream d pickDone l ClientStream_Close ≫= fun _ => mret tt).
Proof.
  unfold on_stream, send_, send. keeps_split; [by apply keeps_modify|].
  apply keeps_seqM, Forall_map, Forall_true. intros. keeps_split. by apply keeps_emit.
Qed.

(** Closing a session closes its done channel, cancels its context and
    releases every registered request (gates closed, pumps stopped, contexts
    cancelled); a second Close does nothing. *)
Theorem session_close_releases_all t :
  sc_closeOnce t = false ->
  (forall l r, sc_requests t !! l = Some r -> object_ok r) ->
  let t' := m_st (ServingClient_Close d pickDone t) in
  sc_done t' = true /\ sc_ctxCancelled t' = true /\
  (forall k l r, sc_requestMap t !! k = Some l -> sc_requests t !! l = Some r ->
     exists r', sc_requests t' !! l = Some r' /\ released r') /\
  ServingClient_Close d pickDone t' = (tt, t', []).
Proof.
  intros Hc Hok t'. subst t'.
  set (t1 := upd_sc_done (fun _ => true) (upd_sc_ctxCancelled (fun _ => true) (upd_sc_closeOnce (fun _ => true) t))).
  pose proof (close_all_releases (map_to_list (sc_requestMap t)) t1 Hok) as [Hrel _].
  assert (is_closed t1 []) as Hcl1 by done.
  pose proof (keeps_run is_closed (seqM (map (fun kl : Z * nat => ServingRequest_Close kl.2) (map_to_list (sc_requestMap t)))) t1
    ltac:(apply keeps_seqM, Forall_map, Forall_true; intros; apply closed_request_close) Hcl1) as Hcl2.
  assert (exists t3, m_st (ServingClient_Close d pickDone t) = t3 /\ is_closed t3 [] /\
    sc_requests t3 = sc_requests (m_st (seqM (map (fun kl : Z * nat => ServingRequest_Close kl.2) (map_to_list (sc_requestMap t))) t1)))
    as (t3 & -> & (H1 & H2 & H3) & Hreq).
  { unfold ServingClient_Close. rewrite M_gets_bind. cbn [id]. rewrite Hc, !M_modify_bind. fold t1.
    rewrite !M_bind_st. cbn [emit m_st fst snd].
    set (t2 := m_st (seqM (map (fun kl : Z * nat => ServingRequest_Close kl.2) (map_to_list (sc_requestMap t))) t1)) in *.
    pose proof (keeps_run (fun t o => is_closed t o /\ sc_requests t = sc_requests t2)
      (seqM (map (fun kl : Z * nat => on_stream d pickDone kl.2 ClientStream_Close ≫= fun _ => mret tt) (map_to_list (sc_pendingStreams t)))) t2
      ltac:(apply keeps_seqM, Forall_map, Forall_true; intros; apply on_stream_keeps) ltac:(split; done)) as [Hc3 Hr3].
    eexists. split; [reflexivity|]. split; [exact Hc3|exact Hr3]. }
  split_and!; [done|done| |].
  - intros k l r Hk Hl. rewrite Hreq. eapply Hrel; [by apply elem_of_map_to_list|done].
  - unfold ServingClient_Close. rewrite M_gets_bind. cbn [id]. by rewrite H2.
Qed.

(** ** Reverse calls *)

(** The i-th server-initiated id. *)
Fixpoint draw (n : nat) (t : servingClient) : list Z * servingClient :=
  match n with
  | O => ([], t)
  | S n' =>
      let t' := m_st (nextServerRequestId t) in
      let '(ids, t'') := draw n' t' in (m_res (nextServerRequestId t) :: ids, t'')
  end.

Lemma draw_ids n t :
  0 <= sc_lastServerRequest t -> sc_lastServerRequest t + Z.of_nat n < two63 ->
  (draw n t).1 = map (fun i => - (sc_lastServerRequest t + Z.of_nat i)) (seq 1 n).
Proof.
  revert t. induction n as [|n IH]; intros t H0 Hb; [done|]. cbn [draw].
  set (t' := m_st (nextServerRequestId t)).
  assert (sc_lastServerRequest t' = sc_lastServerRequest t + 1) as E.
  { subst t'. unfold nextServerRequestId. unM. apply wrap64_id. unfold in_int64, two63 in *. lia. }
  specialize (IH t'). rewrite E in IH. destruct (draw n t') as [ids t'']. cbn in *.
  rewrite IH by lia. f_equal.
  - unfold nextServerRequestId. unM. rewrite !wrap64_id; unfold in_int64, two63 in *; try lia.
    all: rewrite ?wrap64_id; unfold in_int64, two63 in *; lia.
  - rewrite <- (seq_shift n 1), map_map. apply map_ext. intros i. lia.
Qed.

Theorem server_ids_negative_distinct n t :
  sc_lastServerRequest t = 0 -> Z.of_nat n < two63 ->
  let ids := (draw n t).1 in
  length ids = n /\ NoDup ids /\ Forall (fun i => i < 0) ids.
Proof.
  intros H0 Hn ids. subst ids. rewrite draw_ids, H0 by lia. split_and!.
  - by rewrite length_map, length_seq.
  - apply NoDup_fmap_2; [intros i j ?; lia|apply NoDup_ListNoDup, List.seq_NoDup].
  - apply Forall_map, Forall_forall. intros i Hi. apply elem_of_seq in Hi. lia.
Qed.

(** Replies to one id, as the read loop processes them. *)
Definition replies (rid : Value) (rs : list (Z * VMap)) : list (M servingClient sc_ev unit) :=
  map (fun r => completePendingCall d rid r.1 r.2) rs.

Definition decodeReply (r : Z * VMap) : callResult :=
  if r.1 =? ErrorResponse then mkCallResult None (Some (decodeError d r.2))
  else mkCallResult (fieldOrNil r.2 (ResultField d)) None.

Lemma complete_none rid mt resp t :
  sc_pendingCalls t !! longOf rid = None -> completePendingCall d rid mt resp t = (tt, t, []).
Proof. intros Hn. unfold completePendingCall. rewrite M_gets_bind. cbn [id]. by rewrite Hn. Qed.

Lemma complete_some rid mt resp t c :
  sc_pendingCalls t !! longOf rid = Some c ->
  completePendingCall d rid mt resp t =
  (tt, upd_sc_callChans (alter (fun b => b ++ [decodeReply (mt, resp)]) c)
         (upd_sc_pendingCalls (delete (longOf rid)) t), []).
Proof.
  intros Hp. unfold completePendingCall. rewrite M_gets_bind. cbn [id]. by rewrite Hp, M_modify_bind.
Qed.

Lemma late_replies_ignored rid rs t :
  sc_pendingCalls t !! longOf rid = None -> seqM (replies rid rs) t = (tt, t, []).
Proof.
  intros Hn. unfold replies. induction rs as [|r rs IH]; [done|]. cbn [map seqM]. unfold mbind, M_bind.
  by rewrite complete_none, IH.
Qed.

(** Of any sequence of replies to a server-initiated call, the first is
    delivered to the caller and the rest are ignored. *)
Theorem reverse_call_first_reply_wins rid c t r rs :
  sc_pendingCalls t !! longOf rid = Some c -> sc_callChans t !! c = Some [] ->
  let t' := m_st (seqM (replies rid (r :: rs)) t) in
  sc_callChans t' !! c = Some [decodeReply r] /\ sc_pendingCalls t' !! longOf rid = None.
Proof.
  intros Hp Hc. cbn [replies map seqM]. fold (replies rid rs). unfold mbind, M_bind.
  rewrite (complete_some _ _ _ _ c) by done.
  rewrite late_replies_ignored by (cbn; by rewrite lookup_delete, decide_True).
  unfold m_st. cbn. rewrite lookup_alter, decide_True, Hc by done.
  rewrite lookup_delete, decide_True by done. by destruct r.
Qed.

End props.

Section props_witness.
#[local] Existing Instance RefValueLib.

Lemma unary_answered_once_witness :
  exists resp, is_response NewDialect (Long 9) resp /\
    sc_inFlight (m_st (serveFunctionRequest NewDialect demo_pick singleFunction
      (NewFunctionRequest NewDialect 9 "call" None) (ses demo_sys0))) = -1.
Proof.
  destruct (unary_answered_once NewDialect demo_pick (NewFunctionRequest NewDialect 9 "call" None) (ses demo_sys0))
    as (resp & Hr & _ & Hn & _).
  - reflexivity.
  - vm_compute. reflexivity.
  - exists resp. split; [exact Hr|exact Hn].
Defined.

(** A session with one open put-stream that has a value queued. *)
Definition demo_pump : StreamPump (option Value) :=
  (Push None demo_growcap (Some (Long 5)) (NewStreamPump 4)).2.
Definition demo_put (ft : functionType) : servingRequest :=
  mkSR ft (Long 1) (Some demo_pump) None (Some 0%nat) 4 0 "put" CodeOK false false 0.
Definition demo_session (ft : functionType) : servingClient :=
  upd_sc_liveStreams (fun _ => 1)
    (upd_sc_requestMap (insert 1 0%nat) (upd_sc_requests (insert 0%nat (demo_put ft)) (ses demo_sys0))).

Lemma stream_end_is_graceful_witness :
  exists r' p',
    sc_requests (m_st (serveRunningRequest NewDialect demo_growcap demo_pick 0 StreamEnd
      (NewStreamEnd NewDialect (Long 1) None) (demo_session incomingStream))) !! 0%nat = Some r' /\
    sr_inPump r' = Some p' /\ outSent (run_n None 3 p') = [Some (Long 5)].
Proof.
  destruct (stream_end_is_graceful NewDialect demo_growcap demo_pick 0 (demo_put incomingStream) demo_pump
    (NewStreamEnd NewDialect (Long 1) None) (demo_session incomingStream))
    as (_ & r' & p' & Hr & Hp & (_ & Ho & _) & _).
  - reflexivity.
  - reflexivity.
  - reflexivity.
  - apply (Push_wf None demo_growcap ltac:(intros n; unfold demo_growcap; lia) (Some (Long 5)) (NewStreamPump 4) true);
      [apply NewStreamPump_wf|reflexivity].
  - reflexivity.
  - reflexivity.
  - reflexivity.
  - exists r', p'. split; [exact Hr|]. split; [exact Hp|exact Ho].
Defined.

Lemma cancel_tears_stream_down_witness :
  m_out (processRequest NewDialect demo_growcap demo_pick (NewSystemRequest NewDialect 1 CancelRequest)
    (demo_session chat)) = [ERequestEnd "put" CodeCanceled].
Proof.
  apply (cancel_tears_stream_down NewDialect demo_growcap demo_pick 1 0 (demo_put chat) (demo_session chat)).
  - unfold in_int64, two63. lia.
  - reflexivity.
  - reflexivity.
  - reflexivity.
  - reflexivity.
  - reflexivity.
Defined.

Lemma session_close_releases_all_witness :
  exists r', sc_requests (m_st (ServingClient_Close NewDialect demo_pick (demo_session chat))) !! 0%nat = Some r' /\
    released r'.
Proof.
  destruct (session_close_releases_all NewDialect demo_growcap demo_pick (demo_session chat)) as (_ & _ & Hrel & _).
  - reflexivity.
  - intros l r Hl. cbn in Hl. apply lookup_insert_Some in Hl as [[<- <-]|[_ Hl]].
    + intros Hc. discriminate Hc.
    + apply lookup_empty_Some in Hl as [].
  - apply (Hrel 1 0%nat (demo_put chat)); reflexivity.
Defined.

Lemma server_ids_negative_distinct_witness :
  NoDup (draw 3 (ses demo_sys0)).1 /\ Forall (fun i => i < 0) (draw 3 (ses demo_sys0)).1.
Proof.
  apply (server_ids_negative_distinct 3 (ses demo_sys0)).
  - reflexivity.
  - unfold two63. lia.
Defined.

(** A reverse call in flight. *)
Definition demo_calling : servingClient :=
  upd_sc_callChans (insert 4%nat []) (upd_sc_pendingCalls (insert (-1) 4%nat) (ses demo_sys0)).

Lemma reverse_call_first_reply_wins_witness :
  sc_callChans (m_st (seqM (replies NewDialect (Long (-1))
    [(FunctionResponse, NewFunctionResult NewDialect (Long (-1)) (Some (Long 7)));
     (ErrorResponse, NewFunctionError NewDialect (Long (-1)) CodeInternal "late")]) demo_calling)) !! 4%nat =
  Some [mkCallResult (Some (Long 7)) None].
Proof.
  destruct (reverse_call_first_reply_wins NewDialect (Long (-1)) 4 demo_calling
    (FunctionResponse, NewFunctionResult NewDialect (Long (-1)) (Some (Long 7)))
    [(ErrorResponse, NewFunctionError NewDialect (Long (-1)) CodeInternal "late")]) as [Hc _].
  - reflexivity.
  - reflexivity.
  - exact Hc.
Defined.
End props_witness.
