(* ===== verification/SessionWork.v ===== *)
(** * What the goroutines of a session run

    Every piece of session code that some goroutine runs (ServingSystem.v), as one
    type, and what none of it changes: whose session it is, the token the next
    resumption is checked against, and the functions the session sees. *)

From S2P Require Import Prelude Value RefValue Protocol Verify HashChain Credit Pump FlowControl Metadata.
From S2P Require Import ClientStream ServingClient ServingSystem.

Section work.
Context `{ValueLib} (d : Dialect) (growcap : nat -> nat) (pickDone : servingClient -> VMap -> bool).
Abbreviation SC := (M servingClient sc_ev).

(** The operations of its goroutines. *)
Inductive session_work :=
| WFrame (req : VMap)
| WAdmit (ft : functionType) (req : VMap)
| WStart (cancel : nat) (a : admitted)
| WFinish (ft : functionType) (req : VMap) (cancel : nat) (a : admitted) (l : nat) (o : outcome Value)
| WReady (l : nat)
| WSelect (l : nat) (c : out_case)
| WAcquire (l : nat) (v : option Value)
| WPump (l : nat) (f : StreamPump (option Value) -> option (StreamPump (option Value))) (delivered : bool)
| WReverse (op : reverse_op).

Definition run_work (w : session_work) : SC unit :=
  match w with
  | WFrame req => processRequest d growcap pickDone req ≫= fun _ => mret tt
  | WAdmit ft req => serve_admit d pickDone ft req ≫= fun _ => mret tt
  | WStart c a => startHandler d pickDone c a ≫= fun _ => mret tt
  | WFinish ft req c a l o => serve_finish d pickDone ft req c a l o
  | WReady l => streamer_ready d pickDone l ≫= fun _ => mret tt
  | WSelect l c => streamer_select d pickDone l c ≫= fun _ => mret tt
  | WAcquire l v => streamer_acquire d pickDone l v ≫= fun _ => mret tt
  | WPump l f b => pump_request d pickDone l f b
  | WReverse op => run_reverse d pickDone op
  end.

(** ** The identity of the session *)

Definition same_identity (s0 : servingClient) (s : servingClient) (o : list sc_ev) : Prop :=
  sc_clientId s = sc_clientId s0 /\ sc_principal s = sc_principal s0 /\
  sc_resumeToken s = sc_resumeToken s0 /\ sc_functionMap s = sc_functionMap s0.

Ltac identity_step := first [ by apply keeps_modify | by apply keeps_emit | apply keeps_ret | apply keeps_gets ].

Lemma identity_cancel s0 r : keeps (same_identity s0) (cancelCtx r).
Proof. unfold cancelCtx, cancelContext. keeps_split. identity_step. Qed.
Lemma identity_request_close s0 l : keeps (same_identity s0) (ServingRequest_Close l).
Proof.
  unfold ServingRequest_Close, get_request, upd_request. keeps_split; first [apply identity_cancel|identity_step].
Qed.
Lemma identity_send s0 m : keeps (same_identity s0) (send pickDone m).
Proof. unfold send. keeps_split. identity_step. Qed.
Lemma identity_send_ s0 m : keeps (same_identity s0) (send_ pickDone m).
Proof. unfold send_. keeps_split. apply identity_send. Qed.
Lemma identity_on_stream {A} s0 l (m : M clientStream Z A) : keeps (same_identity s0) (on_stream d pickDone l m).
Proof.
  unfold on_stream. keeps_split; [identity_step|]. apply keeps_seqM, Forall_map, Forall_true. intros. apply identity_send_.
Qed.
Lemma identity_closeRequest s0 l r : keeps (same_identity s0) (closeRequest l r).
Proof. unfold closeRequest, deleteRequest. keeps_split; first [apply identity_request_close|identity_step]. Qed.
Lemma identity_grantInbound s0 l : keeps (same_identity s0) (grantInbound d pickDone l).
Proof. unfold grantInbound, get_request, upd_request. keeps_split; first [apply identity_send_|identity_step]. Qed.
Lemma identity_cancelStream s0 l id : keeps (same_identity s0) (cancelClientStream d pickDone l id).
Proof.
  unfold cancelClientStream, deletePendingStream. keeps_split; first [apply identity_send_|apply identity_on_stream|identity_step].
Qed.

Ltac identity :=
  keeps_split;
  first [ apply identity_send_ | apply identity_send | apply identity_on_stream | apply identity_closeRequest | apply identity_cancel
        | apply identity_grantInbound | apply identity_cancelStream | identity_step ].

Lemma identity_processRequest s0 req : keeps (same_identity s0) (processRequest d growcap pickDone req).
Proof.
  unfold processRequest, findPendingStream, handleInbound, completePendingCall, serveNewRequest, serveRunningRequest,
    incomingStreamValue, incomingStreamEnd, cancelContext, deletePendingStream, deleteRequest, get_request, upd_request. identity.
Qed.

Lemma identity_serveEnd s0 ft req r : keeps (same_identity s0) (serveEnd d pickDone ft req r).
Proof. unfold serveEnd. identity. Qed.

(** No piece of session code touches the identity. *)
Lemma identity_work s0 w : keeps (same_identity s0) (run_work w).
Proof.
  destruct w as [req|ft req|c a|ft req c a l r|l|l c|l v|l f b|op]; cbn [run_work].
  - keeps_split. apply identity_processRequest.
  - unfold serve_admit, serveBegin, admitRequest, newRequestContext. keeps_split; first [apply identity_serveEnd|identity_step].
  - unfold startHandler, newServingRequest, set_request, grantInitialInbound. identity.
  - unfold serve_finish, finishHandler, cancelContext, get_request, upd_request. keeps_split;
      first [apply identity_serveEnd|apply identity_closeRequest|identity_step].
  - unfold streamer_ready, get_request. identity.
  - unfold streamer_select, get_request. identity.
  - unfold streamer_acquire, get_request, upd_request. identity.
  - unfold pump_request, upd_request. identity.
  - destruct op; cbn [run_reverse]; unfold CallFunction, CallFunction_end, openStream, awaitReady, streamOut_step, streamOut_end,
      nextServerRequestId, deletePendingStream; identity.
Qed.

Lemma identity_Close s0 : keeps (same_identity s0) (ServingClient_Close d pickDone).
Proof.
  unfold ServingClient_Close. keeps_split; try identity_step.
  - apply keeps_seqM, Forall_map, Forall_true. intros. apply identity_request_close.
  - apply keeps_seqM, Forall_map, Forall_true. intros. keeps_split. apply identity_on_stream.
Qed.

(** As a fact about a run. *)
Definition keeps_identity {A} (m : SC A) : Prop :=
  forall s, let s' := m_st (m s) in
  sc_clientId s' = sc_clientId s /\ sc_principal s' = sc_principal s /\
  sc_resumeToken s' = sc_resumeToken s /\ sc_functionMap s' = sc_functionMap s.

Lemma keeps_identity_of {A} (m : SC A) : (forall s0, keeps (same_identity s0) m) -> keeps_identity m.
Proof. intros Hk s. apply (keeps_run (same_identity s) m s (Hk s)). done. Qed.

Lemma work_identity w : keeps_identity (run_work w).
Proof. apply keeps_identity_of. intros s0. apply identity_work. Qed.
Lemma Close_identity : keeps_identity (ServingClient_Close d pickDone).
Proof. apply keeps_identity_of, identity_Close. Qed.
Lemma processRequest_identity req : keeps_identity (processRequest d growcap pickDone req).
Proof. apply keeps_identity_of. intros s0. apply identity_processRequest. Qed.

End work.
