(* ===== verification/Server.v ===== *)
(** * The server: connections, handshakes, sessions

    Models valueserver/server.go, function.go and options.go: the accept loop with
    its connection cap and backoff, the handshake (version gate, authentication,
    session resumption) and Close.

    Sessions are heap objects ([rs_sessions]) published in [rs_clientMap]; a
    connection is a number.  createOrUpdateServingClient is split at its
    LoadOrStore so that two handshakes for the same new client id can race. *)

From S2P Require Import Prelude Value RefValue Protocol Verify Sha256 HashChain Credit Pump.
From S2P Require Import FlowControl Metadata ClientStream ServingClient ServingSystem SessionWork.

(** ** options.go *)

(** Milliseconds for durations; the fields of serverConfig that are not the
    session's (see ServingClient.serverConfig). *)
Record serverOptions := mkOptions {
  op_maxConnections : Z;
  op_maxConcurrentRequests : Z;
  op_maxConcurrentStreams : Z;
  op_outgoingQueueCap : Z;
  op_incomingQueueCap : Z;
  op_maxPending : Z;
  op_handshakeTimeout : Z;
  op_keepAlive : Z;
  op_writeTimeout : Z;
  op_maxFrameSize : Z
}.

Definition defaultOptions : serverOptions :=
  mkOptions 0 4096 0 4096 4096 DefaultMaxPending 10000 15000 10000 (16 * 1024 * 1024).

Definition upd_op_maxConnections f (t : serverOptions) : serverOptions :=
  mkOptions (f (op_maxConnections t)) (op_maxConcurrentRequests t) (op_maxConcurrentStreams t) (op_outgoingQueueCap t) (op_incomingQueueCap t) (op_maxPending t) (op_handshakeTimeout t) (op_keepAlive t) (op_writeTimeout t) (op_maxFrameSize t).
Definition upd_op_maxConcurrentRequests f (t : serverOptions) : serverOptions :=
  mkOptions (op_maxConnections t) (f (op_maxConcurrentRequests t)) (op_maxConcurrentStreams t) (op_outgoingQueueCap t) (op_incomingQueueCap t) (op_maxPending t) (op_handshakeTimeout t) (op_keepAlive t) (op_writeTimeout t) (op_maxFrameSize t).
Definition upd_op_maxConcurrentStreams f (t : serverOptions) : serverOptions :=
  mkOptions (op_maxConnections t) (op_maxConcurrentRequests t) (f (op_maxConcurrentStreams t)) (op_outgoingQueueCap t) (op_incomingQueueCap t) (op_maxPending t) (op_handshakeTimeout t) (op_keepAlive t) (op_writeTimeout t) (op_maxFrameSize t).
Definition upd_op_outgoingQueueCap f (t : serverOptions) : serverOptions :=
  mkOptions (op_maxConnections t) (op_maxConcurrentRequests t) (op_maxConcurrentStreams t) (f (op_outgoingQueueCap t)) (op_incomingQueueCap t) (op_maxPending t) (op_handshakeTimeout t) (op_keepAlive t) (op_writeTimeout t) (op_maxFrameSize t).
Definition upd_op_incomingQueueCap f (t : serverOptions) : serverOptions :=
  mkOptions (op_maxConnections t) (op_maxConcurrentRequests t) (op_maxConcurrentStreams t) (op_outgoingQueueCap t) (f (op_incomingQueueCap t)) (op_maxPending t) (op_handshakeTimeout t) (op_keepAlive t) (op_writeTimeout t) (op_maxFrameSize t).
Definition upd_op_maxPending f (t : serverOptions) : serverOptions :=
  mkOptions (op_maxConnections t) (op_maxConcurrentRequests t) (op_maxConcurrentStreams t) (op_outgoingQueueCap t) (op_incomingQueueCap t) (f (op_maxPending t)) (op_handshakeTimeout t) (op_keepAlive t) (op_writeTimeout t) (op_maxFrameSize t).
Definition upd_op_handshakeTimeout f (t : serverOptions) : serverOptions :=
  mkOptions (op_maxConnections t) (op_maxConcurrentRequests t) (op_maxConcurrentStreams t) (op_outgoingQueueCap t) (op_incomingQueueCap t) (op_maxPending t) (f (op_handshakeTimeout t)) (op_keepAlive t) (op_writeTimeout t) (op_maxFrameSize t).
Definition upd_op_keepAlive f (t : serverOptions) : serverOptions :=
  mkOptions (op_maxConnections t) (op_maxConcurrentRequests t) (op_maxConcurrentStreams t) (op_outgoingQueueCap t) (op_incomingQueueCap t) (op_maxPending t) (op_handshakeTimeout t) (f (op_keepAlive t)) (op_writeTimeout t) (op_maxFrameSize t).
Definition upd_op_writeTimeout f (t : serverOptions) : serverOptions :=
  mkOptions (op_maxConnections t) (op_maxConcurrentRequests t) (op_maxConcurrentStreams t) (op_outgoingQueueCap t) (op_incomingQueueCap t) (op_maxPending t) (op_handshakeTimeout t) (op_keepAlive t) (f (op_writeTimeout t)) (op_maxFrameSize t).
Definition upd_op_maxFrameSize f (t : serverOptions) : serverOptions :=
  mkOptions (op_maxConnections t) (op_maxConcurrentRequests t) (op_maxConcurrentStreams t) (op_outgoingQueueCap t) (op_incomingQueueCap t) (op_maxPending t) (op_handshakeTimeout t) (op_keepAlive t) (op_writeTimeout t) (f (op_maxFrameSize t)).

Abbreviation ServerOption := (serverOptions -> serverOptions).
Definition WithMaxConnections (n : Z) : ServerOption := upd_op_maxConnections (fun _ => n).
Definition WithMaxConcurrentRequests (n : Z) : ServerOption := upd_op_maxConcurrentRequests (fun _ => n).
Definition WithMaxConcurrentStreams (n : Z) : ServerOption := upd_op_maxConcurrentStreams (fun _ => n).
Definition WithOutgoingQueueCap (n : Z) : ServerOption := upd_op_outgoingQueueCap (fun _ => n).
Definition WithIncomingQueueCap (n : Z) : ServerOption := upd_op_incomingQueueCap (fun _ => n).
Definition WithStreamMaxPending (n : Z) : ServerOption := upd_op_maxPending (fun _ => n).
Definition WithHandshakeTimeout (n : Z) : ServerOption := upd_op_handshakeTimeout (fun _ => n).
Definition WithKeepAlivePeriod (n : Z) : ServerOption := upd_op_keepAlive (fun _ => n).
Definition WithWriteTimeout (n : Z) : ServerOption := upd_op_writeTimeout (fun _ => n).
Definition WithMaxFrameSize (n : Z) : ServerOption := upd_op_maxFrameSize (fun _ => n).

(** newServerConfig: the defaults, then each option in order. *)
Definition newServerConfig (opts : list ServerOption) : serverOptions :=
  foldl (fun cfg o => o cfg) defaultOptions opts.

(** ** The accept loop's backoff (Run), in milliseconds *)

Definition nextBackoff (backoff : Z) : Z :=
  let backoff := if backoff =? 0 then 5 else backoff * 2 in
  if 1000 <? backoff then 1000 else backoff.

Section server.
Context `{ValueLib} (d : Dialect).

(** The resolved session configuration. *)
Definition sessionConfig (o : serverOptions) (extract : option (reqctx -> Metadata -> reqctx)) (dbg : bool) : serverConfig :=
  mkServerConfig (op_maxConcurrentRequests o) (op_maxConcurrentStreams o) (op_maxPending o) extract dbg.

Record rpcServer := mkServer {
  rs_shutdown : bool;                      (* the shutdown channel is closed *)
  rs_closeOnce : bool;
  rs_ctxCancelled : bool;
  rs_maxConnections : Z;
  rs_cfg : serverConfig;
  rs_clientMap : gmap Z nat;               (* client id -> session *)
  rs_sessions : gmap nat servingClient;
  rs_nextLoc : nat;
  rs_activeConn : gmap nat nat;            (* session -> connection *)
  rs_functionMap : gmap string function;
  rs_connMap : gset nat;
  rs_liveConns : Z;
  rs_wg : Z;
  rs_closedConns : gset nat
}.

Definition upd_rs_shutdown f (t : rpcServer) : rpcServer :=
  mkServer (f (rs_shutdown t)) (rs_closeOnce t) (rs_ctxCancelled t) (rs_maxConnections t) (rs_cfg t) (rs_clientMap t) (rs_sessions t) (rs_nextLoc t) (rs_activeConn t) (rs_functionMap t) (rs_connMap t) (rs_liveConns t) (rs_wg t) (rs_closedConns t).
Definition upd_rs_closeOnce f (t : rpcServer) : rpcServer :=
  mkServer (rs_shutdown t) (f (rs_closeOnce t)) (rs_ctxCancelled t) (rs_maxConnections t) (rs_cfg t) (rs_clientMap t) (rs_sessions t) (rs_nextLoc t) (rs_activeConn t) (rs_functionMap t) (rs_connMap t) (rs_liveConns t) (rs_wg t) (rs_closedConns t).
Definition upd_rs_ctxCancelled f (t : rpcServer) : rpcServer :=
  mkServer (rs_shutdown t) (rs_closeOnce t) (f (rs_ctxCancelled t)) (rs_maxConnections t) (rs_cfg t) (rs_clientMap t) (rs_sessions t) (rs_nextLoc t) (rs_activeConn t) (rs_functionMap t) (rs_connMap t) (rs_liveConns t) (rs_wg t) (rs_closedConns t).
Definition upd_rs_maxConnections f (t : rpcServer) : rpcServer :=
  mkServer (rs_shutdown t) (rs_closeOnce t) (rs_ctxCancelled t) (f (rs_maxConnections t)) (rs_cfg t) (rs_clientMap t) (rs_sessions t) (rs_nextLoc t) (rs_activeConn t) (rs_functionMap t) (rs_connMap t) (rs_liveConns t) (rs_wg t) (rs_closedConns t).
Definition upd_rs_cfg f (t : rpcServer) : rpcServer :=
  mkServer (rs_shutdown t) (rs_closeOnce t) (rs_ctxCancelled t) (rs_maxConnections t) (f (rs_cfg t)) (rs_clientMap t) (rs_sessions t) (rs_nextLoc t) (rs_activeConn t) (rs_functionMap t) (rs_connMap t) (rs_liveConns t) (rs_wg t) (rs_closedConns t).
Definition upd_rs_clientMap f (t : rpcServer) : rpcServer :=
  mkServer (rs_shutdown t) (rs_closeOnce t) (rs_ctxCancelled t) (rs_maxConnections t) (rs_cfg t) (f (rs_clientMap t)) (rs_sessions t) (rs_nextLoc t) (rs_activeConn t) (rs_functionMap t) (rs_connMap t) (rs_liveConns t) (rs_wg t) (rs_closedConns t).
Definition upd_rs_sessions f (t : rpcServer) : rpcServer :=
  mkServer (rs_shutdown t) (rs_closeOnce t) (rs_ctxCancelled t) (rs_maxConnections t) (rs_cfg t) (rs_clientMap t) (f (rs_sessions t)) (rs_nextLoc t) (rs_activeConn t) (rs_functionMap t) (rs_connMap t) (rs_liveConns t) (rs_wg t) (rs_closedConns t).
Definition upd_rs_nextLoc f (t : rpcServer) : rpcServer :=
  mkServer (rs_shutdown t) (rs_closeOnce t) (rs_ctxCancelled t) (rs_maxConnections t) (rs_cfg t) (rs_clientMap t) (rs_sessions t) (f (rs_nextLoc t)) (rs_activeConn t) (rs_functionMap t) (rs_connMap t) (rs_liveConns t) (rs_wg t) (rs_closedConns t).
Definition upd_rs_activeConn f (t : rpcServer) : rpcServer :=
  mkServer (rs_shutdown t) (rs_closeOnce t) (rs_ctxCancelled t) (rs_maxConnections t) (rs_cfg t) (rs_clientMap t) (rs_sessions t) (rs_nextLoc t) (f (rs_activeConn t)) (rs_functionMap t) (rs_connMap t) (rs_liveConns t) (rs_wg t) (rs_closedConns t).
Definition upd_rs_functionMap f (t : rpcServer) : rpcServer :=
  mkServer (rs_shutdown t) (rs_closeOnce t) (rs_ctxCancelled t) (rs_maxConnections t) (rs_cfg t) (rs_clientMap t) (rs_sessions t) (rs_nextLoc t) (rs_activeConn t) (f (rs_functionMap t)) (rs_connMap t) (rs_liveConns t) (rs_wg t) (rs_closedConns t).
Definition upd_rs_connMap f (t : rpcServer) : rpcServer :=
  mkServer (rs_shutdown t) (rs_closeOnce t) (rs_ctxCancelled t) (rs_maxConnections t) (rs_cfg t) (rs_clientMap t) (rs_sessions t) (rs_nextLoc t) (rs_activeConn t) (rs_functionMap t) (f (rs_connMap t)) (rs_liveConns t) (rs_wg t) (rs_closedConns t).
Definition upd_rs_liveConns f (t : rpcServer) : rpcServer :=
  mkServer (rs_shutdown t) (rs_closeOnce t) (rs_ctxCancelled t) (rs_maxConnections t) (rs_cfg t) (rs_clientMap t) (rs_sessions t) (rs_nextLoc t) (rs_activeConn t) (rs_functionMap t) (rs_connMap t) (f (rs_liveConns t)) (rs_wg t) (rs_closedConns t).
Definition upd_rs_wg f (t : rpcServer) : rpcServer :=
  mkServer (rs_shutdown t) (rs_closeOnce t) (rs_ctxCancelled t) (rs_maxConnections t) (rs_cfg t) (rs_clientMap t) (rs_sessions t) (rs_nextLoc t) (rs_activeConn t) (rs_functionMap t) (rs_connMap t) (rs_liveConns t) (f (rs_wg t)) (rs_closedConns t).
Definition upd_rs_closedConns f (t : rpcServer) : rpcServer :=
  mkServer (rs_shutdown t) (rs_closeOnce t) (rs_ctxCancelled t) (rs_maxConnections t) (rs_cfg t) (rs_clientMap t) (rs_sessions t) (rs_nextLoc t) (rs_activeConn t) (rs_functionMap t) (rs_connMap t) (rs_liveConns t) (rs_wg t) (f (rs_closedConns t)).

Inductive rs_ev :=
| EWrite (conn : nat) (m : VMap)           (* conn.WriteMessage *)
| ESession (l : nat) (e : @sc_ev _)        (* an event of session l *)
| ECloseListener.

Abbreviation SV := (M rpcServer rs_ev).

(** NewServerWithListener *)
Definition NewServerWithListener (maxConnections : Z) (cfg : serverConfig) : rpcServer :=
  mkServer false false false maxConnections cfg ∅ ∅ 0 ∅ ∅ ∅ 0 0 ∅.

Definition closeConn (c : nat) : SV unit := modify (upd_rs_closedConns (fun s => {[ c ]} ∪ s)).

(** ** function.go: registration

    Sessions hold a pointer to the server's function map: session code runs with
    what the map holds at that moment ([see_functions]). *)

Definition ErrFunctionAlreadyExist : goerror := ErrPlain "function already exist".

Definition hasFunction (name : string) (t : rpcServer) : bool := match rs_functionMap t !! name with Some _ => true | None => false end.

Definition storeFunction (name : string) (fn : function) : SV unit := modify (upd_rs_functionMap (insert name fn)).

(** The session [s] with its pointer to the function map followed. *)
Definition see_functions (t : rpcServer) (s : servingClient) : servingClient := upd_sc_functionMap (fun _ => rs_functionMap t) s.

Abbreviation handler := (reqctx -> option Value -> outcome Value).

Definition AddFunction (name : string) (args res : TypeDef) (cb : handler) : SV (option goerror) :=
  t ← gets id;
  if hasFunction name t then mret (Some ErrFunctionAlreadyExist)
  else storeFunction name (mkFunction name args res singleFunction cb) ≫= fun _ => mret None.

Definition AddOutgoingStream (name : string) (args : TypeDef) (cb : handler) : SV (option goerror) :=
  t ← gets id;
  if hasFunction name t then mret (Some ErrFunctionAlreadyExist)
  else storeFunction name (mkFunction name args Void outgoingStream cb) ≫= fun _ => mret None.

Definition AddIncomingStream (name : string) (args : TypeDef) (cb : handler) : SV (option goerror) :=
  t ← gets id;
  if hasFunction name t then mret (Some ErrFunctionAlreadyExist)
  else storeFunction name (mkFunction name args Void incomingStream cb) ≫= fun _ => mret None.

Definition AddChat (name : string) (args : TypeDef) (cb : handler) : SV (option goerror) :=
  t ← gets id;
  if hasFunction name t then mret (Some ErrFunctionAlreadyExist)
  else storeFunction name (mkFunction name args Void chat cb) ≫= fun _ => mret None.

(** ** The accept loop *)

(** One accepted connection: refused over the cap or after shutdown, otherwise
    registered, and handled by a new goroutine. *)
Definition acceptConn (c : nat) : SV bool :=
  t ← gets id;
  if (0 <? rs_maxConnections t) && (rs_maxConnections t <=? rs_liveConns t) then
    closeConn c ≫= fun _ => mret false
  else if rs_shutdown t then closeConn c ≫= fun _ => mret false
  else
    modify (upd_rs_liveConns (fun n => n + 1)) ≫= fun _ =>
    modify (upd_rs_connMap (fun s => {[ c ]} ∪ s)) ≫= fun _ =>
    modify (upd_rs_wg (fun n => n + 1)) ≫= fun _ =>
    mret true.

(** The deferred calls when handleConnection returns (and its own conn.Close). *)
Definition connDone (c : nat) : SV unit :=
  closeConn c ≫= fun _ =>
  modify (upd_rs_connMap (fun s => s ∖ {[ c ]})) ≫= fun _ =>
  modify (upd_rs_liveConns (fun n => n - 1)) ≫= fun _ =>
  modify (upd_rs_wg (fun n => n - 1)).

(** ** Sessions *)

Variable growcap : nat -> nat.
Variable pickDone : servingClient -> VMap -> bool.

Definition get_session (l : nat) : SV (option servingClient) := gets (fun t => rs_sessions t !! l).

(** Runs a method of session [l]. *)
Definition on_session {A} (l : nat) (m : M servingClient sc_ev A) : SV (option A) :=
  get_session l ≫= fun o =>
  match o with
  | None => mret None
  | Some s =>
      t ← gets id;
      let '(a, s', evs) := m (see_functions t s) in
      modify (upd_rs_sessions (insert l s')) ≫= fun _ =>
      seqM (map (fun e => emit (ESession l e)) evs) ≫= fun _ =>
      mret (Some a)
  end.

(** replaceConn: the old connection is closed, the new one becomes active. *)
Definition Session_replaceConn (l c : nat) : SV unit :=
  t ← gets id;
  (match rs_activeConn t !! l with Some old => closeConn old | None => mret tt end) ≫= fun _ =>
  modify (upd_rs_activeConn (insert l c)).

(** ServingClient.Close also closes the active connection. *)
Definition Session_Close (l : nat) : SV unit :=
  t ← gets id;
  on_session l (ServingClient_Close d pickDone) ≫= fun _ =>
  match rs_activeConn t !! l with Some c => closeConn c | None => mret tt end.

(** The [resume] closure of createOrUpdateServingClient. *)
Definition resume (l : nat) (clientId : Z) (presentedToken principal : string) (c : nat) : SV (goerror + nat) :=
  get_session l ≫= fun o =>
  match o with
  | None => mret (inl (ErrPlain "no session")) (* unreachable: the map points to a session *)
  | Some s =>
      if negb (bool_decide (sc_principal s = principal)) then
        mret (inl (ErrPlain ("handshake rejected: principal mismatch for client " +:+ pretty clientId)))
      else
        let '(ok, tok) := authorizeResume sha256 (sc_resumeToken s) presentedToken in
        modify (upd_rs_sessions (insert l (upd_sc_resumeToken (fun _ => tok) s))) ≫= fun _ =>
        if ok : bool then Session_replaceConn l c ≫= fun _ => mret (inr l)
        else mret (inl (ErrPlain ("handshake rejected: resumption token mismatch for client " +:+ pretty clientId)))
  end.

(** createOrUpdateServingClient up to LoadOrStore: the session found, or a new
    object that is not published yet. *)
Definition findOrCreate (clientId : Z) (presentedToken principal : string) (c : nat) : SV (nat + nat) :=
  t ← gets id;
  match rs_clientMap t !! clientId with
  | Some l => mret (inl l)
  | None =>
      let l := rs_nextLoc t in
      modify (upd_rs_nextLoc S) ≫= fun _ =>
      modify (upd_rs_sessions (insert l (NewServingClient clientId presentedToken principal (rs_functionMap t) (rs_cfg t)))) ≫= fun _ =>
      modify (upd_rs_activeConn (insert l c)) ≫= fun _ =>
      mret (inr l)
  end.

(** The rest: resume the session found, or publish the new one; the loser of a
    race closes its own and resumes the winner's. *)
Definition publish (r : nat + nat) (clientId : Z) (presentedToken principal : string) (c : nat) : SV (goerror + nat) :=
  match r with
  | inl l => resume l clientId presentedToken principal c
  | inr l =>
      t ← gets id;
      match rs_clientMap t !! clientId with
      | Some l' => Session_Close l ≫= fun _ => resume l' clientId presentedToken principal c
      | None => modify (upd_rs_clientMap (insert clientId l)) ≫= fun _ => mret (inr l)
      end
  end.

Definition createOrUpdateServingClient (clientId : Z) (presentedToken principal : string) (c : nat) : SV (goerror + nat) :=
  findOrCreate clientId presentedToken principal c ≫= fun r => publish r clientId presentedToken principal c.

(** ** The handshake *)

(** The user's Authenticator, if one is installed. *)
Variable authenticator : option (nat -> option Value -> string + goerror).

(** What the handshake learns from the request before it touches any session:
    the client id, the token and the principal. *)
Definition checkHandshake (c : nat) (dbg : string) (req : VMap) : goerror + (Z * string * string) :=
  match GetNumberField req (MessageTypeField d) with
  | None => inl (ErrPlain ("on handshake, empty message type" +:+ dbg))
  | Some mt =>
      if negb (longOf mt =? HandshakeRequest) then inl (ErrPlain ("on handshake, wrong message type" +:+ dbg))
      else if negb (ValidMagicAndVersion d req) then inl (ErrPlain ("on handshake, unsupported client version" +:+ dbg))
      else
        match (match authenticator with
               | Some authn => authn c (Get req (AuthField d))
               | None => inl ""
               end) with
        | inr err => inl (ErrPlain ("on handshake, authentication failed: " +:+ Error_String err))
        | inl principal =>
            match GetNumberField req (ClientIdField d) with
            | None => inl (ErrPlain ("on handshake, no client id" +:+ dbg))
            | Some cid => inr (longOf cid, handshakeTokenOf d req, principal)
            end
        end
  end.

(** handshake, after the request was read; [werr] is the outcome of writing the
    response. *)
Definition handshake (c : nat) (req : VMap) (werr : option goerror) : SV (goerror + nat) :=
  t ← gets id;
  match checkHandshake c (reqDetail (rs_cfg t) req) req with
  | inl err => mret (inl err)
  | inr (clientId, presentedToken, principal) =>
      createOrUpdateServingClient clientId presentedToken principal c ≫= fun r =>
      match r with
      | inl err => mret (inl err)
      | inr l =>
          emit (EWrite c (Dialect_NewHandshakeResponse d "")) ≫= fun _ =>
          match werr with
          | Some e => mret (inl (ErrPlain ("on handshake, " +:+ Error_String e)))
          | None => mret (inr l)
          end
      end
  end.

(** ** Close *)

Definition Server_Close : SV unit :=
  t ← gets id;
  if rs_closeOnce t then mret tt
  else
    modify (upd_rs_closeOnce (fun _ => true)) ≫= fun _ =>
    modify (upd_rs_ctxCancelled (fun _ => true)) ≫= fun _ =>
    modify (upd_rs_shutdown (fun _ => true)) ≫= fun _ =>
    emit ECloseListener ≫= fun _ =>
    modify (upd_rs_closedConns (fun s => rs_connMap t ∪ s)) ≫= fun _ =>
    seqM (map (fun kl : Z * nat => Session_Close kl.2) (map_to_list (rs_clientMap t))).

(** ** The server's goroutines

    Accepting and finishing connections, the two halves of any number of
    concurrent handshakes, the work of the sessions, registrations and Close. *)

Inductive srv_step : rpcServer -> rpcServer -> Prop :=
| sv_accept t c : c ∉ rs_connMap t -> srv_step t (m_st (acceptConn c t))
| sv_done t c : c ∈ rs_connMap t -> srv_step t (m_st (connDone c t))
| sv_find t clientId tok principal c : srv_step t (m_st (findOrCreate clientId tok principal c t))
| sv_publish t r clientId tok principal c :
    (forall l, r = inl l -> rs_clientMap t !! clientId = Some l) ->
    (forall l, r = inr l -> exists s, rs_sessions t !! l = Some s /\ sc_clientId s = clientId /\ sc_principal s = principal) ->
    srv_step t (m_st (publish r clientId tok principal c t))
| sv_session t l w : srv_step t (m_st (on_session l (run_work d growcap pickDone w) t))
| sv_session_close t l : srv_step t (m_st (Session_Close l t))
| sv_register t name fn : rs_functionMap t !! name = None -> srv_step t (m_st (storeFunction name fn t))
| sv_close t : srv_step t (m_st (Server_Close t)).

(** ** Invariants *)

Record srv_inv (t : rpcServer) : Prop := {
  vi_conns : rs_liveConns t = Z.of_nat (size (rs_connMap t));
  vi_wg : rs_wg t = rs_liveConns t;
  vi_cap : 0 < rs_maxConnections t -> rs_liveConns t <= rs_maxConnections t;
  vi_fresh : forall l s, rs_sessions t !! l = Some s -> (l < rs_nextLoc t)%nat;
  vi_map : forall cid l, rs_clientMap t !! cid = Some l ->
    exists s, rs_sessions t !! l = Some s /\ sc_clientId s = cid
}.

(** Updates of the session heap that change a session in place, keeping whose it
    is. *)
Lemma srv_inv_session t l s s' :
  srv_inv t -> rs_sessions t !! l = Some s -> sc_clientId s' = sc_clientId s ->
  srv_inv (upd_rs_sessions (insert l s') t).
Proof.
  intros [] Hs Hid. split; cbn; try done.
  - intros l' s0. rewrite lookup_insert. case_decide as E; [subst|by eauto]. intros _. eauto.
  - intros cid l' Hl. destruct (vi_map0 cid l' Hl) as (s0 & Hs0 & Hc).
    rewrite lookup_insert. case_decide as E; [|by eauto]. subst. exists s'. split; [done|]. congruence.
Qed.

(** Everything else the server updates. *)
Lemma srv_inv_other f t :
  srv_inv t ->
  rs_liveConns (f t) = rs_liveConns t -> rs_connMap (f t) = rs_connMap t -> rs_wg (f t) = rs_wg t ->
  rs_maxConnections (f t) = rs_maxConnections t -> rs_sessions (f t) = rs_sessions t ->
  rs_nextLoc (f t) = rs_nextLoc t -> rs_clientMap (f t) = rs_clientMap t -> srv_inv (f t).
Proof. intros [] E1 E2 E3 E4 E5 E6 E7. split; rewrite ?E1, ?E2, ?E3, ?E4, ?E5, ?E6, ?E7; done. Qed.

Ltac srv_other := apply srv_inv_other; done.

Lemma closeConn_inv c t : srv_inv t -> srv_inv (m_st (closeConn c t)).
Proof. intros Hi. unfold closeConn. unM. by srv_other. Qed.

Lemma emit_all_st {A} (f : A -> rs_ev) (l : list A) (t : rpcServer) :
  m_st (seqM (map (fun e => emit (f e)) l) t) = t.
Proof.
  revert t. induction l as [|x l IH]; intros t; cbn [map seqM]; [done|].
  rewrite M_bind_st. cbn [emit m_st fst snd]. apply IH.
Qed.

Lemma on_session_st {A} l (m : M servingClient sc_ev A) t :
  m_st (on_session l m t) =
  match rs_sessions t !! l with Some s => upd_rs_sessions (insert l (m_st (m (see_functions t s)))) t | None => t end.
Proof.
  unfold on_session, get_session. rewrite M_gets_bind. destruct (rs_sessions t !! l) as [s|]; [|done].
  rewrite M_gets_bind. cbn [id]. unfold m_st at 2. destruct (m (see_functions t s)) as [[a s'] o]. rewrite M_modify_bind, M_bind_st. cbn [fst snd].
  by rewrite emit_all_st.
Qed.

Lemma on_session_inv {A} l (m : M servingClient sc_ev A) t :
  keeps_identity m -> srv_inv t -> srv_inv (m_st (on_session l m t)).
Proof.
  intros Hk Hi. rewrite on_session_st. destruct (rs_sessions t !! l) as [s|] eqn:E; [|done].
  destruct (Hk (see_functions t s)) as (E1 & _). by eapply srv_inv_session.
Qed.

Lemma Session_Close_inv l t : srv_inv t -> srv_inv (m_st (Session_Close l t)).
Proof.
  intros Hi. unfold Session_Close. rewrite M_gets_bind, M_bind_st. cbn [id].
  pose proof (on_session_inv l _ t (Close_identity d pickDone) Hi) as Hi'.
  destruct (rs_activeConn t !! l); [by apply closeConn_inv|done].
Qed.

Lemma resume_inv l cid tok pr c t : srv_inv t -> srv_inv (m_st (resume l cid tok pr c t)).
Proof.
  intros Hi. unfold resume, get_session. rewrite M_gets_bind.
  destruct (rs_sessions t !! l) as [s|] eqn:Es; [|done].
  destruct (negb (bool_decide (sc_principal s = pr))); [done|].
  destruct (authorizeResume sha256 (sc_resumeToken s) tok) as [ok tok'].
  rewrite M_modify_bind.
  assert (srv_inv (upd_rs_sessions (insert l (upd_sc_resumeToken (fun _ => tok') s)) t)) as Hi'
    by by eapply srv_inv_session.
  destruct ok; [|done]. unfold Session_replaceConn. rewrite M_bind_st, M_gets_bind, M_bind_st. cbn [id].
  unfold modify, mret, M_ret, m_st at 1. cbn [fst snd].
  destruct (rs_activeConn _ !! l); [|by srv_other].
  pose proof (closeConn_inv n _ Hi') as Hi''. by srv_other.
Qed.

Lemma findOrCreate_inv cid tok pr c t : srv_inv t -> srv_inv (m_st (findOrCreate cid tok pr c t)).
Proof.
  intros Hi. unfold findOrCreate. rewrite M_gets_bind. cbn [id].
  destruct (rs_clientMap t !! cid); [done|]. rewrite !M_modify_bind. destruct Hi.
  split; cbn; try done.
  - intros l s. rewrite lookup_insert. case_decide; [lia|]. intros Hl. specialize (vi_fresh0 _ _ Hl). lia.
  - intros cid' l Hl. destruct (vi_map0 _ _ Hl) as (s & Hs & Hid).
    rewrite lookup_insert, decide_False; [by eauto|]. intros <-. specialize (vi_fresh0 _ _ Hs). lia.
Qed.

Lemma publish_inv r cid tok pr c t :
  (forall l, r = inr l -> exists s, rs_sessions t !! l = Some s /\ sc_clientId s = cid /\ sc_principal s = pr) ->
  srv_inv t -> srv_inv (m_st (publish r cid tok pr c t)).
Proof.
  intros Hr Hi. unfold publish. destruct r as [l|l]; [by apply resume_inv|].
  rewrite M_gets_bind. cbn [id]. destruct (rs_clientMap t !! cid) as [l'|] eqn:E.
  - rewrite M_bind_st. by apply resume_inv, Session_Close_inv.
  - rewrite M_modify_bind. destruct (Hr l eq_refl) as (s & Hs & Hid & _). destruct Hi. split; cbn; try done.
    intros cid' l'. rewrite lookup_insert. case_decide as Ec; [|by eauto]. intros [= <-]. subst. eauto.
Qed.

Lemma close_all_inv (ls : list (Z * nat)) t :
  srv_inv t -> srv_inv (m_st (seqM (map (fun kl : Z * nat => Session_Close kl.2) ls) t)).
Proof.
  revert t. induction ls as [|kl ls IH]; intros t Hi; cbn [map seqM]; [done|].
  rewrite M_bind_st. by apply IH, Session_Close_inv.
Qed.

Lemma srv_step_inv t t' : srv_inv t -> srv_step t t' -> srv_inv t'.
Proof.
  intros Hi Hs. destruct Hs.
  - unfold acceptConn. rewrite M_gets_bind. cbn [id].
    destruct ((0 <? rs_maxConnections t) && (rs_maxConnections t <=? rs_liveConns t)) eqn:Ecap.
    + rewrite M_bind_st. by apply closeConn_inv.
    + destruct (rs_shutdown t); [rewrite M_bind_st; by apply closeConn_inv|].
      rewrite !M_modify_bind. destruct Hi. split; cbn; try done; try lia.
      rewrite size_union, size_singleton by set_solver. lia.
  - unfold connDone. rewrite M_bind_st. apply (closeConn_inv c) in Hi. revert Hi.
    set (t1 := m_st (closeConn c t)). intros Hi.
    assert (c ∈ rs_connMap t1) as Hc by done. rewrite !M_modify_bind. clearbody t1. destruct Hi.
    assert (size (rs_connMap t1 ∖ {[c]}) = (size (rs_connMap t1) - 1)%nat) as Hsz.
    { rewrite size_difference by set_solver. by rewrite size_singleton. }
    assert (size (rs_connMap t1) <> 0%nat) by (rewrite size_empty_iff; set_solver).
    unfold modify, m_st at 1. split; cbn; try done; rewrite ?Hsz; try lia.
  - by apply findOrCreate_inv.
  - by apply publish_inv.
  - by apply on_session_inv; [apply work_identity|].
  - by apply Session_Close_inv.
  - unfold storeFunction. unM. by srv_other.
  - unfold Server_Close. rewrite M_gets_bind. cbn [id]. destruct (rs_closeOnce t); [done|].
    rewrite !M_modify_bind, M_bind_st, M_modify_bind. cbn [emit m_st fst snd].
    apply close_all_inv. destruct Hi. by split.
Qed.

(** ** How the server evolves: sessions are never removed and never change hands *)

Record evolves (t t' : rpcServer) : Prop := {
  ev_max : rs_maxConnections t' = rs_maxConnections t;
  ev_map : rs_clientMap t ⊆ rs_clientMap t';
  ev_sessions : forall l s, rs_sessions t !! l = Some s ->
    exists s', rs_sessions t' !! l = Some s' /\ sc_clientId s' = sc_clientId s /\ sc_principal s' = sc_principal s;
  ev_shutdown : rs_shutdown t = true -> rs_shutdown t' = true
}.

#[export] Instance evolves_preorder : PreOrder evolves.
Proof.
  split.
  - intros t. split; try done. eauto.
  - intros t1 t2 t3 [] []. split; [congruence|by etrans|..|auto].
    intros l s Hs. destruct (ev_sessions0 l s Hs) as (s2 & Hs2 & E1 & E2).
    destruct (ev_sessions1 l s2 Hs2) as (s3 & Hs3 & E3 & E4). exists s3. split_and!; [done|congruence..].
Qed.

Lemma evolves_other t t' :
  rs_maxConnections t' = rs_maxConnections t -> rs_clientMap t' = rs_clientMap t ->
  rs_sessions t' = rs_sessions t -> (rs_shutdown t = true -> rs_shutdown t' = true) -> evolves t t'.
Proof. intros E1 E2 E3 E4. split; rewrite ?E1, ?E2, ?E3; eauto. Qed.

Lemma evolves_session t l s s' :
  rs_sessions t !! l = Some s -> sc_clientId s' = sc_clientId s -> sc_principal s' = sc_principal s ->
  evolves t (upd_rs_sessions (insert l s') t).
Proof.
  intros Hs Hid Hp. split; cbn; try done. intros l' s0 Hl. rewrite lookup_insert. case_decide as E; [|by eauto].
  subst. rewrite Hs in Hl. injection Hl as <-. eauto.
Qed.

Lemma evolves_closeConn c t : evolves t (m_st (closeConn c t)).
Proof. by apply evolves_other. Qed.

Lemma evolves_on_session {A} l (m : M servingClient sc_ev A) t : keeps_identity m -> evolves t (m_st (on_session l m t)).
Proof.
  intros Hk. rewrite on_session_st. destruct (rs_sessions t !! l) as [s|] eqn:E; [|done].
  destruct (Hk (see_functions t s)) as (E1 & E2 & _). by eapply evolves_session.
Qed.

Lemma evolves_Session_Close l t : evolves t (m_st (Session_Close l t)).
Proof.
  unfold Session_Close. rewrite M_gets_bind, M_bind_st. cbn [id].
  etrans; [apply (evolves_on_session l _ t (Close_identity d pickDone))|].
  destruct (rs_activeConn t !! l); [apply evolves_closeConn|done].
Qed.

Lemma evolves_resume l cid tok pr c t : evolves t (m_st (resume l cid tok pr c t)).
Proof.
  unfold resume, get_session. rewrite M_gets_bind. destruct (rs_sessions t !! l) as [s|] eqn:Es; [|done].
  destruct (negb (bool_decide (sc_principal s = pr))); [done|].
  destruct (authorizeResume sha256 (sc_resumeToken s) tok) as [ok tok']. rewrite M_modify_bind.
  etrans; [by apply (evolves_session t l s (upd_sc_resumeToken (fun _ => tok') s))|].
  destruct ok; [|done]. unfold Session_replaceConn. rewrite M_bind_st, M_gets_bind, M_bind_st. cbn [id].
  unfold modify, mret, M_ret, m_st at 1. cbn [fst snd]. destruct (rs_activeConn _ !! l).
  - etrans; [apply (evolves_closeConn n)|]. by apply evolves_other.
  - by apply evolves_other.
Qed.

Lemma evolves_close_all (ls : list (Z * nat)) t :
  evolves t (m_st (seqM (map (fun kl : Z * nat => Session_Close kl.2) ls) t)).
Proof.
  revert t. induction ls as [|kl ls IH]; intros t; cbn [map seqM]; [done|].
  rewrite M_bind_st. etrans; [apply evolves_Session_Close|apply IH].
Qed.

Lemma srv_step_evolves t t' : srv_inv t -> srv_step t t' -> evolves t t'.
Proof.
  intros Hi Hs. destruct Hs.
  - unfold acceptConn. rewrite M_gets_bind. cbn [id].
    destruct (_ && _); [rewrite M_bind_st; apply evolves_closeConn|].
    destruct (rs_shutdown t) eqn:E; [rewrite M_bind_st; apply evolves_closeConn|].
    rewrite !M_modify_bind. by apply evolves_other.
  - unfold connDone. rewrite M_bind_st, !M_modify_bind. etrans; [apply (evolves_closeConn c)|].
    by apply evolves_other.
  - unfold findOrCreate. rewrite M_gets_bind. cbn [id]. destruct (rs_clientMap t !! clientId); [done|].
    rewrite !M_modify_bind. split; cbn; try done. intros l s Hl.
    rewrite lookup_insert, decide_False; [by eauto|]. intros <-. apply vi_fresh in Hl; [lia|done].
  - unfold publish. destruct r as [l|l]; [apply evolves_resume|].
    rewrite M_gets_bind. cbn [id]. destruct (rs_clientMap t !! clientId) eqn:E.
    + rewrite M_bind_st. etrans; [apply evolves_Session_Close|apply evolves_resume].
    + rewrite M_modify_bind. split; cbn; eauto. by apply insert_subseteq.
  - apply evolves_on_session, work_identity.
  - apply evolves_Session_Close.
  - unfold storeFunction. unM. by apply evolves_other.
  - unfold Server_Close. rewrite M_gets_bind. cbn [id]. destruct (rs_closeOnce t); [done|].
    rewrite !M_modify_bind, M_bind_st, M_modify_bind. cbn [emit m_st fst snd].
    etrans; [|apply evolves_close_all]. by apply evolves_other.
Qed.

Lemma NewServer_inv max cfg : srv_inv (NewServerWithListener max cfg).
Proof. split; cbn; try done; lia. Qed.

Lemma srv_reach_inv t t' : srv_inv t -> reach srv_step t t' -> srv_inv t' /\ evolves t t'.
Proof.
  intros Hi Hr. induction Hr as [|t1 t2 Hr [IH1 IH2] Hs]; [done|].
  split; [by eapply srv_step_inv|]. etrans; [done|by eapply srv_step_evolves].
Qed.

(** ** Properties *)

(** C25: The number of live connections is the size of the connection map and
    of the wait group, and never exceeds a positive MaxConnections. Taking in
    a connection (counter, map, wait group) and its end are one step each. *)
Theorem connection_cap_holds maxConnections cfg t :
  reach srv_step (NewServerWithListener maxConnections cfg) t ->
  rs_liveConns t = Z.of_nat (size (rs_connMap t)) /\ rs_wg t = rs_liveConns t /\
  (0 < maxConnections -> rs_liveConns t <= maxConnections).
Proof.
  intros Hr. destruct (srv_reach_inv _ _ (NewServer_inv maxConnections cfg) Hr) as [[] Hev].
  split_and!; [done|done|]. pose proof (ev_max _ _ Hev) as E. cbn in E. by rewrite <- E.
Qed.

(** C24: Once a client id has a session, no interleaving of handshakes,
    registrations, Close and the code of the sessions (frames, handlers,
    streamers, pumps, reverse calls and streams, their Close) gives the id
    another session or the session another principal or client id. *)
Theorem sessions_never_change_hands max cfg t1 t2 cid l s :
  reach srv_step (NewServerWithListener max cfg) t1 -> reach srv_step t1 t2 ->
  rs_clientMap t1 !! cid = Some l -> rs_sessions t1 !! l = Some s ->
  rs_clientMap t2 !! cid = Some l /\
  exists s', rs_sessions t2 !! l = Some s' /\ sc_clientId s' = cid /\ sc_principal s' = sc_principal s.
Proof.
  intros Hr1 Hr2 Hm Hs. destruct (srv_reach_inv _ _ (NewServer_inv max cfg) Hr1) as [Hi1 _].
  destruct (srv_reach_inv _ _ Hi1 Hr2) as [Hi2 Hev]. split; [by eapply lookup_weaken, ev_map|].
  destruct (ev_sessions _ _ Hev l s Hs) as (s' & Hs' & Hid & Hp). exists s'. split_and!; [done| |done].
  destruct (vi_map _ Hi1 cid l Hm) as (s0 & Hs0 & Hc). congruence.
Qed.

Lemma createOrUpdate_existing cid tok pr c t l :
  rs_clientMap t !! cid = Some l -> createOrUpdateServingClient cid tok pr c t = resume l cid tok pr c t.
Proof.
  intros Hm. unfold createOrUpdateServingClient, findOrCreate. rewrite M_assoc, M_gets_bind. cbn [id].
  by rewrite Hm, M_left_id.
Qed.

Lemma resume_cases l cid tok pr c t s :
  rs_sessions t !! l = Some s ->
  let x := resume l cid tok pr c t in
  (sc_principal s <> pr /\ m_st x = t /\ exists e, m_res x = inl e) \/
  (sc_principal s = pr /\ (authorizeResume sha256 (sc_resumeToken s) tok).1 = false /\
     rs_sessions (m_st x) = rs_sessions t /\ rs_activeConn (m_st x) = rs_activeConn t /\ exists e, m_res x = inl e) \/
  (sc_principal s = pr /\ (authorizeResume sha256 (sc_resumeToken s) tok).1 = true /\
     m_res x = inr l /\ rs_activeConn (m_st x) !! l = Some c).
Proof.
  intros Hs x. subst x. unfold resume, get_session. rewrite M_gets_bind, Hs.
  case_bool_decide as Ep; cbn [negb]; [right|left; cbn; eauto].
  destruct (authorizeResume sha256 (sc_resumeToken s) tok) as [ok tok'] eqn:Ea. rewrite M_modify_bind.
  destruct ok; [right|left]; (split; [done|split; [done|]]).
  - rewrite M_bind_ret. split; [done|].
    match goal with |- rs_activeConn (m_st (_, ?y, _)) !! _ = _ => change (rs_activeConn y !! l = Some c) end.
    unfold Session_replaceConn. rewrite M_gets_bind, M_bind_st. cbn. by rewrite lookup_insert, decide_True.
  - destruct (authorizeResume_sound sha256 _ _ _ _ Ea) as (_ & Htok & _). rewrite (Htok eq_refl).
    cbn. split_and!; [|done|eauto]. rewrite insert_id; [done|]. rewrite Hs. by destruct s.
Qed.

(** C10: A handshake for a client id that has a session attaches to that
    session only if the authenticated principal is the session's and the
    presented link hashes forward to the stored token; a principal mismatch
    leaves the whole server untouched, and a refused attempt changes no
    session and no active connection. *)
Theorem session_resumption_guarded c req werr t cid tok principal l0 s :
  checkHandshake c (reqDetail (rs_cfg t) req) req = inr (cid, tok, principal) ->
  rs_clientMap t !! cid = Some l0 -> rs_sessions t !! l0 = Some s ->
  let x := handshake c req werr t in
  (forall l, m_res x = inr l ->
     l = l0 /\ sc_principal s = principal /\ rs_activeConn (m_st x) !! l0 = Some c /\
     exists cur last i, decodeLink tok = Some cur /\ decodeLink (sc_resumeToken s) = Some last /\
       0 <= i <= DefaultResyncWindow /\ iter_fun sha256 (Z.to_nat i) cur = last) /\
  (sc_principal s <> principal -> m_st x = t) /\
  (sc_principal s <> principal \/ (authorizeResume sha256 (sc_resumeToken s) tok).1 = false ->
   rs_sessions (m_st x) = rs_sessions t /\ rs_activeConn (m_st x) = rs_activeConn t /\ exists e, m_res x = inl e).
Proof.
  intros Hc Hm Hs x. subst x. unfold handshake. rewrite M_gets_bind. cbn [id]. rewrite Hc.
  unfold mbind, M_bind. rewrite (createOrUpdate_existing _ _ _ _ _ l0) by done.
  pose proof (resume_cases l0 cid tok principal c t s Hs) as Hr. unfold m_res, m_st in *.
  destruct (resume l0 cid tok principal c t) as [[r t1] o]. cbn in *.
  destruct Hr as [(Hp & -> & e & ->)|[(Hp & Ha & E1 & E2 & e & ->)|(Hp & Ha & -> & Hact)]]; cbn.
  - split_and!; [done|done|eauto].
  - split_and!; [done|done|eauto].
  - split_and!.
    + intros l. destruct werr; cbn; [done|]. intros [= <-]. split_and!; [done|done|done|].
      destruct (authorizeResume sha256 (sc_resumeToken s) tok) as [ok tok'] eqn:Ea.
      destruct (authorizeResume_sound sha256 _ _ _ _ Ea) as ([Hok _] & _). cbn in Ha.
      destruct (Hok Ha) as (cur & last & Hcur & Hlast & i & Hi & Hit). eauto 10.
    + done.
    + intros [?|?]; [done|congruence].
Qed.

Theorem rejected_handshake_is_inert c req werr t e :
  checkHandshake c (reqDetail (rs_cfg t) req) req = inl e ->
  handshake c req werr t = (inl e, t, []).
Proof. intros Hc. unfold handshake. rewrite M_gets_bind. cbn [id]. by rewrite Hc. Qed.

(** What it takes to pass the checks: the right type, magic and version, the
    Authenticator's consent, and a client id. *)
Lemma checkHandshake_ok c dbg req cid tok principal :
  checkHandshake c dbg req = inr (cid, tok, principal) ->
  messageType d req = Some HandshakeRequest /\ ValidMagicAndVersion d req = true /\
  tok = handshakeTokenOf d req /\
  match authenticator with Some authn => authn c (Get req (AuthField d)) = inl principal | None => principal = "" end.
Proof.
  unfold checkHandshake, messageType. destruct (GetNumberField req (MessageTypeField d)) as [mt|]; [|done].
  destruct (negb (longOf mt =? HandshakeRequest)) eqn:E1; [done|].
  destruct (negb (ValidMagicAndVersion d req)) eqn:E2; [done|]. bool_to_prop.
  destruct authenticator as [authn|].
  - destruct (authn c (Get req (AuthField d))); [|done].
    destruct (GetNumberField req (ClientIdField d)); [|done]. intros [= <- <- <-]. by rewrite E1.
  - destruct (GetNumberField req (ClientIdField d)); [|done]. intros [= <- <- <-]. by rewrite E1.
Qed.

Lemma backoff_step n : nextBackoff (Z.min 1000 (5 * 2 ^ Z.of_nat n)) = Z.min 1000 (5 * 2 ^ Z.of_nat (S n)).
Proof.
  rewrite Nat2Z.inj_succ, Z.pow_succ_r by lia. pose proof (Z.pow_pos_nonneg 2 (Z.of_nat n) ltac:(lia) ltac:(lia)).
  unfold nextBackoff. destruct (_ =? 0) eqn:E0; bool_to_prop; [lia|].
  destruct (1000 <? _) eqn:E1; bool_to_prop; lia.
Qed.

Theorem accept_backoff_exact n :
  iter_fun nextBackoff (S n) 0 = Z.min 1000 (5 * 2 ^ Z.of_nat n) /\ 5 <= iter_fun nextBackoff (S n) 0 <= 1000.
Proof.
  assert (iter_fun nextBackoff (S n) 0 = Z.min 1000 (5 * 2 ^ Z.of_nat n)) as E.
  { induction n as [|n IH]; [done|]. by rewrite iter_fun_S, IH, backoff_step. }
  split; [done|]. rewrite E. pose proof (Z.pow_pos_nonneg 2 (Z.of_nat n) ltac:(lia) ltac:(lia)). lia.
Qed.

(** After Close, whatever else happens, an accepted connection is closed at
    once and never registered. *)
Theorem closed_server_accepts_nothing max cfg t t' c :
  reach srv_step (NewServerWithListener max cfg) t -> rs_closeOnce t = false ->
  reach srv_step (m_st (Server_Close t)) t' -> c ∉ rs_connMap t' ->
  m_res (acceptConn c t') = false /\ c ∈ rs_closedConns (m_st (acceptConn c t')) /\
  rs_liveConns (m_st (acceptConn c t')) = rs_liveConns t'.
Proof.
  intros Hr Hc Hr' Hn. destruct (srv_reach_inv _ _ (NewServer_inv max cfg) Hr) as [Hi _].
  assert (srv_step t (m_st (Server_Close t))) as Hstep by constructor.
  destruct (srv_reach_inv _ _ (srv_step_inv _ _ Hi Hstep) Hr') as [_ Hev].
  assert (rs_shutdown t' = true) as Hs.
  { apply (ev_shutdown _ _ Hev). unfold Server_Close. rewrite M_gets_bind. cbn [id]. rewrite Hc.
    rewrite !M_modify_bind, M_bind_st, M_modify_bind. cbn [emit m_st fst snd].
    by apply (ev_shutdown _ _ (evolves_close_all _ _)). }
  unfold acceptConn. rewrite M_gets_bind. cbn [id]. rewrite Hs.
  destruct (_ && _); unM; split_and!; try done; set_solver.
Qed.

End server.

Section server_witness.
#[local] Existing Instance RefValueLib.

Definition demo_cfg : serverConfig := mkServerConfig 2 1 4 None false.
Definition srv0 : rpcServer := NewServerWithListener 1 demo_cfg.
Definition no_pick (t : servingClient) (m : VMap) : bool := true.
Definition demo_srv_step := srv_step NewDialect demo_growcap no_pick.

(** A first connection, its session, and a second one over the cap. *)
Definition srv1 : rpcServer := m_st (acceptConn 1 srv0).
Definition srv2 : rpcServer := m_st (findOrCreate 7 "" "alice" 1 srv1).
Definition srv3 : rpcServer := m_st (publish NewDialect no_pick (inr 0%nat) 7 "" "alice" 1 srv2).
Definition srv4 : rpcServer := m_st (acceptConn 2 srv3).

Lemma srv3_reach : reach demo_srv_step srv0 srv3.
Proof.
  eapply reach_next; [eapply reach_next; [eapply reach_next; [apply reach_here|]|]|].
  - apply (sv_accept _ _ _ srv0 1). set_solver.
  - apply (sv_find _ _ _ srv1).
  - apply (sv_publish _ _ _ srv2); [done|]. intros l [= <-].
    exists (NewServingClient 7 "" "alice" ∅ demo_cfg). done.
Qed.

Lemma srv4_reach : reach demo_srv_step srv3 srv4.
Proof.
  eapply reach_next; [apply reach_here|]. apply (sv_accept _ _ _ srv3 2).
  change (rs_connMap srv3) with ({[1%nat]} ∪ (∅ : gset nat)). set_solver.
Qed.

Lemma connection_cap_holds_witness : rs_liveConns srv4 = 1 /\ rs_liveConns srv4 <= 1.
Proof.
  destruct (connection_cap_holds NewDialect demo_growcap no_pick 1 demo_cfg srv4) as (_ & _ & Hb).
  - eapply reach_trans; [apply srv3_reach|apply srv4_reach].
  - split; [reflexivity|]. apply Hb. lia.
Defined.

(** The session works on a frame, in between a function is registered. *)
Definition srv5 : rpcServer := m_st (storeFunction "f" (mkFunction "f" Any Any singleFunction (fun _ _ => Returned None)) srv4).
Definition srv6 : rpcServer :=
  m_st (on_session 0 (run_work NewDialect demo_growcap no_pick (WFrame (NewFunctionRequest NewDialect 1 "f" None))) srv5).

Lemma srv6_reach : reach demo_srv_step srv3 srv6.
Proof.
  eapply reach_next; [eapply reach_next; [apply srv4_reach|]|].
  - apply (sv_register _ _ _ srv4). reflexivity.
  - apply (sv_session _ _ _ srv5).
Qed.

Lemma sessions_never_change_hands_witness :
  rs_clientMap srv6 !! 7 = Some 0%nat /\
  exists s', rs_sessions srv6 !! 0%nat = Some s' /\ sc_principal s' = "alice".
Proof.
  destruct (sessions_never_change_hands NewDialect demo_growcap no_pick 1 demo_cfg srv3 srv6 7 0
    (NewServingClient 7 "" "alice" ∅ demo_cfg) srv3_reach srv6_reach) as (Hm & s' & Hs & _ & Hp).
  - reflexivity.
  - reflexivity.
  - split; [exact Hm|]. exists s'. split; [exact Hs|exact Hp].
Defined.

(** The session of alice is not given to bob. *)
Definition bob_authn : option (nat -> option Value -> string + goerror) := Some (fun _ _ => inl "bob").
Definition bob_request : VMap := Dialect_NewHandshakeRequest NewDialect 7 "".

Lemma session_resumption_guarded_witness :
  m_st (handshake NewDialect no_pick bob_authn 2 bob_request None srv3) = srv3.
Proof.
  destruct (session_resumption_guarded NewDialect no_pick bob_authn 2 bob_request None srv3 7 "" "bob" 0
    (NewServingClient 7 "" "alice" ∅ demo_cfg)) as (_ & Hst & _).
  - vm_compute. reflexivity.
  - reflexivity.
  - reflexivity.
  - apply Hst. discriminate.
Defined.

Lemma rejected_handshake_is_inert_witness :
  m_st (handshake NewDialect no_pick None 2 (NewStreamReady NewDialect (Long 1)) None srv3) = srv3.
Proof.
  rewrite (rejected_handshake_is_inert NewDialect no_pick None 2 (NewStreamReady NewDialect (Long 1)) None srv3
    (ErrPlain "on handshake, wrong message type")); reflexivity.
Defined.

Lemma closed_server_accepts_nothing_witness :
  m_res (acceptConn 9 (m_st (Server_Close NewDialect no_pick srv3))) = false.
Proof.
  destruct (closed_server_accepts_nothing NewDialect demo_growcap no_pick 1 demo_cfg srv3 (m_st (Server_Close NewDialect no_pick srv3)) 9)
    as (Hr & _).
  - apply srv3_reach.
  - reflexivity.
  - apply reach_here.
  - apply (bool_decide_unpack (9%nat ∉ rs_connMap (m_st (Server_Close NewDialect no_pick srv3)))). vm_compute. exact I.
  - exact Hr.
Defined.
End server_witness.
