(* ===== verification/ClientServing.v ===== *)
(** * Streams the client serves

    Models valueclient/serving.go: [clientServingRequest], the client's responder
    for a stream the server opens (reverse stream), and the goroutine that drains
    a handler's output channel.

    What it does to the client that owns it is an event: [VReply] (t.reply),
    [VDelete] (t.deleteServing) and [VCancel] (its CancelFunc); Client.v runs
    them. *)

From S2P Require Import Prelude Value RefValue Protocol Credit Pump FlowControl Request.

Inductive clientFnKind := cfnUnary | cfnOut | cfnIn | cfnChat.

#[export] Instance clientFnKind_eq_dec : EqDecision clientFnKind.
Proof. solve_decision. Defined.

(** streamKindFor *)
Definition streamKindFor (mt : Z) : clientFnKind :=
  if mt =? GetStreamRequest then cfnOut else if mt =? PutStreamRequest then cfnIn else cfnChat.

Section client_serving.
Context `{ValueLib} (d : Dialect) (growcap : nat -> nat).

Record clientServingRequest := mkVS {
  vs_ft : clientFnKind;
  vs_requestId : Value;
  vs_inPump : option (StreamPump (option Value));
  vs_sendCredit : option CreditGate;
  vs_cancel : option nat;
  vs_creditWindow : Z;
  vs_inboundDelivered : Z;
  vs_closed : bool;
  vs_inClosed : bool;
  vs_doneCloses : nat                     (* times done was closed *)
}.

Definition upd_vs_inPump f (t : clientServingRequest) : clientServingRequest :=
  mkVS (vs_ft t) (vs_requestId t) (f (vs_inPump t)) (vs_sendCredit t) (vs_cancel t) (vs_creditWindow t) (vs_inboundDelivered t) (vs_closed t) (vs_inClosed t) (vs_doneCloses t).
Definition upd_vs_sendCredit f (t : clientServingRequest) : clientServingRequest :=
  mkVS (vs_ft t) (vs_requestId t) (vs_inPump t) (f (vs_sendCredit t)) (vs_cancel t) (vs_creditWindow t) (vs_inboundDelivered t) (vs_closed t) (vs_inClosed t) (vs_doneCloses t).
Definition upd_vs_cancel f (t : clientServingRequest) : clientServingRequest :=
  mkVS (vs_ft t) (vs_requestId t) (vs_inPump t) (vs_sendCredit t) (f (vs_cancel t)) (vs_creditWindow t) (vs_inboundDelivered t) (vs_closed t) (vs_inClosed t) (vs_doneCloses t).
Definition upd_vs_creditWindow f (t : clientServingRequest) : clientServingRequest :=
  mkVS (vs_ft t) (vs_requestId t) (vs_inPump t) (vs_sendCredit t) (vs_cancel t) (f (vs_creditWindow t)) (vs_inboundDelivered t) (vs_closed t) (vs_inClosed t) (vs_doneCloses t).
Definition upd_vs_inboundDelivered f (t : clientServingRequest) : clientServingRequest :=
  mkVS (vs_ft t) (vs_requestId t) (vs_inPump t) (vs_sendCredit t) (vs_cancel t) (vs_creditWindow t) (f (vs_inboundDelivered t)) (vs_closed t) (vs_inClosed t) (vs_doneCloses t).
Definition upd_vs_closed f (t : clientServingRequest) : clientServingRequest :=
  mkVS (vs_ft t) (vs_requestId t) (vs_inPump t) (vs_sendCredit t) (vs_cancel t) (vs_creditWindow t) (vs_inboundDelivered t) (f (vs_closed t)) (vs_inClosed t) (vs_doneCloses t).
Definition upd_vs_inClosed f (t : clientServingRequest) : clientServingRequest :=
  mkVS (vs_ft t) (vs_requestId t) (vs_inPump t) (vs_sendCredit t) (vs_cancel t) (vs_creditWindow t) (vs_inboundDelivered t) (vs_closed t) (f (vs_inClosed t)) (vs_doneCloses t).
Definition upd_vs_doneCloses f (t : clientServingRequest) : clientServingRequest :=
  mkVS (vs_ft t) (vs_requestId t) (vs_inPump t) (vs_sendCredit t) (vs_cancel t) (vs_creditWindow t) (vs_inboundDelivered t) (vs_closed t) (vs_inClosed t) (f (vs_doneCloses t)).
Inductive vs_ev :=
| VReply (m : VMap)
| VDelete (id : Z)
| VCancel (c : nat).

Abbreviation VS := (M clientServingRequest vs_ev).

Definition inbound (ft : clientFnKind) : bool := bool_decide (ft = cfnIn) || bool_decide (ft = cfnChat).
Definition outbound (ft : clientFnKind) : bool := bool_decide (ft = cfnOut) || bool_decide (ft = cfnChat).

Definition newClientServingRequest (ft : clientFnKind) (reqId : Value) : clientServingRequest :=
  mkVS ft reqId None (if outbound ft then Some NewCreditGate else None) None 0 0 false false 0.

Definition ClientServing_setupInbound (maxPending : Z) (t : clientServingRequest) : clientServingRequest :=
  let maxPending := if maxPending <=? 0 then DefaultMaxPending else maxPending in
  upd_vs_inPump (fun _ => Some (NewStreamPump maxPending)) (upd_vs_creditWindow (fun _ => maxPending) t).

Definition ClientServing_grantInitialInbound : VS unit :=
  t ← gets id; emit (VReply (NewStreamCredit d (vs_requestId t) (vs_creditWindow t))).

(** grantInbound, the pump's deliver hook. *)
Definition ClientServing_grantInbound : VS unit :=
  t ← gets id;
  let '(n, g) := grantRecv (vs_creditWindow t) (vs_inboundDelivered t) in
  modify (upd_vs_inboundDelivered (fun _ => n)) ≫= fun _ =>
  match g with
  | Some k => emit (VReply (NewStreamCredit d (vs_requestId t) k))
  | None => mret tt
  end.

Definition ClientServing_cancelCtx : VS unit :=
  t ← gets id; match vs_cancel t with Some c => emit (VCancel c) | None => mret tt end.

Definition ClientServing_closeInboundChan : VS unit :=
  t ← gets id;
  if vs_inClosed t then mret tt
  else modify (upd_vs_inClosed (fun _ => true)) ≫= fun _ => modify (upd_vs_inPump (fmap Close)).

Definition ClientServing_Close : VS unit :=
  t ← gets id;
  if vs_closed t then mret tt
  else
    modify (upd_vs_closed (fun _ => true)) ≫= fun _ =>
    modify (upd_vs_doneCloses S) ≫= fun _ =>
    ClientServing_cancelCtx ≫= fun _ =>
    modify (upd_vs_sendCredit (fmap CloseGate)) ≫= fun _ =>
    modify (upd_vs_inClosed (fun _ => true)) ≫= fun _ =>
    modify (upd_vs_inPump (fmap Stop)).

Definition ClientServing_deleteServing : VS unit := t ← gets id; emit (VDelete (longOf (vs_requestId t))).

Definition ClientServing_closeRequest : VS unit :=
  ClientServing_deleteServing ≫= fun _ => ClientServing_Close.

(** inPump.Push of the frame's value, when it has one and there is a pump. *)
Definition ClientServing_push (req : VMap) : VS unit :=
  t ← gets id;
  match fieldOrNil req (ValueField d), vs_inPump t with
  | Some v, Some p => modify (upd_vs_inPump (fun _ => Some (Push None growcap (Some v) p).2))
  | _, _ => mret tt
  end.

Definition serveRunning (msgType : Z) (req : VMap) : VS unit :=
  if msgType =? CancelRequest then ClientServing_closeRequest
  else if msgType =? StreamValue then
    ClientServing_push req ≫= fun _ =>
    t ← gets id;
    when (match vs_inPump t with Some p => Overflowed p | None => false end)
      (emit (VReply (NewFunctionError d (vs_requestId t) CodeResourceExhausted
         ("inbound stream " +:+ pretty (longOf (vs_requestId t)) +:+
          " truncated: peer exceeded flow-control credit"))) ≫= fun _ =>
       ClientServing_closeRequest)
  else if msgType =? StreamEnd then
    ClientServing_push req ≫= fun _ =>
    ClientServing_closeInboundChan ≫= fun _ =>
    t ← gets id;
    if decide (vs_ft t = cfnChat) then mret tt
    else ClientServing_deleteServing ≫= fun _ => ClientServing_cancelCtx
  else if msgType =? StreamCredit then
    match GetNumberField req (CreditField d) with
    | Some cr => modify (upd_vs_sendCredit (fmap (Grant (longOf cr))))
    | None => mret tt
    end
  else mret tt.

(** ** outgoingStreamer *)

(** The case of its select that fired. *)
Inductive out_case :=
| OutValue (v : option Value)   (* a value of outC *)
| OutClosed                     (* outC is closed *)
| OutDone.                      (* done is closed *)

Inductive streamer_state := Streaming | Waiting (v : option Value) | Exited.

(** The rest of the iteration once a value is in hand: gated by the peer's
    credit; [Waiting] while Acquire blocks. *)
Definition streamer_send (val : option Value) : VS streamer_state :=
  t ← gets id;
  match vs_sendCredit t with
  | Some g =>
      match Acquire g with
      | None => mret (Waiting val)
      | Some (false, _) => ClientServing_closeRequest ≫= fun _ => mret Exited
      | Some (true, g') =>
          modify (upd_vs_sendCredit (fun _ => Some g')) ≫= fun _ =>
          emit (VReply (NewStreamValue d (vs_requestId t) val)) ≫= fun _ => mret Streaming
      end
  | None => emit (VReply (NewStreamValue d (vs_requestId t) val)) ≫= fun _ => mret Streaming
  end.

(** One iteration. *)
Definition streamer_iter (c : out_case) : VS streamer_state :=
  t ← gets id;
  let val := match c with OutValue v => v | _ => None end in
  let ok := match c with OutValue _ => true | _ => false end in
  if negb ok || vs_closed t then
    emit (VReply (NewStreamEnd d (vs_requestId t) val)) ≫= fun _ =>
    ClientServing_closeRequest ≫= fun _ => mret Exited
  else streamer_send val.

(** The goroutine against a handler whose channel yields [cs], until it waits for
    credit, exits or has consumed them. *)
Fixpoint streamer_loop (cs : list out_case) : VS streamer_state :=
  match cs with
  | [] => mret Streaming
  | c :: cs' =>
      streamer_iter c ≫= fun s =>
      match s with Streaming => streamer_loop cs' | _ => mret s end
  end.

Definition ClientServing_outgoingStreamer (cs : list out_case) : VS streamer_state :=
  t ← gets id; emit (VReply (NewStreamReady d (vs_requestId t))) ≫= fun _ => streamer_loop cs.

(** ** Everything that can happen to a served stream *)

Inductive vs_op :=
| VOpGrantInitial
| VOpFrame (msgType : Z) (req : VMap)
| VOpReady
| VOpIter (c : out_case)
| VOpSend (v : option Value)            (* a waiting Acquire is tried again *)
| VOpPumpTake
| VOpPumpDeliver
| VOpPumpAbandon
| VOpCloseInboundStreamReply            (* the in-stream handler returned nil *)
| VOpCloseRequest
| VOpClose.

Definition on_inPump (f : StreamPump (option Value) -> option (StreamPump (option Value))) : VS bool :=
  t ← gets id;
  match vs_inPump t with
  | Some p =>
      match f p with
      | Some p' => modify (upd_vs_inPump (fun _ => Some p')) ≫= fun _ => mret true
      | None => mret false
      end
  | None => mret false
  end.

Definition run_vs_op (op : vs_op) : VS unit :=
  match op with
  | VOpGrantInitial => ClientServing_grantInitialInbound
  | VOpFrame mt req => serveRunning mt req
  | VOpReady | VOpCloseInboundStreamReply =>
      t ← gets id; emit (VReply (NewStreamReady d (vs_requestId t)))
  | VOpIter c => streamer_iter c ≫= fun _ => mret tt
  | VOpSend v => streamer_send v ≫= fun _ => mret tt
  | VOpPumpTake => on_inPump (fun p => match pc p with AtLock => run_locked None p | _ => None end) ≫= fun _ => mret tt
  | VOpPumpDeliver =>
      b ← on_inPump (fun p => match pc p with Sending v => Some (run_sent v p) | _ => None end);
      if b : bool then ClientServing_grantInbound else mret tt
  | VOpPumpAbandon =>
      on_inPump (fun p => match pc p with
                          | Sending _ => if stopped p then Some (finish p) else None
                          | _ => None
                          end) ≫= fun _ => mret tt
  | VOpCloseRequest => ClientServing_closeRequest
  | VOpClose => ClientServing_Close
  end.

(** ** The lifecycle invariant *)

(** [vs_inv c]: what is released exactly once was released exactly when the
    stream closed, and then everybody who waits on it was let go; [c] is its
    cancel function. *)
Record vs_inv (c : nat) (t : clientServingRequest) (o : list vs_ev) : Prop := {
  vi_done : vs_doneCloses t = b2n (vs_closed t);
  vi_cancel : vs_cancel t = Some c;
  vi_cancelled : vs_closed t = true -> VCancel c ∈ o;
  vi_gate : forall g, vs_sendCredit t = Some g -> vs_closed t = true -> closed g = true;
  vi_pump : forall p, vs_inPump t = Some p ->
    pump_wf None p /\ (vs_closed t = true -> stopped p = true) /\
    (vs_inClosed t = true -> inputEnd p = true \/ stopped p = true)
}.

Section preservation.
Hypothesis Hgrow : forall n, (n < growcap n)%nat.
Context (c : nat).

Lemma vs_emit e : keeps (vs_inv c) (emit e).
Proof.
  apply keeps_emit. intros t o []. split; try done. intros Hc. apply elem_of_app. auto.
Qed.

Lemma vs_closeInboundChan : keeps (vs_inv c) ClientServing_closeInboundChan.
Proof.
  intros t o []. unfold ClientServing_closeInboundChan. unM.
  destruct (vs_inClosed t) eqn:E; cbn; rewrite app_nil_r; [by split; rewrite ?E|].
  split; cbn; try done. intros p Hp. destruct (vs_inPump t) as [q|]; [|done]. injection Hp as <-.
  destruct (vi_pump0 q eq_refl) as (Hwf & Hs & _). split_and!; [by apply Close_wf|exact Hs|by left].
Qed.

Lemma vs_Close : keeps (vs_inv c) ClientServing_Close.
Proof.
  intros t o []. unfold ClientServing_Close, ClientServing_cancelCtx. unM.
  destruct (vs_closed t) eqn:E; cbn; [rewrite app_nil_r; by split; rewrite ?E|].
  rewrite vi_cancel0. cbn. split; cbn; try done.
  - by rewrite vi_done0.
  - intros _. apply elem_of_app. right. by apply list_elem_of_singleton.
  - intros g Hg _. destruct (vs_sendCredit t); [|done]. by injection Hg as <-.
  - intros p Hp. destruct (vs_inPump t) as [q|]; [|done]. injection Hp as <-.
    destruct (vi_pump0 q eq_refl) as (Hwf & _ & _). split_and!; [by apply Stop_wf|done|by right].
Qed.

Lemma vs_closeRequest : keeps (vs_inv c) ClientServing_closeRequest.
Proof. unfold ClientServing_closeRequest, ClientServing_deleteServing. keeps_split; [apply vs_emit|apply vs_Close]. Qed.

(** Operations on the pump keep it well-formed and do not reopen it. *)
Lemma vs_pump_update t o p p' :
  vs_inv c t o -> vs_inPump t = Some p -> pump_wf None p' ->
  (inputEnd p = true -> inputEnd p' = true) -> stopped p' = stopped p ->
  vs_inv c (upd_vs_inPump (fun _ => Some p') t) o.
Proof.
  intros [] Hp Hwf Hi Hs. split; cbn; try done. intros q [= <-].
  destruct (vi_pump0 p Hp) as (_ & H1 & H2). rewrite Hs. split_and!; [done|done|].
  intros Hc. destruct (H2 Hc); auto.
Qed.

Lemma Push_stopped v (p : StreamPump (option Value)) : stopped (Push None growcap v p).2 = stopped p.
Proof. unfold Push. repeat (case_match; cbn); done. Qed.

Lemma vs_push req : keeps (vs_inv c) (ClientServing_push req).
Proof.
  intros t o Hi. unfold ClientServing_push. rewrite M_gets_bind. cbn [id].
  assert (vs_inv c (m_st (A := unit) (E := vs_ev) (tt, t, [])) (o ++ m_out (tt, t, []))) as Hret
    by (cbn; by rewrite app_nil_r).
  destruct (fieldOrNil req (ValueField d)) as [v|]; [|done].
  destruct (vs_inPump t) as [p|] eqn:Ep; [|done]. unfold m_st, m_out. cbn. rewrite app_nil_r.
  pose proof (Push_stopped (Some v) p) as Hst.
  destruct (Push None growcap (Some v) p) as [b p'] eqn:EP. cbn in *.
  eapply vs_pump_update; [exact Hi|exact Ep|..]; [|by eapply Push_input|done].
  eapply Push_wf; [exact Hgrow|by eapply vi_pump|exact EP].
Qed.

Lemma vs_cancelCtx : keeps (vs_inv c) ClientServing_cancelCtx.
Proof. unfold ClientServing_cancelCtx. keeps_split. apply vs_emit. Qed.

(** Updates of the gate that do not reopen it. *)
Lemma vs_gate f :
  (forall g g', f (Some g) = Some g' -> closed g = true -> closed g' = true) -> f None = None ->
  keeps (vs_inv c) (modify (upd_vs_sendCredit f)).
Proof.
  intros Hf Hn. apply keeps_modify. intros t o []. split; cbn; try done.
  intros g' Hg Hc. destruct (vs_sendCredit t) as [g|]; [|congruence]. eapply Hf; [exact Hg|eauto].
Qed.

Lemma vs_serveRunning mt req : keeps (vs_inv c) (serveRunning mt req).
Proof.
  unfold serveRunning, ClientServing_deleteServing. keeps_split;
    auto using vs_push, vs_emit, vs_closeRequest, vs_closeInboundChan, vs_cancelCtx.
  apply vs_gate; [|done]. intros g g' [= <-]. by rewrite Grant_closed.
Qed.

Lemma vs_streamer_send v : keeps (vs_inv c) (streamer_send v).
Proof.
  intros t o Hi. unfold streamer_send. rewrite M_gets_bind. cbn [id].
  destruct (vs_sendCredit t) as [g|] eqn:Eg.
  - destruct (Acquire g) as [[[] g']|] eqn:Ea.
    + rewrite M_modify_bind.
      assert (vs_inv c (upd_vs_sendCredit (fun _ => Some g') t) o) as Hi'.
      { destruct Hi. split; cbn; try done. intros g0 [= <-] Hc. rewrite (Acquire_closed _ _ _ Ea). eauto. }
      revert Hi'. generalize (upd_vs_sendCredit (fun _ => Some g') t). intros t' Hi'.
      eapply (keeps_bind (vs_inv c)); [apply vs_emit|intros; apply keeps_ret|exact Hi'].
    + eapply (keeps_bind (vs_inv c)); [apply vs_closeRequest|intros; apply keeps_ret|exact Hi].
    + by apply keeps_ret.
  - eapply (keeps_bind (vs_inv c)); [apply vs_emit|intros; apply keeps_ret|exact Hi].
Qed.

Lemma vs_grantInbound : keeps (vs_inv c) ClientServing_grantInbound.
Proof.
  unfold ClientServing_grantInbound. keeps_split; [apply keeps_modify|apply vs_emit].
  intros t1 o1 []. by split.
Qed.

Lemma vs_on_inPump f :
  (forall p p', pump_wf None p -> f p = Some p' ->
     pump_wf None p' /\ inputEnd p' = inputEnd p /\ stopped p' = stopped p) ->
  keeps (vs_inv c) (on_inPump f).
Proof.
  intros Hf t o Hi. unfold on_inPump. rewrite M_gets_bind. cbn [id].
  destruct (vs_inPump t) as [p|] eqn:Ep; [|by apply keeps_ret].
  destruct (f p) as [p'|] eqn:E; [|by apply keeps_ret]. unM. rewrite app_nil_r.
  assert (pump_wf None p) as Hwf by (by eapply vi_pump). destruct (Hf p p' Hwf E) as (Hwf' & Hin & Hst).
  eapply vs_pump_update; [exact Hi|exact Ep|done|congruence|done].
Qed.

Lemma run_locked_stopped (p p' : StreamPump (option Value)) :
  run_locked None p = Some p' -> stopped p' = stopped p.
Proof. unfold run_locked. repeat case_match; intros [= <-]; done. Qed.

Lemma run_vs_op_inv op : keeps (vs_inv c) (run_vs_op op).
Proof.
  destruct op; cbn [run_vs_op];
    [ | apply vs_serveRunning | | | | | | | | apply vs_closeRequest | apply vs_Close].
  1: unfold ClientServing_grantInitialInbound.
  all: keeps_split; auto using vs_emit, vs_streamer_send, vs_grantInbound.
  - unfold streamer_iter. keeps_split; auto using vs_emit, vs_closeRequest, vs_streamer_send.
  - apply vs_on_inPump. intros p p' Hwf E. destruct (pump_take_ok growcap Hgrow p p' Hwf E).
    split_and!; [done..|]. destruct (pc p); [by apply run_locked_stopped|done..].
  - apply vs_on_inPump. intros p p' Hwf E. destruct (pump_deliver_ok p p' Hwf E).
    split_and!; [done..|]. destruct (pc p); [done|by injection E as <-|done].
  - apply vs_on_inPump. intros p p' Hwf E. destruct (pump_abandon_ok p p' Hwf E).
    split_and!; [done..|]. destruct (pc p), (stopped p) eqn:Es; try done; injection E as <-; exact Es.
Qed.

End preservation.

(** The object serveInboundStream registers, with cancel function [c]. *)
Definition newServing (ft : clientFnKind) (reqId : Value) (maxPending : Z) (c : nat) : clientServingRequest :=
  let sr := upd_vs_cancel (fun _ => Some c) (newClientServingRequest ft reqId) in
  if inbound ft then ClientServing_setupInbound maxPending sr else sr.

Lemma newServing_inv ft reqId mp c : vs_inv c (newServing ft reqId mp c) [].
Proof.
  unfold newServing. destruct (inbound ft); split; cbn; try done.
  intros p [= <-]. split_and!; [apply NewStreamPump_wf|done..].
Qed.

(** C35: A stream the client serves, under any sequence of frames, pump and
    streamer steps and closes: its done channel is closed at most once, and
    once it is closed its handler context was cancelled, its credit gate is
    closed, its pump is stopped and takes no value; after the inbound side
    ended no value is accepted either. *)
Theorem reverse_stream_released ft reqId mp c ops :
  (forall n, (n < growcap n)%nat) ->
  let r := seqM (map run_vs_op ops) (newServing ft reqId mp c) in
  let t := m_st r in
  (vs_doneCloses t <= 1)%nat /\
  (vs_closed t = true ->
     vs_doneCloses t = 1%nat /\ VCancel c ∈ m_out r /\
     (forall g, vs_sendCredit t = Some g -> Acquire g = Some (false, g)) /\
     (forall p, vs_inPump t = Some p -> stopped p = true /\ forall v, (Push None growcap v p).1 = false)) /\
  (vs_inClosed t = true -> forall p, vs_inPump t = Some p -> forall v, (Push None growcap v p).1 = false).
Proof.
  intros Hgrow r t. assert (vs_inv c t (m_out r)) as [].
  { subst t r. apply (keeps_run (vs_inv c)); [|apply newServing_inv].
    apply keeps_seqM, Forall_forall. intros m Hm. apply list_elem_of_In, in_map_iff in Hm as (op & <- & _).
    by apply run_vs_op_inv. }
  assert (forall p v, inputEnd p = true \/ stopped p = true -> (Push (None : option Value) growcap v p).1 = false) as Hp.
  { intros p v [E|E]; unfold Push; rewrite E; [done|by rewrite orb_true_r]. }
  split_and!.
  - rewrite vi_done0. destruct (vs_closed t); cbn; lia.
  - intros Hc. split_and!; [by rewrite vi_done0, Hc|auto| |].
    + intros g Hg. unfold Acquire. by rewrite (vi_gate0 g Hg Hc), andb_false_r.
    + intros p Ep. destruct (vi_pump0 p Ep) as (_ & Hs & _). split; [auto|]. intros v. apply Hp. auto.
  - intros Hc p Ep v. apply Hp. by apply (vi_pump0 p Ep).
Qed.

(** ** The streamer on a cooperating peer *)

Lemma streamer_loop_values vs t g :
  vs_closed t = false -> vs_sendCredit t = Some g -> closed g = false ->
  Z.of_nat (length vs) <= credit g < two63 ->
  streamer_loop (map OutValue vs) t =
    (Streaming, upd_vs_sendCredit (fun _ => Some (mkGate (credit g - Z.of_nat (length vs)) false)) t,
     map (fun v => VReply (NewStreamValue d (vs_requestId t) v)) vs).
Proof.
  revert t g. induction vs as [|v vs IH]; intros t g Hc Hg Ho Hn; cbn [map streamer_loop length].
  - unfold mret, M_ret. do 2 f_equal. destruct t, g. cbn in *. subst. unfold upd_vs_sendCredit. cbn.
    do 3 f_equal. lia.
  - unfold streamer_iter, mbind, M_bind. cbn [gets id negb orb]. rewrite Hc. cbn [negb orb].
    unfold streamer_send. rewrite M_gets_bind. cbn [id]. rewrite Hg. unfold Acquire.
    cbn [length] in Hn. assert ((credit g <=? 0) = false) as -> by (apply Z.leb_gt; lia).
    rewrite Ho. cbn [andb negb].
    rewrite M_modify_bind, wrap64_id by (unfold in_int64, two63 in *; lia).
    unfold mbind, M_bind, emit, mret, M_ret.
    rewrite (IH _ (mkGate (credit g - 1) false)); [|done|done|done|cbn in *; lia].
    replace (credit g - Z.of_nat (S (length vs))) with (credit g - 1 - Z.of_nat (length vs)) by lia. done.
Qed.

Lemma streamer_loop_app cs1 cs2 t :
  streamer_loop (cs1 ++ cs2) t =
  (streamer_loop cs1 ≫= fun s => match s with Streaming => streamer_loop cs2 | _ => mret s end) t.
Proof.
  revert t. induction cs1 as [|c cs1 IH]; intros t; cbn [app streamer_loop]; [by rewrite M_left_id|].
  rewrite M_assoc. unfold mbind at 1 2, M_bind. destruct (streamer_iter c t) as [[s t'] o].
  destruct s; [by rewrite IH|done..].
Qed.

(** The streamer of a stream the client serves, given enough credit, sends
    ready, every value its handler produced in order, and end, then
    unregisters the stream and cancels its context. *)
Theorem reverse_stream_sends_all ft reqId mp c vs n :
  outbound ft = true -> Z.of_nat (length vs) <= n < two63 ->
  let start := m_st (serveRunning StreamCredit (NewStreamCredit d reqId n) (newServing ft reqId mp c)) in
  let x := ClientServing_outgoingStreamer (map OutValue vs ++ [OutClosed]) start in
  m_res x = Exited /\ vs_closed (m_st x) = true /\
  m_out x = VReply (NewStreamReady d reqId) ::
    map (fun v => VReply (NewStreamValue d reqId v)) vs ++
    [VReply (NewStreamEnd d reqId None); VDelete (longOf reqId); VCancel c].
Proof.
  intros Hft Hn start x.
  assert (exists g, vs_sendCredit start = Some g /\ closed g = false /\ credit g = n /\
    vs_closed start = false /\ vs_requestId start = reqId /\ vs_cancel start = Some c) as (g & Hg & Ho & Hcr & Hc & Hid & Hca).
  { subst start. unfold serveRunning. cbn [Z.eqb Pos.eqb StreamCredit CancelRequest StreamValue StreamEnd].
    unfold NewStreamCredit. rewrite GetNumberField_Put_eq by apply kind_Long.
    rewrite longOf_Long by (unfold in_int64, two63 in *; lia).
    unfold newServing, newClientServingRequest. rewrite Hft. unM.
    unfold Grant. destruct (n <=? 0) eqn:E; destruct (inbound ft); cbn; eexists; split_and!; try done;
      bool_to_prop; cbn; rewrite ?wrap64_id; unfold in_int64, two63 in *; lia. }
  clearbody start. subst x. unfold ClientServing_outgoingStreamer. rewrite M_gets_bind. cbn [id].
  unfold mbind, M_bind, emit. rewrite streamer_loop_app. unfold mbind, M_bind.
  rewrite (streamer_loop_values vs start g) by (done || lia).
  cbn [streamer_loop]. unfold streamer_iter, ClientServing_closeRequest, ClientServing_deleteServing,
    ClientServing_Close, ClientServing_cancelCtx. unM. rewrite Hc. cbn. rewrite Hca. cbn. by rewrite Hid.
Qed.

End client_serving.

(** ** Witnesses *)

Section client_serving_witness.
#[local] Existing Instance RefValueLib.

Definition vs_grow (n : nat) : nat := S (2 * n).

Lemma reverse_stream_released_witness :
  (vs_doneCloses (m_st (seqM (map (run_vs_op NewDialect vs_grow)
     [VOpGrantInitial; VOpFrame CancelRequest EmptyMap; VOpClose; VOpFrame CancelRequest EmptyMap])
     (newServing cfnChat (Long (-1)) 4 7))) <= 1)%nat.
Proof.
  apply (reverse_stream_released NewDialect vs_grow cfnChat (Long (-1)) 4 7). intros n. unfold vs_grow. lia.
Defined.

Lemma reverse_stream_sends_all_witness :
  m_res (ClientServing_outgoingStreamer NewDialect (map OutValue [Some (Long 5); Some (Long 6)] ++ [OutClosed])
    (m_st (serveRunning NewDialect vs_grow StreamCredit (NewStreamCredit NewDialect (Long (-1)) 8)
      (newServing cfnOut (Long (-1)) 4 7)))) = Exited.
Proof.
  apply (reverse_stream_sends_all NewDialect vs_grow cfnOut (Long (-1)) 4 7 [Some (Long 5); Some (Long 6)] 8);
    [reflexivity|split; [vm_compute; discriminate|reflexivity]].
Defined.
End client_serving_witness.
