(* ===== verification/Client.v ===== *)
(** * The client

    Models valueclient/client.go with the connection it keeps (connection.go,
    sync_conn.go): connecting and the session's resumption token, requests and
    the frames that answer them, reconnecting, and the reverse calls and streams
    the server may open.

    In-flight requests are heap objects ([cl_requests], see Request.v) published
    in [cl_requestCtxMap]; streams the client serves likewise (ClientServing.v).
    A connection is a number; [SendRequest] on it is the event [CSend].  What a
    dial meets is an argument ([dial_env]).  Methods that wait are split at the
    wait: the part before it returns the request, the part after takes what was
    received. *)

From S2P Require Import Prelude Value RefValue Protocol Verify Sha256 HashChain Credit Pump.
From S2P Require Import FlowControl Request Metadata ClientServing.

Definition ErrConnectionLost : goerror := ErrRpc CodeUnavailable "connection lost during reconnect".

Record ReconnectPolicy := mkPolicy {
  rp_ReplayUnary : option (string -> bool);
  rp_InitialBackoff : Z;                   (* durations in nanoseconds *)
  rp_MaxBackoff : Z;
  rp_MaxAttempts : Z;
  rp_Jitter : bool
}.

Definition DefaultInitialBackoff : Z := 100 * 1000000.
Definition DefaultMaxBackoff : Z := 30 * 1000000000.

Section client.
Context `{ValueLib} (d : Dialect) (growcap : nat -> nat).

(** A handler the client registered; [cf_handler] stands for the callback of its
    kind, user code: a result (or an established stream), or an error. *)
Record clientFunction := mkCF {
  cf_ft : clientFnKind;
  cf_args : TypeDef;
  cf_res : TypeDef;
  cf_handler : reqctx -> option Value -> option Value + goerror
}.

Record rpcClient := mkClient {
  cl_clientId : Z;
  cl_conn : option nat;                    (* the connection of syncConn *)
  cl_nextConn : nat;
  cl_closedConns : gset nat;
  cl_lastRequest : Z;
  cl_reconnects : Z;
  cl_requestCtxMap : gmap Z nat;           (* request id -> object *)
  cl_requests : gmap nat rpcRequestCtx;
  cl_nextLoc : nat;
  cl_timeoutMls : Z;
  cl_monitor : bool;                       (* perfMonitor is set *)
  cl_shuttingDown : bool;
  cl_reconnecting : bool;
  cl_closed : bool;                        (* the closed channel is closed *)
  cl_resumeChain : option HashChain;
  cl_established : bool;
  cl_credential : option Value;
  cl_maxPending : Z;
  cl_metadata : option (reqctx -> Metadata);
  cl_reconnect : ReconnectPolicy;
  cl_functionMap : gmap string clientFunction;
  cl_servingMap : gmap Z nat;              (* server-initiated id -> stream *)
  cl_servings : gmap nat clientServingRequest;
  cl_nextServing : nat;
  cl_nextCtx : nat;
  cl_cancelled : gset nat;                 (* handler contexts whose cancel ran *)
  cl_baseCancelled : bool
}.

Definition upd_cl_conn f (t : rpcClient) : rpcClient :=
  mkClient (cl_clientId t) (f (cl_conn t)) (cl_nextConn t) (cl_closedConns t) (cl_lastRequest t) (cl_reconnects t) (cl_requestCtxMap t) (cl_requests t) (cl_nextLoc t) (cl_timeoutMls t) (cl_monitor t) (cl_shuttingDown t) (cl_reconnecting t) (cl_closed t) (cl_resumeChain t) (cl_established t) (cl_credential t) (cl_maxPending t) (cl_metadata t) (cl_reconnect t) (cl_functionMap t) (cl_servingMap t) (cl_servings t) (cl_nextServing t) (cl_nextCtx t) (cl_cancelled t) (cl_baseCancelled t).
Definition upd_cl_nextConn f (t : rpcClient) : rpcClient :=
  mkClient (cl_clientId t) (cl_conn t) (f (cl_nextConn t)) (cl_closedConns t) (cl_lastRequest t) (cl_reconnects t) (cl_requestCtxMap t) (cl_requests t) (cl_nextLoc t) (cl_timeoutMls t) (cl_monitor t) (cl_shuttingDown t) (cl_reconnecting t) (cl_closed t) (cl_resumeChain t) (cl_established t) (cl_credential t) (cl_maxPending t) (cl_metadata t) (cl_reconnect t) (cl_functionMap t) (cl_servingMap t) (cl_servings t) (cl_nextServing t) (cl_nextCtx t) (cl_cancelled t) (cl_baseCancelled t).
Definition upd_cl_closedConns f (t : rpcClient) : rpcClient :=
  mkClient (cl_clientId t) (cl_conn t) (cl_nextConn t) (f (cl_closedConns t)) (cl_lastRequest t) (cl_reconnects t) (cl_requestCtxMap t) (cl_requests t) (cl_nextLoc t) (cl_timeoutMls t) (cl_monitor t) (cl_shuttingDown t) (cl_reconnecting t) (cl_closed t) (cl_resumeChain t) (cl_established t) (cl_credential t) (cl_maxPending t) (cl_metadata t) (cl_reconnect t) (cl_functionMap t) (cl_servingMap t) (cl_servings t) (cl_nextServing t) (cl_nextCtx t) (cl_cancelled t) (cl_baseCancelled t).
Definition upd_cl_lastRequest f (t : rpcClient) : rpcClient :=
  mkClient (cl_clientId t) (cl_conn t) (cl_nextConn t) (cl_closedConns t) (f (cl_lastRequest t)) (cl_reconnects t) (cl_requestCtxMap t) (cl_requests t) (cl_nextLoc t) (cl_timeoutMls t) (cl_monitor t) (cl_shuttingDown t) (cl_reconnecting t) (cl_closed t) (cl_resumeChain t) (cl_established t) (cl_credential t) (cl_maxPending t) (cl_metadata t) (cl_reconnect t) (cl_functionMap t) (cl_servingMap t) (cl_servings t) (cl_nextServing t) (cl_nextCtx t) (cl_cancelled t) (cl_baseCancelled t).
Definition upd_cl_reconnects f (t : rpcClient) : rpcClient :=
  mkClient (cl_clientId t) (cl_conn t) (cl_nextConn t) (cl_closedConns t) (cl_lastRequest t) (f (cl_reconnects t)) (cl_requestCtxMap t) (cl_requests t) (cl_nextLoc t) (cl_timeoutMls t) (cl_monitor t) (cl_shuttingDown t) (cl_reconnecting t) (cl_closed t) (cl_resumeChain t) (cl_established t) (cl_credential t) (cl_maxPending t) (cl_metadata t) (cl_reconnect t) (cl_functionMap t) (cl_servingMap t) (cl_servings t) (cl_nextServing t) (cl_nextCtx t) (cl_cancelled t) (cl_baseCancelled t).
Definition upd_cl_requestCtxMap f (t : rpcClient) : rpcClient :=
  mkClient (cl_clientId t) (cl_conn t) (cl_nextConn t) (cl_closedConns t) (cl_lastRequest t) (cl_reconnects t) (f (cl_requestCtxMap t)) (cl_requests t) (cl_nextLoc t) (cl_timeoutMls t) (cl_monitor t) (cl_shuttingDown t) (cl_reconnecting t) (cl_closed t) (cl_resumeChain t) (cl_established t) (cl_credential t) (cl_maxPending t) (cl_metadata t) (cl_reconnect t) (cl_functionMap t) (cl_servingMap t) (cl_servings t) (cl_nextServing t) (cl_nextCtx t) (cl_cancelled t) (cl_baseCancelled t).
Definition upd_cl_requests f (t : rpcClient) : rpcClient :=
  mkClient (cl_clientId t) (cl_conn t) (cl_nextConn t) (cl_closedConns t) (cl_lastRequest t) (cl_reconnects t) (cl_requestCtxMap t) (f (cl_requests t)) (cl_nextLoc t) (cl_timeoutMls t) (cl_monitor t) (cl_shuttingDown t) (cl_reconnecting t) (cl_closed t) (cl_resumeChain t) (cl_established t) (cl_credential t) (cl_maxPending t) (cl_metadata t) (cl_reconnect t) (cl_functionMap t) (cl_servingMap t) (cl_servings t) (cl_nextServing t) (cl_nextCtx t) (cl_cancelled t) (cl_baseCancelled t).
Definition upd_cl_nextLoc f (t : rpcClient) : rpcClient :=
  mkClient (cl_clientId t) (cl_conn t) (cl_nextConn t) (cl_closedConns t) (cl_lastRequest t) (cl_reconnects t) (cl_requestCtxMap t) (cl_requests t) (f (cl_nextLoc t)) (cl_timeoutMls t) (cl_monitor t) (cl_shuttingDown t) (cl_reconnecting t) (cl_closed t) (cl_resumeChain t) (cl_established t) (cl_credential t) (cl_maxPending t) (cl_metadata t) (cl_reconnect t) (cl_functionMap t) (cl_servingMap t) (cl_servings t) (cl_nextServing t) (cl_nextCtx t) (cl_cancelled t) (cl_baseCancelled t).
Definition upd_cl_timeoutMls f (t : rpcClient) : rpcClient :=
  mkClient (cl_clientId t) (cl_conn t) (cl_nextConn t) (cl_closedConns t) (cl_lastRequest t) (cl_reconnects t) (cl_requestCtxMap t) (cl_requests t) (cl_nextLoc t) (f (cl_timeoutMls t)) (cl_monitor t) (cl_shuttingDown t) (cl_reconnecting t) (cl_closed t) (cl_resumeChain t) (cl_established t) (cl_credential t) (cl_maxPending t) (cl_metadata t) (cl_reconnect t) (cl_functionMap t) (cl_servingMap t) (cl_servings t) (cl_nextServing t) (cl_nextCtx t) (cl_cancelled t) (cl_baseCancelled t).
Definition upd_cl_monitor f (t : rpcClient) : rpcClient :=
  mkClient (cl_clientId t) (cl_conn t) (cl_nextConn t) (cl_closedConns t) (cl_lastRequest t) (cl_reconnects t) (cl_requestCtxMap t) (cl_requests t) (cl_nextLoc t) (cl_timeoutMls t) (f (cl_monitor t)) (cl_shuttingDown t) (cl_reconnecting t) (cl_closed t) (cl_resumeChain t) (cl_established t) (cl_credential t) (cl_maxPending t) (cl_metadata t) (cl_reconnect t) (cl_functionMap t) (cl_servingMap t) (cl_servings t) (cl_nextServing t) (cl_nextCtx t) (cl_cancelled t) (cl_baseCancelled t).
Definition upd_cl_shuttingDown f (t : rpcClient) : rpcClient :=
  mkClient (cl_clientId t) (cl_conn t) (cl_nextConn t) (cl_closedConns t) (cl_lastRequest t) (cl_reconnects t) (cl_requestCtxMap t) (cl_requests t) (cl_nextLoc t) (cl_timeoutMls t) (cl_monitor t) (f (cl_shuttingDown t)) (cl_reconnecting t) (cl_closed t) (cl_resumeChain t) (cl_established t) (cl_credential t) (cl_maxPending t) (cl_metadata t) (cl_reconnect t) (cl_functionMap t) (cl_servingMap t) (cl_servings t) (cl_nextServing t) (cl_nextCtx t) (cl_cancelled t) (cl_baseCancelled t).
Definition upd_cl_reconnecting f (t : rpcClient) : rpcClient :=
  mkClient (cl_clientId t) (cl_conn t) (cl_nextConn t) (cl_closedConns t) (cl_lastRequest t) (cl_reconnects t) (cl_requestCtxMap t) (cl_requests t) (cl_nextLoc t) (cl_timeoutMls t) (cl_monitor t) (cl_shuttingDown t) (f (cl_reconnecting t)) (cl_closed t) (cl_resumeChain t) (cl_established t) (cl_credential t) (cl_maxPending t) (cl_metadata t) (cl_reconnect t) (cl_functionMap t) (cl_servingMap t) (cl_servings t) (cl_nextServing t) (cl_nextCtx t) (cl_cancelled t) (cl_baseCancelled t).
Definition upd_cl_closed f (t : rpcClient) : rpcClient :=
  mkClient (cl_clientId t) (cl_conn t) (cl_nextConn t) (cl_closedConns t) (cl_lastRequest t) (cl_reconnects t) (cl_requestCtxMap t) (cl_requests t) (cl_nextLoc t) (cl_timeoutMls t) (cl_monitor t) (cl_shuttingDown t) (cl_reconnecting t) (f (cl_closed t)) (cl_resumeChain t) (cl_established t) (cl_credential t) (cl_maxPending t) (cl_metadata t) (cl_reconnect t) (cl_functionMap t) (cl_servingMap t) (cl_servings t) (cl_nextServing t) (cl_nextCtx t) (cl_cancelled t) (cl_baseCancelled t).
Definition upd_cl_resumeChain f (t : rpcClient) : rpcClient :=
  mkClient (cl_clientId t) (cl_conn t) (cl_nextConn t) (cl_closedConns t) (cl_lastRequest t) (cl_reconnects t) (cl_requestCtxMap t) (cl_requests t) (cl_nextLoc t) (cl_timeoutMls t) (cl_monitor t) (cl_shuttingDown t) (cl_reconnecting t) (cl_closed t) (f (cl_resumeChain t)) (cl_established t) (cl_credential t) (cl_maxPending t) (cl_metadata t) (cl_reconnect t) (cl_functionMap t) (cl_servingMap t) (cl_servings t) (cl_nextServing t) (cl_nextCtx t) (cl_cancelled t) (cl_baseCancelled t).
Definition upd_cl_established f (t : rpcClient) : rpcClient :=
  mkClient (cl_clientId t) (cl_conn t) (cl_nextConn t) (cl_closedConns t) (cl_lastRequest t) (cl_reconnects t) (cl_requestCtxMap t) (cl_requests t) (cl_nextLoc t) (cl_timeoutMls t) (cl_monitor t) (cl_shuttingDown t) (cl_reconnecting t) (cl_closed t) (cl_resumeChain t) (f (cl_established t)) (cl_credential t) (cl_maxPending t) (cl_metadata t) (cl_reconnect t) (cl_functionMap t) (cl_servingMap t) (cl_servings t) (cl_nextServing t) (cl_nextCtx t) (cl_cancelled t) (cl_baseCancelled t).
Definition upd_cl_credential f (t : rpcClient) : rpcClient :=
  mkClient (cl_clientId t) (cl_conn t) (cl_nextConn t) (cl_closedConns t) (cl_lastRequest t) (cl_reconnects t) (cl_requestCtxMap t) (cl_requests t) (cl_nextLoc t) (cl_timeoutMls t) (cl_monitor t) (cl_shuttingDown t) (cl_reconnecting t) (cl_closed t) (cl_resumeChain t) (cl_established t) (f (cl_credential t)) (cl_maxPending t) (cl_metadata t) (cl_reconnect t) (cl_functionMap t) (cl_servingMap t) (cl_servings t) (cl_nextServing t) (cl_nextCtx t) (cl_cancelled t) (cl_baseCancelled t).
Definition upd_cl_functionMap f (t : rpcClient) : rpcClient :=
  mkClient (cl_clientId t) (cl_conn t) (cl_nextConn t) (cl_closedConns t) (cl_lastRequest t) (cl_reconnects t) (cl_requestCtxMap t) (cl_requests t) (cl_nextLoc t) (cl_timeoutMls t) (cl_monitor t) (cl_shuttingDown t) (cl_reconnecting t) (cl_closed t) (cl_resumeChain t) (cl_established t) (cl_credential t) (cl_maxPending t) (cl_metadata t) (cl_reconnect t) (f (cl_functionMap t)) (cl_servingMap t) (cl_servings t) (cl_nextServing t) (cl_nextCtx t) (cl_cancelled t) (cl_baseCancelled t).
Definition upd_cl_servingMap f (t : rpcClient) : rpcClient :=
  mkClient (cl_clientId t) (cl_conn t) (cl_nextConn t) (cl_closedConns t) (cl_lastRequest t) (cl_reconnects t) (cl_requestCtxMap t) (cl_requests t) (cl_nextLoc t) (cl_timeoutMls t) (cl_monitor t) (cl_shuttingDown t) (cl_reconnecting t) (cl_closed t) (cl_resumeChain t) (cl_established t) (cl_credential t) (cl_maxPending t) (cl_metadata t) (cl_reconnect t) (cl_functionMap t) (f (cl_servingMap t)) (cl_servings t) (cl_nextServing t) (cl_nextCtx t) (cl_cancelled t) (cl_baseCancelled t).
Definition upd_cl_servings f (t : rpcClient) : rpcClient :=
  mkClient (cl_clientId t) (cl_conn t) (cl_nextConn t) (cl_closedConns t) (cl_lastRequest t) (cl_reconnects t) (cl_requestCtxMap t) (cl_requests t) (cl_nextLoc t) (cl_timeoutMls t) (cl_monitor t) (cl_shuttingDown t) (cl_reconnecting t) (cl_closed t) (cl_resumeChain t) (cl_established t) (cl_credential t) (cl_maxPending t) (cl_metadata t) (cl_reconnect t) (cl_functionMap t) (cl_servingMap t) (f (cl_servings t)) (cl_nextServing t) (cl_nextCtx t) (cl_cancelled t) (cl_baseCancelled t).
Definition upd_cl_nextServing f (t : rpcClient) : rpcClient :=
  mkClient (cl_clientId t) (cl_conn t) (cl_nextConn t) (cl_closedConns t) (cl_lastRequest t) (cl_reconnects t) (cl_requestCtxMap t) (cl_requests t) (cl_nextLoc t) (cl_timeoutMls t) (cl_monitor t) (cl_shuttingDown t) (cl_reconnecting t) (cl_closed t) (cl_resumeChain t) (cl_established t) (cl_credential t) (cl_maxPending t) (cl_metadata t) (cl_reconnect t) (cl_functionMap t) (cl_servingMap t) (cl_servings t) (f (cl_nextServing t)) (cl_nextCtx t) (cl_cancelled t) (cl_baseCancelled t).
Definition upd_cl_nextCtx f (t : rpcClient) : rpcClient :=
  mkClient (cl_clientId t) (cl_conn t) (cl_nextConn t) (cl_closedConns t) (cl_lastRequest t) (cl_reconnects t) (cl_requestCtxMap t) (cl_requests t) (cl_nextLoc t) (cl_timeoutMls t) (cl_monitor t) (cl_shuttingDown t) (cl_reconnecting t) (cl_closed t) (cl_resumeChain t) (cl_established t) (cl_credential t) (cl_maxPending t) (cl_metadata t) (cl_reconnect t) (cl_functionMap t) (cl_servingMap t) (cl_servings t) (cl_nextServing t) (f (cl_nextCtx t)) (cl_cancelled t) (cl_baseCancelled t).
Definition upd_cl_cancelled f (t : rpcClient) : rpcClient :=
  mkClient (cl_clientId t) (cl_conn t) (cl_nextConn t) (cl_closedConns t) (cl_lastRequest t) (cl_reconnects t) (cl_requestCtxMap t) (cl_requests t) (cl_nextLoc t) (cl_timeoutMls t) (cl_monitor t) (cl_shuttingDown t) (cl_reconnecting t) (cl_closed t) (cl_resumeChain t) (cl_established t) (cl_credential t) (cl_maxPending t) (cl_metadata t) (cl_reconnect t) (cl_functionMap t) (cl_servingMap t) (cl_servings t) (cl_nextServing t) (cl_nextCtx t) (f (cl_cancelled t)) (cl_baseCancelled t).
Definition upd_cl_baseCancelled f (t : rpcClient) : rpcClient :=
  mkClient (cl_clientId t) (cl_conn t) (cl_nextConn t) (cl_closedConns t) (cl_lastRequest t) (cl_reconnects t) (cl_requestCtxMap t) (cl_requests t) (cl_nextLoc t) (cl_timeoutMls t) (cl_monitor t) (cl_shuttingDown t) (cl_reconnecting t) (cl_closed t) (cl_resumeChain t) (cl_established t) (cl_credential t) (cl_maxPending t) (cl_metadata t) (cl_reconnect t) (cl_functionMap t) (cl_servingMap t) (cl_servings t) (cl_nextServing t) (cl_nextCtx t) (cl_cancelled t) (f (cl_baseCancelled t)).
(** A goroutine started by the response loop. *)
Inductive cl_job :=
| JobCall (reqId : Value) (name : string) (cf : clientFunction) (args : option Value) (req : VMap)
| JobStream (l : nat) (reqId : Value) (name : string) (cf : clientFunction) (ctx : reqctx) (args : option Value)
| JobWatch (l : nat)
| JobStreamOut (l : nat).

Inductive cl_ev :=
| CSend (conn : nat) (m : VMap)            (* SendRequest *)
| CRequestBegin (name : string)            (* metrics *)
| CRequestEnd (name : string) (code : Z)
| CStreamValue (name : string)
| CReconnect
| CMonitor (name : string)                 (* the performance monitor *)
| CStreamError (id : Z) (err : goerror)    (* error handler *)
| CProtocolError (m : VMap) (err : goerror)
| CConnected (m : VMap)                    (* connection handler *)
| CGo (j : cl_job)
| CLoopBlocked (id : Z)                    (* the response loop waits in notifyResult *)
| CDeadlock.                               (* connect entered again under its own lock *)

Abbreviation CL := (M rpcClient cl_ev).

(** NewClientWithDialer *)
Definition NewClientWithDialer (clientId maxPending timeoutMls : Z) (metadata : option (reqctx -> Metadata))
    (reconnect : ReconnectPolicy) : rpcClient :=
  mkClient clientId None 0 ∅ 0 0 ∅ ∅ 0 timeoutMls false false false false None false None maxPending
    metadata reconnect ∅ ∅ ∅ 0 0 ∅ false.

Definition SetTimeout (timeoutMls : Z) : CL unit := modify (upd_cl_timeoutMls (fun _ => timeoutMls)).
Definition SetCredential (credential : option Value) : CL unit := modify (upd_cl_credential (fun _ => credential)).

(** ** sync_conn.go and connection.go *)

Definition hasConn (t : rpcClient) : bool := is_some (cl_conn t).

(** getConn().SendRequest(m): false while getConn waits for a connection. *)
Definition getConn_SendRequest (m : VMap) : CL bool :=
  t ← gets id;
  match cl_conn t with
  | Some c => emit (CSend c m) ≫= fun _ => mret true
  | None => mret false
  end.

(** reply: best effort, dropped without a connection. *)
Definition reply (resp : VMap) : CL unit :=
  t ← gets id; if hasConn t then getConn_SendRequest resp ≫= fun _ => mret tt else mret tt.

(** syncConn.reset *)
Definition resetConn : CL unit :=
  t ← gets id;
  modify (upd_cl_conn (fun _ => None)) ≫= fun _ =>
  match cl_conn t with
  | Some c => modify (upd_cl_closedConns (fun s => {[ c ]} ∪ s))
  | None => mret tt
  end.

(** ** Requests and served streams, with their callbacks *)

Definition get_req (l : nat) : CL (option rpcRequestCtx) := gets (fun t => cl_requests t !! l).

Definition sendStreamCredit (requestId credit : Z) : CL unit :=
  t ← gets id;
  if hasConn t then getConn_SendRequest (NewStreamCredit d (Long requestId) credit) ≫= fun _ => mret tt
  else mret tt.

Definition req_callback (requestId : Z) (e : req_ev) : CL unit :=
  match e with
  | RGrant n => sendStreamCredit requestId n
  | RRequestEnd name code => emit (CRequestEnd name code)
  end.

(** Runs a method of request [l]. *)
Definition on_request {A} (l : nat) (m : M rpcRequestCtx req_ev A) : CL (option A) :=
  get_req l ≫= fun o =>
  match o with
  | None => mret None
  | Some r =>
      let '(a, r', evs) := m r in
      modify (upd_cl_requests (insert l r')) ≫= fun _ =>
      seqM (map (req_callback (rc_requestId r)) evs) ≫= fun _ =>
      mret (Some a)
  end.

Definition on_request_ {A} (l : nat) (m : M rpcRequestCtx req_ev A) : CL unit :=
  on_request l m ≫= fun _ => mret tt.

Definition deleteServing (reqId : Z) : CL unit := modify (upd_cl_servingMap (delete reqId)).

Definition serving_callback (e : vs_ev) : CL unit :=
  match e with
  | VReply m => reply m
  | VDelete id => deleteServing id
  | VCancel c => modify (upd_cl_cancelled (fun s => {[ c ]} ∪ s))
  end.

(** Runs a method of served stream [l]. *)
Definition on_serving {A} (l : nat) (m : M clientServingRequest vs_ev A) : CL (option A) :=
  t ← gets id;
  match cl_servings t !! l with
  | None => mret None
  | Some r =>
      let '(a, r', evs) := m r in
      modify (upd_cl_servings (insert l r')) ≫= fun _ =>
      seqM (map serving_callback evs) ≫= fun _ =>
      mret (Some a)
  end.

Definition removeRequest (requestId : Z) : CL unit := modify (upd_cl_requestCtxMap (delete requestId)).

Definition newRequestCtx (requestId : Z) (kind : streamKind) (req : VMap) (receiveCap : Z) : CL nat :=
  t ← gets id;
  let r := NewRequestCtx requestId kind req receiveCap (cl_maxPending t) true true in
  let l := cl_nextLoc t in
  modify (upd_cl_nextLoc S) ≫= fun _ =>
  modify (upd_cl_requests (insert l r)) ≫= fun _ =>
  emit (CRequestBegin (RequestCtx_Name d r)) ≫= fun _ =>
  modify (upd_cl_requestCtxMap (insert requestId l)) ≫= fun _ =>
  mret l.

(** failRequest *)
Definition failRequest (l : nat) (err : goerror) : CL unit :=
  get_req l ≫= fun o =>
  match o with
  | None => mret tt
  | Some r =>
      on_request_ l (SetError err) ≫= fun _ =>
      when (negb (bool_decide (rc_kind r = unaryKind))) (emit (CStreamError (rc_requestId r) err)) ≫= fun _ =>
      on_request_ l (RequestCtx_Close d) ≫= fun _ =>
      removeRequest (rc_requestId r)
  end.

(** ** processResponse *)

(** The error an ErrorResponse carries. *)
Definition serverError (resp : VMap) : goerror :=
  ErrRpc (match GetNumberField resp (CodeField d) with Some c => wrap32 (longOf c) | None => CodeUnknown end)
    (stringOf (GetString resp (ErrorField d))).

Definition truncError (requestId : Z) : goerror :=
  ErrRpc CodeResourceExhausted
    ("stream " +:+ pretty requestId +:+ " truncated: server exceeded flow-control credit").

(** notifyResult, and what follows it unless the response loop has to wait. *)
Definition notify_then (l : nat) (requestId : Z) (v : option Value) (k : bool -> CL unit) : CL unit :=
  on_request l (notifyResult growcap v) ≫= fun r =>
  match r with
  | Some (Some b) => k b
  | Some None => emit (CLoopBlocked requestId)
  | None => mret tt
  end.

(** [cancel] is t.CancelRequest. *)
Definition processResponse (cancel : Z -> CL unit) (mt : Z) (resp : VMap) (l : nat) : CL unit :=
  get_req l ≫= fun o =>
  match o with
  | None => mret tt (* unreachable: the map points to an object *)
  | Some r =>
      let rid := rc_requestId r in
      if mt =? FunctionResponse then
        notify_then l rid (fieldOrNil resp (ResultField d)) (fun _ =>
          t ← gets id;
          when (cl_monitor t) (emit (CMonitor (RequestCtx_Name d r))) ≫= fun _ =>
          on_request_ l (RequestCtx_Close d) ≫= fun _ =>
          removeRequest rid)
      else if mt =? ErrorResponse then
        let serverErr := serverError resp in
        on_request_ l (SetError serverErr) ≫= fun _ =>
        emit (CStreamError rid serverErr) ≫= fun _ =>
        on_request_ l (RequestCtx_Close d) ≫= fun _ =>
        removeRequest rid
      else if mt =? StreamReady then notify_then l rid None (fun _ => mret tt)
      else if mt =? StreamValue then
        match fieldOrNil resp (ValueField d) with
        | None => mret tt
        | Some v =>
            notify_then l rid (Some v) (fun ok =>
              if ok : bool then emit (CStreamValue (RequestCtx_Name d r))
              else if rc_cancelOnce r then mret tt
              else
                on_request_ l (modify (fun r => rc_with_flags true (rc_getClosed r) (rc_putClosed r) r)) ≫= fun _ =>
                on_request_ l (SetError (truncError rid)) ≫= fun _ =>
                emit (CStreamError rid (truncError rid)) ≫= fun _ =>
                cancel rid)
        end
      else if mt =? StreamEnd then
        (match fieldOrNil resp (ValueField d) with
         | None => fun k => k true
         | Some v => notify_then l rid (Some v)
         end) (fun _ =>
           on_request l (TryGetClose d) ≫= fun b =>
           when (default false b) (removeRequest rid))
      else if mt =? CancelRequest then
        on_request_ l (RequestCtx_Close d) ≫= fun _ => removeRequest rid
      else if mt =? StreamCredit then
        match GetNumberField resp (CreditField d) with
        | Some cr => on_request_ l (RequestCtx_Grant (longOf cr))
        | None => mret tt
        end
      else emit (CProtocolError resp ErrUnsupportedMessageType)
  end.

(** ** Reverse calls and streams *)

Abbreviation cl_handler := (reqctx -> option Value -> option Value + goerror).

(** The registration methods differ in the kind and the error text; a nil
    handler is [None]. *)
Definition registerHandler (what : string) (name : string) (mk : cl_handler -> clientFunction)
    (fn : option cl_handler) : CL (option goerror) :=
  let err := ErrPlain ("valueclient: " +:+ what +:+ " requires a name and a handler") in
  match fn with
  | Some f =>
      if bool_decide (name = "") then mret (Some err)
      else modify (upd_cl_functionMap (insert name (mk f))) ≫= fun _ => mret None
  | None => mret (Some err)
  end.

Definition Client_AddFunction (name : string) (args res : TypeDef) (fn : option cl_handler) : CL (option goerror) :=
  registerHandler "AddFunction" name (mkCF cfnUnary args res) fn.
Definition Client_AddOutgoingStream (name : string) (args : TypeDef) (fn : option cl_handler) : CL (option goerror) :=
  registerHandler "AddOutgoingStream" name (mkCF cfnOut args Void) fn.
Definition Client_AddIncomingStream (name : string) (args : TypeDef) (fn : option cl_handler) : CL (option goerror) :=
  registerHandler "AddIncomingStream" name (mkCF cfnIn args Void) fn.
Definition Client_AddChat (name : string) (args : TypeDef) (fn : option cl_handler) : CL (option goerror) :=
  registerHandler "AddChat" name (mkCF cfnChat args Void) fn.

Definition serveInboundCall (req : VMap) : CL unit :=
  t ← gets id;
  match GetNumberField req (RequestIdField d) with
  | None => emit (CProtocolError req ErrIdFieldNotFound)
  | Some reqId =>
      match GetStringField req (FunctionNameField d) with
      | None => reply (NewFunctionError d reqId CodeInvalidArgument "function name field not found")
      | Some nameV =>
          let name := stringOf nameV in
          match cl_functionMap t !! name with
          | None => reply (NewFunctionError d reqId CodeNotFound ("function not found " +:+ name))
          | Some cf =>
              if negb (bool_decide (cf_ft cf = cfnUnary)) then
                reply (NewFunctionError d reqId CodeInvalidArgument ("function '" +:+ name +:+ "' is not unary"))
              else
                let args := Get req (ArgumentsField d) in
                if negb (Verify args (cf_args cf)) then
                  reply (NewFunctionError d reqId CodeInvalidArgument ("function '" +:+ name +:+ "' invalid args"))
                else emit (CGo (JobCall reqId name cf args req))
          end
      end
  end.

(** A fresh context under baseCtx. *)
Definition newContext : CL reqctx :=
  t ← gets id; modify (upd_cl_nextCtx S) ≫= fun _ => mret (mkCtx (cl_nextCtx t) None None None false).

(** The goroutine of a reverse call; the context ends with it. *)
Definition runInboundCall (reqId : Value) (name : string) (cf : clientFunction) (args : option Value) (req : VMap)
    : CL unit :=
  newContext ≫= fun ctx =>
  let ctx' := match DecodeMetadata d req with Some md => ContextWithMetadata ctx md | None => ctx end in
  reply (match cf_handler cf ctx' args with
         | inr err => NewHandlerError d reqId ("function " +:+ name) err
         | inl res =>
             if negb (Verify res (cf_res cf)) then
               NewFunctionError d reqId CodeInternal ("function '" +:+ name +:+ "' invalid result")
             else NewFunctionResult d reqId res
         end) ≫= fun _ =>
  modify (upd_cl_cancelled (fun s => {[ ctx_id ctx ]} ∪ s)).

Definition serveInboundStream (msgType : Z) (req : VMap) : CL unit :=
  t ← gets id;
  match GetNumberField req (RequestIdField d) with
  | None => emit (CProtocolError req ErrIdFieldNotFound)
  | Some reqId =>
      match GetStringField req (FunctionNameField d) with
      | None => reply (NewFunctionError d reqId CodeInvalidArgument "function name field not found")
      | Some nameV =>
          let name := stringOf nameV in
          match cl_functionMap t !! name with
          | None => reply (NewFunctionError d reqId CodeNotFound ("function not found " +:+ name))
          | Some cf =>
              if negb (bool_decide (cf_ft cf = streamKindFor msgType)) then
                reply (NewFunctionError d reqId CodeInvalidArgument ("function '" +:+ name +:+ "' wrong stream type"))
              else
                let args := Get req (ArgumentsField d) in
                if negb (Verify args (cf_args cf)) then
                  reply (NewFunctionError d reqId CodeInvalidArgument ("stream '" +:+ name +:+ "' invalid args"))
                else
                  newContext ≫= fun ctx =>
                  let l := cl_nextServing t in
                  modify (upd_cl_nextServing S) ≫= fun _ =>
                  modify (upd_cl_servings (insert l (newServing (cf_ft cf) reqId (cl_maxPending t) (ctx_id ctx)))) ≫= fun _ =>
                  modify (upd_cl_servingMap (insert (longOf reqId) l)) ≫= fun _ =>
                  (if inbound (cf_ft cf) then on_serving l (ClientServing_grantInitialInbound d) else mret None) ≫= fun _ =>
                  emit (CGo (JobStream l reqId name cf ctx args))
          end
      end
  end.

(** The goroutine of a reverse stream, until its streamer runs on its own
    (streamer_iter). *)
Definition runInboundStream (l : nat) (reqId : Value) (name : string) (cf : clientFunction) (ctx : reqctx)
    (args : option Value) : CL unit :=
  let what := match cf_ft cf with cfnOut => "out stream " | cfnIn => "in stream " | _ => "chat " end in
  match cf_handler cf ctx args with
  | inr err =>
      on_serving l ClientServing_closeRequest ≫= fun _ => reply (NewHandlerError d reqId (what +:+ name) err)
  | inl _ =>
      (* the in-stream reply, or the first statement of outgoingStreamer *)
      reply (NewStreamReady d reqId)
  end.

(** ** The response handler *)

Definition getResponseHandler (cancel : Z -> CL unit) (resp : VMap) : CL unit :=
  match GetNumberField resp (MessageTypeField d) with
  | None => emit (CProtocolError resp ErrNoMessageType)
  | Some mt =>
      let msgType := longOf mt in
      if msgType =? HandshakeResponse then
        modify (upd_cl_established (fun _ => true)) ≫= fun _ => emit (CConnected resp)
      else if msgType =? FunctionRequest then serveInboundCall resp
      else if (msgType =? GetStreamRequest) || (msgType =? PutStreamRequest) || (msgType =? ChatRequest) then
        serveInboundStream msgType resp
      else
        match GetNumberField resp (RequestIdField d) with
        | None => emit (CProtocolError resp ErrIdFieldNotFound)
        | Some idV =>
            t ← gets id;
            match cl_servingMap t !! longOf idV with
            | Some l => on_serving l (serveRunning d growcap msgType resp) ≫= fun _ => mret tt
            | None =>
                match cl_requestCtxMap t !! longOf idV with
                | Some l => processResponse cancel msgType resp l
                | None => emit (CProtocolError resp ErrRequestNotFound)
                end
            end
        end
  end.

(** ** Connecting *)

(** What a dial meets: the random seed of a new chain, and the fate of the
    connection once the handshake message was sent on it. *)
Inductive dial_outcome :=
| DialFailed (err : goerror)
| HandshakeFailed (err : goerror)          (* the response could not be read *)
| HandshakeOk (resp : VMap).

Record dial_env := mkDial {
  de_seed : goerror + list ascii;
  de_outcome : VMap -> dial_outcome
}.

Definition ErrChainExhausted : goerror :=
  ErrPlain "session resumption chain exhausted; close this client and reconnect as a new one".

Definition handshakeToken (seed : goerror + list ascii) : CL (goerror + string) :=
  t ← gets id;
  match (match cl_resumeChain t with
         | Some c => inr c
         | None =>
             match seed with
             | inl e => inl (ErrWrap "init resumption chain" e)
             | inr s =>
                 match NewHashChain sha256 (Some s) DefaultHashChainLen with
                 | Some c => inr c
                 | None => inl (ErrPlain "init resumption chain") (* unreachable: the seed was read *)
                 end
             end
         end) with
  | inl err => mret (inl err)
  | inr c =>
      modify (upd_cl_resumeChain (fun _ => Some c)) ≫= fun _ =>
      if negb (cl_established t) then mret (inr (Anchor c))
      else
        let '(tok, c') := Next c in
        modify (upd_cl_resumeChain (fun _ => Some c')) ≫= fun _ =>
        if bool_decide (tok = "") then mret (inl ErrChainExhausted) else mret (inr tok)
  end.

Definition handshakeMessage (t : rpcClient) (token : string) : VMap :=
  let hs := Dialect_NewHandshakeRequest d (cl_clientId t) token in
  match cl_credential t with
  | Some cred => Put hs (AuthField d) (Some cred)
  | None => hs
  end.

(** syncConn.connect with newConn; its lock is not reentrant. *)
Definition connect (de : dial_env) (token : string) : CL (option goerror) :=
  t ← gets id;
  if hasConn t then mret None
  else
    let hs := handshakeMessage t token in
    let c := cl_nextConn t in
    match de_outcome de hs with
    | DialFailed err => mret (Some err)
    | HandshakeFailed err =>
        modify (upd_cl_nextConn S) ≫= fun _ =>
        emit (CSend c hs) ≫= fun _ =>
        modify (upd_cl_closedConns (fun s => {[ c ]} ∪ s)) ≫= fun _ =>
        mret (Some (ErrWrap "handshake" err))
    | HandshakeOk resp =>
        modify (upd_cl_nextConn S) ≫= fun _ =>
        emit (CSend c hs) ≫= fun _ =>
        getResponseHandler (fun _ => emit CDeadlock) resp ≫= fun _ =>
        modify (upd_cl_conn (fun _ => Some c)) ≫= fun _ =>
        mret None
    end.

Definition ConnectContext (de : dial_env) : CL (option goerror) :=
  t ← gets id;
  if hasConn t then mret None
  else
    handshakeToken (de_seed de) ≫= fun r =>
    match r with
    | inl err => mret (Some err)
    | inr token => connect de token
    end.

Definition ensureConnection (de : dial_env) : CL (option goerror) :=
  t ← gets id; if negb (hasConn t) then ConnectContext de else mret None.

(** ** Requests *)

Definition sendSystemRequest (de : dial_env) (requestId : Z) (mt : Z) : CL unit :=
  ensureConnection de ≫= fun e =>
  match e with
  | Some _ => mret tt
  | None => getConn_SendRequest (NewSystemRequest d requestId mt) ≫= fun _ => mret tt
  end.

Definition Client_CancelRequest (de : dial_env) (requestId : Z) : CL unit :=
  sendSystemRequest de requestId CancelRequest.

(** A frame read by the response loop. *)
Definition handleFrame (de : dial_env) (resp : VMap) : CL unit :=
  getResponseHandler (Client_CancelRequest de) resp.

(** [until] is time.Until of the context's deadline in nanoseconds;
    Milliseconds() truncates toward zero. *)
Definition effectiveTimeout (until : option Z) (t : rpcClient) : Z :=
  let base := cl_timeoutMls t in
  match until with
  | Some ns =>
      let remaining := Z.quot ns 1000000 in
      let remaining := if remaining <? 0 then 0 else remaining in
      if (base <=? 0) || (remaining <? base) then remaining else base
  | None => base
  end.

Definition constructRequest (ctx : reqctx) (mt : Z) (name : string) (args : option Value) (timeout : Z)
    (t : rpcClient) : VMap :=
  let req := Put (Put (Put EmptyMap
    (MessageTypeField d) (Some (MessageType_Long mt)))
    (FunctionNameField d) (Some (Utf8 name)))
    (ArgumentsField d) args in
  let req := if 0 <? timeout then Put req (TimeoutField d) (Some (Long timeout)) else req in
  match cl_metadata t with
  | Some inject =>
      match EncodeMetadata (inject ctx) with
      | Some md => Put req (MetadataField d) (Some (MapV md))
      | None => req
      end
  | None => req
  end.

(** sendRequest up to getConn: the connection, the id, the registered object. *)
Definition registerRequest (de : dial_env) (kind : streamKind) (req : VMap) (receiveCap : Z) : CL (goerror + nat) :=
  ensureConnection de ≫= fun e =>
  match e with
  | Some err => mret (inl err)
  | None =>
      modify (upd_cl_lastRequest (fun n => wrap64 (n + 1))) ≫= fun _ =>
      t ← gets id;
      let requestId := cl_lastRequest t in
      newRequestCtx requestId kind (Put req (RequestIdField d) (Some (Long requestId))) receiveCap ≫= fun l =>
      mret (inr l)
  end.

(** The rest of sendRequest; false while getConn waits. *)
Definition transmitRequest (l : nat) : CL bool :=
  get_req l ≫= fun o =>
  match o with
  | Some r => getConn_SendRequest (rc_req r)
  | None => mret false
  end.

Definition sendRequest (de : dial_env) (kind : streamKind) (req : VMap) (receiveCap : Z) : CL (goerror + nat) :=
  registerRequest de kind req receiveCap ≫= fun r =>
  match r with
  | inl err => mret (inl err)
  | inr l => transmitRequest l ≫= fun _ => mret (inr l)
  end.

(** The four calls, up to the wait of SingleResp. *)
Definition startCall (de : dial_env) (ctx : reqctx) (until : option Z) (mt : Z) (kind : streamKind)
    (name : string) (args : option Value) (receiveCap : Z) : CL (goerror + nat) :=
  t ← gets id;
  sendRequest de kind (constructRequest ctx mt name args (effectiveTimeout until t) t) receiveCap.

Definition invokeUnary_begin (de : dial_env) ctx until name args : CL (goerror + nat) :=
  startCall de ctx until FunctionRequest unaryKind name args 1.
Definition GetStream_begin (de : dial_env) ctx until name args (receiveCap : Z) : CL (goerror + nat) :=
  startCall de ctx until GetStreamRequest getStreamKind name args receiveCap.
Definition PutStream_begin (de : dial_env) ctx until name args : CL (goerror + nat) :=
  startCall de ctx until PutStreamRequest putStreamKind name args 1.
Definition Chat_begin (de : dial_env) ctx until name args (receiveCap : Z) : CL (goerror + nat) :=
  startCall de ctx until ChatRequest chatKind name args (wrap64 (receiveCap + 1)).

(** SingleResp and the error path the four calls share: [c] is the case of its
    select that fired. *)
Definition singleResp (de : dial_env) (l : nat) (c : single_case) : CL (option Value + goerror) :=
  get_req l ≫= fun o =>
  match o with
  | None => mret (inr ErrNoResponse) (* unreachable: the caller holds the object *)
  | Some r =>
      let '(res, timedOut) := SingleResp r c in
      when timedOut (Client_CancelRequest de (rc_requestId r)) ≫= fun _ =>
      match res with
      | inl v =>
          on_request_ l (run_req_op d growcap (if receives (rc_kind r) then OpPumpDeliver else OpReceive)) ≫= fun _ =>
          mret (inl v)
      | inr err =>
          on_request_ l (SetError err) ≫= fun _ =>
          on_request_ l (RequestCtx_Close d) ≫= fun _ =>
          mret (inr err)
      end
  end.

Definition invokeUnary_end (de : dial_env) (l : nat) (c : single_case) : CL (option Value + goerror) :=
  singleResp de l c.

(** watchContext starts its goroutine only for a context that can be cancelled. *)
Definition watchContext (cancellable : bool) (l : nat) : CL unit := when cancellable (emit (CGo (JobWatch l))).

Definition GetStream_end (de : dial_env) (cancellable : bool) (l : nat) (c : single_case) : CL (option goerror) :=
  singleResp de l c ≫= fun r =>
  match r with
  | inr err => mret (Some err)
  | inl _ =>
      on_request_ l sendInitialCredit ≫= fun _ =>
      watchContext cancellable l ≫= fun _ => mret None
  end.

Definition PutStream_end (de : dial_env) (cancellable : bool) (l : nat) (c : single_case) : CL (option goerror) :=
  singleResp de l c ≫= fun r =>
  match r with
  | inr err => mret (Some err)
  | inl _ =>
      watchContext cancellable l ≫= fun _ => emit (CGo (JobStreamOut l)) ≫= fun _ => mret None
  end.

Definition Chat_end (de : dial_env) (cancellable : bool) (l : nat) (c : single_case) : CL (option goerror) :=
  singleResp de l c ≫= fun r =>
  match r with
  | inr err => mret (Some err)
  | inl _ =>
      on_request_ l sendInitialCredit ≫= fun _ =>
      watchContext cancellable l ≫= fun _ => emit (CGo (JobStreamOut l)) ≫= fun _ => mret None
  end.

(** The goroutine of watchContext when its context ends first. *)
Definition watchFired (de : dial_env) (l : nat) : CL unit :=
  get_req l ≫= fun o =>
  match o with
  | Some r => Client_CancelRequest de (rc_requestId r) ≫= fun _ => on_request_ l (RequestCtx_Close d)
  | None => mret tt
  end.

(** ** streamOut *)

Inductive out_pc :=
| OutLoop                                  (* at the loop condition *)
| OutAcquire (v : option Value)            (* a value in hand, before Acquire *)
| OutSend (v : option Value)               (* a credit taken, before getConn *)
| OutSendEnd                               (* the channel ended, before getConn *)
| OutFinish                                (* after the loop *)
| OutReturned.

(** One action of the goroutine; [recv] is what the channel yields ([None] when
    it is closed).  The result is its next position, the same one while it
    waits. *)
Definition streamOut_step (l : nat) (pc : out_pc) (recv : option (option Value)) : CL out_pc :=
  get_req l ≫= fun o =>
  match o with
  | None => mret OutReturned
  | Some r =>
      let rid := rc_requestId r in
      match pc with
      | OutLoop =>
          if negb (IsPutOpen r) then mret OutFinish
          else match recv with Some v => mret (OutAcquire v) | None => mret OutSendEnd end
      | OutAcquire v =>
          match rc_sendCredit r with
          | Some g =>
              match Acquire g with
              | None => mret (OutAcquire v)
              | Some (false, _) => mret OutFinish
              | Some (true, _) => on_request_ l (run_req_op d growcap OpAcquireCredit) ≫= fun _ => mret (OutSend v)
              end
          | None => mret (OutSend v)
          end
      | OutSend v =>
          getConn_SendRequest (NewStreamValue d (Long rid) v) ≫= fun ok =>
          if ok : bool then emit (CStreamValue (RequestCtx_Name d r)) ≫= fun _ => mret OutLoop
          else mret (OutSend v)
      | OutSendEnd =>
          getConn_SendRequest (NewSystemRequest d rid StreamEnd) ≫= fun ok =>
          mret (if ok : bool then OutFinish else OutSendEnd)
      | OutFinish =>
          on_request l (TryPutClose d) ≫= fun b =>
          when (default false b) (removeRequest rid) ≫= fun _ => mret OutReturned
      | OutReturned => mret OutReturned
      end
  end.

(** ** Reconnecting *)

(** Whether the reconnect policy replays a request. *)
Definition replayable (t : rpcClient) (r : rpcRequestCtx) : bool :=
  bool_decide (rc_kind r = unaryKind) &&
  match rp_ReplayUnary (cl_reconnect t) with Some f => f (RequestCtx_Name d r) | None => false end.

(** The body of the Range over the request map, for one object: the requests to
    replay so far. *)
Definition dispose (cutoff : Z) (replay : list nat) (l : nat) : CL (list nat) :=
  t ← gets id;
  match cl_requests t !! l with
  | None => mret replay (* unreachable: the map points to an object *)
  | Some r =>
      if cutoff <? rc_requestId r then mret replay
      else if replayable t r then mret (replay ++ [l])
      else failRequest l ErrConnectionLost ≫= fun _ => mret replay
  end.

Fixpoint dispose_all (cutoff : Z) (replay : list nat) (ls : list nat) : CL (list nat) :=
  match ls with
  | [] => mret replay
  | l :: ls' => dispose cutoff replay l ≫= fun replay' => dispose_all cutoff replay' ls'
  end.

(** Reconnect up to Connect: [None] when another one is in flight. *)
Definition Reconnect_begin : CL (option (list nat)) :=
  t ← gets id;
  if cl_reconnecting t then mret None
  else
    modify (upd_cl_reconnecting (fun _ => true)) ≫= fun _ =>
    modify (upd_cl_reconnects (fun n => n + 1)) ≫= fun _ =>
    emit CReconnect ≫= fun _ =>
    resetConn ≫= fun _ =>
    t ← gets id;
    dispose_all (cl_lastRequest t) [] (map snd (map_to_list (cl_requestCtxMap t))) ≫= fun replay =>
    mret (Some replay).

Definition Reconnect_end (de : dial_env) (replay : list nat) : CL (option goerror) :=
  ConnectContext de ≫= fun e =>
  (match e with
   | Some _ => seqM (map (fun l => failRequest l ErrConnectionLost) replay)
   | None => seqM (map (fun l => transmitRequest l ≫= fun _ => mret tt) replay)
   end) ≫= fun _ =>
  modify (upd_cl_reconnecting (fun _ => false)) ≫= fun _ =>
  mret e.

Definition Reconnect (de : dial_env) : CL (option goerror) :=
  Reconnect_begin ≫= fun r =>
  match r with
  | None => mret None
  | Some replay => Reconnect_end de replay
  end.

(** retryReconnect: attempt [n] meets the [n]-th environment; the loop ends with
    a connection, the client's Close or the configured number of attempts. *)
Fixpoint retry_attempts (des : list dial_env) : CL unit :=
  match des with
  | [] => mret tt
  | de :: des' =>
      t ← gets id;
      if cl_closed t || cl_shuttingDown t then mret tt
      else
        modify (upd_cl_reconnects (fun n => n + 1)) ≫= fun _ =>
        emit CReconnect ≫= fun _ =>
        ConnectContext de ≫= fun e =>
        match e with
        | None => mret tt
        | Some _ => retry_attempts des'
        end
  end.

Definition retryReconnect (des : list dial_env) : CL unit :=
  t ← gets id;
  let max := rp_MaxAttempts (cl_reconnect t) in
  if max =? 0 then mret tt
  else retry_attempts (if max <? 0 then des else take (Z.to_nat max) des).

(** The delays between the attempts: doubling, capped. *)
Definition backoffStart (p : ReconnectPolicy) : Z :=
  if rp_InitialBackoff p <=? 0 then DefaultInitialBackoff else rp_InitialBackoff p.
Definition backoffMax (p : ReconnectPolicy) : Z :=
  if rp_MaxBackoff p <=? 0 then DefaultMaxBackoff else rp_MaxBackoff p.
Definition backoffNext (p : ReconnectPolicy) (delay : Z) : Z :=
  let delay := wrap64 (delay * 2) in if backoffMax p <? delay then backoffMax p else delay.

(** BadConnection, the client as its own error handler. *)
Definition BadConnection (de : dial_env) (retries : list dial_env) : CL unit :=
  t ← gets id;
  if cl_shuttingDown t then mret tt
  else
    Reconnect de ≫= fun e =>
    match e with
    | None => mret tt
    | Some _ => retryReconnect retries
    end.

(** ** Close *)

Definition Client_Close : CL unit :=
  modify (upd_cl_shuttingDown (fun _ => true)) ≫= fun _ =>
  modify (upd_cl_closed (fun _ => true)) ≫= fun _ =>
  modify (upd_cl_baseCancelled (fun _ => true)) ≫= fun _ =>
  t ← gets id;
  seqM (map (fun kl : Z * nat => on_serving kl.2 ClientServing_Close ≫= fun _ => mret tt)
    (map_to_list (cl_servingMap t))) ≫= fun _ =>
  resetConn.

End client.
