(* ===== verification/ClientProps.v ===== *)
(** * Properties of the client

    The request registry (every in-flight request is known under its own id, ids
    are never reused), the in-flight gauge, the isolation of requests from each
    other's frames, what a reconnect does to the requests in flight, and the
    resumption token across lost handshakes. *)

From S2P Require Import Prelude Value RefValue Protocol Verify Sha256 HashChain Credit Pump.
From S2P Require Import FlowControl Request Metadata ClientServing Client.

Create HintDb client.

Section client_props.
Context `{ValueLib} (d : Dialect) (growcap : nat -> nat).
Hypothesis Hgrow : forall n, (n < growcap n)%nat.

(** ** Events *)

Definition is_cbegin (e : cl_ev) : bool := match e with CRequestBegin _ => true | _ => false end.
Definition is_cend (e : cl_ev) : bool := match e with CRequestEnd _ _ => true | _ => false end.
Definition count_ev (f : cl_ev -> bool) (o : list cl_ev) : nat := length (List.filter f o).

Lemma count_ev_app f o1 o2 : count_ev f (o1 ++ o2) = (count_ev f o1 + count_ev f o2)%nat.
Proof. unfold count_ev. by rewrite List.filter_app, length_app. Qed.

(** The frames handed to connections, in order. *)
Definition sends_of (o : list cl_ev) : list (nat * VMap) :=
  omap (fun e => match e with CSend c m => Some (c, m) | _ => None end) o.

Lemma sends_of_app o1 o2 : sends_of (o1 ++ o2) = sends_of o1 ++ sends_of o2.
Proof. unfold sends_of. by rewrite omap_app. Qed.

(** ** The registry invariant *)

(** An object is in a state its methods can reach. *)
Definition obj_ok (r : rpcRequestCtx) : Prop := exists o, req_inv (rc_kind r) true r o.

Definition is_open (lr : nat * rpcRequestCtx) : Prop := rc_closeOnce lr.2 = false.
#[local] Instance is_open_dec lr : Decision (is_open lr).
Proof. unfold is_open. apply _. Defined.
Definition open_requests (m : gmap nat rpcRequestCtx) : nat := size (filter is_open m).

(** [cl_inv k]: at most [k] requests were registered. *)
Record cl_inv (k : Z) (t : rpcClient) (o : list cl_ev) : Prop := {
  ci_last : 0 <= cl_lastRequest t <= k;
  ci_fresh : forall l r, cl_requests t !! l = Some r -> (l < cl_nextLoc t)%nat;
  ci_ids : forall l r, cl_requests t !! l = Some r -> 1 <= rc_requestId r <= cl_lastRequest t;
  ci_inj : forall l1 l2 r1 r2, cl_requests t !! l1 = Some r1 -> cl_requests t !! l2 = Some r2 ->
    rc_requestId r1 = rc_requestId r2 -> l1 = l2;
  ci_map : forall id l, cl_requestCtxMap t !! id = Some l ->
    exists r, cl_requests t !! l = Some r /\ rc_requestId r = id;
  ci_obj : forall l r, cl_requests t !! l = Some r -> obj_ok r;
  ci_begins : count_ev is_cbegin o = size (cl_requests t);
  ci_gauge : (count_ev is_cbegin o = count_ev is_cend o + open_requests (cl_requests t))%nat
}.

(** The fields the registry is made of. *)
Definition same_registry (t t' : rpcClient) : Prop :=
  cl_lastRequest t' = cl_lastRequest t /\ cl_requestCtxMap t' = cl_requestCtxMap t /\
  cl_requests t' = cl_requests t /\ cl_nextLoc t' = cl_nextLoc t.

Definition quiet (o : list cl_ev) : Prop := count_ev is_cbegin o = 0%nat /\ count_ev is_cend o = 0%nat.

(** Code that leaves the registry alone and reports no request. *)
Definition inert {A} (m : M rpcClient cl_ev A) : Prop :=
  forall t, same_registry t (m_st (m t)) /\ quiet (m_out (m t)).

Lemma inert_keeps {A} k (m : M rpcClient cl_ev A) : inert m -> keeps (cl_inv k) m.
Proof.
  intros Hm t o []. destruct (Hm t) as [(E1 & E2 & E3 & E4) [Q1 Q2]].
  split; rewrite ?count_ev_app, ?E1, ?E2, ?E3, ?E4, ?Q1, ?Q2; try done; lia.
Qed.

Lemma inert_ret {A} (a : A) : inert (mret a).
Proof. by intros t. Qed.
Lemma inert_gets {A} (f : rpcClient -> A) : inert (gets f).
Proof. by intros t. Qed.
Lemma inert_emit e : is_cbegin e = false -> is_cend e = false -> inert (emit e).
Proof. intros H1 H2 t. split; [done|]. unfold quiet, count_ev. cbn. by rewrite H1, H2. Qed.
Lemma inert_modify f : (forall t, same_registry t (f t)) -> inert (modify f).
Proof. intros Hf t. split; [apply Hf|done]. Qed.
Lemma inert_bind {A B} (m : M rpcClient cl_ev A) (k : A -> M rpcClient cl_ev B) :
  inert m -> (forall a, inert (k a)) -> inert (m ≫= k).
Proof.
  intros Hm Hk t. destruct (Hm t) as [(E1 & E2 & E3 & E4) [Q1 Q2]]. revert E1 E2 E3 E4 Q1 Q2.
  unfold mbind, M_bind, m_st, m_out. destruct (m t) as [[a t1] o1]. cbn [fst snd]. intros.
  destruct (Hk a t1) as [(F1 & F2 & F3 & F4) [R1 R2]]. revert F1 F2 F3 F4 R1 R2.
  unfold m_st, m_out. destruct (k a t1) as [[b t2] o2]. cbn [fst snd]. intros.
  unfold same_registry, quiet. rewrite !count_ev_app. split_and!; (congruence || lia).
Qed.
Lemma inert_when b m : inert m -> inert (when b m).
Proof. destruct b; [done|]. intros _. apply inert_ret. Qed.
Lemma inert_seqM ms : Forall inert ms -> inert (seqM ms).
Proof. induction 1; cbn; [apply inert_ret|]. apply inert_bind; auto. Qed.

(** Splits inert code into its actions. *)
Ltac inert_step :=
  lazymatch goal with
  | |- inert (mret _) => apply inert_ret
  | |- inert (gets _) => apply inert_gets
  | |- inert (emit _) => apply inert_emit; reflexivity
  | |- inert (modify _) => apply inert_modify; intros; done
  | |- inert (mbind _ _) => apply inert_bind; [|intros ?]
  | |- inert (when _ _) => apply inert_when
  | |- inert (match ?x with _ => _ end) => destruct x eqn:?
  end.
Ltac inert_split := repeat inert_step.

Lemma inert_getConn m : inert (getConn_SendRequest m).
Proof. unfold getConn_SendRequest. inert_split. Qed.
Lemma inert_reply m : inert (reply m).
Proof. unfold reply. inert_split. apply inert_getConn. Qed.
Lemma inert_resetConn : inert resetConn.
Proof. unfold resetConn. inert_split. Qed.
Lemma inert_sendStreamCredit rid n : inert (sendStreamCredit d rid n).
Proof. unfold sendStreamCredit. inert_split. apply inert_getConn. Qed.
Lemma inert_on_serving {A} l (m : M clientServingRequest vs_ev A) : inert (on_serving l m).
Proof.
  unfold on_serving. apply inert_bind; [inert_split|]. intros t.
  destruct (cl_servings t !! l) as [r|]; [|inert_split]. destruct (m r) as [[a r'] evs]. inert_split.
  apply inert_seqM, Forall_map, Forall_true. intros []; cbn; [apply inert_reply|inert_split..].
  unfold deleteServing. inert_split.
Qed.
Lemma inert_serveInboundCall req : inert (serveInboundCall d req).
Proof. unfold serveInboundCall. inert_split; apply inert_reply. Qed.
Lemma inert_newContext : inert newContext.
Proof. unfold newContext. inert_split. Qed.
Lemma inert_serveInboundStream mt req : inert (serveInboundStream d mt req).
Proof.
  unfold serveInboundStream.
  inert_split; auto using inert_reply, inert_newContext, inert_on_serving.
Qed.
Lemma inert_handshakeToken seed : inert (handshakeToken seed).
Proof. unfold handshakeToken. inert_split. Qed.

(** ** Methods of a request object *)

(** A method that keeps the object's lifecycle invariant and its identity. *)
Definition method_ok {A} (m : M rpcRequestCtx req_ev A) : Prop :=
  forall id kd, keeps (fun r o => rc_requestId r = id /\ req_inv kd true r o) m.

Lemma run_req_op_id id op : keeps (fun r (_ : list req_ev) => rc_requestId r = id) (run_req_op d growcap op).
Proof.
  destruct op; cbn [run_req_op]; unfold notifyResult, RequestCtx_Grant, SetError, RequestCtx_Close, TryGetClose,
    TryPutClose, RequestCtx_closeResult, sendInitialCredit, RequestCtx_grantRecv, on_pump;
    keeps_split; try (by apply keeps_emit); apply keeps_modify; intros ? ? <-; try done;
    by destruct (rc_resultPump _).
Qed.

Lemma method_op op : method_ok (run_req_op d growcap op).
Proof. intros id kd. apply keeps_and; [apply run_req_op_id|]. apply (run_req_op_inv d growcap Hgrow kd true op). Qed.

Lemma method_SetError e : method_ok (SetError e).
Proof. apply (method_op (OpSetError e)). Qed.
Lemma method_Close : method_ok (RequestCtx_Close d).
Proof. apply (method_op OpReqClose). Qed.
Lemma method_Grant n : method_ok (RequestCtx_Grant n).
Proof. apply (method_op (OpGrantCredit n)). Qed.
Lemma method_sendInitialCredit : method_ok sendInitialCredit.
Proof. apply (method_op OpInitialCredit). Qed.
Lemma method_notifyResult v : method_ok (notifyResult growcap v).
Proof. intros id kd. apply keeps_void, (method_op (OpNotify v)). Qed.
Lemma method_TryGetClose : method_ok (TryGetClose d).
Proof. intros id kd. apply keeps_void, (method_op OpTryGetClose). Qed.
Lemma method_TryPutClose : method_ok (TryPutClose d).
Proof. intros id kd. apply keeps_void, (method_op OpTryPutClose). Qed.
Lemma method_cancelOnce :
  method_ok (modify (fun r => rc_with_flags true (rc_getClosed r) (rc_putClosed r) r) : M rpcRequestCtx req_ev unit).
Proof.
  intros id kd. apply keeps_modify. intros r o [Hid [[] Ho]]. split; [done|]. split; [by split|].
  unfold owner_closed in *. by cbn.
Qed.

Lemma method_ends {A} (m : M rpcRequestCtx req_ev A) r :
  method_ok m -> obj_ok r ->
  let r' := m_st (m r) in
  rc_requestId r' = rc_requestId r /\ obj_ok r' /\
  (ends (m_out (m r)) + b2n (rc_closeOnce r) = b2n (rc_closeOnce r'))%nat.
Proof.
  intros Hm [o Ho] r'. destruct (Hm (rc_requestId r) (rc_kind r) r o) as [Hid Ho']; [done|].
  fold r' in Hid, Ho'. assert (rc_kind r' = rc_kind r) as Ek by (apply Ho').
  split_and!; [done|exists (o ++ m_out (m r)); by rewrite Ek|].
  destruct Ho as [[_ _ _ He _ _] _], Ho' as [[_ _ _ He' _ _] _].
  rewrite andb_true_r in He, He'. rewrite ends_app in He'. lia.
Qed.

(** ** Updating one object of the registry *)

Lemma open_requests_fresh m l r :
  m !! l = None -> (open_requests (<[l := r]> m) + b2n (rc_closeOnce r) = S (open_requests m))%nat.
Proof.
  intros Hl. unfold open_requests. destruct (rc_closeOnce r) eqn:E; cbn.
  - rewrite map_filter_insert_False by (unfold is_open; cbn; congruence).
    rewrite delete_id by done. lia.
  - rewrite map_filter_insert_True by done.
    rewrite map_size_insert_None by (by rewrite map_lookup_filter, Hl). lia.
Qed.

Lemma open_requests_insert m l r r' :
  m !! l = Some r ->
  (open_requests (<[l := r']> m) + b2n (rc_closeOnce r') = open_requests m + b2n (rc_closeOnce r))%nat.
Proof.
  intros Hl. rewrite <- (insert_delete_id m l r Hl) at 2. rewrite <- insert_delete_eq.
  rewrite !open_requests_fresh by apply lookup_delete_eq. done.
Qed.

(** The callbacks of a request's methods report exactly its ends. *)
Lemma callbacks_report rid evs t :
  let x := seqM (map (req_callback d rid) evs) t in
  same_registry t (m_st x) /\ count_ev is_cbegin (m_out x) = 0%nat /\ count_ev is_cend (m_out x) = ends evs.
Proof.
  intros x. subst x. revert t. induction evs as [|e evs IH]; intros t; cbn [map seqM]; [done|].
  assert (same_registry t (m_st (req_callback d rid e t)) /\
    count_ev is_cbegin (m_out (req_callback d rid e t)) = 0%nat /\
    count_ev is_cend (m_out (req_callback d rid e t)) = b2n (is_end e)) as (Hs & Hb & He).
  { destruct e; cbn [req_callback is_end b2n]; [|done].
    destruct (inert_sendStreamCredit rid n t) as [Hs [Q1 Q2]]. done. }
  revert Hs Hb He. unfold mbind, M_bind, m_st, m_out. destruct (req_callback d rid e t) as [[u t1] o1].
  cbn [fst snd]. intros Hs Hb He. specialize (IH t1). revert IH. unfold m_st, m_out.
  destruct (seqM _ t1) as [[u2 t2] o2]. cbn [fst snd]. intros (Hs2 & Hb2 & He2).
  rewrite !count_ev_app. unfold same_registry in *.
  change (ends (e :: evs)) with (length (List.filter is_end (e :: evs))). cbn [List.filter].
  split_and!; [intuition congruence..|lia|]. destruct (is_end e); cbn [length b2n] in *; unfold ends in *; lia.
Qed.

(** The registry after one object changed. *)
Lemma cl_inv_update k t o l r r' o' :
  cl_inv k t o -> cl_requests t !! l = Some r ->
  rc_requestId r' = rc_requestId r -> obj_ok r' ->
  count_ev is_cbegin o' = 0%nat -> (count_ev is_cend o' + b2n (rc_closeOnce r) = b2n (rc_closeOnce r'))%nat ->
  cl_inv k (upd_cl_requests (insert l r') t) (o ++ o').
Proof.
  intros [] Hl Hid Hok Hb He.
  assert (forall l0 r0, cl_requests (upd_cl_requests (insert l r') t) !! l0 = Some r0 ->
    exists r1, cl_requests t !! l0 = Some r1 /\ rc_requestId r0 = rc_requestId r1) as Hold.
  { intros l0 r0. cbn. rewrite lookup_insert. case_decide as E; [subst|by eauto]. intros [= <-]. eauto. }
  split.
  - done.
  - intros l0 r0 H0. destruct (Hold _ _ H0) as (r1 & H1 & _). eauto.
  - intros l0 r0 H0. destruct (Hold _ _ H0) as (r1 & H1 & ->). eauto.
  - intros l1 l2 r1 r2 H1 H2 E. destruct (Hold _ _ H1) as (r1' & H1' & E1), (Hold _ _ H2) as (r2' & H2' & E2).
    eapply ci_inj0; [exact H1'|exact H2'|congruence].
  - intros id l0 Hm. destruct (ci_map0 id l0 Hm) as (r0 & H0 & <-). cbn. rewrite lookup_insert.
    case_decide as E; [subst|by eauto]. exists r'. split; [done|congruence].
  - intros l0 r0. cbn. rewrite lookup_insert. case_decide; [by intros [= <-]|eauto].
  - rewrite count_ev_app, Hb. cbn. rewrite map_size_insert_Some by (by rewrite Hl). lia.
  - rewrite !count_ev_app, Hb. cbn. pose proof (open_requests_insert _ l r r' Hl). lia.
Qed.

Lemma on_request_inv {A} k l (m : M rpcRequestCtx req_ev A) : method_ok m -> keeps (cl_inv k) (on_request d l m).
Proof.
  intros Hm t o Hi. unfold on_request, get_req. rewrite M_gets_bind.
  destruct (cl_requests t !! l) as [r|] eqn:Hl; [|by apply keeps_ret].
  pose proof (method_ends m r Hm (ci_obj _ _ _ Hi _ _ Hl)) as (Hid & Hok & Hends).
  unfold m_st, m_out in Hid, Hok, Hends. destruct (m r) as [[a r'] evs]. cbn [fst snd] in *.
  rewrite M_modify_bind. set (t1 := upd_cl_requests (insert l r') t).
  pose proof (callbacks_report (rc_requestId r) evs t1) as (Hs & Hb & He).
  unfold mbind, M_bind, m_st, m_out. unfold m_st, m_out in Hs, Hb, He.
  destruct (seqM _ t1) as [[u t2] o2]. cbn [fst snd mret M_ret] in *. rewrite app_nil_r.
  assert (cl_inv k t1 (o ++ o2)) as [].
  { eapply cl_inv_update; [exact Hi|exact Hl|done..|lia]. }
  destruct Hs as (E1 & E2 & E3 & E4). split; rewrite ?E1, ?E2, ?E3, ?E4; done.
Qed.

Lemma on_request__inv {A} k l (m : M rpcRequestCtx req_ev A) : method_ok m -> keeps (cl_inv k) (on_request_ d l m).
Proof. intros Hm. unfold on_request_. keeps_split. by apply on_request_inv. Qed.

Lemma removeRequest_inv k id : keeps (cl_inv k) (removeRequest id).
Proof.
  apply keeps_modify. intros t o []. split; try done. cbn. intros id' l Hl.
  apply lookup_delete_Some in Hl as [_ Hl]. eauto.
Qed.

#[local] Hint Resolve inert_keeps inert_reply inert_getConn inert_resetConn inert_on_serving inert_serveInboundCall
  inert_serveInboundStream inert_handshakeToken inert_newContext on_request_inv on_request__inv removeRequest_inv
  method_SetError method_Close method_Grant method_sendInitialCredit method_notifyResult method_TryGetClose
  method_TryPutClose method_cancelOnce method_op : client.

(** Splits code into actions; those that are inert or single methods go to the
    hint database. *)
Ltac client_step :=
  lazymatch goal with
  | |- keeps _ (emit _) => apply inert_keeps, inert_emit; reflexivity
  | |- keeps _ (modify _) => apply inert_keeps, inert_modify; intros; done
  | _ => keeps_step
  end.
Ltac client_split := repeat client_step; eauto with client.

Lemma failRequest_inv k l e : keeps (cl_inv k) (failRequest d l e).
Proof. unfold failRequest, get_req. client_split. Qed.

Lemma notify_then_inv k l rid v f :
  (forall b, keeps (cl_inv k) (f b)) -> keeps (cl_inv k) (notify_then d growcap l rid v f).
Proof. intros Hf. unfold notify_then. client_split. Qed.

Lemma processResponse_inv k cancel mt resp l :
  (forall id, keeps (cl_inv k) (cancel id)) -> keeps (cl_inv k) (processResponse d growcap cancel mt resp l).
Proof.
  intros Hc. unfold processResponse, get_req. destruct (fieldOrNil resp (ValueField d)); client_split;
    try (apply notify_then_inv; intros; client_split).
Qed.

Lemma getResponseHandler_inv k cancel resp :
  (forall id, keeps (cl_inv k) (cancel id)) -> keeps (cl_inv k) (getResponseHandler d growcap cancel resp).
Proof.
  intros Hc. unfold getResponseHandler. client_split. by apply processResponse_inv.
Qed.

Lemma ConnectContext_inv k de : keeps (cl_inv k) (ConnectContext d growcap de).
Proof.
  unfold ConnectContext, connect. client_split.
  apply getResponseHandler_inv. intros id. client_split.
Qed.

Lemma ensureConnection_inv k de : keeps (cl_inv k) (ensureConnection d growcap de).
Proof. unfold ensureConnection. client_split. apply ConnectContext_inv. Qed.

Lemma CancelRequest_inv k de id : keeps (cl_inv k) (Client_CancelRequest d growcap de id).
Proof. unfold Client_CancelRequest, sendSystemRequest. client_split. apply ensureConnection_inv. Qed.

#[local] Hint Resolve failRequest_inv ConnectContext_inv ensureConnection_inv CancelRequest_inv : client.

Lemma singleResp_inv k de l c : keeps (cl_inv k) (singleResp d growcap de l c).
Proof. unfold singleResp, get_req. client_split. Qed.

Lemma streamOut_inv k l pc recv : keeps (cl_inv k) (streamOut_step d growcap l pc recv).
Proof. unfold streamOut_step, get_req. client_split. Qed.

Lemma dispose_all_inv k cutoff replay ls : keeps (cl_inv k) (dispose_all d cutoff replay ls).
Proof.
  revert replay. induction ls as [|l ls IH]; intros replay; cbn [dispose_all]; [apply keeps_ret|].
  apply keeps_bind; [|auto]. unfold dispose. client_split.
Qed.

Lemma seqM_inv {A} k (f : A -> M rpcClient cl_ev unit) ls :
  (forall a, keeps (cl_inv k) (f a)) -> keeps (cl_inv k) (seqM (map f ls)).
Proof. intros Hf. apply keeps_seqM, Forall_map, Forall_true. done. Qed.

Lemma transmitRequest_inv k l : keeps (cl_inv k) (transmitRequest l).
Proof. unfold transmitRequest, get_req. client_split. Qed.

Lemma retry_attempts_inv k des : keeps (cl_inv k) (retry_attempts d growcap des).
Proof. induction des as [|de des IH]; cbn [retry_attempts]; client_split. Qed.

Lemma obj_ok_new id kd req cap mp : obj_ok (NewRequestCtx id kd req cap mp true true).
Proof. exists []. apply NewRequestCtx_inv. Qed.

(** Registering a request uses up one id. *)
Lemma newRequestCtx_inv k kd req cap t o :
  cl_inv k t o ->
  let n := cl_lastRequest t + 1 in
  let x := newRequestCtx d n kd req cap (upd_cl_lastRequest (fun _ => n) t) in
  cl_inv (k + 1) (m_st x) (o ++ m_out x).
Proof.
  intros [] n x. subst x. unfold newRequestCtx. rewrite M_gets_bind. cbn [id].
  set (r := NewRequestCtx _ _ _ _ _ _ _). set (l := cl_nextLoc _).
  assert (cl_requests t !! l = None) as Hfresh.
  { destruct (cl_requests t !! l) eqn:E; [|done]. apply ci_fresh0 in E. subst l. cbn in E. lia. }
  assert (forall l0 r0, <[l := r]> (cl_requests t) !! l0 = Some r0 ->
    (l0 = l /\ r0 = r) \/ (l0 <> l /\ cl_requests t !! l0 = Some r0)) as Hold.
  { intros l0 r0. rewrite lookup_insert. case_decide; [intros [= <-]|]; naive_solver. }
  assert (rc_requestId r = n) as Hr by done. assert (n = cl_lastRequest t + 1) as Hn by done.
  assert (obj_ok r) as Hok by apply obj_ok_new. assert (rc_closeOnce r = false) as Hopen by done.
  assert (l = cl_nextLoc t) as Hl by done. clearbody r l n. unM. split; cbn.
  - lia.
  - intros l0 r0 [[-> ->]|[_ H0]]%Hold; [lia|]. apply ci_fresh0 in H0. lia.
  - intros l0 r0 [[-> ->]|[_ H0]]%Hold; [lia|]. apply ci_ids0 in H0. lia.
  - intros l1 l2 r1 r2 [[-> ->]|[_ H1]]%Hold [[-> ->]|[_ H2]]%Hold E; try done.
    + apply ci_ids0 in H2. lia.
    + apply ci_ids0 in H1. lia.
    + eauto.
  - intros id' l0. rewrite lookup_insert. case_decide as E.
    + intros [= <-]. exists r. rewrite lookup_insert, decide_True by done. subst. done.
    + intros Hm. destruct (ci_map0 _ _ Hm) as (r0 & H0 & <-). exists r0.
      rewrite lookup_insert, decide_False by congruence. done.
  - intros l0 r0 [[-> ->]|[_ H0]]%Hold; [done|eauto].
  - rewrite count_ev_app. cbn. rewrite map_size_insert_None by done. unfold count_ev in *. cbn. lia.
  - pose proof (open_requests_fresh _ _ r Hfresh) as Ho. rewrite Hopen in Ho.
    rewrite !count_ev_app. unfold count_ev in *. cbn in *. lia.
Qed.

Lemma registerRequest_inv k de kd req cap t o :
  0 <= k < two63 - 1 -> cl_inv k t o ->
  let x := registerRequest d growcap de kd req cap t in cl_inv (k + 1) (m_st x) (o ++ m_out x).
Proof.
  intros Hk Hi x. subst x. unfold registerRequest. rewrite M_bind_st, M_bind_out, app_assoc.
  pose proof (ensureConnection_inv k de t o Hi) as Hi1. revert Hi1.
  generalize (m_st (ensureConnection d growcap de t)) (o ++ m_out (ensureConnection d growcap de t)).
  intros t1 o1 Hi1. destruct (m_res _) as [err|].
  { cbn. rewrite app_nil_r. destruct Hi1. split; try done. lia. }
  rewrite M_modify_bind, M_gets_bind, M_bind_st, M_bind_out. cbn [id].
  assert (upd_cl_lastRequest (fun n => wrap64 (n + 1)) t1 = upd_cl_lastRequest (fun _ => cl_lastRequest t1 + 1) t1) as ->.
  { unfold upd_cl_lastRequest. rewrite wrap64_id; [done|]. destruct Hi1. unfold in_int64, two63 in *. lia. }
  cbn [cl_lastRequest upd_cl_lastRequest mret M_ret m_st m_out fst snd]. rewrite app_nil_r.
  by apply newRequestCtx_inv.
Qed.

(** ** Everything the client's goroutines do

    Any order of these is allowed, so the interleavings of callers, the response
    loop, streamOut, the pumps, the context watchers, reconnects and Close are
    all covered. *)
Inductive cl_op :=
| COpRegister (de : dial_env) (kind : streamKind) (req : VMap) (receiveCap : Z)
| COpTransmit (l : nat)
| COpFrame (de : dial_env) (resp : VMap)
| COpSingleResp (de : dial_env) (l : nat) (c : single_case)
| COpRequest (l : nat) (op : req_op)       (* the pump goroutine, the consumer, the initial grant *)
| COpStreamOut (l : nat) (pc : out_pc) (recv : option (option Value))
| COpWatchFired (de : dial_env) (l : nat)
| COpServing (l : nat) (op : vs_op)        (* a reverse stream's goroutines *)
| COpJob (j : cl_job)
| COpCancel (de : dial_env) (id : Z)
| COpConnect (de : dial_env)
| COpReconnectBegin
| COpReconnectEnd (de : dial_env) (replay : list nat)
| COpRetry (des : list dial_env)
| COpClose.

Definition run_cl_op (op : cl_op) : M rpcClient cl_ev unit :=
  match op with
  | COpRegister de kind req cap => registerRequest d growcap de kind req cap ≫= fun _ => mret tt
  | COpTransmit l => transmitRequest l ≫= fun _ => mret tt
  | COpFrame de resp => handleFrame d growcap de resp
  | COpSingleResp de l c => singleResp d growcap de l c ≫= fun _ => mret tt
  | COpRequest l op => on_request_ d l (run_req_op d growcap op)
  | COpStreamOut l pc recv => streamOut_step d growcap l pc recv ≫= fun _ => mret tt
  | COpWatchFired de l => watchFired d growcap de l
  | COpServing l op => on_serving l (run_vs_op d growcap op) ≫= fun _ => mret tt
  | COpJob (JobCall reqId name cf args req) => runInboundCall d reqId name cf args req
  | COpJob (JobStream l reqId name cf ctx args) => runInboundStream d l reqId name cf ctx args
  | COpJob _ => mret tt                    (* COpWatchFired, COpStreamOut *)
  | COpCancel de id => Client_CancelRequest d growcap de id
  | COpConnect de => ConnectContext d growcap de ≫= fun _ => mret tt
  | COpReconnectBegin => Reconnect_begin d ≫= fun _ => mret tt
  | COpReconnectEnd de replay => Reconnect_end d growcap de replay ≫= fun _ => mret tt
  | COpRetry des => retryReconnect d growcap des
  | COpClose => Client_Close
  end.

#[local] Hint Resolve singleResp_inv streamOut_inv dispose_all_inv transmitRequest_inv retry_attempts_inv : client.

Lemma run_cl_op_keeps k op :
  (forall de kd req cap, op <> COpRegister de kd req cap) -> keeps (cl_inv k) (run_cl_op op).
Proof.
  intros Hne. destruct op as [de kd req cap| | | | | | | |[]| | | | | |]; cbn [run_cl_op]; [by destruct (Hne de kd req cap)|..].
  all: try (client_split; fail).
  - apply getResponseHandler_inv. intros id. apply CancelRequest_inv.
  - unfold watchFired, get_req. client_split.
  - unfold runInboundCall. client_split.
  - unfold runInboundStream. client_split.
  - unfold Reconnect_begin. client_split.
  - unfold Reconnect_end. client_split; apply seqM_inv; intros; client_split.
  - unfold retryReconnect. client_split.
  - unfold Client_Close. client_split. apply seqM_inv. intros. client_split.
Qed.

Lemma run_cl_op_step k op t o :
  0 <= k < two63 - 1 -> cl_inv k t o ->
  cl_inv (k + 1) (m_st (run_cl_op op t)) (o ++ m_out (run_cl_op op t)).
Proof.
  intros Hk Hi.
  assert (cl_inv k (m_st (run_cl_op op t)) (o ++ m_out (run_cl_op op t)) \/
          exists de kd req cap, op = COpRegister de kd req cap) as [[]|(de & kd & req & cap & ->)].
  { destruct op; try (left; apply run_cl_op_keeps; [done|exact Hi]). right. eauto. }
  - split; try done. lia.
  - cbn [run_cl_op]. rewrite M_bind_st, M_bind_out. cbn [mret M_ret m_st m_out fst snd]. rewrite app_nil_r.
    by apply registerRequest_inv.
Qed.

Lemma NewClient_inv cid mp tm md rp : cl_inv 0 (NewClientWithDialer cid mp tm md rp) [].
Proof. split; cbn; try done; try lia; intros; by rewrite lookup_empty in *. Qed.

Lemma client_run_inv cid mp tm md rp ops :
  Z.of_nat (length ops) < two63 ->
  let x := seqM (map run_cl_op ops) (NewClientWithDialer cid mp tm md rp) in
  cl_inv (Z.of_nat (length ops)) (m_st x) (m_out x).
Proof.
  intros Hn x. subst x.
  assert (forall k t o, 0 <= k -> k + Z.of_nat (length ops) < two63 -> cl_inv k t o ->
    cl_inv (k + Z.of_nat (length ops)) (m_st (seqM (map run_cl_op ops) t))
      (o ++ m_out (seqM (map run_cl_op ops) t))) as Hgen.
  { clear Hn. induction ops as [|op ops IH]; intros k t o Hk Hn Hi; cbn [map seqM length] in *.
    - cbn. by rewrite app_nil_r, Z.add_0_r.
    - rewrite M_bind_st, M_bind_out, app_assoc.
      replace (k + Z.of_nat (S (length ops))) with (k + 1 + Z.of_nat (length ops)) by lia.
      apply IH; [lia..|]. apply run_cl_op_step; [lia|exact Hi]. }
  apply (Hgen 0 _ []); [lia|lia|]. apply NewClient_inv.
Qed.

(** C17: For every interleaving of fewer than 2^63 steps of the client's
    goroutines, a request is registered under its own id, ids are positive and
    were issued by this client, and no two requests ever share one. *)
Theorem client_registry cid mp tm md rp ops :
  Z.of_nat (length ops) < two63 ->
  let t := m_st (seqM (map run_cl_op ops) (NewClientWithDialer cid mp tm md rp)) in
  (forall id l, cl_requestCtxMap t !! id = Some l ->
     0 < id <= cl_lastRequest t /\ exists r, cl_requests t !! l = Some r /\ rc_requestId r = id) /\
  (forall l1 l2 r1 r2, cl_requests t !! l1 = Some r1 -> cl_requests t !! l2 = Some r2 ->
     rc_requestId r1 = rc_requestId r2 -> l1 = l2).
Proof.
  intros Hn t. destruct (client_run_inv cid mp tm md rp ops Hn). fold t in ci_ids0, ci_map0, ci_inj0.
  split; [|done]. intros id l Hm. destruct (ci_map0 id l Hm) as (r & Hr & <-).
  apply ci_ids0 in Hr as Hid. split; [lia|eauto].
Qed.

(** On the client, for every interleaving, RequestBegin was reported once per
    request ever created and RequestBegin minus RequestEnd is the number of
    requests that are not closed yet. *)
Theorem client_gauge_balanced cid mp tm md rp ops :
  Z.of_nat (length ops) < two63 ->
  let x := seqM (map run_cl_op ops) (NewClientWithDialer cid mp tm md rp) in
  count_ev is_cbegin (m_out x) = size (cl_requests (m_st x)) /\
  (count_ev is_cbegin (m_out x) - count_ev is_cend (m_out x) = open_requests (cl_requests (m_st x)))%nat /\
  (count_ev is_cend (m_out x) <= count_ev is_cbegin (m_out x))%nat.
Proof.
  intros Hn x. destruct (client_run_inv cid mp tm md rp ops Hn). fold x in ci_begins0, ci_gauge0.
  split_and!; [done|lia..].
Qed.

(** ** Frames touch their own request only *)

(** A peer that answers a handshake with a handshake response. *)
Definition handshake_server (de : dial_env) : Prop :=
  forall hs resp, de_outcome de hs = HandshakeOk resp -> messageType d resp = Some HandshakeResponse.

Lemma messageType_field resp mt :
  messageType d resp = Some mt ->
  exists v, GetNumberField resp (MessageTypeField d) = Some v /\ longOf v = mt.
Proof. unfold messageType. destruct (GetNumberField _ _) as [v|]; [|done]. intros [= <-]. eauto. Qed.

Lemma handshake_handler cancel resp t :
  messageType d resp = Some HandshakeResponse ->
  getResponseHandler d growcap cancel resp t = (tt, upd_cl_established (fun _ => true) t, [CConnected resp]).
Proof.
  intros (v & Hv & Hl)%messageType_field. unfold getResponseHandler. by rewrite Hv, Hl.
Qed.

Lemma inert_ConnectContext de : handshake_server de -> inert (ConnectContext d growcap de).
Proof.
  intros Hde. unfold ConnectContext, connect. inert_split; auto using inert_handshakeToken.
  intros t. rewrite handshake_handler by (by eapply Hde). done.
Qed.

Lemma inert_CancelRequest de id : handshake_server de -> inert (Client_CancelRequest d growcap de id).
Proof.
  intros Hde. unfold Client_CancelRequest, sendSystemRequest, ensureConnection.
  inert_split; auto using inert_ConnectContext, inert_getConn.
Qed.

(** Only object [l], known as [rid], may differ from [t0]. *)
Definition isolated (k : Z) (l : nat) (rid : Z) (t0 t : rpcClient) (o : list cl_ev) : Prop :=
  cl_inv k t o /\ (forall l', l' <> l -> cl_requests t !! l' = cl_requests t0 !! l') /\
  (forall id, id <> rid -> cl_requestCtxMap t !! id = cl_requestCtxMap t0 !! id).

Section isolation.
Context (k : Z) (l : nat) (rid : Z) (t0 : rpcClient).

Lemma inert_isolated {A} (m : M rpcClient cl_ev A) : inert m -> keeps (isolated k l rid t0) m.
Proof.
  intros Hm t o (Hi & Hr & Hc). destruct (Hm t) as [(_ & E2 & E3 & _) _].
  split_and!; [by apply inert_keeps|by rewrite E3|by rewrite E2].
Qed.

Lemma on_request_frame {A} (m : M rpcRequestCtx req_ev A) t :
  (forall l', l' <> l -> cl_requests (m_st (on_request d l m t)) !! l' = cl_requests t !! l') /\
  cl_requestCtxMap (m_st (on_request d l m t)) = cl_requestCtxMap t.
Proof.
  unfold on_request, get_req. rewrite M_gets_bind. destruct (cl_requests t !! l) as [r|]; [|done].
  destruct (m r) as [[a r'] evs]. rewrite M_modify_bind, M_bind_st.
  pose proof (callbacks_report (rc_requestId r) evs (upd_cl_requests (insert l r') t)) as ((_ & E2 & E3 & _) & _).
  cbn [mret M_ret m_st fst snd]. unfold m_st in *. rewrite E2, E3. cbn. split; [|done].
  intros l' Hne. by rewrite lookup_insert, decide_False.
Qed.

Lemma on_request_isolated {A} (m : M rpcRequestCtx req_ev A) :
  method_ok m -> keeps (isolated k l rid t0) (on_request d l m).
Proof.
  intros Hm t o (Hi & Hr & Hc). destruct (on_request_frame m t) as [Hf Hmap].
  split_and!; [by apply on_request_inv|intros l' Hne; by rewrite Hf, Hr|by rewrite Hmap].
Qed.

Lemma on_request__isolated {A} (m : M rpcRequestCtx req_ev A) :
  method_ok m -> keeps (isolated k l rid t0) (on_request_ d l m).
Proof. intros Hm. unfold on_request_. keeps_split. by apply on_request_isolated. Qed.

Lemma removeRequest_isolated : keeps (isolated k l rid t0) (removeRequest rid).
Proof.
  intros t o (Hi & Hr & Hc). split_and!; [by apply removeRequest_inv|done|].
  intros id Hne. cbn. rewrite lookup_delete_ne by done. auto.
Qed.
End isolation.

#[local] Hint Resolve inert_isolated inert_CancelRequest on_request_isolated on_request__isolated
  removeRequest_isolated : client.

Ltac isolated_step :=
  lazymatch goal with
  | |- keeps _ (emit _) => apply inert_isolated, inert_emit; reflexivity
  | |- keeps _ (notify_then _ _ _ _ _ _) => unfold notify_then
  | _ => keeps_step
  end.

Lemma processResponse_isolated k de mt resp l r t o :
  handshake_server de -> cl_inv k t o -> cl_requests t !! l = Some r ->
  let x := processResponse d growcap (Client_CancelRequest d growcap de) mt resp l t in
  isolated k l (rc_requestId r) t (m_st x) (o ++ m_out x).
Proof.
  intros Hde Hi Hl x. subst x. unfold processResponse, get_req. rewrite M_gets_bind, Hl. cbv zeta.
  match goal with |- isolated _ _ _ _ (m_st (?m t)) (o ++ m_out (?m t)) =>
    enough (keeps (isolated k l (rc_requestId r) t) m) as Hk by (by apply (Hk t o)) end.
  destruct (fieldOrNil resp (ValueField d)); repeat isolated_step; eauto with client.
Qed.

(** C16: After any history of the client, a frame from the server leaves every
    request with another id exactly as it was, both the object and its entry
    in the request map, whatever the frame's type and whatever it triggers. *)
Theorem frames_are_isolated cid mp tm md rp ops de resp :
  Z.of_nat (length ops) < two63 -> handshake_server de ->
  let t := m_st (seqM (map run_cl_op ops) (NewClientWithDialer cid mp tm md rp)) in
  let t' := m_st (handleFrame d growcap de resp t) in
  forall l r, cl_requests t !! l = Some r -> requestIdOf d resp <> Some (rc_requestId r) ->
    cl_requests t' !! l = Some r /\
    cl_requestCtxMap t' !! rc_requestId r = cl_requestCtxMap t !! rc_requestId r.
Proof.
  intros Hn Hde t t' l r Hl Hid.
  assert (exists o, cl_inv (Z.of_nat (length ops)) t o) as [o Hi].
  { eexists. by apply (client_run_inv cid mp tm md rp ops). }
  subst t'. clearbody t.
  assert (forall A (m : M rpcClient cl_ev A), inert m ->
    cl_requests (m_st (m t)) !! l = Some r /\
    cl_requestCtxMap (m_st (m t)) !! rc_requestId r = cl_requestCtxMap t !! rc_requestId r) as Hinert.
  { intros A m Hm. destruct (Hm t) as [(_ & E2 & E3 & _) _]. by rewrite E2, E3. }
  unfold handleFrame, getResponseHandler, requestIdOf in *.
  destruct (GetNumberField resp (MessageTypeField d)) as [mt|]; [|apply Hinert; inert_split].
  destruct (longOf mt =? HandshakeResponse); [apply Hinert; inert_split|].
  destruct (longOf mt =? FunctionRequest); [apply Hinert, inert_serveInboundCall|].
  destruct (_ || _ || _); [apply Hinert, inert_serveInboundStream|].
  destruct (GetNumberField resp (RequestIdField d)) as [idV|]; [|apply Hinert; inert_split].
  rewrite M_gets_bind. cbn [id]. destruct (cl_servingMap t !! longOf idV) as [ls|].
  { apply Hinert. inert_split. apply inert_on_serving. }
  destruct (cl_requestCtxMap t !! longOf idV) as [l0|] eqn:Hm; [|apply Hinert; inert_split].
  destruct (ci_map _ _ _ Hi _ _ Hm) as (r0 & Hr0 & Hid0).
  destruct (processResponse_isolated _ de (longOf mt) resp l0 r0 t _ Hde Hi Hr0) as (_ & Hreq & Hmap).
  rewrite Hreq, Hmap; [done|congruence..].
Qed.

End client_props.

(** ** Witnesses *)

Section client_props_witness.
#[local] Existing Instance RefValueLib.

Definition demo_cl_grow (n : nat) : nat := S (2 * n).
Lemma demo_cl_grow_larger n : (n < demo_cl_grow n)%nat.
Proof. unfold demo_cl_grow. lia. Qed.

(** A server that accepts every handshake. *)
Definition demo_dial : dial_env :=
  mkDial (inr zero_seed) (fun _ => HandshakeOk (Dialect_NewHandshakeResponse NewDialect "")).

Lemma demo_handshake_server : handshake_server NewDialect demo_dial.
Proof. intros hs resp [= <-]. vm_compute. reflexivity. Qed.

Definition demo_policy : ReconnectPolicy := mkPolicy (Some (fun name => bool_decide (name = "get"))) 0 0 0 false.

(** A call of an idempotent function and an open stream. *)
Definition demo_cl_ops : list cl_op :=
  [COpRegister demo_dial unaryKind (Put EmptyMap "fn" (Some (Utf8 "get"))) 1;
   COpRegister demo_dial getStreamKind (Put EmptyMap "fn" (Some (Utf8 "feed"))) 4].

Abbreviation demo_cl := (m_st (seqM (map (run_cl_op NewDialect demo_cl_grow) demo_cl_ops)
  (NewClientWithDialer 7 4 1000 None demo_policy))).

Lemma client_registry_witness : 0 < 2 <= cl_lastRequest demo_cl.
Proof.
  refine (proj1 (proj1 (client_registry NewDialect demo_cl_grow demo_cl_grow_larger 7 4 1000 None demo_policy
    demo_cl_ops _) 2 1%nat _)); reflexivity.
Defined.

Lemma client_gauge_balanced_witness : open_requests (cl_requests demo_cl) = 2%nat.
Proof.
  destruct (client_gauge_balanced NewDialect demo_cl_grow demo_cl_grow_larger 7 4 1000 None demo_policy
    demo_cl_ops) as (_ & Hg & _); [reflexivity|]. rewrite <- Hg. reflexivity.
Defined.

(** The answer to request 1. *)
Definition demo_answer : VMap := NewFunctionResult NewDialect (Long 1) (Some (Long 42)).

Lemma demo_cl_request : rc_requestId <$> cl_requests demo_cl !! 1%nat = Some 2.
Proof. reflexivity. Qed.

Lemma frames_are_isolated_witness :
  exists r, cl_requests demo_cl !! 1%nat = Some r /\
    cl_requests (m_st (handleFrame NewDialect demo_cl_grow demo_dial demo_answer demo_cl)) !! 1%nat = Some r.
Proof.
  pose proof demo_cl_request as Hx. destruct (cl_requests demo_cl !! 1%nat) as [r|] eqn:E; [|discriminate Hx].
  exists r. split; [reflexivity|]. injection Hx as Hx.
  refine (proj1 (frames_are_isolated NewDialect demo_cl_grow demo_cl_grow_larger 7 4 1000 None demo_policy
    demo_cl_ops demo_dial demo_answer _ demo_handshake_server 1%nat r E _)); [reflexivity|].
  rewrite Hx. vm_compute. discriminate.
Defined.
End client_props_witness.
