(* ===== verification/Metrics.v ===== *)
(** * Metrics

    The observability sink of both sides (valuerpc/metrics.go): its interface, the
    no-op default, and a sink that derives the documented signals, the counters of
    examples/observability.  The session and the client report to it with the
    metrics events of their models; what the counters show is a function of their
    state. *)

From S2P Require Import Prelude Value RefValue Protocol Verify Request Metadata ServingClient ServingSystem.
From S2P Require Import ClientServing Client ClientProps.

(** ** The interface *)

(** A sink with state [S]; the last argument of [RequestEnd] is the elapsed time. *)
Class Metrics (S : Type) := {
  RequestBegin : string -> S -> S;
  RequestEnd : string -> Z -> Z -> S -> S;
  StreamValue : string -> S -> S;
  MetricsReconnect : S -> S
}.

#[export] Instance NopMetrics : Metrics unit := {|
  RequestBegin _ s := s; RequestEnd _ _ _ s := s; StreamValue _ s := s; MetricsReconnect s := s
|}.

(** examples/observability: requests that ended, those that failed, those in
    flight. *)
Record counters := mkCounters { requests : Z; errors : Z; inflight : Z }.

#[export] Instance counters_metrics : Metrics counters := {|
  RequestBegin _ c := mkCounters (requests c) (errors c) (wrap64 (inflight c + 1));
  RequestEnd _ code _ c :=
    mkCounters (wrap64 (requests c + 1)) (if negb (code =? CodeOK) then wrap64 (errors c + 1) else errors c)
      (wrap64 (inflight c - 1));
  StreamValue _ c := c;
  MetricsReconnect c := c
|}.
Definition NewCounters : counters := mkCounters 0 0 0.

(** ** What the two sides report *)

Section feed.
Context `{ValueLib} {S : Type} `{!Metrics S}.

(** [since] is the time since the request began, as the clock shows it. *)
Definition server_report (since : sc_ev -> Z) (s : S) (e : sc_ev) : S :=
  match e with
  | ERequestBegin name => RequestBegin name s
  | ERequestEnd name code => RequestEnd name code (since e) s
  | EStreamValue name => StreamValue name s
  | _ => s
  end.

Definition client_report (since : cl_ev -> Z) (s : S) (e : cl_ev) : S :=
  match e with
  | CRequestBegin name => RequestBegin name s
  | CRequestEnd name code => RequestEnd name code (since e) s
  | CStreamValue name => StreamValue name s
  | CReconnect => MetricsReconnect s
  | _ => s
  end.

End feed.

(** ** The counters *)

Section counters.
Context `{ValueLib} (d : Dialect).

Definition ended (e : sc_ev) : bool := match e with ERequestEnd _ _ => true | _ => false end.
Definition failed (e : sc_ev) : bool := match e with ERequestEnd _ code => negb (code =? CodeOK) | _ => false end.
Definition count_of {E} (f : E -> bool) (o : list E) : Z := Z.of_nat (length (List.filter f o)).
Definition cl_failed (e : cl_ev) : bool := match e with CRequestEnd _ code => negb (code =? CodeOK) | _ => false end.

Lemma count_of_app {E} (f : E -> bool) o1 o2 : count_of f (o1 ++ o2) = count_of f o1 + count_of f o2.
Proof. unfold count_of. rewrite List.filter_app, length_app. lia. Qed.
Lemma count_of_one {E} (f : E -> bool) e : count_of f [e] = if f e then 1 else 0.
Proof. unfold count_of. cbn. by destruct (f e). Qed.

(** The counters after a trace, on either side. *)
Lemma server_counters since o :
  foldl (server_report since) NewCounters o = mkCounters (wrap64 (count_of ended o)) (wrap64 (count_of failed o)) (wrap64 (gauge o)).
Proof.
  induction o as [|e o IH] using rev_ind; [done|]. rewrite foldl_app, IH, !count_of_app, gauge_app, !count_of_one. cbn [foldl].
  unfold gauge. destruct e; cbn; rewrite ?Z.add_0_r; try done; unfold Z.sub; rewrite ?wrap64_add; [done|].
  by destruct (negb _); rewrite ?wrap64_add, ?Z.add_0_r.
Qed.

Lemma client_counters since o :
  foldl (client_report since) NewCounters o =
  mkCounters (wrap64 (count_of is_cend o)) (wrap64 (count_of cl_failed o)) (wrap64 (count_of is_cbegin o - count_of is_cend o)).
Proof.
  induction o as [|e o IH] using rev_ind; [done|]. rewrite foldl_app, IH, !count_of_app, !count_of_one. cbn [foldl].
  destruct e; cbn; rewrite ?Z.add_0_r; try done; unfold Z.sub; rewrite ?wrap64_add.
  - do 2 f_equal. lia.
  - destruct (negb _); rewrite ?wrap64_add, ?Z.add_0_r; do 2 f_equal; lia.
Qed.

End counters.

Section signals.
Context `{ValueLib} (d : Dialect) `{!dialect_ok d} (growcap : nat -> nat) (pickDone : servingClient -> VMap -> bool).
Hypothesis growcap_larger : forall n, (n < growcap n)%nat.

(** What a session's counters show after any interleaving of its goroutines: the
    gauge is the live streams plus the running unary handlers plus the unary
    handlers that panicked, which are never reported as ended. *)
Theorem session_counters since clientId tok principal fm cfg s :
  reach (sys_step d growcap pickDone) (new_system clientId tok principal fm cfg) s ->
  let c := foldl (server_report since) NewCounters (hist s) in
  requests c = wrap64 (count_of ended (hist s)) /\ errors c = wrap64 (count_of failed (hist s)) /\
  inflight c = wrap64 (sc_liveStreams (ses s) + zcount unaryRunning (pool s) + panickedUnary s).
Proof.
  intros Hr. cbn zeta. rewrite server_counters. destruct (reachable_inv _ _ _ _ _ _ _ _ _ Hr). cbn. by rewrite si_gauge.
Qed.

(** What a client's counters show: every request it ever made is counted once, as
    ended or as in flight. *)
Theorem client_counters_exact since cid mp tm md rp ops :
  Z.of_nat (length ops) < two63 ->
  let x := seqM (map (run_cl_op d growcap) ops) (NewClientWithDialer cid mp tm md rp) in
  let c := foldl (client_report since) NewCounters (m_out x) in
  inflight c = wrap64 (Z.of_nat (open_requests (cl_requests (m_st x)))) /\
  wrap64 (requests c + inflight c) = wrap64 (Z.of_nat (size (cl_requests (m_st x)))) /\
  errors c = wrap64 (count_of cl_failed (m_out x)).
Proof.
  intros Hn x c. destruct (client_run_inv d growcap growcap_larger cid mp tm md rp ops Hn). fold x in ci_begins, ci_gauge.
  unfold c. rewrite client_counters. cbn [requests errors inflight].
  change (count_of is_cend (m_out x)) with (Z.of_nat (count_ev is_cend (m_out x))).
  change (count_of is_cbegin (m_out x)) with (Z.of_nat (count_ev is_cbegin (m_out x))).
  assert (count_ev is_cbegin (m_out x) = size (cl_requests (m_st x))) as Hb by done.
  split_and!; [f_equal; lia| |done]. rewrite wrap64_add, Z.add_comm, wrap64_add. f_equal. lia.
Qed.

End signals.
