(* ===== verification/ClientReconnect.v ===== *)
(** * Reconnecting

    What Reconnect does to the requests in flight (fail or replay, each exactly
    once), and the resumption token the client presents across handshakes that
    are lost, against the server's check (HashChain.v). *)

From S2P Require Import Prelude Value RefValue Protocol Verify Sha256 HashChain Credit Pump.
From S2P Require Import FlowControl Request Metadata ClientServing Client ClientProps.

Section reconnect.
Context `{ValueLib} (d : Dialect) (growcap : nat -> nat).
Hypothesis Hgrow : forall n, (n < growcap n)%nat.

(** ** Failing one request *)

Definition failed (err : goerror) (r : rpcRequestCtx) : rpcRequestCtx :=
  m_st (RequestCtx_Close d (m_st (SetError err r))).

Lemma failed_effect err r :
  rc_closeOnce (failed err r) = true /\ rc_requestId (failed err r) = rc_requestId r /\
  rc_resultErr (failed err r) = Some err.
Proof.
  unfold failed, RequestCtx_Close, RequestCtx_closeResult, SetError, when. unM.
  destruct (rc_closeOnce r) eqn:E; cbn; [done|].
  destruct (rc_resultPump r); cbn; by destruct (rc_metrics r).
Qed.

(** A method whose events are no credit grants leaves the rest of the client
    alone and sends nothing. *)
Lemma on_request_pure {A} l (m : M rpcRequestCtx req_ev A) r t :
  cl_requests t !! l = Some r -> (forall n, RGrant n ∉ m_out (m r)) ->
  exists evs, on_request_ d l m t = (tt, upd_cl_requests (insert l (m_st (m r))) t, evs) /\ sends_of evs = [].
Proof.
  intros Hl Hev. unfold on_request_, on_request, get_req. rewrite M_assoc, M_gets_bind, Hl.
  unfold m_st, m_out in *. destruct (m r) as [[a r'] evs]. cbn [fst snd] in *. rewrite M_assoc, M_modify_bind.
  generalize (upd_cl_requests <[l:=r']> t). intros t1.
  assert (exists o, seqM (map (req_callback d (rc_requestId r)) evs) t1 = (tt, t1, o) /\ sends_of o = []) as (o & Ho & Hs).
  { induction evs as [|e evs IH]; [by exists []|]. cbn [map seqM].
    destruct IH as (o & Ho & Hs); [intros n Hn; apply (Hev n); by apply elem_of_cons; right|].
    destruct e as [n|name code]; [exfalso; apply (Hev n); apply elem_of_cons; by left|].
    exists (CRequestEnd name code :: o). unfold mbind, M_bind. cbn [req_callback emit]. by rewrite Ho. }
  exists o. split; [|done]. unfold mbind, M_bind. rewrite Ho. cbn. by rewrite !app_nil_r.
Qed.

Lemma Close_no_grant r n : RGrant n ∉ m_out (RequestCtx_Close d r).
Proof.
  unfold RequestCtx_Close, RequestCtx_closeResult, when. unM.
  destruct (rc_closeOnce r); cbn; [by intros ?%not_elem_of_nil|].
  destruct (rc_metrics r); cbn; [|by intros ?%not_elem_of_nil].
  by intros [=]%list_elem_of_singleton.
Qed.

Lemma failRequest_eq l err r t :
  cl_requests t !! l = Some r ->
  exists evs, failRequest d l err t =
    (tt, upd_cl_requestCtxMap (delete (rc_requestId r)) (upd_cl_requests (insert l (failed err r)) t), evs) /\
    sends_of evs = [].
Proof.
  intros Hl. unfold failRequest, get_req. rewrite M_gets_bind, Hl.
  destruct (on_request_pure l (SetError err) r t Hl) as (o1 & E1 & S1); [by intros n ?%not_elem_of_nil|].
  set (r1 := m_st (SetError err r)). set (t1 := upd_cl_requests (insert l r1) t).
  assert (cl_requests t1 !! l = Some r1) as Hl1 by (cbn; by rewrite lookup_insert, decide_True).
  destruct (on_request_pure l (RequestCtx_Close d) r1 t1 Hl1 (Close_no_grant r1)) as (o2 & E2 & S2).
  assert (upd_cl_requests (insert l (m_st (RequestCtx_Close d r1))) t1 = upd_cl_requests (insert l (failed err r)) t) as Et.
  { unfold t1, upd_cl_requests. cbn. by rewrite insert_insert_eq. }
  rewrite Et in E2. unfold mbind, M_bind. rewrite E1. fold r1. fold t1.
  destruct (negb _); cbn [when emit mret M_ret]; rewrite E2; cbn [removeRequest modify]; eexists; (split; [reflexivity|]);
    rewrite !sends_of_app, S1, S2; done.
Qed.

(** ** Failing all but some *)

Definition sweep (keep : nat -> bool) (err : goerror) (ls : list nat) : M rpcClient cl_ev unit :=
  seqM (map (fun l => if keep l then mret tt else failRequest d l err) ls).

Definition registry_only (t t' : rpcClient) : Prop :=
  exists rq mp, t' = upd_cl_requests (fun _ => rq) (upd_cl_requestCtxMap (fun _ => mp) t).

Lemma registry_only_refl t : registry_only t t.
Proof. exists (cl_requests t), (cl_requestCtxMap t). by destruct t. Qed.

Lemma registry_only_trans t1 t2 t3 : registry_only t1 t2 -> registry_only t2 t3 -> registry_only t1 t3.
Proof. intros (? & ? & ->) (rq & mp & ->). by exists rq, mp. Qed.

Lemma sweep_spec keep err ls t :
  NoDup ls -> (forall l, l ∈ ls -> is_Some (cl_requests t !! l)) ->
  (forall l1 l2 r1 r2, cl_requests t !! l1 = Some r1 -> cl_requests t !! l2 = Some r2 ->
     rc_requestId r1 = rc_requestId r2 -> l1 = l2) ->
  let x := sweep keep err ls t in
  let t' := m_st x in
  registry_only t t' /\ sends_of (m_out x) = [] /\
  (forall l, l ∉ ls \/ keep l = true -> cl_requests t' !! l = cl_requests t !! l) /\
  (forall l r, l ∈ ls -> keep l = false -> cl_requests t !! l = Some r ->
     cl_requests t' !! l = Some (failed err r) /\ cl_requestCtxMap t' !! rc_requestId r = None) /\
  (forall id, cl_requestCtxMap t !! id = None -> cl_requestCtxMap t' !! id = None) /\
  (forall l r, (l ∉ ls \/ keep l = true) -> cl_requests t !! l = Some r ->
     cl_requestCtxMap t' !! rc_requestId r = cl_requestCtxMap t !! rc_requestId r).
Proof.
  intros Hnd. revert t. induction Hnd as [|l ls Hnin Hnd IH]; intros t Hls Hinj x t'; subst t' x;
    unfold sweep; cbn [map seqM].
  { split_and!; try done; [apply registry_only_refl|by intros ? ? ?%not_elem_of_nil]. }
  fold (sweep keep err ls). destruct (keep l) eqn:Ek.
  { rewrite M_left_id. destruct (IH t) as (H1 & H2 & H3 & H4 & H5 & H6);
      [intros; apply Hls; by apply elem_of_cons; right|done|].
    split_and!; try done.
    - intros l0 [Hn|Hk]; apply H3; [left|by right]. intros Hin. apply Hn. by apply elem_of_cons; right.
    - intros l0 r [->|Hin]%elem_of_cons Hk; [congruence|by apply H4].
    - intros l0 r [Hn|Hk]; apply H6; [left|by right]. intros Hin. apply Hn. by apply elem_of_cons; right. }
  destruct (Hls l) as [r Hr]; [by apply elem_of_cons; left|].
  destruct (failRequest_eq l err r t Hr) as (evs & Ef & Hs). unfold mbind, M_bind. rewrite Ef.
  set (t1 := upd_cl_requestCtxMap _ _).
  assert (forall l0, l0 <> l -> cl_requests t1 !! l0 = cl_requests t !! l0) as Hother.
  { intros l0 Hne. cbn. by rewrite lookup_insert, decide_False. }
  assert (cl_requests t1 !! l = Some (failed err r)) as Hself by (cbn; by rewrite lookup_insert, decide_True).
  assert (rc_requestId (failed err r) = rc_requestId r) as Hid by apply failed_effect.
  destruct (IH t1) as (H1 & H2 & H3 & H4 & H5 & H6).
  { intros l0 Hin. rewrite Hother; [apply Hls; by apply elem_of_cons; right|]. by intros ->. }
  { intros l1 l2 r1 r2 A1 A2 E. destruct (decide (l1 = l)) as [->|N1], (decide (l2 = l)) as [->|N2]; try done.
    - rewrite Hother in A2 by done. eapply Hinj; [exact Hr|exact A2|congruence].
    - rewrite Hother in A1 by done. eapply Hinj; [exact A1|exact Hr|congruence].
    - rewrite Hother in A1, A2 by done. by eapply Hinj. }
  unfold m_st, m_out in *. destruct (sweep keep err ls t1) as [[u t2] o2]. cbn [fst snd] in *.
  assert (forall id, id <> rc_requestId r -> cl_requestCtxMap t1 !! id = cl_requestCtxMap t !! id) as Hmap.
  { intros id Hne. cbn. by rewrite lookup_delete_ne. }
  assert (cl_requestCtxMap t1 !! rc_requestId r = None) as Hgone by (cbn; by rewrite lookup_delete_eq).
  split_and!.
  - eapply registry_only_trans; [|exact H1].
    by exists (insert l (failed err r) (cl_requests t)), (delete (rc_requestId r) (cl_requestCtxMap t)).
  - by rewrite sends_of_app, Hs, H2.
  - intros l0 [Hn|Hk].
    + rewrite H3; [apply Hother|left]; intros E; apply Hn; apply elem_of_cons; auto.
    + rewrite H3 by auto. apply Hother. congruence.
  - intros l0 r0 [->|Hin]%elem_of_cons Hk Hr0.
    + rewrite H3 by auto. replace r0 with r by congruence. auto.
    + rewrite <- (Hother l0) in Hr0 by (by intros ->). by apply H4.
  - intros id Hn. apply H5. destruct (decide (id = rc_requestId r)) as [->|]; [done|]. by rewrite Hmap.
  - intros l0 r0 Hor Hr0. assert (l0 <> l) as Hne.
    { intros ->. destruct Hor as [Hn|Hk]; [|congruence]. apply Hn. by apply elem_of_cons; left. }
    rewrite (H6 l0 r0).
    + apply Hmap. intros E. apply Hne. by eapply Hinj.
    + destruct Hor as [Hn|Hk]; [left|by right]. intros Hin. apply Hn. by apply elem_of_cons; right.
    + by rewrite Hother.
Qed.

(** ** The Range of Reconnect is a sweep *)

Definition replays (t : rpcClient) (l : nat) : bool :=
  match cl_requests t !! l with Some r => replayable d t r | None => false end.

Lemma dispose_all_sweep keep cutoff replay ls t :
  NoDup ls ->
  (forall l, l ∈ ls -> replays t l = keep l /\ exists r, cl_requests t !! l = Some r /\ rc_requestId r <= cutoff) ->
  dispose_all d cutoff replay ls t =
    (replay ++ List.filter keep ls, m_st (sweep keep ErrConnectionLost ls t), m_out (sweep keep ErrConnectionLost ls t)).
Proof.
  intros Hnd. revert replay t. induction Hnd as [|l ls Hnin Hnd IH]; intros replay t Hls.
  { cbn. by rewrite app_nil_r. }
  destruct (Hls l) as (Hk & r & Hr & Hcut); [by apply elem_of_cons; left|].
  cbn [dispose_all List.filter]. unfold dispose. rewrite M_assoc, M_gets_bind. cbn [id]. rewrite Hr.
  rewrite (proj2 (Z.ltb_ge _ _)) by done. unfold replays in Hk. rewrite Hr in Hk. rewrite Hk.
  unfold sweep. cbn [map seqM]. fold (sweep keep ErrConnectionLost ls). destruct (keep l) eqn:Ek.
  - rewrite !M_left_id, IH by (intros; apply Hls; by apply elem_of_cons; right). by rewrite <- app_assoc.
  - destruct (failRequest_eq l ErrConnectionLost r t Hr) as (evs & Ef & _).
    rewrite M_assoc. unfold mbind, M_bind. rewrite Ef. cbn [mret M_ret]. rewrite IH.
    + unfold m_st, m_out. by destruct (sweep keep ErrConnectionLost ls _) as [[[] ?] ?].
    + intros l0 Hin. assert (l0 <> l) as Hne by (by intros ->).
      destruct (Hls l0) as (Hk0 & r0 & Hr0 & Hc0); [by apply elem_of_cons; right|].
      unfold replays in *. cbn. rewrite lookup_insert, decide_False by done. rewrite Hr0 in *.
      split; [exact Hk0|]. by exists r0.
Qed.

(** ** Connecting anew *)

Lemma ConnectContext_spec de t :
  handshake_server d de -> cl_conn t = None ->
  let x := ConnectContext d growcap de t in
  (m_res x = None -> exists c hs, sends_of (m_out x) = [(c, hs)] /\ cl_conn (m_st x) = Some c) /\
  (m_res x <> None -> cl_conn (m_st x) = None).
Proof.
  intros Hde Hc x. subst x. unfold ConnectContext. rewrite M_gets_bind. cbn [id].
  assert (hasConn t = false) as -> by (unfold hasConn; by rewrite Hc). assert (cl_conn (m_st (handshakeToken (de_seed de) t)) = None /\
    m_out (handshakeToken (de_seed de) t) = []) as [Hc1 Ho1].
  { unfold handshakeToken, NewHashChain. unM. destruct (cl_resumeChain t) as [ch|]; cbn.
    - destruct (cl_established t); cbn; [|done]. destruct (Next ch) as [tok ch']. cbn. by destruct (bool_decide _).
    - destruct (de_seed de); cbn; [done|]. destruct (cl_established t); cbn; [|done].
      destruct (Next _) as [tok ch']. cbn. by destruct (bool_decide _). }
  unfold mbind, M_bind, m_res, m_st, m_out in *. destruct (handshakeToken (de_seed de) t) as [[tk t1] o1].
  cbn [fst snd] in *. subst o1. destruct tk as [err|token]; [done|].
  unfold connect. rewrite M_gets_bind. cbn [id].
  assert (hasConn t1 = false) as -> by (unfold hasConn; by rewrite Hc1).
  destruct (de_outcome de _) as [err|err|resp] eqn:Eo; [done|by cbn|].
  rewrite M_modify_bind. unfold mbind, M_bind, emit. rewrite handshake_handler by (by eapply Hde). cbn.
  split; [|done]. intros _. by eexists _, _.
Qed.

(** Replaying sends each request's own message once, on the connection. *)
Lemma transmit_one c l t :
  cl_conn t = Some c ->
  transmitRequest l t =
    (is_some (cl_requests t !! l), t, match cl_requests t !! l with Some r => [CSend c (rc_req r)] | None => [] end).
Proof.
  intros Hc. unfold transmitRequest, get_req. rewrite M_gets_bind. destruct (cl_requests t !! l) as [r|]; [|done].
  unfold getConn_SendRequest. rewrite M_gets_bind. cbn [id]. by rewrite Hc.
Qed.

Lemma transmit_all_spec c ls t :
  cl_conn t = Some c ->
  let x := seqM (map (fun l => transmitRequest l ≫= fun _ => mret tt) ls) t in
  m_st x = t /\ sends_of (m_out x) = map (fun r => (c, rc_req r)) (omap (fun l => cl_requests t !! l) ls).
Proof.
  intros Hc x. subst x. induction ls as [|l ls IH]; [done|]. cbn [map seqM].
  rewrite M_assoc. unfold mbind, M_bind in *. rewrite (transmit_one c l t Hc). cbn [mret M_ret] in *.
  unfold m_st, m_out in *. destruct (seqM _ t) as [[u t'] o]. cbn [fst snd] in *. destruct IH as [-> IH].
  split; [done|]. cbn [app]. rewrite sends_of_app, IH. cbn [omap list_omap]. by destruct (cl_requests t !! l).
Qed.

(** The requests of the map, in the order the Range visits them. *)
Definition in_flight (t : rpcClient) : list nat := map snd (map_to_list (cl_requestCtxMap t)).

Lemma elem_of_in_flight t l : l ∈ in_flight t <-> exists id, cl_requestCtxMap t !! id = Some l.
Proof.
  unfold in_flight. split.
  - intros ([id l'] & -> & Hin%elem_of_map_to_list)%list_elem_of_fmap. eauto.
  - intros [id Hid]. apply list_elem_of_fmap. exists (id, l). split; [done|]. by apply elem_of_map_to_list.
Qed.

Lemma in_flight_NoDup k t o : cl_inv k t o -> NoDup (in_flight t).
Proof.
  intros Hi. apply NoDup_fmap_2_strong; [|apply NoDup_map_to_list].
  intros [i1 l1] [i2 l2] H1%elem_of_map_to_list H2%elem_of_map_to_list E.
  cbn in E. subst l2. destruct (ci_map _ _ _ Hi _ _ H1) as (r1 & A1 & <-), (ci_map _ _ _ Hi _ _ H2) as (r2 & A2 & <-).
  congruence.
Qed.

Lemma Reconnect_begin_spec k t o :
  cl_inv k t o -> cl_reconnecting t = false ->
  let x := Reconnect_begin d t in
  let t1 := m_st x in
  let ls := in_flight t in
  m_res x = Some (List.filter (replays t) ls) /\ sends_of (m_out x) = [] /\ cl_conn t1 = None /\
  (forall l r, cl_requests t !! l = Some r -> l ∉ ls \/ replayable d t r = true ->
     cl_requests t1 !! l = Some r /\ cl_requestCtxMap t1 !! rc_requestId r = cl_requestCtxMap t !! rc_requestId r) /\
  (forall l r, l ∈ ls -> cl_requests t !! l = Some r -> replayable d t r = false ->
     cl_requests t1 !! l = Some (failed ErrConnectionLost r) /\ cl_requestCtxMap t1 !! rc_requestId r = None).
Proof.
  intros Hi Hrec x t1 ls. subst t1 x. unfold Reconnect_begin. rewrite M_gets_bind. cbn [id]. rewrite Hrec.
  rewrite !M_modify_bind. set (ta := upd_cl_reconnects _ _).
  assert (exists tb, resetConn ta = (tt, tb, []) /\ cl_conn tb = None /\ cl_requests tb = cl_requests t /\
    cl_requestCtxMap tb = cl_requestCtxMap t /\ cl_lastRequest tb = cl_lastRequest t /\ cl_reconnect tb = cl_reconnect t)
    as (tb & Er & Hc & Hrq & Hmp & Hlast & Hpol).
  { unfold resetConn. rewrite M_gets_bind. cbn [id]. rewrite M_modify_bind.
    destruct (cl_conn ta); eexists; (split; [reflexivity|done]). }
  rewrite (M_run_bind (emit CReconnect) _ ta tt ta [CReconnect] eq_refl).
  rewrite (M_run_bind resetConn _ ta tt tb [] Er), M_gets_bind. cbn [id]. rewrite Hmp. fold (in_flight t) ls.
  assert (forall l, replays tb l = replays t l) as Hrep.
  { intros l. unfold replays, replayable. by rewrite Hrq, Hpol. }
  assert (NoDup ls) as Hnd by (by eapply in_flight_NoDup).
  assert (forall l, l ∈ ls -> exists r, cl_requests t !! l = Some r /\ rc_requestId r <= cl_lastRequest t) as Hls.
  { intros l ([id l'] & -> & Hin%elem_of_map_to_list)%list_elem_of_fmap. destruct (ci_map _ _ _ Hi _ _ Hin) as (r & Hr & _).
    exists r. split; [done|]. apply (ci_ids _ _ _ Hi _ _ Hr). }
  rewrite (M_bind_ret _ Some). rewrite (dispose_all_sweep (replays t)) by
    (done || (intros l Hl; rewrite Hrep, Hrq, Hlast; split; [done|by apply Hls])).
  destruct (sweep_spec (replays t) ErrConnectionLost ls tb Hnd) as (H1 & H2 & H3 & H4 & _ & H6).
  { intros l Hl. rewrite Hrq. destruct (Hls l Hl) as (r & -> & _). done. }
  { rewrite Hrq. apply (ci_inj _ _ _ Hi). }
  unfold m_res, m_st, m_out in *. cbn [fst snd] in *. rewrite Hrq, ?Hmp in *.
  split_and!; [done|done|destruct H1 as (? & ? & ->); exact Hc| |].
  - intros l r Hr Hor. rewrite <- Hr. split.
    + apply H3. destruct Hor as [|E]; [by left|right]. unfold replays. by rewrite Hr.
    + apply (H6 l); [|done]. destruct Hor as [|E]; [by left|right]. unfold replays. by rewrite Hr.
  - intros l r Hl Hr E. apply H4; [done| |done]. unfold replays. by rewrite Hr.
Qed.

Lemma Reconnect_end_spec k de replay t o :
  cl_inv k t o -> handshake_server d de -> cl_conn t = None ->
  NoDup replay -> (forall l, l ∈ replay -> is_Some (cl_requests t !! l)) ->
  let x := Reconnect_end d growcap de replay t in
  let t' := m_st x in
  cl_reconnecting t' = false /\
  (m_res x = None ->
     cl_requests t' = cl_requests t /\ cl_requestCtxMap t' = cl_requestCtxMap t /\
     exists c hs, cl_conn t' = Some c /\
       sends_of (m_out x) = (c, hs) :: map (fun r => (c, rc_req r)) (omap (fun l => cl_requests t !! l) replay)) /\
  (m_res x <> None ->
     cl_conn t' = None /\
     (forall l, l ∉ replay -> cl_requests t' !! l = cl_requests t !! l) /\
     (forall id, cl_requestCtxMap t !! id = None -> cl_requestCtxMap t' !! id = None) /\
     (forall l r, l ∈ replay -> cl_requests t !! l = Some r ->
        cl_requests t' !! l = Some (failed ErrConnectionLost r) /\ cl_requestCtxMap t' !! rc_requestId r = None)).
Proof.
  intros Hi Hde Hc Hnd Hls x t'. subst t' x. unfold Reconnect_end.
  destruct (ConnectContext_spec de t Hde Hc) as [Hok Hko].
  destruct (inert_ConnectContext d growcap de Hde t) as [(_ & E2 & E3 & _) _].
  destruct (ConnectContext d growcap de t) as [[e t1] o1] eqn:Ec. unfold m_res, m_st, m_out in Hok, Hko, E2, E3.
  cbn [fst snd] in *. rewrite (M_run_bind _ _ t e t1 o1 Ec). destruct e as [err|].
  - assert (forall l1 l2 r1 r2, cl_requests t1 !! l1 = Some r1 -> cl_requests t1 !! l2 = Some r2 ->
      rc_requestId r1 = rc_requestId r2 -> l1 = l2) as Hinj by (rewrite E3; apply (ci_inj _ _ _ Hi)).
    destruct (sweep_spec (fun _ => false) ErrConnectionLost replay t1 Hnd) as (H1 & H2 & H3 & H4 & H5 & _);
      [by rewrite E3|exact Hinj|]. fold (sweep (fun _ => false) ErrConnectionLost replay).
    change (seqM (map (fun l => failRequest d l ErrConnectionLost) replay))
      with (sweep (fun _ => false) ErrConnectionLost replay).
    destruct (sweep (fun _ => false) ErrConnectionLost replay t1) as [[u t2] o2] eqn:Es.
    rewrite (M_run_bind _ _ t1 u t2 o2 Es), M_modify_bind. unfold m_res, m_st, m_out in *. cbn in *.
    rewrite E2, E3 in *. split; [done|]. split; [done|]. intros _.
    split_and!; [destruct H1 as (? & ? & ->); cbn; by apply Hko|by auto|by auto|by auto].
  - destruct (Hok eq_refl) as (c & hs & Hs & Hc1).
    destruct (transmit_all_spec c replay t1 Hc1) as [Ht2 Hs2].
    destruct (seqM _ t1) as [[u t2] o2] eqn:Es in Ht2, Hs2 |- *. unfold m_st, m_out in Ht2, Hs2. cbn [fst snd] in *. subst t2.
    rewrite (M_run_bind _ _ t1 u t1 o2 Es), M_modify_bind. unfold m_res, m_st, m_out. cbn [fst snd mret M_ret].
    split; [done|]. split; [|done]. intros _. cbn [cl_requests cl_requestCtxMap cl_conn upd_cl_reconnecting].
    split_and!; [done|done|]. exists c, hs. split; [done|].
    rewrite app_nil_r, sends_of_app, Hs, Hs2, E3. done.
Qed.

(** C11: After any history of the client, a Reconnect disposes of every
    request in flight exactly once: with a new connection, an idempotent unary
    call stays registered and untouched and its own message is sent once on
    that connection after the handshake; every other request, and all of them
    when the dial fails, is closed with ErrConnectionLost and removed; the
    single-flight flag is released. *)
Theorem reconnect_disposes_in_flight cid mp tm md rp ops de :
  Z.of_nat (length ops) < two63 -> handshake_server d de ->
  let t := m_st (seqM (map (run_cl_op d growcap) ops) (NewClientWithDialer cid mp tm md rp)) in
  cl_reconnecting t = false ->
  let x := Reconnect d growcap de t in
  let t' := m_st x in
  (forall id l r, cl_requestCtxMap t !! id = Some l -> cl_requests t !! l = Some r ->
     if bool_decide (m_res x = None) && replayable d t r
     then cl_requestCtxMap t' !! id = Some l /\ cl_requests t' !! l = Some r
     else cl_requestCtxMap t' !! id = None /\
          exists r', cl_requests t' !! l = Some r' /\ rc_closeOnce r' = true /\ rc_resultErr r' = Some ErrConnectionLost) /\
  (m_res x = None -> exists c hs rs,
     cl_conn t' = Some c /\ sends_of (m_out x) = (c, hs) :: map (fun r => (c, rc_req r)) rs /\
     rs = omap (fun l => cl_requests t !! l) (List.filter (replays t) (in_flight t))) /\
  cl_reconnecting t' = false.
Proof.
  intros Hn Hde t Hrec x t'.
  assert (exists o, cl_inv (Z.of_nat (length ops)) t o) as [o Hi].
  { eexists. by apply (client_run_inv d growcap Hgrow cid mp tm md rp ops). }
  subst t' x. clearbody t. unfold Reconnect.
  destruct (Reconnect_begin_spec _ t o Hi Hrec) as (Hres & Hs1 & Hc1 & Hkeep & Hfail).
  assert (cl_inv (Z.of_nat (length ops)) (m_st (Reconnect_begin d t)) (o ++ m_out (Reconnect_begin d t))) as Hi1.
  { apply keeps_void; [|exact Hi]. by apply (run_cl_op_keeps d growcap Hgrow _ COpReconnectBegin). }
  set (replay := List.filter (replays t) (in_flight t)) in *.
  assert (forall l, l ∈ replay <-> l ∈ in_flight t /\ replays t l = true) as Hin.
  { intros l. unfold replay. by rewrite !list_elem_of_In, List.filter_In. }
  assert (NoDup replay) as Hnd by (apply NoDup_ListNoDup, List.NoDup_filter, NoDup_ListNoDup; by eapply in_flight_NoDup).
  assert (forall l, l ∈ replay -> exists r, cl_requests t !! l = Some r /\ replayable d t r = true) as Hrep.
  { intros l [Hl Hk]%Hin. unfold replays in Hk. destruct (cl_requests t !! l) as [r|]; [eauto|done]. }
  destruct (Reconnect_begin d t) as [[res t1] o1] eqn:Eb. unfold m_res, m_st, m_out in Hres, Hs1, Hc1, Hkeep, Hfail, Hi1.
  cbn [fst snd] in *. subst res. rewrite (M_run_bind _ _ t (Some replay) t1 o1 Eb).
  destruct (Reconnect_end_spec _ de replay t1 _ Hi1 Hde Hc1 Hnd) as (Hr & Hok & Hko).
  { intros l Hl. destruct (Hrep l Hl) as (r & Hlr & Hk). destruct (Hkeep l r Hlr) as [-> _]; [by right|done]. }
  destruct (Reconnect_end d growcap de replay t1) as [[e t2] o2]. unfold m_res, m_st, m_out in Hr, Hok, Hko |- *.
  cbn [fst snd] in *.
  assert (forall l r, l ∈ in_flight t -> cl_requests t !! l = Some r -> (replayable d t r = true <-> l ∈ replay)) as Hiff.
  { intros l r Hl Hlr. rewrite Hin. unfold replays. rewrite Hlr. tauto. }
  split_and!; [| |done].
  - intros id l r Hm Hl. assert (l ∈ in_flight t) as Hfl by (apply elem_of_in_flight; eauto).
    assert (rc_requestId r = id) as <- by (destruct (ci_map _ _ _ Hi _ _ Hm) as (r0 & ? & <-); congruence).
    destruct (failed_effect ErrConnectionLost r) as (F1 & _ & F3).
    destruct (replayable d t r) eqn:Ek; [|rewrite andb_false_r].
    + destruct (Hkeep l r Hl) as [K1 K2]; [by right|]. rewrite andb_true_r. case_bool_decide as Ee.
      * destruct (Hok Ee) as (-> & -> & _). by rewrite K1, K2.
      * destruct (Hko Ee) as (_ & _ & _ & Hf). destruct (Hf l r) as [-> ->]; [by eapply Hiff|done|]. eauto.
    + destruct (Hfail l r Hfl Hl Ek) as [K1 K2].
      destruct e as [err|]; [destruct (Hko ltac:(done)) as (_ & Hf & Hg & _)|destruct (Hok eq_refl) as (Hf & Hg & _)].
      * rewrite Hf, K1, (Hg _ K2); [eauto|]. rewrite <- (Hiff l r) by done. by rewrite Ek.
      * rewrite Hf, Hg, K1, K2. eauto.
  - intros ->. destruct (Hok eq_refl) as (_ & _ & c & hs & Hc & Hs). exists c, hs.
    eexists. split_and!; [exact Hc| |reflexivity]. rewrite sends_of_app, Hs1, Hs.
    enough (omap (fun l => cl_requests t1 !! l) replay = omap (fun l => cl_requests t !! l) replay) as -> by done.
    clearbody replay. clear -Hrep Hkeep. induction replay as [|l ls IH]; [done|]. cbn.
    destruct (Hrep l) as (r & Hlr & Hk); [by apply elem_of_cons; left|].
    destruct (Hkeep l r Hlr) as [-> _]; [by right|]. rewrite Hlr. f_equal. apply IH.
    intros l' Hl'. apply Hrep. by apply elem_of_cons; right.
Qed.

(** ** The resumption token across lost handshakes *)

(** A chain of [n] links from [seed], about to reveal link [i]. *)
Definition chain_at (seed : list ascii) (n i : nat) : HashChain := mkChain (hash_links sha256 seed n) (Z.of_nat i).

(** No handshake response is ever read. *)
Definition unreachable (de : dial_env) : Prop :=
  forall hs, match de_outcome de hs with HandshakeOk _ => False | _ => True end.

Lemma link_token_nonempty seed i : length seed = hashChainLinkBytes -> link_token sha256 seed i <> "".
Proof.
  intros Hs E. unfold link_token in E. apply (f_equal String.length) in E.
  rewrite length_EncodeToString, iter_H_length in E by (done || apply sha256_length). done.
Qed.

Lemma handshakeToken_reveals seed0 seed n i t :
  length seed = hashChainLinkBytes -> (i <= n)%nat ->
  cl_established t = true -> cl_resumeChain t = Some (chain_at seed n i) ->
  m_res (handshakeToken seed0 t) = inr (link_token sha256 seed i) /\
  m_st (handshakeToken seed0 t) =
    upd_cl_resumeChain (fun _ => Some (mkChain (hash_links sha256 seed n) (Z.of_nat i - 1))) t.
Proof.
  intros Hs Hi He Hc. unfold handshakeToken. rewrite M_gets_bind. cbn [id]. rewrite Hc, He. cbn [negb].
  rewrite M_modify_bind. unfold Next, chain_at. cbn [next links].
  rewrite (proj2 (Z.ltb_ge _ _)) by lia. rewrite M_modify_bind, Nat2Z.id, hash_links_nth by done.
  fold (link_token sha256 seed i). rewrite bool_decide_false by (by apply link_token_nonempty). done.
Qed.

Lemma failed_attempt seed n i de t :
  length seed = hashChainLinkBytes -> (1 <= i <= n)%nat -> unreachable de ->
  cl_conn t = None -> cl_established t = true -> cl_resumeChain t = Some (chain_at seed n i) ->
  let x := ConnectContext d growcap de t in
  is_Some (m_res x) /\ cl_conn (m_st x) = None /\ cl_established (m_st x) = true /\
  cl_resumeChain (m_st x) = Some (chain_at seed n (i - 1)) /\
  cl_closed (m_st x) = cl_closed t /\ cl_shuttingDown (m_st x) = cl_shuttingDown t.
Proof.
  intros Hs Hi Hde Hc He Hch x. subst x. unfold ConnectContext. rewrite M_gets_bind. cbn [id].
  assert (hasConn t = false) as -> by (unfold hasConn; by rewrite Hc).
  destruct (handshakeToken_reveals (de_seed de) seed n i t) as [Hr Hst]; [done|lia|done|done|].
  destruct (handshakeToken (de_seed de) t) as [[tk t1] o1] eqn:Et. unfold m_res, m_st in Hr, Hst. cbn [fst snd] in *.
  subst tk. rewrite (M_run_bind _ _ t _ t1 o1 Et). unfold connect. rewrite M_gets_bind. cbn [id].
  assert (hasConn t1 = false) as -> by (subst t1; unfold hasConn; cbn; by rewrite Hc).
  replace (Some (chain_at seed n (i - 1))) with (cl_resumeChain t1)
    by (subst t1; unfold chain_at; cbn; do 2 f_equal; lia).
  specialize (Hde (handshakeMessage d t1 (link_token sha256 seed i))).
  destruct (de_outcome de _); [| |done]; subst t1; unM; rewrite ?Hc, ?He; split_and!; eauto.
Qed.

Lemma retry_attempts_burn seed n des : forall i t,
  length seed = hashChainLinkBytes -> (length des <= i <= n)%nat -> Forall unreachable des ->
  cl_conn t = None -> cl_established t = true -> cl_resumeChain t = Some (chain_at seed n i) ->
  cl_closed t = false -> cl_shuttingDown t = false ->
  let t' := m_st (retry_attempts d growcap des t) in
  cl_conn t' = None /\ cl_established t' = true /\ cl_resumeChain t' = Some (chain_at seed n (i - length des)).
Proof.
  induction des as [|de des IH]; intros i t Hs Hi Hde Hc He Hch Hcl Hsh t'; subst t'; cbn [retry_attempts length] in *.
  { cbn. by rewrite Nat.sub_0_r. }
  apply Forall_cons in Hde as [Hde Hdes]. rewrite M_gets_bind. cbn [id]. rewrite Hcl, Hsh. cbn [orb].
  rewrite M_modify_bind. set (t1 := upd_cl_reconnects _ t).
  rewrite (M_run_bind (emit CReconnect) _ t1 tt t1 [CReconnect] eq_refl).
  destruct (failed_attempt seed n i de t1) as ((err & Hr) & C1 & C2 & C3 & C4 & C5); [done|lia|done..|].
  destruct (ConnectContext d growcap de t1) as [[e t2] o2] eqn:Ec. unfold m_res, m_st in *. cbn [fst snd] in *.
  rewrite (M_run_bind _ _ t1 e t2 o2 Ec). rewrite Hr. cbn [fst snd]. fold (m_st (retry_attempts d growcap des t2)).
  replace (i - S (length des))%nat with (i - 1 - length des)%nat by lia.
  apply IH; try done; [lia|by rewrite C4|by rewrite C5].
Qed.

(** C12: Client and server together: after any number of handshakes that met
    nobody, each of which used up a link of the chain, the next token the
    client presents is accepted by the server's check when the gap is within
    the resync window, and is refused when the server's link is not among the
    hashes of the window. *)
Theorem reconnect_self_heals seed0 seed n i j des t :
  length seed = hashChainLinkBytes -> (length des <= i <= n)%nat -> (i < j)%nat -> Forall unreachable des ->
  cl_conn t = None -> cl_established t = true -> cl_resumeChain t = Some (chain_at seed n i) ->
  cl_closed t = false -> cl_shuttingDown t = false ->
  let t' := m_st (retry_attempts d growcap des t) in
  let m := (i - length des)%nat in
  exists tok, m_res (handshakeToken seed0 t') = inr tok /\
    (Z.of_nat (j - m) <= DefaultResyncWindow ->
       authorizeResume sha256 (link_token sha256 seed j) tok = (true, tok)) /\
    ((forall s, 0 <= s <= DefaultResyncWindow ->
        iter_fun sha256 (Z.to_nat s) (iter_fun sha256 m seed) <> iter_fun sha256 j seed) ->
     authorizeResume sha256 (link_token sha256 seed j) tok = (false, link_token sha256 seed j)).
Proof.
  intros Hs Hi Hj Hde Hc He Hch Hcl Hsh t' m.
  destruct (retry_attempts_burn seed n des i t Hs Hi Hde Hc He Hch Hcl Hsh) as (C1 & C2 & C3). fold t' m in C1, C2, C3.
  destruct (handshakeToken_reveals seed0 seed n m t' Hs) as [Hr _]; [subst m; lia|done..|].
  exists (link_token sha256 seed m). split_and!; [done| |].
  - intros Hw. replace j with (m + (j - m))%nat at 1 by (subst m; lia).
    apply authorizeResume_forward; [apply sha256_length|done|subst m; lia].
  - intros Hfar. destruct (authorizeResume _ _ _) as [ok tok'] eqn:Ea.
    destruct (authorizeResume_sound sha256 _ _ _ _ Ea) as (Hok & Hko & _).
    destruct ok; [|by rewrite (Hko eq_refl)]. exfalso.
    destruct (proj1 Hok eq_refl) as (cur & last & D1 & D2 & s & Hsr & Hlast).
    rewrite decode_link_token in D1, D2 by (done || apply sha256_length). injection D1 as <-. injection D2 as <-.
    by apply (Hfar s).
Qed.

End reconnect.

(** ** Witnesses *)

Section reconnect_witness.
#[local] Existing Instance RefValueLib.

Abbreviation demo_cl := (m_st (seqM (map (run_cl_op NewDialect demo_cl_grow) demo_cl_ops)
  (NewClientWithDialer 7 4 1000 None demo_policy))).

(** The stream in flight is failed by a reconnect. *)
Lemma demo_cl_stream : rc_kind <$> cl_requests demo_cl !! 1%nat = Some getStreamKind.
Proof. reflexivity. Qed.

Lemma reconnect_disposes_in_flight_witness :
  cl_requestCtxMap (m_st (Reconnect NewDialect demo_cl_grow demo_dial demo_cl)) !! 2 = None.
Proof.
  pose proof demo_cl_stream as Hx.
  destruct (reconnect_disposes_in_flight NewDialect demo_cl_grow demo_cl_grow_larger 7 4 1000 None demo_policy
    demo_cl_ops demo_dial) as (Hall & _); [reflexivity|exact demo_handshake_server|reflexivity|].
  destruct (cl_requests demo_cl !! 1%nat) as [r|] eqn:E; [|discriminate Hx]. injection Hx as Hx.
  specialize (Hall 2 1%nat r ltac:(reflexivity) E). unfold replayable in Hall. rewrite Hx, andb_false_r in Hall.
  exact (proj1 Hall).
Defined.

(** Two dials meet nobody, the third handshake is accepted. *)
Definition demo_lost : dial_env := mkDial (inr zero_seed) (fun _ => DialFailed (ErrPlain "connection refused")).
Definition demo_session : rpcClient :=
  upd_cl_established (fun _ => true)
    (upd_cl_resumeChain (fun _ => Some (chain_at zero_seed 9 5)) (NewClientWithDialer 7 4 1000 None demo_policy)).

Lemma reconnect_self_heals_witness :
  exists tok, m_res (handshakeToken (inr zero_seed)
      (m_st (retry_attempts NewDialect demo_cl_grow [demo_lost; demo_lost] demo_session))) = inr tok /\
    authorizeResume sha256 (link_token sha256 zero_seed 6) tok = (true, tok).
Proof.
  destruct (reconnect_self_heals NewDialect demo_cl_grow (inr zero_seed) zero_seed 9 5 6 [demo_lost; demo_lost] demo_session)
    as (tok & Hr & Hok & _); try reflexivity.
  - cbn. lia.
  - lia.
  - repeat constructor.
  - exists tok. split; [exact Hr|]. apply Hok. vm_compute. discriminate.
Defined.
End reconnect_witness.
