(* ===== verification/ClientCalls.v ===== *)
(** * Calls

    A unary call from the frame that answers it to the value its caller gets, the
    time budget a request carries, and what Close leaves behind. *)

From S2P Require Import Prelude Value RefValue Protocol Verify Sha256 HashChain Credit Pump.
From S2P Require Import FlowControl Request Metadata ClientServing Client ClientProps ClientReconnect.

Section calls.
Context `{ValueLib} (d : Dialect) (growcap : nat -> nat).

(** ** The answer to a unary call *)

(** A unary call that waits for its answer. *)
Definition awaiting (t : rpcClient) (id : Z) (l : nat) (r : rpcRequestCtx) : Prop :=
  cl_requestCtxMap t !! id = Some l /\ cl_requests t !! l = Some r /\ cl_servingMap t !! id = None /\
  rc_requestId r = id /\ rc_kind r = unaryKind /\ rc_resultPump r = None /\ rc_resultBuf r = [] /\
  rc_receiveCap r = 1 /\ rc_doneCloses r = 0%nat /\ rc_closeOnce r = false /\ rc_metrics r = true.

Lemma frame_routed cancel resp mt rid t :
  messageType d resp = Some mt -> requestIdOf d resp = Some rid ->
  mt = FunctionResponse \/ mt = ErrorResponse ->
  cl_servingMap t !! rid = None ->
  getResponseHandler d growcap cancel resp t =
    match cl_requestCtxMap t !! rid with
    | Some l => processResponse d growcap cancel mt resp l t
    | None => (tt, t, [CProtocolError resp ErrRequestNotFound])
    end.
Proof.
  intros (v & Hv & Hl)%messageType_field Hid Hmt Hs. unfold getResponseHandler, requestIdOf in *. rewrite Hv, Hl.
  destruct (GetNumberField resp (RequestIdField d)) as [idV|]; [|done]. injection Hid as Hid.
  destruct Hmt as [-> | ->]; cbn [Z.eqb Pos.eqb orb HandshakeResponse FunctionRequest GetStreamRequest
    PutStreamRequest ChatRequest FunctionResponse ErrorResponse]; rewrite M_gets_bind; cbn [id]; rewrite Hid, Hs;
    by destruct (cl_requestCtxMap t !! rid).
Qed.

(** One method of a request that reports [ends], nothing else. *)
Lemma on_request_run {A} l (m : M rpcRequestCtx req_ev A) r a r' es t :
  cl_requests t !! l = Some r ->
  m r = (a, r', map (fun nc => RRequestEnd nc.1 nc.2) es) ->
  on_request d l m t =
    (Some a, upd_cl_requests (insert l r') t, map (fun nc => CRequestEnd nc.1 nc.2) es).
Proof.
  intros Hl Hm. unfold on_request, get_req. rewrite M_gets_bind, Hl, Hm, M_modify_bind.
  generalize (upd_cl_requests <[l:=r']> t). intros t1.
  assert (seqM (map (req_callback d (rc_requestId r)) (map (fun nc => RRequestEnd nc.1 nc.2) es)) t1 =
    (tt, t1, map (fun nc => CRequestEnd nc.1 nc.2) es)) as Hs.
  { clear Hm. induction es as [|[n c] es IH]; [done|]. cbn [map seqM req_callback].
    rewrite (M_run_bind (emit (CRequestEnd n c)) _ t1 tt t1 [CRequestEnd n c] eq_refl), IH. done. }
  rewrite (M_run_bind _ _ t1 tt t1 _ Hs). cbn. by rewrite app_nil_r.
Qed.

(** From the answer's frame to the caller. *)
Lemma unary_answer_run de resp rid l r t :
  awaiting t rid l r -> messageType d resp = Some FunctionResponse -> requestIdOf d resp = Some rid ->
  let result := fieldOrNil resp (ResultField d) in
  let x := handleFrame d growcap de resp t in
  let t' := m_st x in
  (exists r', cl_requests t' !! l = Some r' /\ rc_resultBuf r' = [result] /\ rc_closeOnce r' = true) /\
  cl_requestCtxMap t' = delete rid (cl_requestCtxMap t) /\
  m_out x = (if cl_monitor t then [CMonitor (RequestCtx_Name d r)] else []) ++
    [CRequestEnd (RequestCtx_Name d r) (metricsCode (rc_resultErr r))] /\
  m_res (invokeUnary_end d growcap de l (ResultReceived result) t') = inl result /\
  handleFrame d growcap de resp t' = (tt, t', [CProtocolError resp ErrRequestNotFound]).
Proof.
  intros (Hm & Hl & Hs & Hid & Hk & Hp & Hb & Hcap & Hdn & Hc & Hme) Hmt Hrid result x t'. subst t'.
  set (r1 := rc_with_direct [result] (rc_resultCloses r) r).
  assert (notifyResult growcap result r = (Some true, r1, [])) as Hn.
  { unfold notifyResult. unM. rewrite Hp, Hdn, Hb, Hcap. rewrite bool_decide_true by done.
    change (Z.of_nat (length []) <? 1) with true. cbn. by rewrite Hb. }
  assert (exists r2, RequestCtx_Close d r1 = (tt, r2, [RRequestEnd (RequestCtx_Name d r) (metricsCode (rc_resultErr r))]) /\
    rc_resultBuf r2 = [result] /\ rc_closeOnce r2 = true /\ rc_kind r2 = unaryKind /\ rc_requestId r2 = rid) as (r2 & Hcl & B2 & C2 & K2 & I2).
  { unfold RequestCtx_Close, RequestCtx_closeResult, RequestCtx_Error. unM. rewrite Hc. cbn. rewrite Hp. cbn.
    rewrite Hme. cbn. destruct (rc_resultErr r); cbn; eexists; (split; [reflexivity|done]). }
  assert (x = (tt, upd_cl_requestCtxMap (delete rid) (upd_cl_requests (insert l r2) t),
    (if cl_monitor t then [CMonitor (RequestCtx_Name d r)] else []) ++
    [CRequestEnd (RequestCtx_Name d r) (metricsCode (rc_resultErr r))])) as ->.
  { subst x. unfold handleFrame. rewrite (frame_routed _ _ FunctionResponse rid) by auto. rewrite Hm.
    unfold processResponse, get_req. rewrite M_gets_bind, Hl, Hid. cbn [Z.eqb Pos.eqb FunctionResponse].
    unfold notify_then. fold result. rewrite (M_run_bind _ _ t _ _ _ (on_request_run l _ r _ r1 [] t Hl Hn)).
    rewrite M_gets_bind. cbn [id]. set (t1 := upd_cl_requests (insert l r1) t).
    assert (cl_requests t1 !! l = Some r1) as Hl1 by (cbn; by rewrite lookup_insert, decide_True).
    unfold on_request_.
    pose proof (on_request_run l (RequestCtx_Close d) r1 tt r2 [(RequestCtx_Name d r, metricsCode (rc_resultErr r))] t1 Hl1 Hcl) as Hrun.
    assert (upd_cl_requests (insert l r2) t1 = upd_cl_requests (insert l r2) t) as Et.
    { unfold t1, upd_cl_requests. cbn. by rewrite insert_insert_eq. }
    rewrite Et in Hrun. change (cl_monitor t1) with (cl_monitor t).
    destruct (cl_monitor t); cbn [when];
      [rewrite (M_run_bind (emit (CMonitor (RequestCtx_Name d r))) _ t1 tt t1 [CMonitor (RequestCtx_Name d r)] eq_refl)|rewrite M_left_id];
      rewrite M_assoc, (M_run_bind _ _ t1 _ _ _ Hrun), M_left_id; done. }
  unfold m_st, m_out, m_res. cbn [fst snd]. set (t2 := upd_cl_requestCtxMap _ _).
  assert (cl_requests t2 !! l = Some r2) as Hl2 by (cbn; by rewrite lookup_insert, decide_True).
  split_and!; [by exists r2|done|done| |].
  - unfold invokeUnary_end, singleResp, get_req. rewrite M_gets_bind, Hl2. cbn [SingleResp when].
    rewrite M_left_id, K2. cbn [receives orb bool_decide]. unfold on_request_. rewrite M_assoc.
    pose proof (on_request_run l (run_req_op d growcap OpReceive) r2 tt
      (rc_with_direct (tail (rc_resultBuf r2)) (rc_resultCloses r2) r2) [] t2 Hl2 eq_refl) as Hrun.
    by rewrite (M_run_bind _ _ t2 _ _ _ Hrun).
  - unfold handleFrame. rewrite (frame_routed _ _ FunctionResponse rid) by auto. cbn. by rewrite lookup_delete_eq.
Qed.

(** The response frame of a waiting unary call hands its result to the caller,
    reports the end of the call once, closes and unregisters the request;
    invokeUnary returns exactly that result, and a second frame with the same
    id changes nothing and is reported as unknown. *)
Theorem unary_result_delivered de resp rid l r t :
  awaiting t rid l r -> messageType d resp = Some FunctionResponse -> requestIdOf d resp = Some rid ->
  let result := fieldOrNil resp (ResultField d) in
  let x := handleFrame d growcap de resp t in
  let t' := m_st x in
  (exists r', cl_requests t' !! l = Some r' /\ rc_resultBuf r' = [result] /\ rc_closeOnce r' = true) /\
  cl_requestCtxMap t' = delete rid (cl_requestCtxMap t) /\
  m_out x = (if cl_monitor t then [CMonitor (RequestCtx_Name d r)] else []) ++
    [CRequestEnd (RequestCtx_Name d r) (metricsCode (rc_resultErr r))] /\
  m_res (invokeUnary_end d growcap de l (ResultReceived result) t') = inl result /\
  handleFrame d growcap de resp t' = (tt, t', [CProtocolError resp ErrRequestNotFound]).
Proof. apply unary_answer_run. Qed.

(** ** The time budget of a request *)

Context `{!dialect_ok d}.

(** What is left of a configured budget [base] (0: none configured) with
    [until] nanoseconds to the context's deadline, if it has one. *)
Definition budget (base : Z) (until : option Z) : Z :=
  match until with
  | None => base
  | Some ns => let left := Z.max 0 (Z.quot ns 1000000) in if 0 <? base then Z.min base left else left
  end.

Lemma effectiveTimeout_budget until t : effectiveTimeout until t = budget (cl_timeoutMls t) until.
Proof.
  unfold effectiveTimeout, budget. destruct until as [ns|]; [|done].
  cbn zeta. generalize (Z.quot ns 1000000). intros q.
  repeat case_match; bool_to_prop; lia.
Qed.

Lemma budget_expired base ns : ns < 1000000 -> budget base (Some ns) = 0.
Proof.
  intros Hlt. unfold budget.
  assert (Z.quot ns 1000000 <= 0) as Hq.
  { destruct (Z.le_gt_cases 0 ns); [rewrite Z.quot_small by lia; lia|].
    pose proof (Z.quot_le_mono ns 0 1000000). rewrite Z.quot_0_l in *; lia. }
  destruct (0 <? base) eqn:E; bool_to_prop; lia.
Qed.

(** The budget a request carries is the configured timeout cut to the
    milliseconds left before the context's deadline; it is put on the wire
    exactly when it is positive, so a context with less than a millisecond
    left sends a request with no budget at all. *)
Theorem sla_on_the_wire ctx until mt name args t :
  let eff := effectiveTimeout until t in
  let req := constructRequest d ctx mt name args eff t in
  eff = budget (cl_timeoutMls t) until /\
  Get req (TimeoutField d) = Some (if 0 <? eff then Long eff else Null) /\
  (forall ns, until = Some ns -> ns < 1000000 -> Get req (TimeoutField d) = Some Null).
Proof.
  intros eff req.
  assert (eff = budget (cl_timeoutMls t) until) as Heff by apply effectiveTimeout_budget.
  assert (Get req (TimeoutField d) = Some (if 0 <? eff then Long eff else Null)) as Hget.
  { subst req. unfold constructRequest. clearbody eff.
    destruct (cl_metadata t) as [inject|]; [destruct (EncodeMetadata (inject ctx)) as [m|]|];
      destruct (0 <? eff); by env_simpl. }
  split_and!; [done|done|]. intros ns -> Hlt.
  by rewrite Hget, Heff, (budget_expired _ ns Hlt).
Qed.

(** ** Close *)

Lemma inert_Close : inert Client_Close.
Proof.
  unfold Client_Close. do 3 (apply inert_bind; [apply inert_modify; intros; done|intros _]).
  apply inert_bind; [apply inert_gets|intros t]. apply inert_bind; [|intros; apply inert_resetConn].
  apply inert_seqM, Forall_map, Forall_true. intros kl.
  apply inert_bind; [apply inert_on_serving|intros; apply inert_ret].
Qed.

(** Released streams do not bring a closing client back. *)
Lemma on_serving_shutting {A} l (m : M clientServingRequest vs_ev A) :
  keeps (fun t (_ : list cl_ev) => cl_shuttingDown t = true) (on_serving l m).
Proof.
  unfold on_serving. apply keeps_bind; [apply keeps_gets|]. intros t.
  destruct (cl_servings t !! l) as [r|]; [|apply keeps_ret]. destruct (m r) as [[a r'] evs].
  keeps_split; [by apply keeps_modify|]. apply keeps_seqM, Forall_map, Forall_true.
  intros []; cbn [serving_callback]; unfold reply, getConn_SendRequest, deleteServing; keeps_split;
    by (apply keeps_modify || apply keeps_emit).
Qed.

(** Nothing waiting on a request learns of the client's Close. *)
Theorem close_strands_requests t de retries :
  let x := Client_Close t in
  let t' := m_st x in
  cl_conn t' = None /\ cl_requests t' = cl_requests t /\ cl_requestCtxMap t' = cl_requestCtxMap t /\
  count_ev is_cend (m_out x) = 0%nat /\
  BadConnection d growcap de retries t' = (tt, t', []).
Proof.
  intros x t'. subst t'. destruct (inert_Close t) as [(_ & E2 & E3 & _) [_ Q2]]. fold x in E2, E3, Q2.
  assert (cl_conn (m_st x) = None /\ cl_shuttingDown (m_st x) = true) as [Hc Hs].
  { subst x. unfold Client_Close. rewrite !M_modify_bind, M_gets_bind. cbn [id]. rewrite M_bind_st.
    match goal with |- context [seqM ?ms ?t1] => set (t2 := m_st (seqM ms t1));
      assert (cl_shuttingDown t2 = true) as Hsh end.
    { apply (keeps_run (fun t _ => cl_shuttingDown t = true)); [|done]. apply keeps_seqM, Forall_map, Forall_true.
      intros kl. keeps_split. apply on_serving_shutting. }
    clearbody t2. unfold resetConn. rewrite M_gets_bind. cbn [id]. rewrite M_modify_bind. by destruct (cl_conn t2). }
  split_and!; try done. unfold BadConnection. rewrite M_gets_bind. cbn [id]. by rewrite Hs.
Qed.

End calls.

(** ** Witnesses *)

Section calls_witness.
#[local] Existing Instance RefValueLib.

Definition demo_pending : rpcRequestCtx := NewRequestCtx 1 unaryKind EmptyMap 1 4 true true.
Definition demo_waiting : rpcClient :=
  upd_cl_requests (insert 0%nat demo_pending)
    (upd_cl_requestCtxMap (insert 1 0%nat) (NewClientWithDialer 7 4 1000 None demo_policy)).

Lemma unary_result_delivered_witness :
  m_res (invokeUnary_end NewDialect demo_cl_grow demo_dial 0 (ResultReceived (Some (Long 42)))
    (m_st (handleFrame NewDialect demo_cl_grow demo_dial demo_answer demo_waiting))) = inl (Some (Long 42)).
Proof.
  refine (proj1 (proj2 (proj2 (proj2 (unary_result_delivered NewDialect demo_cl_grow demo_dial demo_answer 1 0
    demo_pending demo_waiting _ _ _))))).
  - unfold awaiting. repeat split; reflexivity.
  - vm_compute. reflexivity.
  - vm_compute. reflexivity.
Defined.

(** Half a millisecond left: the request carries no budget at all. *)
Lemma sla_on_the_wire_witness :
  Get (constructRequest NewDialect (mkCtx 0 None None None false) FunctionRequest "f" None
    (effectiveTimeout (Some 500000) demo_waiting) demo_waiting) (TimeoutField NewDialect) = Some Null.
Proof.
  refine (proj2 (proj2 (sla_on_the_wire NewDialect (mkCtx 0 None None None false) (Some 500000)
    FunctionRequest "f" None demo_waiting)) 500000 eq_refl _). reflexivity.
Defined.
End calls_witness.
