(* ===== verification/Resilience.v ===== *)
(** * Client interceptors and resilience policies

    Models valuerpc/interceptor.go (the chain) and the policies of resilience/:
    breaker.go (the circuit breaker, under its mutex, with the clock as an
    argument), retry.go (the retry loop with its backoff) and the bulkhead and
    fallback of policies.go.

    The [%q] verb of the error texts is an argument ([quote]): no theorem looks
    into it. *)

From S2P Require Import Prelude Value Protocol.

(** ** interceptor.go *)

Section chain.
Context {Ctx V R : Type}.
Abbreviation Invoker := (Ctx -> string -> V -> R).
Abbreviation ClientInterceptor := (Ctx -> string -> V -> Invoker -> R).

(** [for i := len(interceptors) - 1; i >= 0; i--]: [n] interceptors are left to
    wrap, the last of them first. *)
Fixpoint chain_loop (interceptors : list ClientInterceptor) (n : nat) (invoker : Invoker) : Invoker :=
  match n with
  | O => invoker
  | S i =>
      match interceptors !! i with
      | Some ic => chain_loop interceptors i (fun ctx method req => ic ctx method req invoker)
      | None => invoker (* unreachable: i < len(interceptors) *)
      end
  end.

Definition ChainClientInterceptors (final : Invoker) (interceptors : list ClientInterceptor) : Invoker :=
  chain_loop interceptors (length interceptors) final.

(** Reference: each interceptor wraps the chain of those after it. *)
Definition wrap_all (interceptors : list ClientInterceptor) (final : Invoker) : Invoker :=
  foldr (fun ic next => fun ctx method req => ic ctx method req next) final interceptors.

Lemma chain_loop_spec ics n final :
  (n <= length ics)%nat -> chain_loop ics n final = wrap_all (take n ics) final.
Proof.
  revert final. induction n as [|n IH]; intros final Hn; [done|]. cbn [chain_loop].
  destruct (ics !! n) as [ic|] eqn:Hic; [|apply lookup_ge_None in Hic; lia]. rewrite IH by lia.
  rewrite (take_S_r _ _ _ Hic). unfold wrap_all. by rewrite foldr_app.
Qed.

Theorem chain_is_nesting final ics :
  ChainClientInterceptors final ics = wrap_all ics final /\
  ChainClientInterceptors final [] = final /\
  forall ic rest, ics = ic :: rest ->
    forall ctx method req, ChainClientInterceptors final ics ctx method req =
      ic ctx method req (ChainClientInterceptors final rest).
Proof.
  assert (forall l, ChainClientInterceptors final l = wrap_all l final) as E.
  { intros l. unfold ChainClientInterceptors. rewrite chain_loop_spec by done. by rewrite firstn_all. }
  split_and!; [apply E|done|]. intros ic rest -> ctx method req. by rewrite !E.
Qed.
End chain.

(** ** breaker.go

    Times are nanoseconds; [openedAt] is read only in the open state. *)

Inductive breakerState := stateClosed | stateOpen | stateHalfOpen.

#[export] Instance breakerState_eq_dec : EqDecision breakerState.
Proof. solve_decision. Defined.

Record breakerConfig := mkBreakerConfig { threshold : Z; cooldown : Z; maxProbes : Z }.

Definition WithFailureThreshold (n : Z) (c : breakerConfig) : breakerConfig :=
  mkBreakerConfig (if n <? 1 then 1 else n) (cooldown c) (maxProbes c).
Definition WithCooldown (n : Z) (c : breakerConfig) : breakerConfig :=
  mkBreakerConfig (threshold c) n (maxProbes c).
Definition WithHalfOpenProbes (n : Z) (c : breakerConfig) : breakerConfig :=
  mkBreakerConfig (threshold c) (cooldown c) (if n <? 1 then 1 else n).

Definition defaultBreakerConfig : breakerConfig := mkBreakerConfig 5 10000000000 1.

Definition defaultIsFailure (err : option goerror) : bool :=
  match err with
  | None => false
  | Some _ =>
      let c := CodeOf err in
      negb ((c =? CodeInvalidArgument) || (c =? CodeNotFound) || (c =? CodeUnauthenticated) || (c =? CodeCanceled))
  end.

Record breaker := mkBreaker { state : breakerState; consec : Z; openedAt : Z; probes : Z }.

(** The zero value, as LoadOrStore installs it. *)
Definition newBreaker : breaker := mkBreaker stateClosed 0 0 0.

Definition trip (now : Z) (b : breaker) : breaker := mkBreaker stateOpen (consec b) now 0.

Section breaker.
Context (cfg : breakerConfig).

Definition allow (now : Z) (b : breaker) : bool * breaker :=
  match state b with
  | stateOpen =>
      if cooldown cfg <=? now - openedAt b then (true, mkBreaker stateHalfOpen (consec b) (openedAt b) 1)
      else (false, b)
  | stateHalfOpen =>
      if probes b <? maxProbes cfg then (true, mkBreaker stateHalfOpen (consec b) (openedAt b) (probes b + 1))
      else (false, b)
  | stateClosed => (true, b)
  end.

Definition record (now : Z) (failed : bool) (b : breaker) : breaker :=
  match state b with
  | stateClosed =>
      if failed then
        let b' := mkBreaker stateClosed (consec b + 1) (openedAt b) (probes b) in
        if threshold cfg <=? consec b' then trip now b' else b'
      else mkBreaker stateClosed 0 (openedAt b) (probes b)
  | stateHalfOpen =>
      if failed then trip now b
      else
        let n := probes b - 1 in
        if n <=? 0 then mkBreaker stateClosed 0 (openedAt b) n
        else mkBreaker stateHalfOpen (consec b) (openedAt b) n
  | stateOpen => b
  end.

(** The interceptor CircuitBreaker returns, for one call with no other call of
    the method in between (calls that overlap are [breaker_step] below):
    per-method breakers; [next] is the call's outcome, [t0] and [t1] the clock
    before and after it; the boolean says whether next ran. *)
Definition CircuitBreaker {V} (quote : string -> string) (isFailure : option goerror -> bool) (t0 t1 : Z) (method : string)
    (next : option V * option goerror) (bs : gmap string breaker)
    : (option V * option goerror) * bool * gmap string breaker :=
  let b := default newBreaker (bs !! method) in
  let '(ok, b1) := allow t0 b in
  if ok then (next, true, <[ method := record t1 (isFailure next.2) b1 ]> bs)
  else ((None, Some (ErrRpc CodeUnavailable ("circuit breaker open for " +:+ quote method))), false, <[ method := b1 ]> bs).

(** ** Any number of concurrent callers

    A call that was let through is tagged with the half-open period it probes
    for, or with none when it was admitted while the breaker was closed.  It ends
    by recording its outcome, or without ([record] is not deferred: a call whose
    [next] panics never reaches it).  [late] counts, within the current period,
    the successes recorded by calls that are not its probes, [lost] its probes
    that ended without recording; the clock only moves forward. *)
Record breaker_sys := mkBSys {
  bk : breaker;
  calls : list (option nat);   (* admitted, not ended *)
  period : nat;                (* half-open periods so far *)
  late : Z;
  lost : Z;
  clock : Z
}.

Definition live_probes (s : breaker_sys) : Z :=
  Z.of_nat (length (filter (fun c => c = Some (period s)) (calls s))).

(** A call that [allow] let through. *)
Definition admit_call (now : Z) (b' : breaker) (s : breaker_sys) : breaker_sys :=
  match state (bk s), state b' with
  | stateOpen, _ => mkBSys b' (Some (S (period s)) :: calls s) (S (period s)) 0 0 now
  | _, stateHalfOpen => mkBSys b' (Some (period s) :: calls s) (period s) (late s) (lost s) now
  | _, _ => mkBSys b' (None :: calls s) (period s) (late s) (lost s) now
  end.

Definition is_late (c : option nat) (failed : bool) (s : breaker_sys) : bool :=
  bool_decide (state (bk s) = stateHalfOpen) && negb failed && negb (bool_decide (c = Some (period s))).

Inductive breaker_step : breaker_sys -> breaker_sys -> Prop :=
| bs_allowed s now b' : clock s <= now -> allow now (bk s) = (true, b') ->
    breaker_step s (admit_call now b' s)
| bs_refused s now b' : clock s <= now -> allow now (bk s) = (false, b') ->
    breaker_step s (mkBSys b' (calls s) (period s) (late s) (lost s) now)
| bs_record s now failed c cs1 cs2 : clock s <= now -> calls s = cs1 ++ c :: cs2 ->
    breaker_step s (mkBSys (record now failed (bk s)) (cs1 ++ cs2) (period s)
      (if is_late c failed s then late s + 1 else late s) (lost s) now)
| bs_panicked s now c cs1 cs2 : clock s <= now -> calls s = cs1 ++ c :: cs2 ->
    breaker_step s (mkBSys (bk s) (cs1 ++ cs2) (period s) (late s)
      (if decide (c = Some (period s)) then lost s + 1 else lost s) now).

Record breaker_inv (s : breaker_sys) : Prop := {
  bi_late : 0 <= late s;
  bi_lost : 0 <= lost s;
  bi_tags : forall k, Some k ∈ calls s -> (k <= period s)%nat;
  bi_half : state (bk s) = stateHalfOpen ->
    1 <= probes (bk s) <= Z.max 1 (maxProbes cfg) /\ live_probes s + lost s = probes (bk s) + late s;
  bi_closed : state (bk s) = stateClosed -> 0 <= consec (bk s) < Z.max 1 (threshold cfg);
  bi_open : state (bk s) = stateOpen -> openedAt (bk s) <= clock s
}.

Lemma no_probes_yet k (cs : list (option nat)) :
  (forall j, Some j ∈ cs -> (j <= k)%nat) -> filter (fun c => c = Some (S k)) cs = [].
Proof.
  intros Hk. induction cs as [|c cs IH]; [done|]. rewrite filter_cons_False.
  - apply IH. intros j Hj. apply Hk. by right.
  - intros ->. specialize (Hk (S k) ltac:(by left)). lia.
Qed.

Lemma live_split k (c : option nat) cs1 cs2 :
  length (filter (fun c => c = Some k) (cs1 ++ c :: cs2)) =
  ((if decide (c = Some k) then 1 else 0) + length (filter (fun c => c = Some k) (cs1 ++ cs2)))%nat.
Proof.
  rewrite !filter_app, filter_cons, !length_app. destruct (decide _); cbn; lia.
Qed.

Lemma tags_split (c : option nat) cs1 cs2 (x : option nat) : x ∈ cs1 ++ cs2 -> x ∈ cs1 ++ c :: cs2.
Proof. rewrite !elem_of_app, elem_of_cons. tauto. Qed.

Lemma breaker_admitted_inv s now b' :
  breaker_inv s -> clock s <= now -> allow now (bk s) = (true, b') -> breaker_inv (admit_call now b' s).
Proof.
  intros [Hla Hlo Htag Hhalf Hclosed Hopen] Hn Ha. unfold allow in Ha. unfold admit_call.
  destruct (state (bk s)) eqn:Es.
  - injection Ha as <-. rewrite Es. split; cbn; rewrite ?Es; try done; auto.
    intros k [?|?]%elem_of_cons; [done|auto].
  - destruct (cooldown cfg <=? now - openedAt (bk s)); [|done]. injection Ha as <-.
    split; cbn; try done.
    + intros k [[= ->]|Hk]%elem_of_cons; [lia|]. specialize (Htag k Hk). lia.
    + intros _. split; [lia|]. unfold live_probes. cbn. rewrite decide_True by done. cbn.
      rewrite no_probes_yet by done. done.
  - destruct (probes (bk s) <? maxProbes cfg) eqn:Ep; [|done]. injection Ha as <-.
    destruct (Hhalf eq_refl) as [Hp Hl]. bool_to_prop. split; cbn; try done.
    + intros k [[= ->]|Hk]%elem_of_cons; [lia|auto].
    + intros _. split; [lia|]. revert Hl. unfold live_probes. cbn [calls period probes late lost].
      rewrite filter_cons_True by done. cbn [length]. lia.
Qed.

Lemma breaker_record_inv s now failed c cs1 cs2 :
  breaker_inv s -> clock s <= now -> calls s = cs1 ++ c :: cs2 ->
  breaker_inv (mkBSys (record now failed (bk s)) (cs1 ++ cs2) (period s)
      (if is_late c failed s then late s + 1 else late s) (lost s) now).
Proof.
  intros [Hla Hlo Htag Hhalf Hclosed Hopen] Hn Hc.
  assert (forall k, Some k ∈ cs1 ++ cs2 -> (k <= period s)%nat) as Htag'.
  { intros k Hk. apply Htag. rewrite Hc. by apply tags_split. }
  assert (0 <= (if is_late c failed s then late s + 1 else late s)) by (case_match; lia).
  pose proof (live_split (period s) c cs1 cs2) as Hsp. rewrite <- Hc in Hsp.
  unfold record. destruct (state (bk s)) eqn:Es.
  - specialize (Hclosed eq_refl). destruct failed; cbn.
    + destruct (threshold cfg <=? consec (bk s) + 1) eqn:Et; bool_to_prop; split; try done; cbn; try done; lia.
    + split; try done; cbn; try done; lia.
  - specialize (Hopen eq_refl). split; try done; cbn; rewrite ?Es; try done; lia.
  - destruct (Hhalf eq_refl) as [Hp Hl]. destruct failed; cbn; [split; try done; cbn; try done; lia|].
    destruct (probes (bk s) - 1 <=? 0) eqn:E; bool_to_prop; split; try done; cbn; try done; [lia|].
    intros _. split; [lia|]. revert Hl Hsp. unfold live_probes, is_late. cbn [calls period probes late lost bk]. rewrite Es.
    rewrite bool_decide_true by done.
    destruct (decide (c = Some (period s))) as [Hcp|Hcp].
    + rewrite (bool_decide_true _ Hcp). cbn [negb andb]. lia.
    + rewrite (bool_decide_false _ Hcp). cbn [negb andb]. lia.
Qed.

Lemma breaker_step_inv s s' : breaker_inv s -> breaker_step s s' -> breaker_inv s'.
Proof.
  intros Hi Hs. destruct Hs as [s now b' Hn Ha|s now b' Hn Ha|s now failed c cs1 cs2 Hn Hc|s now c cs1 cs2 Hn Hc].
  - by apply breaker_admitted_inv.
  - assert (b' = bk s) as ->.
    { revert Ha. unfold allow. repeat case_match; congruence. }
    destruct Hi. split; cbn; auto. intros E. specialize (bi_open0 E). lia.
  - by apply breaker_record_inv with (c := c).
  - destruct Hi as [Hla Hlo Htag Hhalf Hclosed Hopen].
    pose proof (live_split (period s) c cs1 cs2) as Hsp. rewrite <- Hc in Hsp.
    split; cbn; auto.
    + case_match; lia.
    + intros k Hk. apply Htag. rewrite Hc. by apply tags_split.
    + intros E. destruct (Hhalf E) as [Hp Hl]. split; [done|]. revert Hl Hsp. unfold live_probes. cbn [calls period late lost bk].
      destruct (decide (c = Some (period s))); lia.
    + intros E. specialize (Hopen E). lia.
Qed.

(** Outcomes recorded one after the other, each at its time. *)
Definition record_all (outcomes : list (Z * bool)) (b : breaker) : breaker :=
  fold_left (fun b o => record o.1 o.2 b) outcomes b.

Lemma record_not_half now failed b : state b <> stateHalfOpen -> state (record now failed b) <> stateHalfOpen.
Proof. unfold record, trip. repeat case_match; cbn; congruence. Qed.

Lemma record_all_not_half outcomes b :
  state b <> stateHalfOpen -> state (record_all outcomes b) <> stateHalfOpen.
Proof.
  revert b. induction outcomes as [|o outcomes IH]; intros b Hb; [done|].
  cbn. by apply IH, record_not_half.
Qed.

(** As many outcomes as there are probe slots taken end the half-open period. *)
Lemma record_all_leaves outcomes b :
  1 <= probes b <= Z.of_nat (length outcomes) -> state (record_all outcomes b) <> stateHalfOpen.
Proof.
  revert b. induction outcomes as [|[now failed] outcomes IH]; intros b Hp; [cbn in *; lia|].
  destruct (decide (state b = stateHalfOpen)) as [Hs|Hs]; [|by apply record_all_not_half].
  cbn in *. unfold record. rewrite Hs. destruct failed; [by apply record_all_not_half|].
  case_match; [by apply record_all_not_half|]. bool_to_prop. apply IH. cbn. lia.
Qed.

(** Consecutive failures of sequential calls in the closed state. *)
Fixpoint fail_n (n : nat) (now : Z) (b : breaker) : breaker :=
  match n with O => b | S n' => fail_n n' now (record now true b) end.

Lemma fail_n_closed n now b :
  state b = stateClosed -> 0 <= consec b -> consec b + Z.of_nat n < threshold cfg ->
  fail_n n now b = mkBreaker stateClosed (consec b + Z.of_nat n) (openedAt b) (probes b).
Proof.
  revert b. induction n as [|n IH]; intros b Hs Hc Hn; cbn [fail_n].
  - destruct b. cbn in *. subst. f_equal. lia.
  - unfold record at 1. rewrite Hs. cbn [consec].
    rewrite (proj2 (Z.leb_gt _ _)) by lia. rewrite IH by (cbn; lia || done). cbn. f_equal. lia.
Qed.

(** ** Properties *)

Theorem breaker_opens_at_threshold now b :
  state b = stateClosed -> consec b = 0 -> 1 <= threshold cfg ->
  state (fail_n (Z.to_nat (threshold cfg) - 1) now b) = stateClosed /\
  (let b' := fail_n (Z.to_nat (threshold cfg)) now b in
   state b' = stateOpen /\ openedAt b' = now /\
   forall later, (allow later b').1 = (cooldown cfg <=? later - now)).
Proof.
  intros Hs Hc Ht. set (n := (Z.to_nat (threshold cfg) - 1)%nat).
  assert (Z.to_nat (threshold cfg) = n + 1)%nat as -> by lia.
  assert (fail_n n now b = mkBreaker stateClosed (Z.of_nat n) (openedAt b) (probes b)) as E.
  { rewrite fail_n_closed by (rewrite ?Hc; lia || done). by rewrite Hc. }
  split; [by rewrite E|].
  assert (forall k b0, fail_n (k + 1) now b0 = record now true (fail_n k now b0)) as Hsnoc.
  { induction k as [|k IH]; intros b0; [done|]. cbn [fail_n Nat.add]. by rewrite IH. }
  rewrite Hsnoc, E. unfold record. cbn. rewrite (proj2 (Z.leb_le _ _)) by lia. cbn.
  split_and!; try done. intros later. unfold allow. cbn. by destruct (_ <=? _).
Qed.

(** C39: For every interleaving of calls through one method's circuit breaker,
    calls that panic and never record included: closed, its failure count is
    below the threshold; open, it admits a call exactly when the cooldown has
    passed; half-open, its probe counter is between 1 and maxProbes and is
    exactly the probes of this period in flight, plus those that panicked,
    less the successes recorded in this period by calls that are not its
    probes. So without such late successes at most maxProbes probes are in
    flight, and when no probe panicked there is one in flight, and the
    outcomes of those in flight, whatever they are, end the half-open period.
    *)
Theorem breaker_probe_accounting s :
  reach breaker_step (mkBSys newBreaker [] 0 0 0 0) s ->
  (state (bk s) = stateClosed -> 0 <= consec (bk s) < Z.max 1 (threshold cfg)) /\
  (state (bk s) = stateOpen -> openedAt (bk s) <= clock s /\
     forall now, (allow now (bk s)).1 = true <-> openedAt (bk s) + cooldown cfg <= now) /\
  (state (bk s) = stateHalfOpen ->
     1 <= probes (bk s) <= Z.max 1 (maxProbes cfg) /\
     live_probes s + lost s = probes (bk s) + late s /\
     (lost s = 0 -> 0 < live_probes s /\
        forall outcomes, Z.of_nat (length outcomes) = live_probes s ->
          state (record_all outcomes (bk s)) <> stateHalfOpen)).
Proof.
  intros Hr. assert (breaker_inv s) as [].
  { eapply (reach_inv breaker_step breaker_inv); [|intros; by eapply breaker_step_inv|exact Hr].
    split; cbn; try done; try lia. by intros k ?%elem_of_nil. }
  split_and!; [done| |].
  - intros Hop. split; [auto|]. intros now. unfold allow. rewrite Hop.
    destruct (cooldown cfg <=? now - openedAt (bk s)) eqn:E; bool_to_prop; cbn; split; intros; try done; lia.
  - intros Hh. destruct (bi_half0 Hh) as [Hp Hl]. split_and!; [lia..|]. intros Hlost. split; [lia|].
    intros outcomes Ho. apply record_all_leaves. lia.
Qed.

Theorem breaker_isolates_methods {V} quote isFailure t0 t1 m m' (next : option V * option goerror) bs :
  m <> m' -> (CircuitBreaker quote isFailure t0 t1 m next bs).2 !! m' = bs !! m'.
Proof.
  intros Hne. unfold CircuitBreaker. destruct (allow t0 _) as [[] b1]; cbn;
    by rewrite lookup_insert, decide_False.
Qed.

End breaker.

(** A half-open breaker whose probe slots are taken lets nothing through,
    whatever the time: it depends on every probe recording its outcome. *)
Theorem lost_probe_blocks_forever cfg b now :
  state b = stateHalfOpen -> maxProbes cfg <= probes b -> allow cfg now b = (false, b).
Proof. intros Hs Hp. unfold allow. by rewrite Hs, (proj2 (Z.ltb_ge _ _)). Qed.

(** A call admitted while the breaker was closed that succeeds during a half-open
    period frees a probe slot it never held: with two probes configured, three
    are in flight. *)
Theorem late_success_admits_extra_probe :
  let cfg := mkBreakerConfig 1 10 2 in
  exists s, reach (breaker_step cfg) (mkBSys newBreaker [] 0 0 0 0) s /\
    state (bk s) = stateHalfOpen /\ live_probes s = 3.
Proof.
  intros cfg. eexists. split; [|split; [|shelve]].
  - eapply reach_next; [eapply reach_next; [eapply reach_next; [eapply reach_next;
      [eapply reach_next; [eapply reach_next; [eapply reach_next; [apply reach_here|]|]|]|]|]|]|].
    + by apply (bs_allowed cfg _ 0 newBreaker).
    + by apply (bs_allowed cfg _ 0 newBreaker).
    + by apply (bs_record cfg _ 0 true None [] [None]).
    + by apply (bs_allowed cfg _ 10 (mkBreaker stateHalfOpen 1 0 1)).
    + by apply (bs_allowed cfg _ 10 (mkBreaker stateHalfOpen 1 0 2)).
    + by apply (bs_record cfg _ 10 false None [Some 1%nat; Some 1%nat] []).
    + by apply (bs_allowed cfg _ 10 (mkBreaker stateHalfOpen 1 0 2)).
  - done.
  Unshelve. done.
Qed.

(** With two probes configured, the breaker closes on the first success when the
    second probe was not admitted yet. *)
Theorem half_open_closes_on_first_success cfg opened now :
  maxProbes cfg = 2 -> opened + cooldown cfg <= now ->
  exists b', allow cfg now (mkBreaker stateOpen (threshold cfg) opened 0) = (true, b') /\
    state (record cfg now false b') = stateClosed.
Proof.
  intros Hm Hn. unfold allow. cbn. rewrite (proj2 (Z.leb_le _ _)) by lia. eauto.
Qed.

(** ** retry.go *)

Record retryConfig := mkRetry { maxAttempts : Z; base : Z; max_ : Z; jitter : bool }.

Definition WithMaxAttempts (n : Z) (c : retryConfig) : retryConfig :=
  mkRetry (if n <? 1 then 1 else n) (base c) (max_ c) (jitter c).
Definition WithBackoff (b m : Z) (c : retryConfig) : retryConfig := mkRetry (maxAttempts c) b m (jitter c).
Definition WithJitter (on : bool) (c : retryConfig) : retryConfig := mkRetry (maxAttempts c) (base c) (max_ c) on.
Definition defaultRetryConfig : retryConfig := mkRetry 3 50000000 1000000000 true.

Definition defaultRetryable (method : string) (err : goerror) : bool :=
  let c := CodeOf (Some err) in (c =? CodeUnavailable) || (c =? CodeResourceExhausted).

Section retry.
Context {V : Type} (cfg : retryConfig) (retryable : string -> goerror -> bool) (method : string).
(** The outcome of the n-th call of next, the n-th random number, and whether the
    context is done while the n-th backoff waits. *)
Context (next : Z -> option V * option goerror) (rand : Z -> Z) (ctxDone : Z -> bool).

Definition sleepOf (attempt delay : Z) : Z :=
  if jitter cfg && (0 <? delay) then delay / 2 + rand attempt else delay.

Definition nextDelay (delay : Z) : Z :=
  let delay := wrap64 (delay * 2) in if max_ cfg <? delay then max_ cfg else delay.

(** The loop from [attempt] on: the result, the attempts made and the backoffs
    slept; [None] when the fuel runs out. *)
Fixpoint retry_loop (fuel : nat) (attempt delay : Z)
    : option ((option V * option goerror) * Z * list Z) :=
  match fuel with
  | O => None
  | S fuel' =>
      let r := next attempt in
      match r.2 with
      | None => Some (r, attempt, [])
      | Some err =>
          if (maxAttempts cfg <=? attempt) || negb (retryable method err) then Some (r, attempt, [])
          else if ctxDone attempt then Some (r, attempt, [sleepOf attempt delay])
          else
            match retry_loop fuel' (attempt + 1) (nextDelay delay) with
            | Some (r', n, ds) => Some (r', n, sleepOf attempt delay :: ds)
            | None => None
            end
      end
  end.

(** The fuel that is always enough: the loop stops at maxAttempts. *)
Definition Retry : option ((option V * option goerror) * Z * list Z) :=
  retry_loop (Z.to_nat (Z.max 1 (maxAttempts cfg))) 1 (base cfg).

(** Attempts [a .. n-1] failed with a retryable error and their waits were not
    cancelled. *)
Definition retried (a n : Z) : Prop :=
  forall i, a <= i < n -> ctxDone i = false /\
    exists err, (next i).2 = Some err /\ retryable method err = true.

Lemma retry_loop_spec fuel a delay :
  1 <= a -> Z.max a (maxAttempts cfg) < a + Z.of_nat fuel ->
  exists r n ds, retry_loop fuel a delay = Some (r, n, ds) /\
    a <= n <= Z.max a (maxAttempts cfg) /\ r = next n /\ retried a n /\
    (n < maxAttempts cfg ->
       (next n).2 = None \/ ctxDone n = true \/
       exists err, (next n).2 = Some err /\ retryable method err = false).
Proof.
  revert a delay. induction fuel as [|fuel IH]; intros a delay Ha Hf; [lia|]. cbn [retry_loop].
  destruct ((next a).2) as [err|] eqn:En.
  2:{ eexists _, _, _. split; [reflexivity|]. split_and!; try done; try lia.
      - intros i Hi. lia.
      - intros _. by left. }
  destruct ((maxAttempts cfg <=? a) || negb (retryable method err)) eqn:Estop.
  { eexists _, _, _. split; [reflexivity|]. split_and!; try done; try lia.
    - intros i Hi. lia.
    - intros Hlt. rewrite (proj2 (Z.leb_gt _ _)) in Estop by lia. cbn in Estop. bool_to_prop. eauto. }
  bool_to_prop. destruct (ctxDone a) eqn:Ec.
  { eexists _, _, _. split; [reflexivity|]. split_and!; try done; try lia.
    - intros i Hi. lia.
    - intros _. by right; left. }
  destruct (IH (a + 1) (nextDelay delay)) as (r & n & ds & -> & Hn & -> & Hret & Hend); [lia..|].
  eexists _, _, _. split; [reflexivity|]. split_and!; try done; try lia.
  intros i Hi. destruct (decide (i = a)) as [->|Hne]; [by eauto|]. apply Hret. lia.
Qed.

(** Retry always returns, after at most max(1, maxAttempts) attempts, with the
    outcome of the last one; it retries only retryable failures and stops
    early only on success, cancellation or a non-retryable error. *)
Theorem retry_bounded_and_justified :
  exists r n ds, Retry = Some (r, n, ds) /\
    1 <= n <= Z.max 1 (maxAttempts cfg) /\ r = next n /\
    (forall i, 1 <= i < n -> exists err, (next i).2 = Some err /\ retryable method err = true) /\
    (n < maxAttempts cfg ->
       (next n).2 = None \/ ctxDone n = true \/
       exists err, (next n).2 = Some err /\ retryable method err = false).
Proof.
  destruct (retry_loop_spec (Z.to_nat (Z.max 1 (maxAttempts cfg))) 1 (base cfg))
    as (r & n & ds & E & Hn & Hr & Hret & Hend); [lia..|].
  exists r, n, ds. split_and!; try done; try lia. intros i Hi. by apply Hret.
Qed.

(** The nominal delay before the (k+2)-th attempt. *)
Theorem retry_backoff_exact k :
  0 <= base cfg <= max_ cfg -> max_ cfg <= two63 / 2 - 1 ->
  iter_fun nextDelay k (base cfg) = Z.min (max_ cfg) (base cfg * 2 ^ Z.of_nat k).
Proof.
  intros Hb Hm. induction k as [|k IH]; [cbn; lia|]. rewrite iter_fun_S, IH.
  rewrite Nat2Z.inj_succ, Z.pow_succ_r by lia.
  pose proof (Z.pow_pos_nonneg 2 (Z.of_nat k) ltac:(lia) ltac:(lia)) as Hp.
  set (p := 2 ^ Z.of_nat k) in *. assert (0 <= base cfg * p) by nia.
  unfold nextDelay. rewrite wrap64_id.
  - destruct (max_ cfg <? _) eqn:E; bool_to_prop; nia.
  - unfold in_int64, two63 in *. change (9223372036854775808 / 2 - 1) with 4611686018427387903 in Hm. lia.
Qed.

Lemma sleep_jitter_range attempt delay :
  0 <= delay -> 0 <= rand attempt <= delay / 2 -> delay / 2 <= sleepOf attempt delay <= delay.
Proof.
  intros Hd Hr. unfold sleepOf. pose proof (Z.mul_div_le delay 2 ltac:(lia)).
  destruct (jitter cfg && (0 <? delay)); lia.
Qed.
End retry.

(** ** policies.go: bulkhead and fallback *)

Definition Fallback {Ctx A V} (fn : Ctx -> string -> A -> goerror -> option V * option goerror)
    (ctx : Ctx) (method : string) (req : A) (next : Ctx -> string -> A -> option V * option goerror)
    : option V * option goerror :=
  let '(res, err) := next ctx method req in
  match err with Some e => fn ctx method req e | None => (res, None) end.

(** The semaphore of Bulkhead: a channel of capacity [maxConcurrent]. *)
Definition bulkheadCap (maxConcurrent : Z) : Z := if maxConcurrent <? 1 then 1 else maxConcurrent.

(** A call sends into the semaphore, or its context ends first; a call that has a
    slot gives it back when next has returned. *)
Inductive bulk_op := Enter | GiveUp (method : string) (ctxErr : goerror) | Leave.

(** The slots held after an operation and the error the call returns, if it does;
    [None]: the operation waits ([Enter] on a full bulkhead). *)
Definition Bulkhead (quote : string -> string) (cap held : Z) (op : bulk_op) : option (Z * option goerror) :=
  match op with
  | Enter => if held <? cap then Some (held + 1, None) else None
  | GiveUp method ctxErr =>
      Some (held, Some (ErrRpc CodeResourceExhausted
        ("bulkhead full for " +:+ quote method +:+ ": " +:+ Error_String ctxErr)))
  | Leave => if 0 <? held then Some (held - 1, None) else None
  end.

Fixpoint bulk_run (quote : string -> string) (cap held : Z) (ops : list bulk_op) : Z :=
  match ops with
  | [] => held
  | op :: ops' => bulk_run quote cap (match Bulkhead quote cap held op with Some (h, _) => h | None => held end) ops'
  end.

Theorem bulkhead_bounded quote maxConcurrent ops :
  let cap := bulkheadCap maxConcurrent in
  let held := bulk_run quote cap 0 ops in
  0 <= held <= cap /\
  (Bulkhead quote cap held Enter = None <-> held = cap).
Proof.
  assert (1 <= bulkheadCap maxConcurrent) as Hcap.
  { unfold bulkheadCap. destruct (maxConcurrent <? 1) eqn:E; bool_to_prop; lia. }
  intros cap held. assert (0 <= held <= cap) as Hh.
  { assert (forall h, 0 <= h <= cap -> 0 <= bulk_run quote cap h ops <= cap) as Hgen; [|apply Hgen; lia].
    induction ops as [|op ops IH]; intros h Hh; cbn [bulk_run]; [done|]. apply IH.
    destruct op; cbn; [|done|].
    - destruct (h <? cap) eqn:E; cbn; bool_to_prop; lia.
    - destruct (0 <? h) eqn:E; cbn; bool_to_prop; lia. }
  split; [done|]. cbn. destruct (held <? cap) eqn:E; bool_to_prop; split; intros; try done; lia.
Qed.

(** ** Witnesses *)

Lemma breaker_opens_at_threshold_witness :
  state (fail_n defaultBreakerConfig 5 17 newBreaker) = stateOpen /\
  (allow defaultBreakerConfig 20 (fail_n defaultBreakerConfig 5 17 newBreaker)).1 = false.
Proof.
  destruct (breaker_opens_at_threshold defaultBreakerConfig 17 newBreaker) as (_ & Hs & _ & Ha).
  - reflexivity.
  - reflexivity.
  - vm_compute. discriminate.
  - split; [exact Hs|]. exact (Ha 20).
Defined.

(** A failing call opens a breaker of threshold one; the first call after the
    cooldown is its probe, with an older call still in flight. *)
Definition demo_breaker : breaker_sys :=
  mkBSys (mkBreaker stateHalfOpen 1 0 1) [Some 1%nat; None] 1 0 0 10.

Lemma demo_breaker_reached : reach (breaker_step (mkBreakerConfig 1 10 2)) (mkBSys newBreaker [] 0 0 0 0) demo_breaker.
Proof.
  set (cfg := mkBreakerConfig 1 10 2).
  apply (reach_next _ _ (mkBSys (mkBreaker stateOpen 1 0 0) [None] 0 0 0 0)).
  2: exact (bs_allowed cfg (mkBSys (mkBreaker stateOpen 1 0 0) [None] 0 0 0 0) 10 (mkBreaker stateHalfOpen 1 0 1) ltac:(done) eq_refl).
  apply (reach_next _ _ (mkBSys newBreaker [None; None] 0 0 0 0)).
  2: exact (bs_record cfg (mkBSys newBreaker [None; None] 0 0 0 0) 0 true None [] [None] ltac:(done) eq_refl).
  apply (reach_next _ _ (mkBSys newBreaker [None] 0 0 0 0)).
  2: exact (bs_allowed cfg (mkBSys newBreaker [None] 0 0 0 0) 0 newBreaker ltac:(done) eq_refl).
  apply (reach_next _ _ (mkBSys newBreaker [] 0 0 0 0)); [apply reach_here|].
  exact (bs_allowed cfg (mkBSys newBreaker [] 0 0 0 0) 0 newBreaker ltac:(done) eq_refl).
Qed.

Lemma breaker_probe_accounting_witness :
  live_probes demo_breaker = 1 /\
  state (record_all (mkBreakerConfig 1 10 2) [(12, false)] (bk demo_breaker)) <> stateHalfOpen.
Proof.
  destruct (breaker_probe_accounting (mkBreakerConfig 1 10 2) demo_breaker demo_breaker_reached) as (_ & _ & Hh).
  destruct (Hh eq_refl) as (_ & Hl & Hout). split; [reflexivity|].
  destruct (Hout eq_refl) as [_ Hrec]. apply Hrec. reflexivity.
Defined.

Lemma breaker_isolates_methods_witness :
  (CircuitBreaker defaultBreakerConfig id defaultIsFailure 1 2 "a" (@None nat, Some ErrDeadlineExceeded) ∅).2 !! "b" = None.
Proof.
  rewrite (breaker_isolates_methods defaultBreakerConfig id defaultIsFailure 1 2 "a" "b" (None, Some ErrDeadlineExceeded) ∅);
    [reflexivity|discriminate].
Defined.

Lemma lost_probe_blocks_forever_witness :
  allow defaultBreakerConfig 99999999999 (mkBreaker stateHalfOpen 5 0 1) = (false, mkBreaker stateHalfOpen 5 0 1).
Proof. apply lost_probe_blocks_forever; [reflexivity|vm_compute; discriminate]. Defined.

Lemma half_open_closes_on_first_success_witness :
  exists b', allow (WithHalfOpenProbes 2 defaultBreakerConfig) 20000000000 (mkBreaker stateOpen 5 0 0) = (true, b') /\
    state (record (WithHalfOpenProbes 2 defaultBreakerConfig) 20000000000 false b') = stateClosed.
Proof.
  apply (half_open_closes_on_first_success (WithHalfOpenProbes 2 defaultBreakerConfig) 0 20000000000);
    [reflexivity|vm_compute; discriminate].
Defined.

Lemma retry_backoff_exact_witness :
  iter_fun (nextDelay defaultRetryConfig) 5 (base defaultRetryConfig) = 1000000000.
Proof.
  rewrite (retry_backoff_exact defaultRetryConfig 5); [reflexivity| |]; vm_compute; intuition discriminate.
Defined.

Lemma chain_is_nesting_witness :
  ChainClientInterceptors (fun (_ : unit) _ (v : Z) => v)
    [(fun c m v next => next c m (v + 1)); (fun c m v next => next c m (v * 2))] tt "f" 3 = 8.
Proof.
  destruct (chain_is_nesting (fun (_ : unit) _ (v : Z) => v)
    [(fun c m v next => next c m (v + 1)); (fun c m v next => next c m (v * 2))]) as (_ & _ & Hc).
  rewrite (Hc _ _ eq_refl). reflexivity.
Defined.
