(* ===== verification/Channels.v ===== *)
(** * Go's select statement

    A select over channels takes one of its ready cases, any of them, and blocks
    when none is ready.  The case it takes is an argument of the model ([pick]),
    so that a theorem about all picks is a theorem about every schedule. *)

From S2P Require Import Prelude.

(** The results of the ready cases, in source order. *)
Definition ready_cases {A} (cases : list (bool * A)) : list A := (filter (fun c => c.1 = true) cases).*2.

Definition select {A} (pick : nat) (cases : list (bool * A)) : option A :=
  let r := ready_cases cases in r !! (pick mod length r)%nat.

Section select.
Context {A : Type}.
Implicit Types (cases : list (bool * A)) (a : A).

Lemma elem_of_ready_cases a cases : a ∈ ready_cases cases <-> (true, a) ∈ cases.
Proof.
  unfold ready_cases. rewrite list_elem_of_fmap. split.
  - intros ([b x] & -> & [Hb Hin]%list_elem_of_filter). cbn in *. by subst.
  - intros Hin. exists (true, a). split; [done|]. by apply list_elem_of_filter.
Qed.

(** What a select returns is the result of a ready case. *)
Lemma select_ready pick cases a : select pick cases = Some a -> (true, a) ∈ cases.
Proof. intros Hs. apply elem_of_ready_cases. eapply list_elem_of_lookup_2, Hs. Qed.

(** It blocks exactly when no case is ready. *)
Lemma select_blocks pick cases : select pick cases = None <-> Forall (fun c => c.1 = false) cases.
Proof.
  unfold select. split.
  - intros Hn. destruct (ready_cases cases) as [|x r] eqn:Er.
    + apply Forall_forall. intros [[] a] Hin; [|done].
      assert (a ∈ ready_cases cases) as Ha by (by apply elem_of_ready_cases). rewrite Er in Ha.
      by apply elem_of_nil in Ha.
    + exfalso. apply lookup_ge_None in Hn. pose proof (Nat.mod_upper_bound pick (length (x :: r))). cbn in *. lia.
  - intros Hf. replace (ready_cases cases) with (@nil A); [done|].
    symmetry. unfold ready_cases. destruct (filter _ cases) as [|[b x] r] eqn:E; [done|].
    assert ((b, x) ∈ filter (fun c => c.1 = true) cases) as Hin by (rewrite E; left).
    apply list_elem_of_filter in Hin as [Hb Hin]. rewrite Forall_forall in Hf.
    specialize (Hf _ Hin). cbn in *. congruence.
Qed.

(** Any ready case may be taken. *)
Lemma select_any cases a : (true, a) ∈ cases -> exists pick, select pick cases = Some a.
Proof.
  intros Hin%elem_of_ready_cases. apply list_elem_of_lookup_1 in Hin as (i & Hi). exists i.
  unfold select. rewrite Nat.mod_small; [done|]. by eapply lookup_lt_Some.
Qed.
End select.

(** Evaluates a select whose guards are known booleans. *)
Ltac select_cases H :=
  apply select_ready in H;
  repeat match type of H with
  | _ ∈ _ :: _ => apply elem_of_cons in H as [H|H]
  | _ ∈ [] => by apply elem_of_nil in H
  end.
