(* ===== verification/Quic.v ===== *)
(** * The QUIC transport

    Models quic/transport.go: one QUIC stream per request, its registration in
    the table, the funnel into the single read queue, and the FIN of each half.

    A QUIC stream (quic-go) is a number; opening it, writing a frame to it and
    closing its write half are events.  [qc_states] is the heap of
    quicStreamState objects and [qc_streams] the table that points into it.
    Every critical section of the mutex is one operation, so the step relation
    interleaves the stream readers, the writer and the accept loop as the
    goroutines do. *)

From S2P Require Import Prelude Value RefValue Protocol Framing Channels.

(** ** State *)

Record quicStreamState := mkQS {
  qs_rid : Z;
  qs_reqType : Z;
  qs_registered : bool;
  qs_writeClosed : bool;
  qs_localDone : bool;
  qs_remoteDone : bool
}.

Record quicMsgConn := mkQC {
  qc_isClient : bool;
  qc_writeTO : Z;
  qc_done : bool;                        (* the done channel is closed *)
  qc_closeOnce : bool;
  qc_readDL : option Z;
  qc_streams : gmap Z nat;               (* request id -> stream *)
  qc_states : gmap nat quicStreamState;
  qc_next : nat;
  qc_readers : gset nat;                 (* streams whose reader goroutine runs *)
  qc_accepting : bool;                   (* the accept loop runs *)
  qc_wg : Z
}.

Definition upd_qs_writeDone (st : quicStreamState) : quicStreamState :=
  mkQS (qs_rid st) (qs_reqType st) (qs_registered st) true true (qs_remoteDone st).
Definition upd_qs_remoteDone (st : quicStreamState) : quicStreamState :=
  mkQS (qs_rid st) (qs_reqType st) (qs_registered st) (qs_writeClosed st) (qs_localDone st) true.
Definition upd_qs_register (reqType : Z) (rid : option Z) (st : quicStreamState) : quicStreamState :=
  mkQS (default (qs_rid st) rid) reqType true (qs_writeClosed st) (qs_localDone st) (qs_remoteDone st).

Definition upd_qc_done f (t : quicMsgConn) : quicMsgConn :=
  mkQC (qc_isClient t) (qc_writeTO t) (f (qc_done t)) (qc_closeOnce t) (qc_readDL t) (qc_streams t) (qc_states t) (qc_next t) (qc_readers t) (qc_accepting t) (qc_wg t).
Definition upd_qc_closeOnce f (t : quicMsgConn) : quicMsgConn :=
  mkQC (qc_isClient t) (qc_writeTO t) (qc_done t) (f (qc_closeOnce t)) (qc_readDL t) (qc_streams t) (qc_states t) (qc_next t) (qc_readers t) (qc_accepting t) (qc_wg t).
Definition upd_qc_readDL f (t : quicMsgConn) : quicMsgConn :=
  mkQC (qc_isClient t) (qc_writeTO t) (qc_done t) (qc_closeOnce t) (f (qc_readDL t)) (qc_streams t) (qc_states t) (qc_next t) (qc_readers t) (qc_accepting t) (qc_wg t).
Definition upd_qc_streams f (t : quicMsgConn) : quicMsgConn :=
  mkQC (qc_isClient t) (qc_writeTO t) (qc_done t) (qc_closeOnce t) (qc_readDL t) (f (qc_streams t)) (qc_states t) (qc_next t) (qc_readers t) (qc_accepting t) (qc_wg t).
Definition upd_qc_states f (t : quicMsgConn) : quicMsgConn :=
  mkQC (qc_isClient t) (qc_writeTO t) (qc_done t) (qc_closeOnce t) (qc_readDL t) (qc_streams t) (f (qc_states t)) (qc_next t) (qc_readers t) (qc_accepting t) (qc_wg t).
Definition upd_qc_next f (t : quicMsgConn) : quicMsgConn :=
  mkQC (qc_isClient t) (qc_writeTO t) (qc_done t) (qc_closeOnce t) (qc_readDL t) (qc_streams t) (qc_states t) (f (qc_next t)) (qc_readers t) (qc_accepting t) (qc_wg t).
Definition upd_qc_readers f (t : quicMsgConn) : quicMsgConn :=
  mkQC (qc_isClient t) (qc_writeTO t) (qc_done t) (qc_closeOnce t) (qc_readDL t) (qc_streams t) (qc_states t) (qc_next t) (f (qc_readers t)) (qc_accepting t) (qc_wg t).
Definition upd_qc_accepting f (t : quicMsgConn) : quicMsgConn :=
  mkQC (qc_isClient t) (qc_writeTO t) (qc_done t) (qc_closeOnce t) (qc_readDL t) (qc_streams t) (qc_states t) (qc_next t) (qc_readers t) (f (qc_accepting t)) (qc_wg t).
Definition upd_qc_wg f (t : quicMsgConn) : quicMsgConn :=
  mkQC (qc_isClient t) (qc_writeTO t) (qc_done t) (qc_closeOnce t) (qc_readDL t) (qc_streams t) (qc_states t) (qc_next t) (qc_readers t) (qc_accepting t) (f (qc_wg t)).

(** newQUICMsgConn: the server's side starts its accept loop. *)
Definition newQUICMsgConn (isClient : bool) (writeTimeout : Z) : quicMsgConn :=
  mkQC isClient writeTimeout false false None ∅ ∅ 0 ∅ (negb isClient) (if isClient then 0 else 1).

Inductive quic_error :=
| QErr (e : goerror)
| QFrameErr (e : frame_error).

(** ** When a half of a stream is finished *)

(** finOnWrite: the message is the last one this side sends on the stream. *)
Definition finOnWrite (isClient : bool) (mt reqType : Z) : bool :=
  if isClient then (mt =? StreamEnd) || (mt =? CancelRequest)
  else if (mt =? HandshakeResponse) || (mt =? FunctionResponse) || (mt =? ErrorResponse) || (mt =? StreamEnd)
       then true
       else if mt =? StreamReady then reqType =? PutStreamRequest
       else false.

Definition finOnRead (mt reqType : Z) : bool :=
  if reqType =? FunctionRequest then (mt =? FunctionResponse) || (mt =? ErrorResponse)
  else if reqType =? GetStreamRequest then (mt =? StreamEnd) || (mt =? ErrorResponse)
  else if reqType =? HandshakeRequest then mt =? HandshakeResponse
  else false.

Section quic.
Context `{ValueLib} (d : Dialect).

(** msgType and ridOf *)
Definition quic_msgType (m : VMap) : Z :=
  match GetNumberField m (MessageTypeField d) with Some n => longOf n | None => -1 end.

Definition ridOf (m : VMap) : option Z :=
  match GetNumberField m (RequestIdField d) with Some n => Some (longOf n) | None => None end.

Inductive q_ev :=
| QOpen (l : nat)                  (* OpenStreamSync, or a stream accepted *)
| QReader (l : nat)                (* go t.streamReader(st) *)
| QDeadline (l : nat)              (* SetWriteDeadline *)
| QWrite (l : nat) (m : VMap)      (* a frame written to the stream *)
| QFin (l : nat)                   (* st.s.Close() *)
| QCancelRead (l : nat)
| QIncoming (m : VMap)             (* a message handed to ReadMessage *)
| QCloseConn.

Abbreviation Q := (M quicMsgConn q_ev).

Definition get_state (l : nat) : Q (option quicStreamState) := gets (fun t => qc_states t !! l).

(** A stream object with its bufio.Reader; returns its number. *)
Definition newStream (st : quicStreamState) : Q nat :=
  t ← gets id;
  let l := qc_next t in
  modify (upd_qc_next S) ≫= fun _ =>
  modify (upd_qc_states (insert l st)) ≫= fun _ =>
  emit (QOpen l) ≫= fun _ => mret l.

Definition goReader (l : nat) : Q unit :=
  modify (upd_qc_wg (fun n => n + 1)) ≫= fun _ =>
  modify (upd_qc_readers (fun s => {[ l ]} ∪ s)) ≫= fun _ =>
  emit (QReader l).

Definition readerDone (l : nat) : Q unit :=
  modify (upd_qc_readers (fun s => s ∖ {[ l ]})) ≫= fun _ =>
  modify (upd_qc_wg (fun n => n - 1)).

(** ** The critical sections *)

Definition register (m : VMap) (l : nat) : Q unit :=
  get_state l ≫= fun o =>
  match o with
  | None => mret tt
  | Some st =>
      if qs_registered st then mret tt
      else
        modify (upd_qc_states (insert l (upd_qs_register (quic_msgType m) (ridOf m) st))) ≫= fun _ =>
        match ridOf m with
        | Some rid => modify (upd_qc_streams (insert rid l))
        | None => mret tt
        end
  end.

(** finWrite: once; the entry goes when the peer's half is done too. *)
Definition finWrite (l : nat) : Q unit :=
  get_state l ≫= fun o =>
  match o with
  | None => mret tt
  | Some st =>
      if qs_writeClosed st then mret tt
      else
        modify (upd_qc_states (insert l (upd_qs_writeDone st))) ≫= fun _ =>
        (if qs_remoteDone st then modify (upd_qc_streams (delete (qs_rid st))) else mret tt) ≫= fun _ =>
        emit (QFin l)
  end.

Definition markRemoteDone (l : nat) : Q unit :=
  get_state l ≫= fun o =>
  match o with
  | None => mret tt
  | Some st =>
      modify (upd_qc_states (insert l (upd_qs_remoteDone st))) ≫= fun _ =>
      if qs_localDone st then modify (upd_qc_streams (delete (qs_rid st))) else mret tt
  end.

(** funnel: [recv] says that a ReadMessage is waiting for the message. *)
Definition funnel (recv : bool) (pick : nat) (m : VMap) : Q (option bool) :=
  t ← gets id;
  match select pick [(recv, true); (qc_done t, false)] with
  | Some true => emit (QIncoming m) ≫= fun _ => mret (Some true)
  | Some false => mret (Some false)
  | None => mret None
  end.

(** ** Reading *)

(** One iteration of streamReader; [Some true] goes on, [Some false] returned,
    [None] is blocked in the funnel. *)
Definition streamReader_iter (l : nat) (read : VMap + frame_error) (recv : bool) (pick : nat) : Q (option bool) :=
  match read with
  | inr _ => markRemoteDone l ≫= fun _ => readerDone l ≫= fun _ => mret (Some false)
  | inl m =>
      register m l ≫= fun _ =>
      funnel recv pick m ≫= fun r =>
      match r with
      | None => mret None
      | Some false => readerDone l ≫= fun _ => mret (Some false)
      | Some true =>
          t ← gets id;
          match qc_states t !! l with
          | Some st =>
              (if qc_isClient t && finOnRead (quic_msgType m) (qs_reqType st) then finWrite l else mret tt) ≫= fun _ =>
              mret (Some true)
          | None => mret (Some true)
          end
      end
  end.

(** The loop, over what reading the stream returns, with every message taken. *)
Fixpoint streamReader (l : nat) (reads : list (VMap + frame_error)) : Q unit :=
  match reads with
  | [] => mret tt
  | r :: reads' =>
      streamReader_iter l r true 0 ≫= fun o =>
      match o with
      | Some true => streamReader l reads'
      | _ => mret tt
      end
  end.

(** serverAcceptLoop, the first stream: its first frame is funnelled before any
    other stream is accepted. *)
Definition acceptFirst (accepted : bool) (read : VMap + frame_error) (recv : bool) (pick : nat) : Q (option bool) :=
  if negb accepted then
    modify (upd_qc_accepting (fun _ => false)) ≫= fun _ =>
    modify (upd_qc_wg (fun n => n - 1)) ≫= fun _ => mret (Some false)
  else
    newStream (mkQS 0 0 false false false false) ≫= fun l =>
    match read with
    | inr _ => emit (QCancelRead l) ≫= fun _ => mret (Some true)
    | inl m =>
        register m l ≫= fun _ =>
        funnel recv pick m ≫= fun r =>
        match r with
        | Some true => goReader l ≫= fun _ => mret (Some true)
        | Some false =>
            modify (upd_qc_accepting (fun _ => false)) ≫= fun _ =>
            modify (upd_qc_wg (fun n => n - 1)) ≫= fun _ => mret (Some false)
        | None => mret None
        end
    end.

(** The rest of the loop. *)
Definition acceptNext (accepted : bool) : Q bool :=
  if negb accepted then
    modify (upd_qc_accepting (fun _ => false)) ≫= fun _ =>
    modify (upd_qc_wg (fun n => n - 1)) ≫= fun _ => mret false
  else
    newStream (mkQS 0 0 false false false false) ≫= fun l => goReader l ≫= fun _ => mret true.

Definition quic_SetReadDeadline (deadline : Z) : Q unit := modify (upd_qc_readDL (fun _ => Some deadline)).

(** ReadMessage: [offered] is the message a reader is funnelling, [fired] whether
    the timer went off; a zero deadline sets no timer. *)
Definition quic_ReadMessage (offered : option VMap) (fired : bool) (pick : nat) : Q (option (VMap + frame_error)) :=
  t ← gets id;
  let timeout := match qc_readDL t with Some dl => negb (dl =? 0) && fired | None => false end in
  mret (select pick
    [(match offered with Some _ => true | None => false end, match offered with Some m => inl m | None => inr EOF end);
     (qc_done t, inr EOF);
     (timeout, inr (ConnError "i/o timeout"))]).

(** ** Writing *)

(** streamForWrite, the lookup under the lock. *)
Definition streamForWrite_lookup (rid : Z) : Q (option (nat * Z)) :=
  t ← gets id;
  mret (match qc_streams t !! rid with
        | Some l => match qc_states t !! l with Some st => Some (l, qs_reqType st) | None => None end
        | None => None
        end).

(** The rest: only the client opens streams; [openErr] is the outcome of
    OpenStreamSync. *)
Definition streamForWrite_open (rid mt : Z) (openErr : option goerror) : Q (quic_error + nat * Z) :=
  t ← gets id;
  if negb (qc_isClient t) then
    mret (inl (QErr (ErrPlain ("quic: no stream for response to request " +:+ pretty rid))))
  else match openErr with
       | Some e => mret (inl (QErr e))
       | None =>
           newStream (mkQS rid mt true false false false) ≫= fun l =>
           modify (upd_qc_streams (insert rid l)) ≫= fun _ =>
           goReader l ≫= fun _ => mret (inr (l, mt))
       end.

Definition streamForWrite (rid mt : Z) (openErr : option goerror) : Q (quic_error + nat * Z) :=
  streamForWrite_lookup rid ≫= fun o =>
  match o with
  | Some r => mret (inr r)
  | None => streamForWrite_open rid mt openErr
  end.

(** WriteMessage up to the write: the stream to write to, [inl None] when there
    is nothing more to do and no error. *)
Definition quic_WriteMessage_begin (m : VMap) (openErr : option goerror) : Q (option quic_error + nat * Z) :=
  t ← gets id;
  if qc_done t then mret (inl (Some (QFrameErr ErrClientClosed)))
  else match ridOf m with
       | None => mret (inl (Some (QErr (ErrPlain "quic: outgoing message has no request id"))))
       | Some rid =>
           streamForWrite rid (quic_msgType m) openErr ≫= fun r =>
           match r with
           | inl e => mret (inl (Some e))
           | inr (l, reqType) =>
               get_state l ≫= fun o =>
               match o with
               | Some st => if qs_writeClosed st then mret (inl None) else mret (inr (l, reqType))
               | None => mret (inl None)
               end
           end
       end.

(** The write: [io] is the outcome of the stream's Write; a failure after the
    reader has FIN'd the stream is swallowed. *)
Definition quic_WriteMessage_write (l : nat) (m : VMap) (io : option string) : Q (option quic_error * bool) :=
  t ← gets id;
  (if 0 <? qc_writeTO t then emit (QDeadline l) else mret tt) ≫= fun _ =>
  match (quic_writeFrame io m).1 with
  | Some e =>
      get_state l ≫= fun o =>
      match o with
      | Some st => if qs_writeClosed st then mret (None, false) else mret (Some (QFrameErr e), false)
      | None => mret (Some (QFrameErr e), false)
      end
  | None => emit (QWrite l m) ≫= fun _ => mret (None, true)
  end.

Definition quic_WriteMessage_end (l : nat) (reqType : Z) (m : VMap) : Q unit :=
  t ← gets id;
  if finOnWrite (qc_isClient t) (quic_msgType m) reqType then finWrite l else mret tt.

Definition quic_WriteMessage (m : VMap) (openErr : option goerror) (io : option string) : Q (option quic_error) :=
  quic_WriteMessage_begin m openErr ≫= fun r =>
  match r with
  | inl e => mret e
  | inr (l, reqType) =>
      quic_WriteMessage_write l m io ≫= fun w =>
      match w with
      | (e, false) => mret e
      | (_, true) => quic_WriteMessage_end l reqType m ≫= fun _ => mret None
      end
  end.

(** ** Close *)

(** Close up to the wait for the goroutines; it returns when [qc_wg] is 0. *)
Definition quic_Close : Q unit :=
  t ← gets id;
  if qc_closeOnce t then mret tt
  else
    modify (upd_qc_closeOnce (fun _ => true)) ≫= fun _ =>
    modify (upd_qc_done (fun _ => true)) ≫= fun _ =>
    emit QCloseConn.

(** ** All interleavings

    A state of the connection with everything that happened on it, and the
    critical sections its goroutines run, in any order.  The premises are what
    the goroutine knows when it gets there: a reader registers only before it
    saw the end of its stream, a writer holds a registered stream of the
    message's request. *)

Definition after {A} (m : Q A) (s : quicMsgConn * list q_ev) : quicMsgConn * list q_ev :=
  (m_st (m s.1), s.2 ++ m_out (m s.1)).

Definition holds_stream (t : quicMsgConn) (l : nat) (P : quicStreamState -> Prop) : Prop :=
  exists st, qc_states t !! l = Some st /\ P st.

Definition is_fin (l : nat) (e : q_ev) : bool := match e with QFin l' => bool_decide (l' = l) | _ => false end.

Definition acceptLoop_exit : Q unit :=
  modify (upd_qc_accepting (fun _ => false)) ≫= fun _ => modify (upd_qc_wg (fun n => n - 1)).

Inductive quic_step : quicMsgConn * list q_ev -> quicMsgConn * list q_ev -> Prop :=
| q_new s : qc_accepting s.1 = true -> quic_step s (after (newStream (mkQS 0 0 false false false false)) s)
| q_reader s l :
    l ∉ qc_readers s.1 -> holds_stream s.1 l (fun _ => True) -> quic_step s (after (goReader l) s)
| q_register s l m :
    holds_stream s.1 l (fun st => qs_remoteDone st = false) -> quic_step s (after (register m l) s)
| q_funnel s recv pick m : quic_step s (after (funnel recv pick m) s)
| q_fin s l : holds_stream s.1 l (fun st => qs_registered st = true) -> quic_step s (after (finWrite l) s)
| q_remote_done s l : l ∈ qc_readers s.1 -> quic_step s (after (markRemoteDone l) s)
| q_reader_done s l : l ∈ qc_readers s.1 -> quic_step s (after (readerDone l) s)
| q_open s rid mt err : quic_step s (after (streamForWrite_open rid mt err) s)
| q_write s l m io :
    holds_stream s.1 l (fun st => qs_registered st = true /\ ridOf m = Some (qs_rid st)) ->
    quic_step s (after (quic_WriteMessage_write l m io) s)
| q_deadline s dl : quic_step s (after (quic_SetReadDeadline dl) s)
| q_accept_exit s : qc_accepting s.1 = true -> quic_step s (after acceptLoop_exit s)
| q_close s : quic_step s (after quic_Close s).

(** How often the write half of stream [l] was closed. *)
Definition fins (l : nat) (o : list q_ev) : nat :=
  length (filter (fun e => is_fin l e = true) o).

Record quic_inv (t : quicMsgConn) (o : list q_ev) : Prop := {
  qi_fresh : forall l st, qc_states t !! l = Some st -> (l < qc_next t)%nat;
  qi_table : forall rid l, qc_streams t !! rid = Some l ->
    holds_stream t l (fun st => qs_registered st = true /\ qs_rid st = rid /\
                                qs_writeClosed st && qs_remoteDone st = false);
  qi_local : forall l st, qc_states t !! l = Some st ->
    qs_localDone st = qs_writeClosed st /\ (qs_registered st = false -> qs_writeClosed st = false);
  qi_fins : forall l, fins l o =
    match qc_states t !! l with Some st => if qs_writeClosed st then 1%nat else 0%nat | None => 0%nat end;
  qi_writes : forall l m, QWrite l m ∈ o ->
    holds_stream t l (fun st => qs_registered st = true /\ ridOf m = Some (qs_rid st));
  qi_readers : forall l, l ∈ qc_readers t -> is_Some (qc_states t !! l);
  qi_wg : qc_wg t = Z.of_nat (size (qc_readers t)) + (if qc_accepting t then 1 else 0)
}.

#[local] Arguments fins : simpl never.

Lemma fins_fin l l' : fins l' [QFin l] = if decide (l' = l) then 1%nat else 0%nat.
Proof. unfold fins. cbn. destruct (decide (l' = l)); case_bool_decide; cbn; congruence || done. Qed.

Lemma fins_app l o1 o2 : fins l (o1 ++ o2) = (fins l o1 + fins l o2)%nat.
Proof. unfold fins. by rewrite filter_app, length_app. Qed.

(** Events that neither write a frame nor close a half. *)
Definition quiet (e : q_ev) : bool := match e with QFin _ | QWrite _ _ => false | _ => true end.

Lemma fins_quiet l o : forallb quiet o = true -> fins l o = 0%nat.
Proof.
  intros Hq. unfold fins. induction o as [|e o IH]; [done|]. cbn in Hq. apply andb_prop in Hq as [He Hq].
  rewrite filter_cons_False; [auto|]. by destruct e; cbn.
Qed.

Lemma quiet_writes l m o o' : forallb quiet o' = true -> QWrite l m ∈ o ++ o' -> QWrite l m ∈ o.
Proof.
  intros Hq [Hin|Hin]%elem_of_app; [done|]. exfalso. rewrite forallb_forall in Hq.
  specialize (Hq _ (proj1 (list_elem_of_In _ _) Hin)). done.
Qed.

(** The invariant depends on the table, the states, the readers and the wait
    group only, and events that are neither FIN nor frame do not matter. *)
Lemma quic_inv_quiet t t' o o' :
  quic_inv t o -> forallb quiet o' = true ->
  qc_states t' = qc_states t -> qc_streams t' = qc_streams t -> qc_next t' = qc_next t ->
  qc_readers t' = qc_readers t -> qc_wg t' = qc_wg t -> qc_accepting t' = qc_accepting t ->
  quic_inv t' (o ++ o').
Proof.
  intros [] Hq E1 E2 E3 E4 E5 E6. split; unfold holds_stream; rewrite ?E1, ?E2, ?E3, ?E4, ?E5, ?E6; try done.
  - intros l. by rewrite fins_app, (fins_quiet l o'), Nat.add_0_r.
  - intros l m Hin%quiet_writes; [|done]. by apply qi_writes0.
Qed.

(** A new stream. *)
Lemma quic_inv_insert t o st :
  quic_inv t o -> qs_writeClosed st = false -> qs_localDone st = false ->
  quic_inv (upd_qc_states (insert (qc_next t) st) (upd_qc_next S t)) (o ++ [QOpen (qc_next t)]).
Proof.
  intros [] Hw Hl.
  assert (qc_states t !! qc_next t = None) as Hn.
  { destruct (qc_states t !! qc_next t) as [st'|] eqn:E; [|done]. specialize (qi_fresh0 _ _ E). lia. }
  assert (forall l P, holds_stream t l P ->
    holds_stream (upd_qc_states (insert (qc_next t) st) (upd_qc_next S t)) l P) as Hh.
  { intros l P (st' & Hs & HP). exists st'. split; [|done]. cbn. rewrite lookup_insert_ne by congruence. done. }
  split; cbn.
  - intros l st' [[<- _]|[_ Hs]]%lookup_insert_Some; [lia|]. specialize (qi_fresh0 _ _ Hs). lia.
  - intros rid l Hr. apply Hh, qi_table0, Hr.
  - intros l st' [[<- <-]|[_ Hs]]%lookup_insert_Some; [by rewrite Hw, Hl|eauto].
  - intros l. rewrite fins_app, (fins_quiet l [_]), Nat.add_0_r, qi_fins0 by done.
    destruct (decide (l = qc_next t)) as [->|Hne]; [by rewrite Hn, lookup_insert_eq, Hw|by rewrite lookup_insert_ne].
  - intros l m Hin%quiet_writes; [|done]. apply Hh, qi_writes0, Hin.
  - intros l Hl'. rewrite lookup_insert_is_Some'. right. auto.
  - done.
Qed.

(** Changing stream [l] in place. *)
Lemma holds_update (t t' : quicMsgConn) l st st' l' (P : quicStreamState -> Prop) :
  qc_states t !! l = Some st -> qc_states t' = <[l := st']> (qc_states t) ->
  (l' = l -> P st -> P st') -> holds_stream t l' P -> holds_stream t' l' P.
Proof.
  intros Hs E HP (st0 & Hs0 & HP0). unfold holds_stream. rewrite E.
  destruct (decide (l' = l)) as [->|Hne].
  - exists st'. rewrite lookup_insert_eq. split; [done|]. apply HP; [done|]. congruence.
  - exists st0. by rewrite lookup_insert_ne.
Qed.

(** The parts of the invariant that an update of one stream does not touch. *)
Lemma quic_inv_update t t' o o' l st st' :
  quic_inv t o -> qc_states t !! l = Some st -> qc_states t' = <[l := st']> (qc_states t) ->
  qc_next t' = qc_next t -> qc_readers t' = qc_readers t -> qc_wg t' = qc_wg t -> qc_accepting t' = qc_accepting t ->
  (forall l' m, QWrite l' m ∉ o') ->
  qs_localDone st' = qs_writeClosed st' -> (qs_registered st' = false -> qs_writeClosed st' = false) ->
  (qs_registered st = true -> qs_registered st' = true /\ qs_rid st' = qs_rid st) ->
  (forall l', fins l' o' + (if decide (l' = l) then if qs_writeClosed st then 1 else 0 else 0) =
              if decide (l' = l) then if qs_writeClosed st' then 1 else 0 else 0)%nat ->
  (forall rid l', qc_streams t' !! rid = Some l' ->
    holds_stream t' l' (fun st => qs_registered st = true /\ qs_rid st = rid /\
                                  qs_writeClosed st && qs_remoteDone st = false)) ->
  quic_inv t' (o ++ o').
Proof.
  intros [] Hs E1 E2 E3 E4 E5 Hw Hl Hu Hr Hf Ht. split; rewrite ?E1, ?E2, ?E3, ?E4, ?E5; try done.
  - intros l' st0 [[<- <-]|[_ H0]]%lookup_insert_Some; eauto.
  - intros l' st0 [[<- <-]|[_ H0]]%lookup_insert_Some; eauto.
  - intros l'. rewrite fins_app, qi_fins0. specialize (Hf l'). destruct (decide (l' = l)) as [->|Hne].
    + rewrite Hs, lookup_insert_eq. destruct (qs_writeClosed st), (qs_writeClosed st'); lia.
    + rewrite lookup_insert_ne by done. destruct (qc_states t !! l') as [st0|]; [destruct (qs_writeClosed st0)|]; lia.
  - intros l' m [Hin|Hin]%elem_of_app; [|by destruct (Hw l' m)].
    eapply (holds_update t t' l st st'); [done|done| |by apply qi_writes0].
    intros _ [Hreg Hrid]. destruct (Hr Hreg) as [-> ->]. done.
  - intros l' Hin. rewrite lookup_insert_is_Some'. right. auto.
Qed.

Lemma register_inv t o l m :
  quic_inv t o -> holds_stream t l (fun st => qs_remoteDone st = false) ->
  quic_inv (m_st (register m l t)) (o ++ m_out (register m l t)).
Proof.
  intros Hi (st & Hs & Hrd). unfold register, get_state. rewrite M_gets_bind, Hs.
  destruct (qs_registered st) eqn:Hreg.
  { cbn. rewrite app_nil_r. done. }
  assert (qs_localDone st = false /\ qs_writeClosed st = false) as [Hl Hw].
  { destruct (qi_local _ _ Hi l st Hs) as [-> Hu]. by rewrite Hu. }
  rewrite M_modify_bind. set (st' := upd_qs_register _ _ _).
  assert (forall rid l', qc_streams t !! rid = Some l' -> l' <> l) as Hnl.
  { intros rid l' Hr ->. destruct (qi_table _ _ Hi _ _ Hr) as (st0 & Hs0 & Hreg0 & _). congruence. }
  destruct (ridOf m) as [rid|] eqn:Hrid; unfold m_st, m_out; cbn [fst snd modify mret M_ret].
  - eapply (quic_inv_update _ _ _ _ l st st' Hi Hs); cbn; try done.
    + intros l' m'. apply not_elem_of_nil.
    + unfold st'. cbn. congruence.
    + congruence.
    + intros rid' l' [[<- <-]|[Hne Hr]]%lookup_insert_Some.
      * exists st'. cbn. rewrite lookup_insert_eq. unfold st'. cbn. by rewrite Hw.
      * eapply (holds_update t _ l st st'); [done|done| |by apply (qi_table _ _ Hi)].
        intros ->. by destruct (Hnl _ _ Hr).
  - eapply (quic_inv_update _ _ _ _ l st st' Hi Hs); cbn; try done.
    + intros l' m'. apply not_elem_of_nil.
    + unfold st'. cbn. congruence.
    + intros rid' l' Hr. eapply (holds_update t _ l st st'); [done|done| |by apply (qi_table _ _ Hi)].
      intros ->. by destruct (Hnl _ _ Hr).
Qed.

Lemma finWrite_inv t o l :
  quic_inv t o -> holds_stream t l (fun st => qs_registered st = true) ->
  quic_inv (m_st (finWrite l t)) (o ++ m_out (finWrite l t)).
Proof.
  intros Hi (st & Hs & Hreg). unfold finWrite, get_state. rewrite M_gets_bind, Hs.
  destruct (qs_writeClosed st) eqn:Hw; [unfold m_st, m_out; cbn; by rewrite app_nil_r|].
  rewrite M_modify_bind.
  assert (forall t', qc_states t' = <[l := upd_qs_writeDone st]> (qc_states t) ->
    qc_next t' = qc_next t -> qc_readers t' = qc_readers t -> qc_wg t' = qc_wg t ->
    qc_accepting t' = qc_accepting t ->
    qc_streams t' = (if qs_remoteDone st then delete (qs_rid st) (qc_streams t) else qc_streams t) ->
    quic_inv t' (o ++ [QFin l])) as Hgo.
  { intros t' E1 E2 E3 E4 E5 E6.
    eapply (quic_inv_update t t' _ _ l st (upd_qs_writeDone st) Hi Hs); cbn; try done.
    - intros l' m [=]%list_elem_of_singleton.
    - congruence.
    - intros l'. rewrite fins_fin, Hw. by destruct (decide (l' = l)).
    - intros rid l' Hr.
      assert (qc_streams t !! rid = Some l' /\ (l' = l -> qs_remoteDone st = false)) as [Hr' Hl'].
      { rewrite E6 in Hr. destruct (qs_remoteDone st) eqn:Hrd; [|done].
        apply lookup_delete_Some in Hr as [Hne Hr]. split; [done|]. intros ->.
        destruct (qi_table _ _ Hi _ _ Hr) as (st0 & Hs0 & _ & Hrid & _). congruence. }
      eapply (holds_update t _ l st (upd_qs_writeDone st)); [done|done| |by apply (qi_table _ _ Hi)].
      intros Hll (H1 & H2 & _). cbn. by rewrite (Hl' Hll). }
  destruct (qs_remoteDone st) eqn:Hrd.
  - rewrite M_modify_bind. unfold m_st, m_out. cbn. by apply Hgo.
  - rewrite M_left_id. unfold m_st, m_out. cbn. by apply Hgo.
Qed.

Lemma markRemoteDone_inv t o l :
  quic_inv t o -> quic_inv (m_st (markRemoteDone l t)) (o ++ m_out (markRemoteDone l t)).
Proof.
  intros Hi. unfold markRemoteDone, get_state. rewrite M_gets_bind.
  destruct (qc_states t !! l) as [st|] eqn:Hs; [|unfold m_st, m_out; cbn; by rewrite app_nil_r].
  rewrite M_modify_bind. destruct (qi_local _ _ Hi l st Hs) as [Hld Hu]. rewrite Hld.
  assert (forall t', qc_states t' = <[l := upd_qs_remoteDone st]> (qc_states t) ->
    qc_next t' = qc_next t -> qc_readers t' = qc_readers t -> qc_wg t' = qc_wg t ->
    qc_accepting t' = qc_accepting t ->
    qc_streams t' = (if qs_writeClosed st then delete (qs_rid st) (qc_streams t) else qc_streams t) ->
    quic_inv t' (o ++ [])) as Hgo.
  { intros t' E1 E2 E3 E4 E5 E6.
    eapply (quic_inv_update t t' _ _ l st (upd_qs_remoteDone st) Hi Hs); cbn; try done.
    - intros l' m. apply not_elem_of_nil.
    - intros rid l' Hr.
      assert (qc_streams t !! rid = Some l' /\ (l' = l -> qs_writeClosed st = false)) as [Hr' Hl'].
      { rewrite E6 in Hr. destruct (qs_writeClosed st) eqn:Hwc; [|done].
        apply lookup_delete_Some in Hr as [Hne Hr]. split; [done|]. intros ->.
        destruct (qi_table _ _ Hi _ _ Hr) as (st0 & Hs0 & _ & Hrid & _). congruence. }
      eapply (holds_update t _ l st (upd_qs_remoteDone st)); [done|done| |by apply (qi_table _ _ Hi)].
      intros Hll (H1 & H2 & _). cbn. by rewrite (Hl' Hll). }
  destruct (qs_writeClosed st) eqn:Hwc; unfold m_st, m_out; cbn; by apply Hgo.
Qed.

(** Reader goroutines and the wait group. *)
Lemma quic_inv_group t t' o o' :
  quic_inv t o -> forallb quiet o' = true ->
  qc_states t' = qc_states t -> qc_streams t' = qc_streams t -> qc_next t' = qc_next t ->
  (forall l, l ∈ qc_readers t' -> is_Some (qc_states t !! l)) ->
  qc_wg t' = Z.of_nat (size (qc_readers t')) + (if qc_accepting t' then 1 else 0) ->
  quic_inv t' (o ++ o').
Proof.
  intros [] Hq E1 E2 E3 E4 E5. split; unfold holds_stream; rewrite ?E1, ?E2, ?E3; try done.
  - intros l. by rewrite fins_app, (fins_quiet l o'), Nat.add_0_r.
  - intros l m Hin%quiet_writes; [|done]. by apply qi_writes0.
Qed.

Lemma goReader_inv t o l :
  quic_inv t o -> l ∉ qc_readers t -> is_Some (qc_states t !! l) ->
  quic_inv (m_st (goReader l t)) (o ++ m_out (goReader l t)).
Proof.
  intros Hi Hl Hs. eapply quic_inv_group; [done|done|done..| |].
  - cbn. intros l' [->%elem_of_singleton|Hin]%elem_of_union; [done|]. by apply (qi_readers _ _ Hi).
  - unfold goReader. unM. rewrite (qi_wg _ _ Hi), size_union, size_singleton by set_solver. lia.
Qed.

Lemma readerDone_inv t o l :
  quic_inv t o -> l ∈ qc_readers t -> quic_inv (m_st (readerDone l t)) (o ++ m_out (readerDone l t)).
Proof.
  intros Hi Hl. eapply quic_inv_group; [done|done|done..| |].
  - cbn. intros l' Hin. apply (qi_readers _ _ Hi). set_solver.
  - unfold readerDone. unM. rewrite (qi_wg _ _ Hi), size_difference, size_singleton by set_solver.
    assert (qc_readers t ≢ ∅) as Hne by set_solver. apply size_non_empty_iff in Hne. lia.
Qed.

Lemma open_inv t o rid mt err :
  quic_inv t o ->
  quic_inv (m_st (streamForWrite_open rid mt err t)) (o ++ m_out (streamForWrite_open rid mt err t)).
Proof.
  intros Hi. unfold streamForWrite_open. rewrite M_gets_bind. cbn [id].
  destruct (negb (qc_isClient t)); [unfold m_st, m_out; cbn; by rewrite app_nil_r|].
  destruct err; [unfold m_st, m_out; cbn; by rewrite app_nil_r|].
  set (st := mkQS rid mt true false false false).
  pose proof (quic_inv_insert t o st Hi eq_refl eq_refl) as H1.
  set (t1 := upd_qc_states _ _) in H1. set (l := qc_next t) in *.
  assert (quic_inv (upd_qc_streams (insert rid l) t1) (o ++ [QOpen l])) as H2.
  { destruct H1. split; try done. intros rid' l'. cbn. intros [[<- <-]|[Hne Hr]]%lookup_insert_Some.
    - exists st. cbn. by rewrite lookup_insert_eq.
    - apply (qi_table0 rid' l' Hr). }
  apply (goReader_inv _ _ l) in H2.
  - unfold m_st, m_out in *. cbn in *. by rewrite <- app_assoc in H2.
  - cbn. intros Hin. destruct (qi_readers _ _ Hi _ Hin) as [st0 Hs0].
    specialize (qi_fresh _ _ Hi _ _ Hs0). unfold l. lia.
  - cbn. rewrite lookup_insert_eq. done.
Qed.

Lemma write_inv t o l m io :
  quic_inv t o -> holds_stream t l (fun st => qs_registered st = true /\ ridOf m = Some (qs_rid st)) ->
  quic_inv (m_st (quic_WriteMessage_write l m io t)) (o ++ m_out (quic_WriteMessage_write l m io t)).
Proof.
  intros Hi Hh.
  assert (quic_inv t ((o ++ [QDeadline l]) ++ []) /\ quic_inv t (o ++ [])) as [Hd Hd'].
  { rewrite !app_nil_r. split; [|done]. by eapply quic_inv_quiet. }
  assert (forall o0, quic_inv t o0 -> quic_inv t (o0 ++ [QWrite l m])) as Hw.
  { intros o0 []. split; try done.
    - intros l'. by rewrite fins_app, qi_fins0, Nat.add_0_r.
    - intros l' m' [Hin|[= -> ->]%list_elem_of_singleton]%elem_of_app; auto. }
  unfold quic_WriteMessage_write. rewrite M_gets_bind. cbn [id].
  destruct (0 <? qc_writeTO t), ((quic_writeFrame io m).1) eqn:Ew;
    unfold m_st, m_out, mbind, M_bind, get_state, gets, emit, mret, M_ret; cbn;
    repeat case_match; simplify_eq; cbn; rewrite ?app_nil_r in *; try done; try by apply Hw.
  all: rewrite <- ?app_assoc; try done.
  change ([QDeadline l; QWrite l m]) with ([QDeadline l] ++ [QWrite l m]). rewrite app_assoc. by apply Hw.
Qed.

Lemma quic_step_inv s s' : quic_inv s.1 s.2 -> quic_step s s' -> quic_inv s'.1 s'.2.
Proof.
  intros Hi Hst. destruct Hst as [[t o]|[t o] l Hl (st & Hs & _)|[t o] l m Hh|[t o] recv pick m|[t o] l Hh|[t o] l Hl
    |[t o] l Hl|[t o] rid mt err|[t o] l m io Hh|[t o] dl|[t o] Ha|[t o]]; cbn [fst snd after] in *.
  - by apply quic_inv_insert.
  - apply goReader_inv; [done|done|by rewrite Hs].
  - by apply register_inv.
  - unfold funnel. rewrite M_gets_bind. cbn [id].
    destruct (select pick _) as [[]|]; unfold m_st, m_out; cbn; by eapply quic_inv_quiet.
  - by apply finWrite_inv.
  - by apply markRemoteDone_inv.
  - by apply readerDone_inv.
  - by apply open_inv.
  - by apply write_inv.
  - by eapply quic_inv_quiet.
  - eapply quic_inv_group; [done|done|done..|exact (qi_readers _ _ Hi)|].
    unfold acceptLoop_exit. unM. rewrite (qi_wg _ _ Hi), Ha. lia.
  - unfold quic_Close. rewrite M_gets_bind. cbn [id].
    destruct (qc_closeOnce t); unfold m_st, m_out; cbn; by eapply quic_inv_quiet.
Qed.

Lemma newQUICMsgConn_inv isClient wto : quic_inv (newQUICMsgConn isClient wto) [].
Proof.
  split; cbn.
  - intros l st. by rewrite lookup_empty.
  - intros rid l. by rewrite lookup_empty.
  - intros l st. by rewrite lookup_empty.
  - intros l. by rewrite lookup_empty.
  - intros l m []%elem_of_nil.
  - intros l []%not_elem_of_empty.
  - by destruct isClient.
Qed.

Lemma quic_reach_inv isClient wto s :
  reach quic_step (newQUICMsgConn isClient wto, []) s -> quic_inv s.1 s.2.
Proof.
  apply (reach_inv quic_step (fun s => quic_inv s.1 s.2)); [apply newQUICMsgConn_inv|].
  intros a b. apply quic_step_inv.
Qed.

(** C13: For every interleaving of writers, readers, the accept loop and Close
    of a QUIC connection: the write half of a stream is finished at most once
    and exactly when its state says so, all frames written on one stream carry
    one request id, every table entry points to a live stream of that id whose
    two halves are not both done, and the wait group counts the running
    goroutines. *)
Theorem quic_stream_table isClient wto t o :
  reach quic_step (newQUICMsgConn isClient wto, []) (t, o) ->
  (forall l, (fins l o <= 1)%nat) /\
  (forall l m m', QWrite l m ∈ o -> QWrite l m' ∈ o -> ridOf m = ridOf m' /\ ridOf m <> None) /\
  (forall rid l, qc_streams t !! rid = Some l ->
     exists st, qc_states t !! l = Some st /\ qs_rid st = rid /\ qs_writeClosed st && qs_remoteDone st = false) /\
  (forall l st, qc_states t !! l = Some st -> fins l o = if qs_writeClosed st then 1%nat else 0%nat) /\
  qc_wg t = Z.of_nat (size (qc_readers t)) + (if qc_accepting t then 1 else 0).
Proof.
  intros Hr. apply quic_reach_inv in Hr. destruct Hr. cbn in *. split_and!.
  - intros l. rewrite qi_fins0. repeat case_match; lia.
  - intros l m m' (st & Hs & _ & ->)%qi_writes0 (st' & Hs' & _ & ->)%qi_writes0. split; congruence.
  - intros rid l (st & Hs & _ & Hrid & Hd)%qi_table0. eauto.
  - intros l st Hs. by rewrite qi_fins0, Hs.
  - done.
Qed.

(** ** The methods are such steps *)

Lemma after_bind {A B} (m : Q A) (k : A -> Q B) s :
  after (m ≫= k) s = after (k (m_res (m s.1))) (after m s).
Proof. unfold after. cbn [fst snd]. by rewrite M_bind_st, M_bind_out, app_assoc. Qed.

Lemma after_ret {A} (a : A) s : after (mret a : Q A) s = s.
Proof. destruct s. unfold after, m_st, m_out. cbn. by rewrite app_nil_r. Qed.

Lemma after_gets {A B} (f : quicMsgConn -> A) (k : A -> Q B) s : after (gets f ≫= k) s = after (k (f s.1)) s.
Proof. unfold after. by rewrite M_gets_bind. Qed.

(** The connection after the client opened a stream for request [rid]. *)
Definition opened (rid mt : Z) (t : quicMsgConn) : quicMsgConn :=
  let l := qc_next t in
  upd_qc_readers (fun s => {[ l ]} ∪ s) (upd_qc_wg (fun n => n + 1) (upd_qc_streams (insert rid l)
    (upd_qc_states (insert l (mkQS rid mt true false false false)) (upd_qc_next S t)))).

Lemma open_run rid mt t :
  qc_isClient t = true ->
  streamForWrite_open rid mt None t = (inr (qc_next t, mt), opened rid mt t, [QOpen (qc_next t); QReader (qc_next t)]).
Proof. intros Hc. unfold streamForWrite_open. rewrite M_gets_bind. cbn [id]. rewrite Hc. reflexivity. Qed.

Lemma begin_new m rid t :
  qc_done t = false -> ridOf m = Some rid -> qc_streams t !! rid = None -> qc_isClient t = true ->
  quic_WriteMessage_begin m None t =
  (inr (qc_next t, quic_msgType m), opened rid (quic_msgType m) t, [QOpen (qc_next t); QReader (qc_next t)]).
Proof.
  intros Hd Hr Hl Hc. unfold quic_WriteMessage_begin. rewrite M_gets_bind. cbn [id]. rewrite Hd, Hr.
  assert (streamForWrite rid (quic_msgType m) None t = streamForWrite_open rid (quic_msgType m) None t) as E.
  { unfold streamForWrite, streamForWrite_lookup, mbind, M_bind, gets, mret, M_ret. cbn. rewrite Hl.
    by destruct (streamForWrite_open _ _ _ _) as [[??]?]. }
  unfold mbind, M_bind. rewrite E, open_run by done. cbn. by rewrite lookup_insert_eq.
Qed.

Lemma begin_existing m rid l st t oe :
  qc_done t = false -> ridOf m = Some rid -> qc_streams t !! rid = Some l -> qc_states t !! l = Some st ->
  quic_WriteMessage_begin m oe t =
  (if qs_writeClosed st then inl None else inr (l, qs_reqType st), t, []).
Proof.
  intros Hd Hr Hl Hs. unfold quic_WriteMessage_begin. rewrite M_gets_bind. cbn [id]. rewrite Hd, Hr.
  unfold streamForWrite, streamForWrite_lookup, get_state, mbind, M_bind, gets, mret, M_ret. cbn.
  rewrite Hl, Hs. cbn. rewrite Hs. by destruct (qs_writeClosed st).
Qed.

(** A stream of the table, or just opened, is one the message may be written to. *)
Lemma begin_reach t o m oe :
  quic_inv t o ->
  let r := quic_WriteMessage_begin m oe t in
  reach quic_step (t, o) (after (quic_WriteMessage_begin m oe) (t, o)) /\
  forall l reqType, m_res r = inr (l, reqType) ->
    holds_stream (m_st r) l (fun st => qs_registered st = true /\ ridOf m = Some (qs_rid st)).
Proof.
  intros Hi r.
  assert ((m_st r, m_out r) = (t, []) /\ (forall x, m_res r <> inr x) ->
    reach quic_step (t, o) (after (quic_WriteMessage_begin m oe) (t, o)) /\
    forall l reqType, m_res r = inr (l, reqType) -> holds_stream (m_st r) l
      (fun st => qs_registered st = true /\ ridOf m = Some (qs_rid st))) as Hstop.
  { intros [[= E1 E2] Hx]. split; [|intros l rt E; by destruct (Hx (l, rt))].
    unfold after. cbn [fst snd]. fold r. rewrite E1, E2, app_nil_r. apply reach_here. }
  destruct (qc_done t) eqn:Hd.
  { apply Hstop. subst r. unfold quic_WriteMessage_begin. rewrite M_gets_bind. cbn [id]. by rewrite Hd. }
  destruct (ridOf m) as [rid|] eqn:Hr.
  2:{ apply Hstop. subst r. unfold quic_WriteMessage_begin. rewrite M_gets_bind. cbn [id]. by rewrite Hd, Hr. }
  destruct (qc_streams t !! rid) as [l|] eqn:Hl.
  { destruct (qi_table _ _ Hi _ _ Hl) as (st & Hs & Hreg & <- & _).
    subst r. unfold after. cbn [fst snd]. rewrite (begin_existing m (qs_rid st) l st t oe) by done.
    unfold m_st, m_out, m_res. cbn. rewrite app_nil_r. split; [apply reach_here|].
    destruct (qs_writeClosed st); [done|]. intros l' rt [= <- <-]. by exists st. }
  destruct (qc_isClient t) eqn:Hc, oe as [e|].
  2:{ subst r. unfold after. cbn [fst snd]. rewrite (begin_new m rid t) by done. split.
      - eapply reach_next; [apply reach_here|]. pose proof (q_open (t, o) rid (quic_msgType m) None) as Hq.
        unfold after in Hq. cbn [fst snd] in Hq. by rewrite open_run in Hq by done.
      - intros l rt [= <- <-]. eexists. cbn. by rewrite lookup_insert_eq. }
  all: apply Hstop; subst r; unfold quic_WriteMessage_begin; rewrite M_gets_bind; cbn [id]; rewrite Hd, Hr;
    unfold streamForWrite, streamForWrite_lookup, streamForWrite_open, get_state, mbind, M_bind, gets, mret, M_ret;
    cbn; rewrite Hl; cbn; rewrite Hc; done.
Qed.

(** WriteMessage, from begin to end, is a run of the step relation. *)
Lemma WriteMessage_reach t o m oe io :
  quic_inv t o -> reach quic_step (t, o) (after (quic_WriteMessage m oe io) (t, o)).
Proof.
  intros Hi. destruct (begin_reach t o m oe Hi) as [Hb Hh]. unfold quic_WriteMessage. rewrite after_bind.
  cbn [fst]. eapply reach_trans; [exact Hb|]. clear Hb.
  destruct (m_res (quic_WriteMessage_begin m oe t)) as [e|[l rt]] eqn:Eb; [rewrite after_ret; apply reach_here|].
  specialize (Hh l rt eq_refl). set (s1 := after (quic_WriteMessage_begin m oe) (t, o)).
  rewrite after_bind. eapply reach_trans; [eapply reach_next; [apply reach_here|exact (q_write s1 l m io Hh)]|].
  set (s2 := after (quic_WriteMessage_write l m io) s1).
  assert (m_st (quic_WriteMessage_write l m io s1.1) = s1.1) as Est.
  { unfold quic_WriteMessage_write, m_st, mbind, M_bind, get_state, gets, emit, mret, M_ret.
    repeat (case_match; simplify_eq; cbn); done. }
  assert (holds_stream s2.1 l (fun st => qs_registered st = true)) as Hh2.
  { destruct Hh as (st & Hs & Hreg & _). exists st. unfold s2, after. cbn [fst]. by rewrite Est. }
  destruct (m_res (quic_WriteMessage_write l m io s1.1)) as [e []]; [|rewrite after_ret; apply reach_here].
  rewrite after_bind, after_ret. unfold quic_WriteMessage_end. rewrite after_gets. cbn [id].
  destruct (finOnWrite _ _ _); [|rewrite after_ret; apply reach_here].
  eapply reach_next; [apply reach_here|]. by apply q_fin.
Qed.
End quic.

(** ** Witness *)

Section quic_witness.
#[local] Existing Instance RefValueLib.

(** A client that wrote one request and read its answer. *)
Definition demo_quic_ev : list q_ev :=
  m_out (quic_WriteMessage NewDialect (NewFunctionRequest NewDialect 7 "f" None) None None (newQUICMsgConn true 10)).
Definition demo_quic : quicMsgConn :=
  m_st (quic_WriteMessage NewDialect (NewFunctionRequest NewDialect 7 "f" None) None None (newQUICMsgConn true 10)).

Lemma quic_stream_table_witness :
  length demo_quic_ev = 4%nat /\
  qc_wg demo_quic = 1 /\ (fins 0 demo_quic_ev <= 1)%nat.
Proof.
  assert (reach (quic_step NewDialect) (newQUICMsgConn true 10, []) (demo_quic, demo_quic_ev)) as Hr.
  { pose proof (WriteMessage_reach NewDialect (newQUICMsgConn true 10) [] (NewFunctionRequest NewDialect 7 "f" None)
      None None (newQUICMsgConn_inv NewDialect true 10)) as Hw.
    unfold after in Hw. cbn [fst snd app] in Hw. exact Hw. }
  destruct (quic_stream_table NewDialect true 10 demo_quic demo_quic_ev Hr) as (H1 & _ & _ & _ & H5).
  clear Hr. split; [vm_compute; reflexivity|]. split; [vm_compute; reflexivity|exact (H1 0%nat)].
Defined.
End quic_witness.
