(* ===== verification/QuicStreams.v ===== *)
(** * The life of a QUIC stream

    A request over quic/transport.go from its first frame to the removal of its
    stream on both sides, and the exchanges for which the transport's idea of the
    last message does not fit the protocol. *)

From S2P Require Import Prelude Value RefValue Protocol Framing Channels Quic.

Section streams.
Context `{ValueLib} (d : Dialect).
Abbreviation Q := (M quicMsgConn q_ev).

(** ** The operations on a stream whose state is known *)

Definition finished (l : nat) (st : quicStreamState) (t : quicMsgConn) : quicMsgConn :=
  (if qs_remoteDone st then upd_qc_streams (delete (qs_rid st)) else id)
    (upd_qc_states (insert l (upd_qs_writeDone st)) t).

Definition remote_finished (l : nat) (st : quicStreamState) (t : quicMsgConn) : quicMsgConn :=
  (if qs_localDone st then upd_qc_streams (delete (qs_rid st)) else id)
    (upd_qc_states (insert l (upd_qs_remoteDone st)) t).

Lemma finWrite_run l st t :
  qc_states t !! l = Some st -> qs_writeClosed st = false -> finWrite l t = (tt, finished l st t, [QFin l]).
Proof.
  intros Hs Hw. unfold finWrite, get_state, finished. rewrite M_gets_bind, Hs, Hw, M_modify_bind.
  by destruct (qs_remoteDone st).
Qed.

Lemma markRemoteDone_run l st t :
  qc_states t !! l = Some st -> markRemoteDone l t = (tt, remote_finished l st t, []).
Proof.
  intros Hs. unfold markRemoteDone, get_state, remote_finished. rewrite M_gets_bind, Hs, M_modify_bind.
  by destruct (qs_localDone st).
Qed.

Definition deadline_ev (l : nat) (t : quicMsgConn) : list q_ev := if 0 <? qc_writeTO t then [QDeadline l] else [].

Lemma write_run l m t :
  Pack m <> None -> quic_WriteMessage_write l m None t = ((None, true), t, deadline_ev l t ++ [QWrite l m]).
Proof.
  intros Hp. unfold quic_WriteMessage_write, quic_writeFrame, deadline_ev. rewrite M_gets_bind. cbn [id].
  destruct (Pack m); [|done]. by destruct (0 <? qc_writeTO t).
Qed.

(** Writing to an open stream of the table. *)
Lemma WriteMessage_existing m rid l st t :
  qc_done t = false -> ridOf d m = Some rid -> qc_streams t !! rid = Some l -> qc_states t !! l = Some st ->
  qs_writeClosed st = false -> Pack m <> None ->
  let fin := finOnWrite (qc_isClient t) (quic_msgType d m) (qs_reqType st) in
  quic_WriteMessage d m None None t =
  (None, if fin then finished l st t else t, deadline_ev l t ++ QWrite l m :: if fin then [QFin l] else []).
Proof.
  intros Hd Hr Hl Hs Hw Hp fin. unfold quic_WriteMessage, mbind, M_bind.
  rewrite (begin_existing d m rid l st t) by done. rewrite Hw, write_run by done. cbn -[deadline_ev].
  unfold quic_WriteMessage_end. rewrite M_gets_bind. cbn [id]. fold fin.
  destruct fin; [rewrite (finWrite_run l st) by done|]; cbn; by rewrite <- ?app_assoc, ?app_nil_r.
Qed.

(** The first message of a request, on the client. *)
Lemma WriteMessage_new m rid t :
  qc_done t = false -> ridOf d m = Some rid -> qc_streams t !! rid = None -> qc_isClient t = true -> Pack m <> None ->
  let l := qc_next t in
  let t1 := opened rid (quic_msgType d m) t in
  forall fin, fin = finOnWrite true (quic_msgType d m) (quic_msgType d m) ->
  quic_WriteMessage d m None None t =
  (None, if fin then finished l (mkQS rid (quic_msgType d m) true false false false) t1 else t1,
   [QOpen l; QReader l] ++ deadline_ev l t ++ QWrite l m :: if fin then [QFin l] else []).
Proof.
  intros Hd Hr Hl Hc Hp l t1 fin Hfin. unfold quic_WriteMessage, mbind, M_bind.
  rewrite (begin_new d m rid t) by done. rewrite write_run by done. fold t1. fold l.
  change (deadline_ev (qc_next t) t1) with (deadline_ev l t). cbn -[deadline_ev t1].
  unfold quic_WriteMessage_end. rewrite M_gets_bind. cbn [id]. replace (qc_isClient t1) with true by done. rewrite <- Hfin.
  assert (qc_states t1 !! l = Some (mkQS rid (quic_msgType d m) true false false false)) as Hs.
  { cbn. by rewrite lookup_insert_eq. }
  destruct fin; [rewrite (finWrite_run l _ t1 Hs) by done|];
    cbn -[deadline_ev t1]; by rewrite <- ?app_assoc, ?app_nil_r.
Qed.

(** A frame read on a registered stream. *)
Lemma reader_frame l st m t :
  qc_done t = false -> qc_states t !! l = Some st -> qs_registered st = true -> qs_writeClosed st = false ->
  let fin := qc_isClient t && finOnRead (quic_msgType d m) (qs_reqType st) in
  streamReader_iter d l (inl m) true 0 t =
  (Some true, if fin then finished l st t else t, QIncoming m :: if fin then [QFin l] else []).
Proof.
  intros Hd Hs Hreg Hw fin. unfold streamReader_iter, register, funnel, get_state.
  unfold mbind, M_bind, gets, mret, M_ret. cbn. rewrite Hs, Hreg, Hd. change (select 0 [(true, true); (false, false)]) with (Some true). cbn. rewrite Hs. fold fin.
  destruct fin; [rewrite (finWrite_run l st) by done|]; done.
Qed.

(** The end of a stream. *)
Lemma reader_eof l st e t :
  qc_states t !! l = Some st ->
  streamReader_iter d l (inr e) true 0 t =
  (Some false, upd_qc_wg (fun n => n - 1) (upd_qc_readers (fun s => s ∖ {[ l ]}) (remote_finished l st t)), []).
Proof.
  intros Hs. unfold streamReader_iter, mbind, M_bind. by rewrite (markRemoteDone_run l st t Hs).
Qed.

(** ** A request and its replies *)

Definition writes (ms : list VMap) : Q unit := seqM (map (fun m => quic_WriteMessage d m None None ≫= fun _ => mret tt) ms).

Lemma writes_cons m ms t r t1 o1 :
  quic_WriteMessage d m None None t = (r, t1, o1) ->
  m_st (writes (m :: ms) t) = m_st (writes ms t1) /\ m_out (writes (m :: ms) t) = o1 ++ m_out (writes ms t1).
Proof.
  intros E. unfold writes. cbn [map seqM].
  assert ((quic_WriteMessage d m None None ≫= fun _ => mret tt) t = (tt, t1, o1)) as E'.
  { rewrite (M_run_bind _ _ _ _ _ _ E). unfold m_res, m_st, m_out. cbn. by rewrite app_nil_r. }
  by rewrite (M_run_bind _ _ _ _ _ _ E'), m_st_eq, m_out_eq.
Qed.

Definition incoming (o : list q_ev) : list VMap :=
  omap (fun e => match e with QIncoming m => Some m | _ => None end) o.
Definition written (l : nat) (o : list q_ev) : list VMap :=
  omap (fun e => match e with QWrite l' m => if decide (l' = l) then Some m else None | _ => None end) o.

Lemma incoming_app o1 o2 : incoming (o1 ++ o2) = incoming o1 ++ incoming o2.
Proof. apply omap_app. Qed.
Lemma written_app l o1 o2 : written l (o1 ++ o2) = written l o1 ++ written l o2.
Proof. apply omap_app. Qed.

(** What a side does on one stream while neither half is finished: the writes of
    its callers and the iterations of its reader, in any order. *)
Inductive stream_act := SWrite (m : VMap) | SRead (m : VMap).
Definition act_writes : list stream_act -> list VMap := omap (fun a => match a with SWrite m => Some m | SRead _ => None end).
Definition act_reads : list stream_act -> list VMap := omap (fun a => match a with SRead m => Some m | SWrite _ => None end).
Definition do_act (l : nat) (a : stream_act) : Q unit :=
  match a with
  | SWrite m => quic_WriteMessage d m None None ≫= fun _ => mret tt
  | SRead m => streamReader_iter d l (inl m) true 0 ≫= fun _ => mret tt
  end.
Definition do_acts (l : nat) (acts : list stream_act) : Q unit := seqM (map (do_act l) acts).

Lemma ignore_result {A} (m : Q A) t a t1 o1 : m t = (a, t1, o1) -> (m ≫= fun _ => mret tt) t = (tt, t1, o1).
Proof. intros E. rewrite (M_run_bind _ _ _ _ _ _ E). unfold m_res, m_st, m_out. cbn. by rewrite app_nil_r. Qed.

(** Frames that finish neither half leave the connection as it is. *)
Lemma acts_between rid l st acts t :
  qc_done t = false -> qc_streams t !! rid = Some l -> qc_states t !! l = Some st ->
  qs_writeClosed st = false -> qs_registered st = true ->
  Forall (fun m => ridOf d m = Some rid /\ Pack m <> None /\
                   finOnWrite (qc_isClient t) (quic_msgType d m) (qs_reqType st) = false) (act_writes acts) ->
  Forall (fun m => qc_isClient t && finOnRead (quic_msgType d m) (qs_reqType st) = false) (act_reads acts) ->
  let r := do_acts l acts t in
  m_st r = t /\ written l (m_out r) = act_writes acts /\ fins l (m_out r) = 0%nat /\ incoming (m_out r) = act_reads acts.
Proof.
  intros Hd Hl Hs Hw Hreg. induction acts as [|a acts IH]; intros Hws Hrs; [done|]. unfold do_acts in *. cbn [map seqM].
  assert (exists o1, do_act l a t = (tt, t, o1) /\ fins l o1 = 0%nat /\ written l o1 = act_writes [a] /\ incoming o1 = act_reads [a]
    /\ Forall (fun m => ridOf d m = Some rid /\ Pack m <> None /\
         finOnWrite (qc_isClient t) (quic_msgType d m) (qs_reqType st) = false) (act_writes acts)
    /\ Forall (fun m => qc_isClient t && finOnRead (quic_msgType d m) (qs_reqType st) = false) (act_reads acts))
    as (o1 & E & E1 & E2 & E3 & Hws' & Hrs').
  { destruct a as [m|m]; cbn in Hws, Hrs.
    - inversion Hws as [|m' ms' (Hr & Hp & Hf) Hms']; subst.
      pose proof (WriteMessage_existing m rid l st t Hd Hr Hl Hs Hw Hp) as E. rewrite Hf in E.
      eexists. split; [by apply ignore_result in E|]. unfold deadline_ev.
      destruct (0 <? qc_writeTO t); split_and!; try done; unfold written; cbn; by rewrite decide_True.
    - inversion Hrs as [|m' ms' Hf Hms']; subst.
      pose proof (reader_frame l st m t Hd Hs Hreg Hw) as E. rewrite Hf in E.
      eexists. split; [by apply ignore_result in E|]. done. }
  cbn zeta. rewrite (M_run_bind _ _ _ _ _ _ E), m_st_eq, m_out_eq. destruct (IH Hws' Hrs') as (I1 & I2 & I3 & I4).
  rewrite written_app, incoming_app, fins_app, I2, I3, I4, E1, E2, E3. split_and!; try done; by destruct a.
Qed.

(** Frames the server reads once it has finished its half. *)
Lemma server_reads_late l st ms rest t :
  qc_done t = false -> qc_states t !! l = Some st -> qs_registered st = true -> qc_isClient t = false ->
  let r := streamReader d l (map inl ms ++ rest) t in
  let r0 := streamReader d l rest t in
  m_st r = m_st r0 /\ incoming (m_out r) = ms ++ incoming (m_out r0) /\ fins l (m_out r) = fins l (m_out r0).
Proof.
  intros Hd Hs Hreg Hc. induction ms as [|m ms (IH1 & IH2 & IH3)]; [done|]. cbn [map app streamReader].
  assert (streamReader_iter d l (inl m) true 0 t = (Some true, t, [QIncoming m])) as E.
  { unfold streamReader_iter, register, funnel, get_state, mbind, M_bind, gets, mret, M_ret. cbn.
    rewrite Hs, Hreg, Hd. change (select 0 [(true, true); (false, false)]) with (Some true). cbn. by rewrite Hs, Hc. }
  rewrite M_bind_st, M_bind_out, E, m_st_eq, m_out_eq, m_res_eq. cbn zeta.
  rewrite incoming_app, IH2, fins_app, IH3. done.
Qed.

(** The server's side of a new stream: the first one is read in the accept loop
    itself (it carries the handshake), the others by their readers; either way the
    request is registered under its id and handed on. *)
Definition accept_request (m : VMap) : Q unit :=
  t ← gets id;
  if decide (qc_next t = 0%nat) then acceptFirst d true (inl m) true 0 ≫= fun _ => mret tt
  else acceptNext true ≫= fun _ => streamReader d (qc_next t) [inl m].

Lemma accept_request_run m rid t :
  qc_done t = false -> qc_isClient t = false -> ridOf d m = Some rid ->
  let l := qc_next t in
  let st := mkQS rid (quic_msgType d m) true false false false in
  let r := accept_request m t in
  qc_streams (m_st r) = <[rid := l]> (qc_streams t) /\ qc_states (m_st r) = <[l := st]> (qc_states t) /\
  qc_done (m_st r) = false /\ qc_isClient (m_st r) = false /\
  incoming (m_out r) = [m] /\ fins l (m_out r) = 0%nat /\ written l (m_out r) = [].
Proof.
  intros Hd Hc Hr l st r. subst r. unfold accept_request. rewrite M_gets_bind. cbn [id].
  destruct (decide _); unfold acceptFirst, acceptNext, newStream, goReader, streamReader, streamReader_iter, register,
    funnel, get_state, mbind, M_bind, gets, modify, emit, mret, M_ret, m_st, m_out;
  cbn -[insert lookup]; fold l; rewrite lookup_insert_eq; cbn -[insert lookup]; rewrite Hr; cbn -[insert lookup];
  rewrite Hd; change (select 0 [(true, true); (false, false)]) with (Some true); cbn -[insert lookup].
  - rewrite insert_insert_eq. unfold st, upd_qs_register. done.
  - rewrite lookup_insert_eq, Hc. cbn -[insert lookup]. rewrite insert_insert_eq. unfold st, upd_qs_register. done.
Qed.

(** The last reply and the end of the stream, on the client. *)
Lemma reads_last l st m e t :
  qc_done t = false -> qc_states t !! l = Some st -> qs_registered st = true -> qs_writeClosed st = false ->
  qc_isClient t = true -> finOnRead (quic_msgType d m) (qs_reqType st) = true -> qs_remoteDone st = false ->
  let r := streamReader d l [inl m; inr e] t in
  qc_streams (m_st r) = delete (qs_rid st) (qc_streams t) /\ incoming (m_out r) = [m] /\ fins l (m_out r) = 1%nat.
Proof.
  intros Hd Hs Hreg Hw Hc Hf Hrd r. subst r. cbn [streamReader].
  pose proof (reader_frame l st m t Hd Hs Hreg Hw) as E. rewrite Hf, Hc in E. cbn [andb] in E.
  rewrite M_bind_st, M_bind_out, E, m_st_eq, m_out_eq, m_res_eq.
  assert (qc_states (finished l st t) !! l = Some (upd_qs_writeDone st)) as Hs'.
  { unfold finished. rewrite Hrd. cbn. by rewrite lookup_insert_eq. }
  rewrite M_bind_st, M_bind_out, (reader_eof l _ e _ Hs'), m_st_eq, m_out_eq, m_res_eq.
  unfold remote_finished, finished. rewrite Hrd. cbn [qs_localDone upd_qs_writeDone id].
  split_and!; [done|done|]. unfold fins. cbn. by rewrite bool_decide_true.
Qed.

(** One request over two connections.  The client writes it; until the last reply
    it writes further frames of the request and reads replies, in the order
    [cacts]; it reads the last reply and the end of the stream.  The server accepts
    the stream and reads the request, writes replies and reads the client's further
    frames, in the order [sacts], writes the last reply, and reads what was still
    under way ([late]) and the end of the client's half.  (The two connections share
    nothing, so the interleaving of the two sides does not matter.) *)
Definition exchange (c v : quicMsgConn) (req : VMap) (cacts sacts : list stream_act) (last : VMap) (late : list VMap) :=
  let c1 := quic_WriteMessage d req None None c in
  let c2 := do_acts (qc_next c) cacts (m_st c1) in
  let c3 := streamReader d (qc_next c) [inl last; inr EOF] (m_st c2) in
  let v1 := accept_request req v in
  let v2 := do_acts (qc_next v) sacts (m_st v1) in
  let v3 := quic_WriteMessage d last None None (m_st v2) in
  let v4 := streamReader d (qc_next v) (map inl late ++ [inr EOF]) (m_st v3) in
  ((m_st c3, m_out c1 ++ m_out c2 ++ m_out c3), (m_st v4, m_out v1 ++ m_out v2 ++ m_out v3 ++ m_out v4)).

(** Each direction of the stream is a FIFO: what a side reads before the last
    reply is what the other wrote before it. *)
Definition stream_fifo (cacts sacts : list stream_act) (late : list VMap) : Prop :=
  act_reads cacts = act_writes sacts /\ act_writes cacts = act_reads sacts ++ late.

(** The frames of a request of type [rt]: [last] is the only one after which each
    side considers its half finished. *)
Definition complete_replies (rt rid : Z) (further values : list VMap) (last : VMap) : Prop :=
  Forall (fun m => ridOf d m = Some rid /\ Pack m <> None /\ finOnWrite true (quic_msgType d m) rt = false) further /\
  Forall (fun m => ridOf d m = Some rid /\ Pack m <> None /\
    finOnWrite false (quic_msgType d m) rt = false /\ finOnRead (quic_msgType d m) rt = false) values /\
  ridOf d last = Some rid /\ Pack last <> None /\
  finOnWrite false (quic_msgType d last) rt = true /\ finOnRead (quic_msgType d last) rt = true.

(** A message of request [rid] with its type. *)
Definition message_of (m : VMap) (mt rid : Z) : Prop :=
  quic_msgType d m = mt /\ ridOf d m = Some rid /\ Pack m <> None.

(** The frames of the protocol for a request whose stream the last reply ends: a
    result or an error; the client's credits against ready, values and the end; the
    handshake's. *)
Inductive request_frames (rid : Z) : Z -> list VMap -> list VMap -> VMap -> Prop :=
| unary_frames last :
    message_of last FunctionResponse rid \/ message_of last ErrorResponse rid ->
    request_frames rid FunctionRequest [] [] last
| stream_frames credits values last :
    Forall (fun m => message_of m StreamCredit rid) credits ->
    Forall (fun m => message_of m StreamReady rid \/ message_of m StreamValue rid) values ->
    message_of last StreamEnd rid \/ message_of last ErrorResponse rid ->
    request_frames rid GetStreamRequest credits values last
| handshake_frames last :
    message_of last HandshakeResponse rid -> request_frames rid HandshakeRequest [] [] last.

Lemma frames_complete rt rid further values last :
  request_frames rid rt further values last -> complete_replies rt rid further values last.
Proof.
  unfold complete_replies, message_of. intros [m Hm|cs vs m Hcs Hvs Hm|m Hm].
  - do 2 (split; [constructor|]). destruct Hm as [(-> & ? & ?)|(-> & ? & ?)]; done.
  - split; [|split].
    + eapply Forall_impl; [exact Hcs|]. cbn. intros x (-> & ? & ?); done.
    + eapply Forall_impl; [exact Hvs|]. cbn. intros x [(-> & ? & ?)|(-> & ? & ?)]; done.
    + destruct Hm as [(-> & ? & ?)|(-> & ? & ?)]; done.
  - do 2 (split; [constructor|]). destruct Hm as (-> & ? & ?); done.
Qed.

(** Readers write nothing. *)
Lemma iter_written l l' read recv pick t : written l' (m_out (streamReader_iter d l read recv pick t)) = [].
Proof.
  unfold streamReader_iter, register, funnel, markRemoteDone, readerDone, finWrite, get_state, mbind, M_bind,
    gets, modify, emit, mret, M_ret, m_out.
  destruct read; repeat (case_match; simplify_eq; cbn); done.
Qed.

Lemma reader_written l l' reads t : written l' (m_out (streamReader d l reads t)) = [].
Proof.
  revert t. induction reads as [|r reads IH]; intros t; [done|]. cbn [streamReader].
  rewrite M_bind_out, written_app, iter_written. destruct (m_res _) as [[]|]; [apply IH|done..].
Qed.

Lemma client_half c req rid cacts last :
  qc_isClient c = true -> qc_done c = false ->
  ridOf d req = Some rid -> Pack req <> None -> qc_streams c !! rid = None ->
  finOnWrite true (quic_msgType d req) (quic_msgType d req) = false ->
  complete_replies (quic_msgType d req) rid (act_writes cacts) (act_reads cacts) last ->
  let c1 := quic_WriteMessage d req None None c in
  let c2 := do_acts (qc_next c) cacts (m_st c1) in
  let c3 := streamReader d (qc_next c) [inl last; inr EOF] (m_st c2) in
  let o := m_out c1 ++ m_out c2 ++ m_out c3 in
  qc_streams (m_st c3) = qc_streams c /\ incoming o = act_reads cacts ++ [last] /\
  written (qc_next c) o = req :: act_writes cacts /\ fins (qc_next c) o = 1%nat.
Proof.
  intros Hc Hd Hr Hp Hl Hf (Hfu & Hv & _ & _ & _ & Hlast) c1 c2 c3 o. subst o c3 c2 c1.
  rewrite (WriteMessage_new req rid c Hd Hr Hl Hc Hp false) by done.
  rewrite m_st_eq, m_out_eq. set (t1 := opened rid (quic_msgType d req) c). set (o1 := [QOpen _; _] ++ _).
  set (st := mkQS rid (quic_msgType d req) true false false false).
  assert (qc_states t1 !! qc_next c = Some st) as Hs by (cbn; by rewrite lookup_insert_eq).
  destruct (acts_between rid (qc_next c) st cacts t1) as (E1 & E2 & E3 & E4); try done.
  { cbn. by rewrite lookup_insert_eq. }
  { by replace (qc_isClient t1) with true by done. }
  { eapply Forall_impl; [exact Hv|]. cbn. intros m (_ & _ & _ & ->). by rewrite andb_false_r. }
  rewrite E1. destruct (reads_last (qc_next c) st last EOF t1) as (F1 & F2 & F3); try done.
  rewrite F1, !incoming_app, E4, F2, !fins_app, E3, F3, !written_app, E2, reader_written, app_nil_r.
  split_and!.
  - cbn. rewrite delete_insert_id; done.
  - unfold o1, deadline_ev. by destruct (0 <? qc_writeTO c).
  - unfold o1, deadline_ev. destruct (0 <? qc_writeTO c); cbn; by rewrite decide_True.
  - unfold o1, deadline_ev. by destruct (0 <? qc_writeTO c).
Qed.

Lemma server_half v req rid further sacts late last :
  qc_isClient v = false -> qc_done v = false -> ridOf d req = Some rid -> qc_streams v !! rid = None ->
  complete_replies (quic_msgType d req) rid further (act_writes sacts) last ->
  let v1 := accept_request req v in
  let v2 := do_acts (qc_next v) sacts (m_st v1) in
  let v3 := quic_WriteMessage d last None None (m_st v2) in
  let v4 := streamReader d (qc_next v) (map inl late ++ [inr EOF]) (m_st v3) in
  let o := m_out v1 ++ m_out v2 ++ m_out v3 ++ m_out v4 in
  qc_streams (m_st v4) = qc_streams v /\ incoming o = req :: act_reads sacts ++ late /\
  written (qc_next v) o = act_writes sacts ++ [last] /\ fins (qc_next v) o = 1%nat.
Proof.
  intros Hc Hd Hr Hl (_ & Hv & Hrl & Hpl & Hwl & _) v1 v2 v3 v4 o. subst o v4 v3 v2.
  destruct (accept_request_run req rid v Hd Hc Hr) as (A1 & A2 & A3 & A4 & A5 & A6 & A7).
  fold v1 in A1, A2, A3, A4, A5, A6, A7.
  set (st := mkQS rid (quic_msgType d req) true false false false) in A2.
  assert (qc_states (m_st v1) !! qc_next v = Some st) as Hs by (rewrite A2; apply lookup_insert_eq).
  assert (qc_streams (m_st v1) !! rid = Some (qc_next v)) as Ht by (rewrite A1; apply lookup_insert_eq).
  destruct (acts_between rid (qc_next v) st sacts (m_st v1)) as (B1 & B2 & B3 & B4); try done.
  { rewrite A4. eapply Forall_impl; [exact Hv|]. cbn. intuition. }
  { rewrite A4. by apply Forall_true. }
  rewrite B1, (WriteMessage_existing last rid (qc_next v) st (m_st v1)) by done.
  rewrite A4. cbn [qs_reqType st]. rewrite Hwl, m_st_eq, m_out_eq.
  set (t2 := finished (qc_next v) st (m_st v1)).
  assert (qc_states t2 !! qc_next v = Some (upd_qs_writeDone st)) as Hs2 by (cbn; apply lookup_insert_eq).
  destruct (server_reads_late (qc_next v) _ late [inr EOF] t2 A3 Hs2 eq_refl A4) as (D1 & D2 & D3).
  rewrite D1, !written_app, !incoming_app, !fins_app, reader_written, D2, D3. cbn [streamReader].
  rewrite M_bind_st, M_bind_out, (reader_eof (qc_next v) _ EOF t2 Hs2), m_st_eq, m_out_eq, m_res_eq.
  rewrite A5, A6, A7, B2, B3, B4. unfold deadline_ev.
  split_and!.
  - transitivity (delete rid (qc_streams (m_st v1))); [done|]. rewrite A1. by apply delete_insert_id.
  - destruct (0 <? qc_writeTO (m_st v1)); cbn; by rewrite app_nil_r.
  - destruct (0 <? qc_writeTO (m_st v1)); cbn; by rewrite decide_True.
  - unfold fins. destruct (0 <? qc_writeTO (m_st v1)); cbn; by rewrite bool_decide_true.
Qed.

(** The life of a request's stream. *)
(** C14: A handshake (read by the accept loop itself when it is the first
    stream of the connection), a unary call, or a get stream with the credits
    its client sends, over a QUIC connection, with each side writing and
    reading in any order the stream allows and every credit sent before the
    last reply is read: the request, the credits and every reply up to the
    last arrive in order on one stream, each side finishes its half exactly
    once, and both stream tables are as before, so finished requests leave no
    stream behind. A credit sent after the last reply was read is the case of
    the finding on late credits. *)
Theorem quic_request_frees_stream c v req rid cacts sacts last late :
  qc_isClient c = true -> qc_isClient v = false ->
  qc_done c = false -> qc_done v = false ->
  ridOf d req = Some rid -> Pack req <> None -> qc_streams c !! rid = None -> qc_streams v !! rid = None ->
  request_frames rid (quic_msgType d req) (act_writes cacts) (act_writes sacts) last ->
  stream_fifo cacts sacts late ->
  let '((c', oc'), (v', ov')) := exchange c v req cacts sacts last late in
  qc_streams c' = qc_streams c /\ qc_streams v' = qc_streams v /\
  incoming ov' = req :: act_writes cacts /\ incoming oc' = act_writes sacts ++ [last] /\
  written (qc_next c) oc' = req :: act_writes cacts /\ written (qc_next v) ov' = act_writes sacts ++ [last] /\
  fins (qc_next c) oc' = 1%nat /\ fins (qc_next v) ov' = 1%nat.
Proof.
  intros Hc Hv Hdc Hdv Hr Hp Hlc Hlv Hrep [Hf1 Hf2]. unfold exchange.
  assert (finOnWrite true (quic_msgType d req) (quic_msgType d req) = false) as Hf by (by destruct Hrep).
  apply frames_complete in Hrep.
  destruct (client_half c req rid cacts last) as (C1 & C2 & C3 & C4); try done; [by rewrite Hf1|].
  destruct (server_half v req rid (act_writes cacts) sacts late last) as (V1 & V2 & V3 & V4); try done.
  split_and!; try done; [by rewrite V2, Hf2|by rewrite C2, Hf1].
Qed.

(** ** Where the transport's last message is not the protocol's *)

(** The server of a put stream sends credit after StreamReady; the transport has
    finished its half with StreamReady and drops every later frame, reporting
    success.  The client then has the initial window and never more. *)
Theorem put_stream_credit_lost v l st rid ready credits :
  qc_isClient v = false -> qc_done v = false -> qc_streams v !! rid = Some l -> qc_states v !! l = Some st ->
  qs_reqType st = PutStreamRequest -> qs_rid st = rid -> qs_writeClosed st = false -> qs_remoteDone st = false ->
  message_of ready StreamReady rid -> Forall (fun m => message_of m StreamCredit rid) credits ->
  let r := writes (ready :: credits) v in
  written l (m_out r) = [ready] /\
  Forall (fun m => m_res (quic_WriteMessage d m None None (m_st r)) = None) credits.
Proof.
  intros Hc Hd Hl Hs Hrt Hrid Hw Hrd (Hmt & Hr & Hp) Hcr.
  set (v1 := finished l st v).
  assert (qc_streams v1 !! rid = Some l /\ qc_states v1 !! l = Some (upd_qs_writeDone st) /\ qc_done v1 = false)
    as (Hl1 & Hs1 & Hd1).
  { unfold v1, finished. rewrite Hrd. cbn. by rewrite lookup_insert_eq. }
  assert (forall m, message_of m StreamCredit rid -> quic_WriteMessage d m None None v1 = (None, v1, [])) as Hdrop.
  { intros m (_ & Hrm & _). unfold quic_WriteMessage, mbind, M_bind.
    rewrite (begin_existing d m rid l (upd_qs_writeDone st) v1) by done. done. }
  assert (m_st (writes credits v1) = v1 /\ written l (m_out (writes credits v1)) = []) as [E1 E2].
  { clear -Hcr Hdrop. induction Hcr as [|m ms Hm _ [IH1 IH2]]; [done|].
    by destruct (writes_cons m ms _ _ _ _ (Hdrop m Hm)) as [-> ->]. }
  pose proof (WriteMessage_existing ready rid l st v Hd Hr Hl Hs Hw Hp) as E.
  rewrite Hc, Hmt, Hrt in E. cbn -[deadline_ev] in E.
  intros r. subst r. destruct (writes_cons ready credits _ _ _ _ E) as [-> ->]. fold v1. rewrite E1. split.
  - rewrite !written_app, E2. unfold deadline_ev. destruct (0 <? qc_writeTO v); cbn; by rewrite decide_True.
  - eapply Forall_impl; [exact Hcr|]. intros m Hm. by rewrite (Hdrop m Hm).
Qed.

(** A late message for a request that is done opens a new stream for it, which
    the server registers and nobody ever finishes. *)
Theorem late_cancel_leaks c v rid m :
  qc_isClient c = true -> qc_isClient v = false -> qc_done c = false -> qc_done v = false ->
  qc_streams c !! rid = None -> message_of m CancelRequest rid ->
  let c1 := quic_WriteMessage d m None None c in
  let v1 := (acceptNext true ≫= fun _ => streamReader d (qc_next v) [inl m; inr EOF]) v in
  m_res c1 = None /\ qc_streams (m_st c1) !! rid = Some (qc_next c) /\
  qc_streams (m_st v1) !! rid = Some (qc_next v) /\
  holds_stream (m_st v1) (qc_next v) (fun st => qs_remoteDone st = true /\ qs_writeClosed st = false).
Proof.
  intros Hc Hv Hdc Hdv Hl (Hmt & Hr & Hp) c1 v1. subst c1.
  rewrite (WriteMessage_new m rid c Hdc Hr Hl Hc Hp true) by (by rewrite Hmt). rewrite m_res_eq, m_st_eq.
  split; [done|]. split; [cbn; by rewrite lookup_insert_eq|].
  subst v1. unfold acceptNext, newStream, goReader, streamReader, streamReader_iter, register, markRemoteDone,
    readerDone, funnel, get_state, mbind, M_bind, gets, modify, emit, mret, M_ret, m_st, holds_stream.
  cbn -[insert lookup]. rewrite lookup_insert_eq. cbn -[insert lookup]. rewrite Hr. cbn -[insert lookup].
  rewrite Hdv. change (select 0 [(true, true); (false, false)]) with (Some true). cbn -[insert lookup].
  rewrite lookup_insert_eq, Hv. cbn -[insert lookup]. rewrite lookup_insert_eq. cbn -[insert lookup].
  rewrite !lookup_insert_eq. split; [done|]. eexists. split; [done|]. done.
Qed.

(** So does a credit that the client's consumer causes after the end of its stream
    was read; here not even the client's half is finished. *)
Theorem late_credit_leaks c v rid m :
  qc_isClient c = true -> qc_isClient v = false -> qc_done c = false -> qc_done v = false ->
  qc_streams c !! rid = None -> message_of m StreamCredit rid ->
  let c1 := quic_WriteMessage d m None None c in
  let v1 := accept_request m v in
  m_res c1 = None /\ qc_streams (m_st c1) !! rid = Some (qc_next c) /\
  holds_stream (m_st c1) (qc_next c) (fun st => qs_writeClosed st = false) /\
  qc_streams (m_st v1) !! rid = Some (qc_next v).
Proof.
  intros Hc Hv Hdc Hdv Hl (Hmt & Hr & Hp) c1 v1. subst c1.
  rewrite (WriteMessage_new m rid c Hdc Hr Hl Hc Hp false) by (by rewrite Hmt). rewrite m_res_eq, m_st_eq.
  split; [done|]. split; [cbn; by rewrite lookup_insert_eq|].
  split; [eexists; split; [cbn; apply lookup_insert_eq|done]|].
  destruct (accept_request_run m rid v Hdv Hv Hr) as (A1 & _). subst v1. rewrite A1. apply lookup_insert_eq.
Qed.

(** The server can open no stream, so a server-initiated request (whose id is
    negative and not in the table) is refused. *)
Theorem reverse_request_refused v m rid oe io :
  qc_isClient v = false -> qc_done v = false -> ridOf d m = Some rid -> qc_streams v !! rid = None ->
  quic_WriteMessage d m oe io v =
  (Some (QErr (ErrPlain ("quic: no stream for response to request " +:+ pretty rid))), v, []).
Proof.
  intros Hc Hd Hr Hl. unfold quic_WriteMessage, quic_WriteMessage_begin, streamForWrite, streamForWrite_lookup,
    streamForWrite_open, mbind, M_bind, gets, mret, M_ret. cbn. rewrite Hd, Hr. cbn. rewrite Hl. cbn. by rewrite Hc.
Qed.
End streams.

(** ** Witnesses *)

Section streams_witness.
#[local] Existing Instance RefValueLib.

Definition demo_q_client : quicMsgConn := newQUICMsgConn true 10.
Definition demo_q_server : quicMsgConn := newQUICMsgConn false 10.

Ltac demo_message := split; [vm_compute; reflexivity|]; split; [vm_compute; reflexivity|vm_compute; discriminate].

Definition demo_q_get : VMap := NewStreamRequest NewDialect GetStreamRequest 7 "numbers" None.
Definition demo_q_credit (n : Z) : VMap := NewStreamCredit NewDialect (Long 7) n.
Definition demo_q_value (n : Z) : VMap := NewStreamValue NewDialect (Long 7) (Some (Long n)).
Definition demo_q_end : VMap := NewStreamEnd NewDialect (Long 7) None.

(** The client's initial credit, two values and a credit for the first of them,
    which the server reads after it has sent the end. *)
Definition demo_q_cacts : list stream_act := [SWrite (demo_q_credit 2); SRead (demo_q_value 1); SWrite (demo_q_credit 1); SRead (demo_q_value 2)].
Definition demo_q_sacts : list stream_act := [SRead (demo_q_credit 2); SWrite (demo_q_value 1); SWrite (demo_q_value 2)].

Lemma demo_q_frames :
  request_frames NewDialect 7 (quic_msgType NewDialect demo_q_get) (act_writes demo_q_cacts) (act_writes demo_q_sacts) demo_q_end.
Proof.
  replace (quic_msgType NewDialect demo_q_get) with GetStreamRequest by (vm_compute; reflexivity).
  constructor.
  - do 2 (constructor; [demo_message|]). constructor.
  - do 2 (constructor; [right; demo_message|]). constructor.
  - left. demo_message.
Qed.

Lemma quic_request_frees_stream_witness :
  let '((c', oc'), (v', ov')) := exchange NewDialect demo_q_client demo_q_server demo_q_get demo_q_cacts demo_q_sacts demo_q_end [demo_q_credit 1] in
  qc_streams c' = ∅ /\ qc_streams v' = ∅ /\ incoming ov' = [demo_q_get; demo_q_credit 2; demo_q_credit 1] /\
  incoming oc' = [demo_q_value 1; demo_q_value 2; demo_q_end].
Proof.
  assert (ridOf NewDialect demo_q_get = Some 7) as Hr by (vm_compute; reflexivity).
  assert (Pack demo_q_get <> None) as Hp by (vm_compute; discriminate).
  pose proof (quic_request_frees_stream NewDialect demo_q_client demo_q_server demo_q_get 7 demo_q_cacts demo_q_sacts demo_q_end [demo_q_credit 1]
    eq_refl eq_refl eq_refl eq_refl Hr Hp eq_refl eq_refl demo_q_frames (conj eq_refl eq_refl)) as Hx.
  destruct (exchange _ _ _ _ _ _ _ _) as [[c' oc'] [v' ov']].
  destruct Hx as (H1 & H2 & H3 & H4 & _). split; [exact H1|]. split; [exact H2|]. split; [exact H3|exact H4].
Defined.

(** A server that holds one put stream. *)
Definition demo_q_put : quicMsgConn :=
  mkQC false 10 false false None {[ 7 := 0%nat ]} {[ 0%nat := mkQS 7 PutStreamRequest true false false false ]} 1 {[ 0%nat ]} true 2.

Lemma put_stream_credit_lost_witness :
  written 0 (m_out (writes NewDialect [NewStreamReady NewDialect (Long 7); NewStreamCredit NewDialect (Long 7) 2048] demo_q_put)) =
  [NewStreamReady NewDialect (Long 7)].
Proof.
  refine (proj1 (put_stream_credit_lost NewDialect demo_q_put 0
    (mkQS 7 PutStreamRequest true false false false) 7 (NewStreamReady NewDialect (Long 7))
    [NewStreamCredit NewDialect (Long 7) 2048] eq_refl eq_refl eq_refl eq_refl eq_refl eq_refl eq_refl eq_refl _ _)).
  - demo_message.
  - constructor; [|constructor]. demo_message.
Defined.

Lemma late_cancel_leaks_witness :
  qc_streams (m_st (quic_WriteMessage NewDialect (NewSystemRequest NewDialect 7 CancelRequest) None None demo_q_client)) !! 7 =
  Some 0%nat.
Proof.
  refine (proj1 (proj2 (late_cancel_leaks NewDialect demo_q_client demo_q_server 7
    (NewSystemRequest NewDialect 7 CancelRequest) eq_refl eq_refl eq_refl eq_refl eq_refl _))).
  demo_message.
Defined.
End streams_witness.
