(* ===== verification/MemTransport.v ===== *)
(** * The in-memory transport

    Models valuerpc/transport_mem.go: the process-wide registry of listeners,
    Dial and Accept meeting on an unbuffered channel, and the pipe of two
    unbuffered channels with its shared close.

    Listeners and pipes are heap objects.  A rendezvous is one step of the two
    goroutines that meet; each of them takes the case of its select that the step
    needs, which is what [select] allows. *)

From S2P Require Import Prelude Value RefValue Protocol Framing Channels.

(** ** Objects *)

Record memListener := mkML {
  ml_name : string;
  ml_done : bool;          (* the done channel is closed *)
  ml_closeOnce : bool
}.

Record memPipe := mkMP { mp_closed : bool }.

(** One end of a pipe: memConn. *)
Record memConn := mkMC {
  mc_pipe : nat;
  mc_server : bool;        (* which end: it receives on the other's send channel *)
  mc_addr : string
}.

Record memWorld := mkMW {
  mw_registry : gmap string nat;
  mw_listeners : gmap nat memListener;
  mw_pipes : gmap nat memPipe;
  mw_next : nat
}.

Definition upd_mw_registry f (t : memWorld) : memWorld :=
  mkMW (f (mw_registry t)) (mw_listeners t) (mw_pipes t) (mw_next t).
Definition upd_mw_listeners f (t : memWorld) : memWorld :=
  mkMW (mw_registry t) (f (mw_listeners t)) (mw_pipes t) (mw_next t).
Definition upd_mw_pipes f (t : memWorld) : memWorld :=
  mkMW (mw_registry t) (mw_listeners t) (f (mw_pipes t)) (mw_next t).
Definition upd_mw_next f (t : memWorld) : memWorld :=
  mkMW (mw_registry t) (mw_listeners t) (mw_pipes t) (f (mw_next t)).

Definition noMem : memWorld := mkMW ∅ ∅ ∅ 0.

Section mem.
(** [quote] renders a string with Go's %q. *)
Context (quote : string -> string).

Inductive mem_ev :=
| MNewConn (c : memConn).                  (* newMemPipe's connections *)

Abbreviation W := (M memWorld mem_ev).

(** ** Listeners *)

Definition memAddr_Network : string := "mem".
Definition memAddr_String (name : string) : string := "mem://" +:+ name.

Definition NewMemListener (name : string) : W (goerror + nat) :=
  t ← gets id;
  match mw_registry t !! name with
  | Some _ => mret (inl (ErrPlain ("mem listener " +:+ quote name +:+ " already registered")))
  | None =>
      let l := mw_next t in
      modify (upd_mw_next S) ≫= fun _ =>
      modify (upd_mw_listeners (insert l (mkML name false false))) ≫= fun _ =>
      modify (upd_mw_registry (insert name l)) ≫= fun _ => mret (inr l)
  end.

(** memListener.Close, the section under the registry's lock. *)
Definition memListener_unregister (l : nat) : W bool :=
  t ← gets id;
  match mw_listeners t !! l with
  | None => mret false
  | Some x =>
      if ml_closeOnce x then mret false
      else
        modify (upd_mw_listeners (insert l (mkML (ml_name x) (ml_done x) true))) ≫= fun _ =>
        (if bool_decide (mw_registry t !! ml_name x = Some l)
         then modify (upd_mw_registry (delete (ml_name x))) else mret tt) ≫= fun _ =>
        mret true
  end.

(** close(l.done) *)
Definition memListener_closeDone (l : nat) : W unit :=
  t ← gets id;
  match mw_listeners t !! l with
  | None => mret tt
  | Some x => modify (upd_mw_listeners (insert l (mkML (ml_name x) true (ml_closeOnce x))))
  end.

Definition memListener_Close (l : nat) : W unit :=
  memListener_unregister l ≫= fun first => if first : bool then memListener_closeDone l else mret tt.

(** Accept: [offered] is the connection a dialer is sending. *)
Definition memListener_Accept (x : memListener) (offered : option memConn) (pick : nat) : option (goerror + memConn) :=
  select pick
    [(match offered with Some _ => true | None => false end,
      match offered with Some c => inr c | None => inl (ErrPlain "") end);
     (ml_done x, inl (ErrPlain ("mem listener " +:+ quote (ml_name x) +:+ " closed")))].

(** ** Dialing *)

Definition newMemPipe (name : string) : W (memConn * memConn) :=
  t ← gets id;
  let p := mw_next t in
  modify (upd_mw_next S) ≫= fun _ =>
  modify (upd_mw_pipes (insert p (mkMP false))) ≫= fun _ =>
  let client := mkMC p false ("mem://" +:+ name) in
  let server := mkMC p true ("mem://" +:+ name +:+ "(peer)") in
  mret (client, server).

(** Dial up to its select: the listener and the two ends. *)
Definition memDialer_begin (name : string) : W (goerror + nat * memConn * memConn) :=
  t ← gets id;
  match mw_registry t !! name with
  | None => mret (inl (ErrPlain ("no mem listener registered at " +:+ quote name)))
  | Some l => newMemPipe name ≫= fun cs => mret (inr (l, cs.1, cs.2))
  end.

(** The select: [accepting] says that an Accept is waiting, [ctxErr] is the
    context's error once it is done. *)
Definition memDialer_select (name : string) (x : memListener) (client : memConn) (accepting : bool)
    (ctxErr : option goerror) (pick : nat) : option (goerror + memConn) :=
  select pick
    [(accepting, inr client);
     (ml_done x, inl (ErrPlain ("mem listener " +:+ quote name +:+ " closed")));
     (match ctxErr with Some _ => true | None => false end, inl (default (ErrPlain "") ctxErr))].

(** ** Connections *)

Definition memConn_Close (c : memConn) : W unit := modify (upd_mw_pipes (insert (mc_pipe c) (mkMP true))).

Context `{ValueLib}.

(** ReadMessage: [offered] is the message the other end is sending, [deadline]
    what SetReadDeadline stored (0 is the zero time), [fired] whether the timer
    went off. *)
Definition memConn_ReadMessage (p : memPipe) (offered : option VMap) (deadline : option Z) (fired : bool) (pick : nat)
    : option (VMap + frame_error) :=
  let timeout := match deadline with Some dl => negb (dl =? 0) && fired | None => false end in
  select pick
    [(match offered with Some _ => true | None => false end, match offered with Some m => inl m | None => inr EOF end);
     (mp_closed p, inr EOF);
     (timeout, inr (ConnError "i/o timeout"))].

(** WriteMessage: [taken] says that the other end is receiving. *)
Definition memConn_WriteMessage (p : memPipe) (taken : bool) (pick : nat) : option (option frame_error) :=
  select pick [(taken, None); (mp_closed p, Some ErrClientClosed)].

Definition memConn_SetReadDeadline (deadline : Z) : option Z := Some deadline.

(** ** The registry, for every interleaving

    Dialers and acceptors in progress do not touch the registry; what they do
    with the listeners they hold is below. *)

Inductive mem_step : memWorld -> memWorld -> Prop :=
| ms_listen t name : mem_step t (m_st (NewMemListener name t))
| ms_unregister t l : mem_step t (m_st (memListener_unregister l t))
| ms_close_done t l x :
    mw_listeners t !! l = Some x -> ml_closeOnce x = true -> mem_step t (m_st (memListener_closeDone l t))
| ms_dial t name : mem_step t (m_st (memDialer_begin name t))
| ms_close_conn t c : mem_step t (m_st (memConn_Close c t)).

Record mem_inv (t : memWorld) : Prop := {
  mi_fresh : forall l x, mw_listeners t !! l = Some x -> (l < mw_next t)%nat;
  mi_registered : forall name l, mw_registry t !! name = Some l ->
    exists x, mw_listeners t !! l = Some x /\ ml_name x = name /\ ml_closeOnce x = false;
  mi_done : forall l x, mw_listeners t !! l = Some x -> ml_done x = true -> ml_closeOnce x = true
}.

Lemma noMem_inv : mem_inv noMem.
Proof. split; intros *; cbn; by rewrite lookup_empty. Qed.

Lemma NewMemListener_run name t :
  mw_registry t !! name = None ->
  NewMemListener name t =
  (inr (mw_next t), upd_mw_registry (insert name (mw_next t))
    (upd_mw_listeners (insert (mw_next t) (mkML name false false)) (upd_mw_next S t)), []).
Proof. intros Hn. unfold NewMemListener. rewrite M_gets_bind. cbn [id]. by rewrite Hn. Qed.

Lemma mem_step_inv t t' : mem_inv t -> mem_step t t' -> mem_inv t'.
Proof.
  intros Hi Hst. destruct Hst as [t name|t l|t l x Hx Hc|t name|t c].
  - destruct (mw_registry t !! name) as [l|] eqn:Hn.
    { unfold NewMemListener. rewrite M_gets_bind. cbn [id]. by rewrite Hn. }
    rewrite NewMemListener_run by done. rewrite m_st_eq. destruct Hi.
    assert (mw_listeners t !! mw_next t = None) as Hf.
    { destruct (mw_listeners t !! mw_next t) eqn:E; [|done]. apply mi_fresh0 in E. lia. }
    split; cbn.
    + intros l x [[<- _]|[_ Hx]]%lookup_insert_Some; [lia|]. apply mi_fresh0 in Hx. lia.
    + intros name' l [[<- <-]|[Hne Hr]]%lookup_insert_Some; [rewrite lookup_insert_eq; eauto|].
      destruct (mi_registered0 _ _ Hr) as (x & Hx & Hx'). exists x. by rewrite lookup_insert_ne by congruence.
    + intros l x [[<- <-]|[_ Hx]]%lookup_insert_Some; [done|eauto].
  - unfold memListener_unregister. rewrite M_gets_bind. cbn [id].
    destruct (mw_listeners t !! l) as [x|] eqn:Hx; [|done]. destruct (ml_closeOnce x) eqn:Hc; [done|].
    rewrite M_modify_bind, M_bind_st. destruct Hi. case_bool_decide as Hr; unfold m_st; cbn; split; cbn.
    1,4: intros l' x' [[<- _]|[_ Hx']]%lookup_insert_Some; eauto.
    2,4: intros l' x' [[<- <-]|[_ Hx']]%lookup_insert_Some; eauto; intros Hd; cbn in *; eauto.
    + intros name l' [Hne Hr']%lookup_delete_Some. destruct (mi_registered0 _ _ Hr') as (x' & Hx' & Hn & Hc').
      exists x'. rewrite lookup_insert_ne; [done|]. congruence.
    + intros name l' Hr'. destruct (mi_registered0 _ _ Hr') as (x' & Hx' & Hn & Hc').
      exists x'. rewrite lookup_insert_ne; [done|]. congruence.
  - unfold memListener_closeDone. rewrite M_gets_bind. cbn [id]. rewrite Hx. unfold m_st. cbn. destruct Hi. split; cbn.
    + intros l' x' [[<- _]|[_ Hx']]%lookup_insert_Some; eauto.
    + intros name l' Hr'. destruct (mi_registered0 _ _ Hr') as (x' & Hx' & Hn & Hc').
      exists x'. rewrite lookup_insert_ne; [done|]. congruence.
    + intros l' x' [[<- <-]|[_ Hx']]%lookup_insert_Some; eauto.
  - unfold memDialer_begin, newMemPipe. rewrite M_gets_bind. cbn [id].
    destruct (mw_registry t !! name); [|done]. unM. destruct Hi. split; cbn; eauto.
    intros l x Hx%mi_fresh0. lia.
  - unfold m_st. cbn. destruct Hi. split; cbn; eauto.
Qed.

Lemma mem_reach_inv t : reach mem_step noMem t -> mem_inv t.
Proof. apply (reach_inv mem_step mem_inv); [apply noMem_inv|apply mem_step_inv]. Qed.

(** A registered name leads to a live listener of that name; a name whose
    listener was closed can be taken again, and a late second Close of the old
    listener leaves the new one alone. *)
Theorem mem_registry_sound t name l :
  reach mem_step noMem t -> mw_registry t !! name = Some l ->
  (exists x, mw_listeners t !! l = Some x /\ ml_name x = name /\ ml_done x = false) /\
  (exists e, m_res (NewMemListener name t) = inl e) /\
  let t1 := m_st (memListener_Close l t) in
  mw_registry t1 !! name = None /\ m_res (memDialer_begin name t1) = inl (ErrPlain ("no mem listener registered at " +:+ quote name)) /\
  exists l2, m_res (NewMemListener name t1) = inr l2 /\ l2 <> l /\
    let t2 := m_st (NewMemListener name t1) in
    mw_registry t2 !! name = Some l2 /\ mw_registry (m_st (memListener_Close l t2)) !! name = Some l2.
Proof.
  intros Hr%mem_reach_inv Hn. destruct (mi_registered _ Hr _ _ Hn) as (x & Hx & Hxn & Hc).
  assert (ml_done x = false) as Hd.
  { destruct (ml_done x) eqn:E; [|done]. apply (mi_done _ Hr l x Hx) in E. congruence. }
  split; [by eauto|]. split.
  { unfold NewMemListener. rewrite M_gets_bind. cbn [id]. rewrite Hn. by eexists. }
  assert (m_st (memListener_Close l t) =
    upd_mw_listeners (insert l (mkML name true true)) (upd_mw_registry (delete name)
      (upd_mw_listeners (insert l (mkML name false true)) t))) as E1.
  { unfold memListener_Close, memListener_unregister, memListener_closeDone. unM.
    rewrite Hx, Hc, Hxn, bool_decide_true by done. cbn. rewrite lookup_insert_eq. cbn. by rewrite Hd. }
  intros t1. unfold t1. rewrite E1. clear E1 t1. set (t1 := upd_mw_listeners _ _).
  assert (mw_registry t1 !! name = None) as Hn1 by (cbn; apply lookup_delete_eq).
  split; [done|]. split; [unfold memDialer_begin; rewrite M_gets_bind; cbn [id]; by rewrite Hn1|].
  exists (mw_next t). rewrite NewMemListener_run by done. rewrite m_res_eq, m_st_eq.
  assert (mw_next t <> l) as Hne by (apply (mi_fresh _ Hr) in Hx; lia).
  split_and!; [done|done|cbn; apply lookup_insert_eq|].
  unfold memListener_Close, memListener_unregister, m_st, mbind, M_bind, gets. cbn.
  rewrite lookup_insert_ne, lookup_insert_eq by done. cbn. apply lookup_insert_eq.
Qed.

(** ** One direction of a pipe

    The writer blocks in its select until the reader takes the message or the
    pipe is closed; [mp_returned] and [mp_read] are what their calls returned,
    in order. *)

Record pipeDir := mkPD {
  pd_pipe : memPipe;
  pd_writing : option VMap;                    (* the writer is in its select *)
  pd_returned : list (VMap * option frame_error);
  pd_read : list (VMap + frame_error)
}.

Inductive pipe_step : pipeDir -> pipeDir -> Prop :=
| ps_write t m : pd_writing t = None -> pipe_step t (mkPD (pd_pipe t) (Some m) (pd_returned t) (pd_read t))
| ps_meet t m dl fired i j w r :
    pd_writing t = Some m ->
    memConn_WriteMessage (pd_pipe t) true i = Some w -> w = None ->
    memConn_ReadMessage (pd_pipe t) (Some m) dl fired j = Some r -> r = inl m ->
    pipe_step t (mkPD (pd_pipe t) None (pd_returned t ++ [(m, w)]) (pd_read t ++ [r]))
| ps_write_alone t m i w :
    pd_writing t = Some m -> memConn_WriteMessage (pd_pipe t) false i = Some w ->
    pipe_step t (mkPD (pd_pipe t) None (pd_returned t ++ [(m, w)]) (pd_read t))
| ps_read_alone t dl fired j r :
    memConn_ReadMessage (pd_pipe t) None dl fired j = Some r ->
    pipe_step t (mkPD (pd_pipe t) (pd_writing t) (pd_returned t) (pd_read t ++ [r]))
| ps_close t : pipe_step t (mkPD (mkMP true) (pd_writing t) (pd_returned t) (pd_read t)).

Definition accepted (l : list (VMap * option frame_error)) : list VMap :=
  omap (fun x => match x.2 with None => Some x.1 | Some _ => None end) l.
Definition received (l : list (VMap + frame_error)) : list VMap :=
  omap (fun x => match x with inl m => Some m | inr _ => None end) l.

Definition pipe_start : pipeDir := mkPD (mkMP false) None [] [].

Lemma pipe_step_exact t t' :
  received (pd_read t) = accepted (pd_returned t) -> pipe_step t t' ->
  received (pd_read t') = accepted (pd_returned t').
Proof.
  unfold received, accepted. intros Hi Hst. destruct Hst as [t m|t m dl fired i j w r Hw Hs -> Hr ->|t m i w Hw Hs|t dl fired j r Hr|t];
    cbn; rewrite ?omap_app, ?Hi; try done.
  - unfold memConn_WriteMessage in Hs. select_cases Hs; simplify_eq. cbn. by rewrite app_nil_r.
  - unfold memConn_ReadMessage in Hr. select_cases Hr; simplify_eq; cbn; by rewrite app_nil_r.
Qed.

(** The messages the reader got are exactly those whose WriteMessage returned
    without an error, in order: nothing is lost, duplicated or reordered, and no
    message is taken whose writer was told that the connection is closed.  Once
    the pipe is closed, neither side can block. *)
(** C31: For every interleaving of the two ends of an in-memory pipe, a write
    returns without error exactly when its message was received, in order;
    after a close no read or write blocks and a writer that was blocked
    returns. *)
Theorem mem_pipe_exact t :
  reach pipe_step pipe_start t ->
  received (pd_read t) = accepted (pd_returned t) /\
  (mp_closed (pd_pipe t) = true ->
     (forall m, pd_writing t = Some m -> exists t', pipe_step t t' /\ pd_writing t' = None) /\
     (forall dl fired j, memConn_ReadMessage (pd_pipe t) None dl fired j <> None) /\
     forall taken i, memConn_WriteMessage (pd_pipe t) taken i <> None).
Proof.
  intros Hr. split.
  - apply (reach_inv pipe_step (fun t => received (pd_read t) = accepted (pd_returned t)) pipe_start t);
      [done|exact pipe_step_exact|done].
  - intros Hc. split_and!.
    + intros m Hm. eexists. split; [eapply (ps_write_alone t m 0 (Some ErrClientClosed)); [done|]|done].
      unfold memConn_WriteMessage. by rewrite Hc.
    + intros dl fired j E. unfold memConn_ReadMessage in E. apply select_blocks in E. rewrite Hc in E.
      by inversion_clear E as [|? ? _ E']; inversion E'.
    + intros taken i E. unfold memConn_WriteMessage in E. apply select_blocks in E. rewrite Hc in E.
      by inversion_clear E as [|? ? _ E']; inversion E'.
Qed.
End mem.

(** ** Witnesses *)

Section mem_witness.
#[local] Existing Instance RefValueLib.

Definition demo_quote (s : string) : string := "'" +:+ s +:+ "'".
Definition demo_mem : memWorld := m_st (NewMemListener demo_quote "billing" noMem).

Lemma mem_registry_sound_witness :
  mw_registry (m_st (memListener_Close 0 demo_mem)) !! "billing" = None.
Proof.
  refine (proj1 (proj2 (proj2 (mem_registry_sound demo_quote demo_mem "billing" 0 _ _)))).
  - eapply reach_next; [apply reach_here|]. exact (ms_listen demo_quote noMem "billing").
  - reflexivity.
Defined.

Definition demo_mem_msg : VMap := NewFunctionRequest NewDialect 1 "f" None.

Lemma mem_pipe_exact_witness :
  exists t, reach pipe_step pipe_start t /\ received (pd_read t) = [demo_mem_msg] /\
    received (pd_read t) = accepted (pd_returned t).
Proof.
  set (t := mkPD (mkMP false) None [(demo_mem_msg, None)] [inl demo_mem_msg]).
  assert (reach pipe_step pipe_start t) as Hr.
  { eapply reach_next; [eapply reach_next; [apply reach_here|]|].
    - exact (ps_write pipe_start demo_mem_msg eq_refl).
    - refine (ps_meet (mkPD (mkMP false) (Some demo_mem_msg) [] []) demo_mem_msg None false 0 0 None
        (inl demo_mem_msg) eq_refl eq_refl eq_refl eq_refl eq_refl). }
  exists t. split; [exact Hr|]. split; [reflexivity|]. exact (proj1 (mem_pipe_exact t Hr)).
Defined.
End mem_witness.
