(* ===== verification/MsgConn.v ===== *)
(** * What the RPC layer asks of a transport

    valuerpc/rpc.go's MsgConn interface and the one requirement TRANSPORTS.md
    (section 9.0) states for it: a reliable, ordered message channel.  [MsgLink]
    is one direction of it, as a simulation of a queue; the theorems about calls
    are proved against the class, and the transports discharge it: here the
    length-prefix framed stream, in [WebSocket] the message frames.  What a framed
    connection does when writes fail and ends are closed is the step relation at
    the end. *)

From S2P Require Import Prelude Value RefValue Framing.

Section link.
Context `{ValueLib}.

Class MsgLink (L : Type) := {
  lk_write : VMap -> L -> option L;           (* WriteMessage without error *)
  lk_read : L -> option (VMap * L);           (* ReadMessage without error *)
  lk_fits : L -> VMap -> Prop;                (* the message is one the link carries *)
  lk_rel : L -> list VMap -> Prop;            (* the messages on their way *)
  lk_write_rel l q m l' : lk_rel l q -> lk_fits l m -> lk_write m l = Some l' -> lk_rel l' (q ++ [m]);
  lk_write_fits l m l' m0 : lk_write m l = Some l' -> lk_fits l' m0 <-> lk_fits l m0;
  lk_read_rel l q m : lk_rel l (m :: q) ->
    exists m' l', lk_read l = Some (m', l') /\ m' ≡ m /\ lk_rel l' q /\ forall m0, lk_fits l' m0 <-> lk_fits l m0;
  lk_read_empty l : lk_rel l [] -> lk_read l = None
}.

(** ** The framed byte stream *)

Record framedLink := mkFL {
  fl_writer : messageConnAdapter;
  fl_reader : messageConnAdapter;
  fl_bytes : list ascii              (* written and not yet read *)
}.

Definition framed_write (m : VMap) (l : framedLink) : option framedLink :=
  match WriteMessage (fl_writer l) None None m with
  | (None, frame, t') => Some (mkFL t' (fl_reader l) (fl_bytes l ++ frame))
  | _ => None
  end.

Definition framed_read (l : framedLink) : option (VMap * framedLink) :=
  match ReadMessage (fl_reader l) (fl_bytes l) with
  | (inl m, rest) => Some (m, mkFL (fl_writer l) (fl_reader l) rest)
  | _ => None
  end.

(** Each message on its way is one frame, that the reader accepts. *)
Definition framed_rel (l : framedLink) (q : list VMap) : Prop :=
  shutdown (fl_writer l) = false /\
  exists payloads, Forall2 (fun m p => Pack m = Some p /\ fits (fl_reader l) p) q payloads /\
    fl_bytes l = concat (map frame_of payloads).

Definition framed_fits (l : framedLink) (m : VMap) : Prop :=
  exists p, Pack m = Some p /\ fits (fl_reader l) p.

Lemma WriteMessage_frame t m p err frame t' :
  shutdown t = false -> Pack m = Some p -> Z.of_nat (length p) < two32 ->
  WriteMessage t None None m = (err, frame, t') ->
  err = None /\ frame = frame_of p /\ shutdown t' = false.
Proof.
  intros Hs Hp Hl HW. unfold WriteMessage in HW. rewrite Hs, Hp in HW.
  apply doWriteFrame_bytes in HW as (-> & -> & _ & Hs' & _). rewrite wrapu32_id by lia. rewrite Hs', Hs. done.
Qed.

Lemma framed_write_spec m l l' :
  framed_write m l = Some l' -> fl_reader l' = fl_reader l /\
  exists frame, WriteMessage (fl_writer l) None None m = (None, frame, fl_writer l') /\ fl_bytes l' = fl_bytes l ++ frame.
Proof.
  unfold framed_write. destruct (WriteMessage _ _ _ _) as [[[e|] frame] t']; [done|]. intros [= <-]. cbn. eauto.
Qed.

#[export, refine] Instance framed_link : MsgLink framedLink := {
  lk_write := framed_write;
  lk_read := framed_read;
  lk_fits := framed_fits;
  lk_rel := framed_rel
}.
Proof.
  - intros l q m l' (Hs & ps & HF & Hb) (p & Hp & Hfit) (Hrd & frame & HW & Hb')%framed_write_spec.
    apply (WriteMessage_frame _ m p) in HW as (_ & -> & Hs'); [|done|done|apply Hfit].
    split; [done|]. exists (ps ++ [p]). rewrite Hrd. split.
    { apply Forall2_app; [done|]. constructor; [done|constructor]. }
    rewrite Hb', Hb, map_app, concat_app. cbn. by rewrite app_nil_r.
  - intros l m l' m0 (Hrd & _)%framed_write_spec. unfold framed_fits. by rewrite Hrd.
  - intros l q m (Hs & ps & HF & Hb). apply Forall2_cons_inv_l in HF as (p & ps' & (Hp & Hfit) & HF & ->).
    cbn [map concat] in Hb. unfold framed_read. rewrite Hb, ReadMessage_frame by done.
    destruct (Unpack_Pack m p Hp) as (m' & Hu & Heq). rewrite Hu, decide_True, mapOf_MapV by apply kind_MapV.
    eexists _, _. split_and!; [done|done| |done]. split; [done|]. by exists ps'.
  - intros l (Hs & ps & HF%Forall2_nil_inv_l & Hb). subst ps. unfold framed_read. by rewrite Hb.
Defined.

(** Two ends of a fresh connection. *)
Definition newFramedLink (timeout maxFrame : Z) : framedLink := mkFL (NewMsgConn timeout maxFrame) (NewMsgConn timeout maxFrame) [].

Lemma newFramedLink_rel timeout maxFrame : lk_rel (newFramedLink timeout maxFrame) [].
Proof. split; [done|]. exists []. by split; [constructor|]. Qed.

(** ** One direction of a framed connection, in every interleaving

    Writes with any outcome, the close of the writer's end and reads.  A write that
    fails may have put a part of its frame on the stream, which is torn from there
    on; the reader blocks in ReadFull until the bytes are there or the stream has
    ended. *)

Record framedDir := mkFD {
  fd_writer : messageConnAdapter;
  fd_reader : messageConnAdapter;
  fd_bytes : list ascii;                  (* written and not yet read *)
  fd_ended : bool;                        (* the writer's end was closed *)
  fd_torn : bool;                         (* a write failed part-way *)
  fd_sent : list VMap;                    (* writes without error on an intact stream *)
  fd_reads : list (VMap + frame_error)    (* what ReadMessage returned *)
}.

Definition newFramedDir (timeout maxFrame : Z) : framedDir :=
  mkFD (NewMsgConn timeout maxFrame) (NewMsgConn timeout maxFrame) [] false false [] [].

(** [k]: how much of the frame a failed conn.Write got out. *)
Definition fd_write (deadline io : option string) (k : nat) (m : VMap) (t : framedDir) : framedDir :=
  let '(err, frame, w) := WriteMessage (fd_writer t) deadline io m in
  match err with
  | None => mkFD w (fd_reader t) (fd_bytes t ++ frame) (fd_ended t) (fd_torn t) (if fd_torn t then fd_sent t else fd_sent t ++ [m]) (fd_reads t)
  | Some _ =>
      let part := take k frame in
      mkFD w (fd_reader t) (fd_bytes t ++ part) (fd_ended t) (fd_torn t || negb (bool_decide (part = []))) (fd_sent t) (fd_reads t)
  end.
Definition fd_close (t : framedDir) : framedDir :=
  mkFD (CloseConn (fd_writer t)) (fd_reader t) (fd_bytes t) true (fd_torn t) (fd_sent t) (fd_reads t).
Definition fd_read (t : framedDir) : framedDir :=
  let '(r, rest) := ReadMessage (fd_reader t) (fd_bytes t) in
  mkFD (fd_writer t) (fd_reader t) rest (fd_ended t) (fd_torn t) (fd_sent t) (fd_reads t ++ [r]).
Definition fd_blocks (t : framedDir) : bool :=
  negb (fd_ended t) && match (ReadMessage (fd_reader t) (fd_bytes t)).1 with inr EOF | inr UnexpectedEOF => true | _ => false end.

Inductive framed_step : framedDir -> framedDir -> Prop :=
| fs_write deadline io k m t :
    (forall p, Pack m = Some p -> fits (fd_reader t) p) -> framed_step t (fd_write deadline io k m t)
| fs_close t : framed_step t (fd_close t)
| fs_read t : fd_blocks t = false -> framed_step t (fd_read t).

(** The reads so far are what was sent; what is ahead is on the stream, whole,
    followed by nothing unless the stream is torn. *)
Definition framed_inv (t : framedDir) : Prop :=
  (fd_ended t = true -> shutdown (fd_writer t) = true) /\
  exists got more seen ahead,
    fd_reads t = map inl got ++ more /\ fd_sent t = seen ++ ahead /\ Forall2 (≡) got seen /\
    (more <> [] -> ahead = [] /\ (fd_torn t = true \/ fd_ended t = true)) /\
    (fd_torn t = false -> Forall (eq (inr EOF)) more) /\
    (more = [] \/ fd_torn t = false -> exists ps tail, Forall2 (fun m p => Pack m = Some p /\ fits (fd_reader t) p) ahead ps /\
      fd_bytes t = concat (map frame_of ps) ++ tail /\ (fd_torn t = false -> tail = [])).

Lemma WriteMessage_outcome t deadline io m err frame t' :
  WriteMessage t deadline io m = (err, frame, t') ->
  shutdown t' = shutdown t /\ (shutdown t = true -> err <> None /\ frame = []) /\
  (err = None -> exists p, Pack m = Some p /\ (Z.of_nat (length p) < two32 -> frame = frame_of p)).
Proof.
  unfold WriteMessage. destruct (shutdown t) eqn:Hs; [intros [= <- <- <-]; by rewrite Hs|].
  destruct (Pack m) as [p|]; [|intros [= <- <- <-]; by rewrite Hs].
  destruct (if 0 <? writeTimeout t then deadline else None) as [e|] eqn:Ed.
  { unfold doWriteFrame. rewrite Ed. intros [= <- <- <-]. by rewrite Hs. }
  assert (doWriteFrame t deadline io p = doWriteFrame t None io p) as ->.
  { unfold doWriteFrame. rewrite Ed. by destruct (0 <? writeTimeout t). }
  intros (-> & -> & _ & Hs' & _)%doWriteFrame_bytes. split_and!; [congruence|done|].
  intros _. exists p. split; [done|]. intros Hl. by rewrite wrapu32_id by lia.
Qed.

(** The next message ahead can be read. *)
Lemma framed_next t m ms ps tail :
  Forall2 (fun m p => Pack m = Some p /\ fits (fd_reader t) p) (m :: ms) ps -> fd_bytes t = concat (map frame_of ps) ++ tail ->
  exists m' ps', ReadMessage (fd_reader t) (fd_bytes t) = (inl m', concat (map frame_of ps') ++ tail) /\ m' ≡ m /\
    Forall2 (fun m p => Pack m = Some p /\ fits (fd_reader t) p) ms ps'.
Proof.
  intros (p & ps' & (Hp & Hf) & HF & ->)%Forall2_cons_inv_l Hb. cbn [map concat] in Hb. rewrite <- app_assoc in Hb.
  rewrite Hb, ReadMessage_frame by done. destruct (Unpack_Pack m p Hp) as (m' & Hu & Heq).
  rewrite Hu, decide_True, mapOf_MapV by apply kind_MapV. by exists m', ps'.
Qed.

Lemma framed_write_inv deadline io k m t :
  framed_inv t -> (forall p, Pack m = Some p -> fits (fd_reader t) p) -> framed_inv (fd_write deadline io k m t).
Proof.
  intros (Hend & got & more & seen & ahead & Hr & Hs & HF & Hm & He & Hb) Hfit. unfold fd_write.
  destruct (WriteMessage _ _ _ _) as [[err frame] w] eqn:HW.
  destruct (WriteMessage_outcome _ _ _ _ _ _ _ HW) as (Hsd & Hcl & Hok).
  assert (fd_ended t = true -> err <> None /\ frame = []) as Hcl' by auto.
  destruct err as [e|]; (split; [cbn; intros ?; rewrite Hsd; auto|]); cbn [fd_reads fd_sent fd_torn fd_ended fd_reader fd_bytes].
  - exists got, more, seen, ahead. split_and!; try done.
    + intros Hne. destruct (Hm Hne) as [-> [Ht|Ht]]; (split; [done|]); [left; by rewrite Ht|by right].
    + intros [Ht _]%orb_false_elim. by apply He.
    + intros Hc. destruct Hb as (ps & tail & HF' & Hby & Htl); [destruct Hc as [Hc|[Hc _]%orb_false_elim]; [by left|by right]|].
      exists ps, (tail ++ take k frame). rewrite Hby, <- app_assoc. split_and!; [done|done|].
      intros [Ht Hp]%orb_false_elim. rewrite Htl by done. apply negb_false_iff, bool_decide_eq_true in Hp. by rewrite Hp.
  - destruct (Hok eq_refl) as (p & Hp & Hfr). specialize (Hfit p Hp). rewrite (Hfr (proj1 Hfit)). destruct (fd_torn t) eqn:Ht.
    + exists got, more, seen, ahead. split_and!; try done. intros [->|Hc]; [|done].
      destruct Hb as (ps & tail & HF' & Hby & Htl); [by left|]. exists ps, (tail ++ frame_of p). by rewrite Hby, <- app_assoc.
    + assert (more = []) as ->.
      { destruct more as [|x more]; [done|]. destruct (Hm ltac:(done)) as [_ [?|Hc]]; [done|]. by destruct (Hcl' Hc). }
      destruct Hb as (ps & tail & HF' & Hby & Htl); [by left|]. rewrite (Htl eq_refl), app_nil_r in Hby.
      exists got, [], seen, (ahead ++ [m]). split_and!; try done; [by rewrite Hs, app_assoc|].
      intros _. exists (ps ++ [p]), []. split_and!; [|by rewrite Hby, map_app, concat_app; cbn; rewrite !app_nil_r|done].
      apply Forall2_app; [done|]. by constructor.
Qed.

Lemma framed_read_inv t : framed_inv t -> fd_blocks t = false -> framed_inv (fd_read t).
Proof.
  intros (Hend & got & more & seen & ahead & Hr & Hs & HF & Hm & He & Hb) Hbl.
  unfold fd_read. unfold fd_blocks in Hbl. destruct (ReadMessage _ _) as [r rest] eqn:ER. split; [done|].
  cbn [fd_reads fd_sent fd_torn fd_ended fd_reader fd_bytes fst] in *. destruct ahead as [|m ms].
  - exists got, (more ++ [r]), seen, []. rewrite Hr, <- app_assoc. destruct (fd_torn t) eqn:Ht.
    { split_and!; try done; [by intros; split; [|left]|]. intros [[_ [=]]%app_nil|[=]]. }
    destruct Hb as (ps & tail & HF' & Hby & Htl); [by right|]. apply Forall2_nil_inv_l in HF' as ->. rewrite (Htl eq_refl) in Hby.
    rewrite Hby in ER. injection ER as <- <-. cbn in Hbl. rewrite andb_true_r in Hbl. apply negb_false_iff in Hbl.
    split_and!; try done; [by intros; split; [|right]| |].
    + intros _. apply Forall_app. split; [by apply He|by constructor].
    + intros _. exists [], []. split_and!; done.
  - assert (more = []) as -> by (destruct more as [|x more]; [done|]; by destruct (Hm ltac:(done))).
    destruct Hb as (ps & tail & HF' & Hby & Htl); [by left|].
    destruct (framed_next t m ms ps tail HF' Hby) as (m' & ps' & E & Heq & HF''). rewrite E in ER. injection ER as <- <-.
    exists (got ++ [m']), [], (seen ++ [m]), ms. split_and!; try done.
    + by rewrite Hr, map_app, !app_nil_r.
    + by rewrite Hs, <- app_assoc.
    + apply Forall2_app; [done|]. by constructor.
    + intros _. by exists ps', tail.
Qed.

Lemma framed_step_inv t t' : framed_inv t -> framed_step t t' -> framed_inv t'.
Proof.
  intros Hi Hst. destruct Hst as [deadline io k m t Hf|t|t Hb].
  - by apply framed_write_inv.
  - destruct Hi as (_ & got & more & seen & ahead & Hr & Hs & HF & Hm & He & Hb). split; [done|].
    exists got, more, seen, ahead. split_and!; try done. intros Hne. split; [by apply Hm|by right].
  - by apply framed_read_inv.
Qed.

Lemma newFramedDir_inv timeout maxFrame : framed_inv (newFramedDir timeout maxFrame).
Proof.
  split; [done|]. exists [], [], [], []. split_and!; try done. intros _. exists [], []. split_and!; done.
Qed.

(** What the reader gets, in every interleaving. *)
(** C20: One direction of a framed byte stream, in every interleaving of
    WriteMessage calls for messages within the frame limit and of any outcome
    (refused, or failed after any number of bytes, which tears the stream),
    Close and ReadMessage calls: the reads deliver what was sent before the
    first tear, in order and message for message (equal as maps); a read
    returns anything else (an error, or what follows a tear) only after all of
    that was delivered and the stream was torn or closed, and nothing but EOF
    when it was not torn; and as long as a sent message is ahead the next read
    neither blocks nor fails but delivers exactly it. *)
Theorem framed_stream_exact timeout maxFrame t :
  reach framed_step (newFramedDir timeout maxFrame) t ->
  exists got more seen ahead,
    fd_reads t = map inl got ++ more /\ fd_sent t = seen ++ ahead /\ Forall2 (≡) got seen /\
    (more <> [] -> ahead = [] /\ (fd_torn t = true \/ fd_ended t = true)) /\
    (fd_torn t = false -> Forall (eq (inr EOF)) more) /\
    (forall m ms, ahead = m :: ms -> exists m', fd_blocks t = false /\ fd_reads (fd_read t) = fd_reads t ++ [inl m'] /\ m' ≡ m).
Proof.
  intros Hr. destruct (reach_inv framed_step framed_inv _ t (newFramedDir_inv timeout maxFrame) framed_step_inv Hr)
    as (_ & got & more & seen & ahead & Hrd & Hs & HF & Hm & He & Hb).
  exists got, more, seen, ahead. split_and!; try done. intros m ms ->.
  assert (more = []) as -> by (destruct more as [|x more]; [done|]; by destruct (Hm ltac:(done))).
  destruct Hb as (ps & tail & HF' & Hby & _); [by left|]. destruct (framed_next t m ms ps tail HF' Hby) as (m' & ps' & E & Heq & _).
  exists m'. unfold fd_blocks, fd_read. rewrite E. cbn. by rewrite andb_false_r.
Qed.
End link.

Section link_witness.
#[local] Existing Instance RefValueLib.

(** A message written, one whose write fails after five bytes, the close, and the
    reads: the message, then the torn frame's error. *)
Definition demo_fd (n : nat) : framedDir :=
  let t1 := fd_write None None 0 demo_msg (newFramedDir 0 MaxFrameSize) in
  let t2 := fd_close (fd_write None (Some "broken pipe") 5 demo_msg t1) in
  Nat.iter n fd_read t2.

Lemma demo_fd_reach : reach framed_step (newFramedDir 0 MaxFrameSize) (demo_fd 2).
Proof.
  assert (forall t, fd_reader t = NewMsgConn 0 MaxFrameSize -> forall p, Pack demo_msg = Some p -> fits (fd_reader t) p) as Hf.
  { intros t -> p [= <-]. vm_compute. split; [reflexivity|discriminate]. }
  set (t0 := newFramedDir 0 MaxFrameSize). set (t1 := fd_write None None 0 demo_msg t0).
  set (t2 := fd_write None (Some "broken pipe") 5 demo_msg t1).
  assert (reach framed_step t0 t2) as H2.
  { eapply reach_next; [eapply reach_next; [apply reach_here|]|].
    - apply (fs_write None None 0 demo_msg t0), Hf. reflexivity.
    - apply (fs_write None (Some "broken pipe") 5 demo_msg t1), Hf. reflexivity. }
  eapply (reach_next _ _ (fd_read (fd_close t2))); [eapply (reach_next _ _ (fd_close t2)); [eapply reach_next; [exact H2|apply fs_close]|]|];
    apply fs_read; vm_compute; reflexivity.
Qed.

Lemma framed_stream_exact_witness :
  exists got more seen ahead,
    fd_reads (demo_fd 2) = map inl got ++ more /\ fd_sent (demo_fd 2) = seen ++ ahead /\ Forall2 (≡) got seen /\
    fd_sent (demo_fd 2) = [demo_msg] /\ length (fd_reads (demo_fd 2)) = 2%nat /\ last (fd_reads (demo_fd 2)) = Some (inr UnexpectedEOF).
Proof.
  destruct (framed_stream_exact 0 MaxFrameSize (demo_fd 2) demo_fd_reach) as (got & more & seen & ahead & H1 & H2 & H3 & _).
  exists got, more, seen, ahead. split; [exact H1|]. split; [exact H2|]. split; [exact H3|].
  split; [vm_compute; reflexivity|]. split; vm_compute; reflexivity.
Defined.
End link_witness.
