(* ===== verification/WebSocket.v ===== *)
(** * The WebSocket transport

    Models valuerpc/transport_ws.go: one MessagePack map per binary WebSocket
    message, the pinger, and the listener whose HTTP handler must outlive the
    connection it hands over.  The WebSocket library (github.com/coder/websocket)
    and the HTTP server are outside: what their calls return is an argument, and
    what is written, pinged and closed are events. *)

From S2P Require Import Prelude Value RefValue Protocol Framing MsgConn Channels.

(** The message types of the library; the code accepts binary ones only. *)
Inductive wsMessageType := MessageText | MessageBinary.
#[export] Instance wsMessageType_eq_dec : EqDecision wsMessageType.
Proof. solve_decision. Defined.

Inductive wsStatus := StatusNormalClosure | StatusGoingAway.

Record wsMsgConn := mkWS {
  ws_readLimit : Z;            (* conn.SetReadLimit; -1 is unlimited *)
  ws_remoteAddr : string;
  ws_writeTO : Z;
  ws_keepAlive : Z;
  ws_readDL : option Z;
  ws_cancelled : bool;         (* the connection's context *)
  ws_done : bool;
  ws_closeOnce : bool
}.

Definition upd_ws_readDL f (t : wsMsgConn) : wsMsgConn :=
  mkWS (ws_readLimit t) (ws_remoteAddr t) (ws_writeTO t) (ws_keepAlive t) (f (ws_readDL t)) (ws_cancelled t) (ws_done t) (ws_closeOnce t).
Definition closed_ws (t : wsMsgConn) : wsMsgConn :=
  mkWS (ws_readLimit t) (ws_remoteAddr t) (ws_writeTO t) (ws_keepAlive t) (ws_readDL t) true true true.

(** newWSMsgConn, and whether it starts the pinger. *)
Definition newWSMsgConn (remoteAddr : string) (writeTimeout maxFrameSize keepAlive : Z) : wsMsgConn * bool :=
  (mkWS (if 0 <? maxFrameSize then maxFrameSize else -1) remoteAddr writeTimeout keepAlive None false false false,
   0 <? keepAlive).

Section ws.
Context `{ValueLib}.

Inductive ws_ev :=
| WSWrite (bounded : bool) (payload : list ascii)   (* conn.Write, with a timeout or not *)
| WSPing
| WSClose (status : wsStatus).

Abbreviation X := (M wsMsgConn ws_ev).

(** ** Messages *)

(** ReadMessage: [read] is what conn.Read returned. *)
Definition ws_ReadMessage (read : (wsMessageType * list ascii) + string) : VMap + frame_error :=
  match read with
  | inr e => inr (ConnError e)
  | inl (typ, data) =>
      if negb (bool_decide (typ = MessageBinary)) then inr (ConnError "expected a binary websocket message")
      else match Unpack data with
           | None => inr UnpackError
           | Some msg => if decide (kindOf msg = MAP) then inl (mapOf msg) else inr ExpectedMap
           end
  end.

(** WriteMessage: [io] is the outcome of conn.Write. *)
Definition ws_WriteMessage (msg : VMap) (io : option string) : X (option frame_error) :=
  match Pack msg with
  | None => mret (Some PackError)
  | Some payload =>
      t ← gets id;
      emit (WSWrite (0 <? ws_writeTO t) payload) ≫= fun _ => mret (ConnError <$> io)
  end.

Definition ws_SetReadDeadline (deadline : Z) : X unit := modify (upd_ws_readDL (fun _ => Some deadline)).

Definition ws_Close : X unit :=
  t ← gets id;
  if ws_closeOnce t then mret tt
  else modify closed_ws ≫= fun _ => emit (WSClose StatusNormalClosure).

(** One round of the pinger: [tick] says that the ticker fired, [pingErr] is the
    outcome of the ping; [Some false] means that it returned. *)
Definition pinger_iter (tick pingErr : bool) (pick : nat) : X (option bool) :=
  t ← gets id;
  match select pick [(ws_done t, false); (tick, true)] with
  | None => mret None
  | Some false => mret (Some false)
  | Some true =>
      emit WSPing ≫= fun _ =>
      if pingErr then ws_Close ≫= fun _ => mret (Some false) else mret (Some true)
  end.

Lemma ws_Close_run t :
  ws_Close t = (tt, if ws_closeOnce t then t else closed_ws t, if ws_closeOnce t then [] else [WSClose StatusNormalClosure]).
Proof. unfold ws_Close. rewrite M_gets_bind. cbn [id]. by destruct (ws_closeOnce t). Qed.

(** ** A direction of a WebSocket as a link

    The library's documented behaviour: messages arrive whole, in order, unless
    one is larger than the reader's limit. *)

Record wsLink := mkWL {
  wl_reader : wsMsgConn;
  wl_messages : list (wsMessageType * list ascii)
}.

Definition within_limit (t : wsMsgConn) (payload : list ascii) : bool :=
  (ws_readLimit t <? 0) || (Z.of_nat (length payload) <=? ws_readLimit t).

Definition wsLink_write (m : VMap) (l : wsLink) : option wsLink :=
  match ws_WriteMessage m None (wl_reader l) with
  | (None, _, evs) =>
      Some (mkWL (wl_reader l) (wl_messages l ++
        omap (fun e => match e with WSWrite _ p => Some (MessageBinary, p) | _ => None end) evs))
  | _ => None
  end.

Definition wsLink_read (l : wsLink) : option (VMap * wsLink) :=
  match wl_messages l with
  | [] => None
  | (typ, data) :: rest =>
      if within_limit (wl_reader l) data then
        match ws_ReadMessage (inl (typ, data)) with
        | inl m => Some (m, mkWL (wl_reader l) rest)
        | inr _ => None
        end
      else None
  end.

Definition wsLink_fits (l : wsLink) (m : VMap) : Prop :=
  exists p, Pack m = Some p /\ within_limit (wl_reader l) p = true.

Definition wsLink_rel (l : wsLink) (q : list VMap) : Prop :=
  Forall2 (fun m x => Pack m = Some x.2 /\ x.1 = MessageBinary /\ within_limit (wl_reader l) x.2 = true) q (wl_messages l).

Lemma wsLink_write_spec m l l' :
  wsLink_write m l = Some l' ->
  exists p, Pack m = Some p /\ l' = mkWL (wl_reader l) (wl_messages l ++ [(MessageBinary, p)]).
Proof.
  unfold wsLink_write, ws_WriteMessage. destruct (Pack m) as [p|]; [|done].
  rewrite M_gets_bind. cbn. intros [= <-]. eauto.
Qed.

#[export, refine] Instance ws_link : MsgLink wsLink := {
  lk_write := wsLink_write;
  lk_read := wsLink_read;
  lk_fits := wsLink_fits;
  lk_rel := wsLink_rel
}.
Proof.
  - intros l q m l' Hrel (p & Hp & Hlim) (p' & Hp' & ->)%wsLink_write_spec. rewrite Hp in Hp'. injection Hp' as <-.
    apply Forall2_app; [done|]. constructor; [done|constructor].
  - intros l m l' m0 (p & _ & ->)%wsLink_write_spec. done.
  - intros l q m Hrel. unfold wsLink_rel in Hrel. apply Forall2_cons_inv_l in Hrel as ([typ p] & rest & (Hp & Ht & Hlim) & Hrest & Hm).
    cbn in Hp, Ht, Hlim. subst typ. unfold wsLink_read. rewrite Hm, Hlim. cbn.
    destruct (Unpack_Pack m p Hp) as (m' & Hu & Heq). rewrite Hu, decide_True, mapOf_MapV by apply kind_MapV.
    eexists _, _. by split_and!.
  - intros l Hrel. apply Forall2_nil_inv_l in Hrel. unfold wsLink_read. by rewrite Hrel.
Defined.

(** ** The listener *)

(** Where the HTTP handler of one upgraded connection is. *)
Inductive handlerPC := HOffering | HServing | HReturned.

Record wsListener := mkWSL {
  wl_done : bool;
  wl_closeOnce : bool;
  wl_ownsServer : bool;                     (* httpSrv is not nil *)
  wl_conns : gmap nat wsMsgConn;            (* connections upgraded so far *)
  wl_handlers : gmap nat handlerPC;         (* their handlers *)
  wl_accepted : list nat;                   (* handed to Accept, in order *)
  wl_refused : list nat;                    (* closed with StatusGoingAway *)
  wl_serverClosed : bool
}.

(** NewWebSocketListener (it owns an HTTP server) and NewWebSocketHandler. *)
Definition NewWSListener (ownsServer : bool) : wsListener := mkWSL false false ownsServer ∅ ∅ [] [] false.

Definition wsListener_Close (t : wsListener) : wsListener :=
  if wl_closeOnce t then t
  else mkWSL true true (wl_ownsServer t) (wl_conns t) (wl_handlers t) (wl_accepted t) (wl_refused t) (wl_ownsServer t).

(** Accept: [offered] is a connection some handler is sending. *)
Definition wsListener_Accept (t : wsListener) (offered : option nat) (pick : nat) : option (goerror + nat) :=
  select pick
    [(match offered with Some _ => true | None => false end,
      match offered with Some c => inr c | None => inl (ErrPlain "") end);
     (wl_done t, inl (ErrPlain "websocket listener closed"))].

Inductive ws_outcome := OHandedOver | ORefused | OConnDone | OListenerDone.

(** The handler's two selects. *)
Definition handler_offer (t : wsListener) (accepting : bool) (pick : nat) : option ws_outcome :=
  select pick [(accepting, OHandedOver); (wl_done t, ORefused)].
Definition handler_wait (t : wsListener) (c : wsMsgConn) (pick : nat) : option ws_outcome :=
  select pick [(ws_done c, OConnDone); (wl_done t, OListenerDone)].

Definition put_handler (c : nat) (h : handlerPC) (t : wsListener) : wsListener :=
  mkWSL (wl_done t) (wl_closeOnce t) (wl_ownsServer t) (wl_conns t) (<[c := h]> (wl_handlers t))
        (wl_accepted t) (wl_refused t) (wl_serverClosed t).
Definition put_conn (c : nat) (x : wsMsgConn) (t : wsListener) : wsListener :=
  mkWSL (wl_done t) (wl_closeOnce t) (wl_ownsServer t) (<[c := x]> (wl_conns t)) (wl_handlers t)
        (wl_accepted t) (wl_refused t) (wl_serverClosed t).
Definition add_accepted (c : nat) (t : wsListener) : wsListener :=
  mkWSL (wl_done t) (wl_closeOnce t) (wl_ownsServer t) (wl_conns t) (wl_handlers t)
        (wl_accepted t ++ [c]) (wl_refused t) (wl_serverClosed t).
Definition add_refused (c : nat) (t : wsListener) : wsListener :=
  mkWSL (wl_done t) (wl_closeOnce t) (wl_ownsServer t) (wl_conns t) (wl_handlers t)
        (wl_accepted t) (wl_refused t ++ [c]) (wl_serverClosed t).

Inductive ws_step : wsListener -> wsListener -> Prop :=
| wst_upgrade t c addr wto mfs ka :          (* websocket.Accept succeeded *)
    wl_handlers t !! c = None ->
    ws_step t (put_handler c HOffering (put_conn c (newWSMsgConn addr wto mfs ka).1 t))
| wst_meet t c i j :                         (* an Accept takes the connection *)
    wl_handlers t !! c = Some HOffering ->
    handler_offer t true i = Some OHandedOver -> wsListener_Accept t (Some c) j = Some (inr c) ->
    ws_step t (add_accepted c (put_handler c HServing t))
| wst_refuse t c i :
    wl_handlers t !! c = Some HOffering -> handler_offer t false i = Some ORefused ->
    ws_step t (add_refused c (put_handler c HReturned t))
| wst_finish t c x i o :
    wl_handlers t !! c = Some HServing -> wl_conns t !! c = Some x -> handler_wait t x i = Some o ->
    ws_step t (put_handler c HReturned
      (if o is OListenerDone then put_conn c (m_st (ws_Close x)) t else t))
| wst_close_conn t c x :                     (* the RPC layer or the pinger closes it *)
    wl_conns t !! c = Some x -> ws_step t (put_conn c (m_st (ws_Close x)) t)
| wst_close t : ws_step t (wsListener_Close t).

(** What holds of connection [c] at each place of its handler. *)
Definition handler_ok (t : wsListener) (c : nat) (h : handlerPC) : Prop :=
  exists x, wl_conns t !! c = Some x /\
  match h with
  | HOffering => (c ∉ wl_accepted t) /\ (c ∉ wl_refused t)
  | HServing => (c ∈ wl_accepted t) /\ (c ∉ wl_refused t)
  | HReturned => ((c ∈ wl_accepted t) /\ ws_done x = true /\ (c ∉ wl_refused t)) \/
                 ((c ∉ wl_accepted t) /\ (c ∈ wl_refused t))
  end.

Record ws_inv (t : wsListener) : Prop := {
  wi_handlers : forall c h, wl_handlers t !! c = Some h -> handler_ok t c h;
  wi_lists : forall c, (c ∈ wl_accepted t) \/ (c ∈ wl_refused t) -> is_Some (wl_handlers t !! c);
  wi_once : NoDup (wl_accepted t)
}.

(** Another connection's handler is not touched. *)
Lemma handler_ok_frame t t' c h :
  handler_ok t c h -> wl_conns t' !! c = wl_conns t !! c ->
  (c ∈ wl_accepted t' <-> c ∈ wl_accepted t) -> (c ∈ wl_refused t' <-> c ∈ wl_refused t) -> handler_ok t' c h.
Proof. intros (x & Hx & Hh) E A R. exists x. rewrite E. split; [done|]. destruct h; rewrite ?A, ?R; done. Qed.

(** Closing a connection keeps what its handler relies on. *)
Lemma handler_ok_close t c x c' h :
  wl_conns t !! c = Some x -> handler_ok t c' h -> handler_ok (put_conn c (m_st (ws_Close x)) t) c' h.
Proof.
  intros Hx (x' & Hx' & Hh). rewrite ws_Close_run, m_st_eq. unfold handler_ok. cbn.
  destruct (decide (c' = c)) as [->|Hne]; [|rewrite lookup_insert_ne by done; eauto].
  rewrite lookup_insert_eq. eexists. split; [done|]. rewrite Hx in Hx'. injection Hx' as <-.
  destruct h; [done|done|]. destruct Hh as [(H1 & H2 & H3)|Hh]; [left|by right].
  split_and!; [done| |done]. by destruct (ws_closeOnce x).
Qed.

Lemma elem_of_snoc_ne (c c' : nat) l : c' <> c -> c' ∈ l ++ [c] <-> c' ∈ l.
Proof. intros Hne. rewrite elem_of_app, list_elem_of_singleton. intuition. Qed.

(** closeOnce guards done: a connection whose Close ran is done. *)
Lemma ws_Close_done x : (ws_closeOnce x = true -> ws_done x = true) -> ws_done (m_st (ws_Close x)) = true.
Proof. intros Hx. rewrite ws_Close_run, m_st_eq. destruct (ws_closeOnce x); auto. Qed.

Record ws_inv' (t : wsListener) : Prop := {
  wi_inv : ws_inv t;
  wi_done : forall c x, wl_conns t !! c = Some x -> ws_closeOnce x = ws_done x
}.

Lemma ws_Close_flags x : ws_closeOnce x = ws_done x -> ws_closeOnce (m_st (ws_Close x)) = ws_done (m_st (ws_Close x)).
Proof. intros Hx. rewrite ws_Close_run, m_st_eq. destruct (ws_closeOnce x) eqn:E; [congruence|done]. Qed.

Lemma put_handler_inv t c h :
  ws_inv' t -> handler_ok t c h -> ws_inv' (put_handler c h t).
Proof.
  intros [[] Hd] Hh. split; [split|exact Hd].
  - cbn. intros c' h' [[<- <-]|[Hne Hc']]%lookup_insert_Some; [exact Hh|]. exact (wi_handlers0 _ _ Hc').
  - cbn. intros c' Hin. destruct (decide (c' = c)) as [->|Hne]; [by rewrite lookup_insert_eq|].
    rewrite lookup_insert_ne by done. auto.
  - done.
Qed.

Lemma put_conn_inv t c x :
  ws_inv' t -> wl_conns t !! c = Some x -> ws_inv' (put_conn c (m_st (ws_Close x)) t).
Proof.
  intros [[] Hd] Hx. split; [split|].
  - intros c' h' Hc'. apply handler_ok_close; [done|]. exact (wi_handlers0 _ _ Hc').
  - done.
  - done.
  - cbn. intros c' x' [[<- <-]|[Hne Hx']]%lookup_insert_Some; [|by eauto]. apply ws_Close_flags. by eauto.
Qed.

Lemma ws_step_inv t t' : ws_inv' t -> ws_step t t' -> ws_inv' t'.
Proof.
  intros Hi Hst. destruct Hst as [t c addr wto mfs ka Hn|t c i j Hh Ho Ha|t c i Hh Ho|t c x i o Hh Hx Ho|t c x Hx|t].
  - assert ((c ∉ wl_accepted t) /\ (c ∉ wl_refused t)) as [Hna Hnr].
    { split; intros Hin; destruct (wi_lists _ (wi_inv _ Hi) c) as [h Hh]; auto; congruence. }
    destruct Hi as [[] Hd]. split; [split|].
    + cbn. intros c' h' [[<- <-]|[Hne Hc']]%lookup_insert_Some.
      * eexists. cbn. rewrite lookup_insert_eq. by split_and!.
      * eapply handler_ok_frame; [exact (wi_handlers0 _ _ Hc')|cbn; by rewrite lookup_insert_ne|done|done].
    + cbn. intros c' Hin. destruct (decide (c' = c)) as [->|Hne]; [by rewrite lookup_insert_eq|].
      rewrite lookup_insert_ne by done. auto.
    + done.
    + cbn. intros c' x' [[<- <-]|[Hne Hx']]%lookup_insert_Some; [done|by eauto].
  - destruct (wi_handlers _ (wi_inv _ Hi) c HOffering Hh) as (x & Hx & Hna & Hnr).
    destruct Hi as [[] Hd]. split; [split|exact Hd].
    + cbn. intros c' h' [[<- <-]|[Hne Hc']]%lookup_insert_Some.
      * exists x. cbn. rewrite elem_of_app, list_elem_of_singleton. auto.
      * eapply handler_ok_frame; [exact (wi_handlers0 _ _ Hc')|done| |done]. cbn. by apply elem_of_snoc_ne.
    + cbn. intros c' Hin. destruct (decide (c' = c)) as [->|Hne]; [by rewrite lookup_insert_eq|].
      rewrite lookup_insert_ne by done. apply wi_lists0. by rewrite elem_of_snoc_ne in Hin.
    + cbn. apply NoDup_app. split_and!; [done| |apply NoDup_singleton].
      intros c' Hc' ->%list_elem_of_singleton. done.
  - destruct (wi_handlers _ (wi_inv _ Hi) c HOffering Hh) as (x & Hx & Hna & Hnr).
    destruct Hi as [[] Hd]. split; [split|exact Hd].
    + cbn. intros c' h' [[<- <-]|[Hne Hc']]%lookup_insert_Some.
      * exists x. cbn. rewrite elem_of_app, list_elem_of_singleton. auto.
      * eapply handler_ok_frame; [exact (wi_handlers0 _ _ Hc')|done|done|]. cbn. by apply elem_of_snoc_ne.
    + cbn. intros c' Hin. destruct (decide (c' = c)) as [->|Hne]; [by rewrite lookup_insert_eq|].
      rewrite lookup_insert_ne by done. apply wi_lists0. by rewrite elem_of_snoc_ne in Hin.
    + done.
  - destruct (wi_handlers _ (wi_inv _ Hi) c HServing Hh) as (x' & Hx' & Ha & Hnr).
    rewrite Hx in Hx'. injection Hx' as <-. unfold handler_wait in Ho. select_cases Ho; injection Ho as Hb ->.
    + apply put_handler_inv; [done|]. exists x. auto.
    + apply put_handler_inv; [by apply put_conn_inv|]. eexists. cbn. rewrite lookup_insert_eq. split; [done|].
      left. split_and!; [done| |done]. apply ws_Close_done. by rewrite (wi_done _ Hi c x Hx).
  - by apply put_conn_inv.
  - unfold wsListener_Close. destruct (wl_closeOnce t); [done|]. destruct Hi as [[] Hd]. split; [split|]; done.
Qed.

Lemma NewWSListener_inv b : ws_inv' (NewWSListener b).
Proof.
  split; [split|]; cbn; try (intros *; by rewrite lookup_empty); [|constructor].
  intros c [[]%elem_of_nil|[]%elem_of_nil].
Qed.

(** The HTTP handler of a connection returns only after the connection was
    refused or is done, so the hijacked connection is never torn down while the
    server uses it; a connection is handed to one Accept only; and once the
    listener is closed no handler can stay. *)
(** C32: For every interleaving of HTTP handlers, Accept and Close of a
    WebSocket listener: a handler returns only when its connection was closed
    or was refused, a connection is accepted at most once, and after the
    listener's Close every handler can finish. *)
Theorem ws_handler_outlives_connection b t :
  reach ws_step (NewWSListener b) t ->
  (forall c, wl_handlers t !! c = Some HReturned ->
     (exists x, wl_conns t !! c = Some x /\ ws_done x = true) \/ ((c ∉ wl_accepted t) /\ (c ∈ wl_refused t))) /\
  NoDup (wl_accepted t) /\
  (wl_done t = true -> forall c h, wl_handlers t !! c = Some h ->
     exists t', reach ws_step t t' /\ wl_handlers t' !! c = Some HReturned).
Proof.
  intros Hr. apply (reach_inv ws_step ws_inv') in Hr; [|apply NewWSListener_inv|apply ws_step_inv].
  split_and!.
  - intros c Hc. destruct (wi_handlers _ (wi_inv _ Hr) _ _ Hc) as (x & Hx & [(_ & Hd & _)|Hn]); eauto.
  - apply (wi_once _ (wi_inv _ Hr)).
  - intros Hd c h Hc. destruct (wi_handlers _ (wi_inv _ Hr) _ _ Hc) as (x & Hx & _). destruct h.
    + eexists. split; [eapply reach_next; [apply reach_here|eapply (wst_refuse t c 0); [done|]]|].
      * unfold handler_offer. by rewrite Hd.
      * cbn. apply lookup_insert_eq.
    + destruct (select_any [(ws_done x, OConnDone); (wl_done t, OListenerDone)] OListenerDone) as (i & Hi).
      { rewrite Hd. right. left. }
      eexists. split; [eapply reach_next; [apply reach_here|eapply (wst_finish t c x i); [done|done|exact Hi]]|].
      cbn. apply lookup_insert_eq.
    + exists t. split; [apply reach_here|done].
Qed.

(** ** Dialing *)

Definition defaultWSDialTimeout : Z := 30000.

(** The deadline the dial runs under, in milliseconds from now: the caller's, or
    the dialer's own when the context has none. *)
Definition wsDialer_deadline (ctxDeadline : option Z) (dialTimeout : Z) : option Z :=
  match ctxDeadline with
  | Some dl => Some dl
  | None => if 0 <? dialTimeout then Some dialTimeout else None
  end.

(** Dial: [dialed] is the outcome of websocket.Dial. *)
Definition wsDialer_Dial (url : string) (writeTO maxFrameSize keepAlive : Z) (dialed : option string)
    : string + wsMsgConn * bool :=
  match dialed with
  | Some e => inl e
  | None => inr (newWSMsgConn url writeTO maxFrameSize keepAlive)
  end.
End ws.

(** ** Witness: an upgraded connection handed to Accept, and the listener closed. *)

Section ws_witness.
#[local] Existing Instance RefValueLib.

Definition demo_ws1 : wsListener :=
  put_handler 0 HOffering (put_conn 0 (newWSMsgConn "peer" 10 0 15).1 (NewWSListener true)).
Definition demo_ws2 : wsListener := add_accepted 0 (put_handler 0 HServing demo_ws1).
Definition demo_ws3 : wsListener := wsListener_Close demo_ws2.

Lemma ws_handler_outlives_connection_witness :
  wl_accepted demo_ws3 = [0%nat] /\ exists t', reach ws_step demo_ws3 t' /\ wl_handlers t' !! 0%nat = Some HReturned.
Proof.
  assert (reach ws_step (NewWSListener true) demo_ws3) as Hr.
  { eapply reach_next; [eapply reach_next; [eapply reach_next; [apply reach_here|]|]|].
    - exact (wst_upgrade (NewWSListener true) 0 "peer" 10 0 15 eq_refl).
    - exact (wst_meet demo_ws1 0 0 0 eq_refl eq_refl eq_refl).
    - exact (wst_close demo_ws2). }
  split; [reflexivity|].
  exact (proj2 (proj2 (ws_handler_outlives_connection true demo_ws3 Hr)) eq_refl 0%nat HServing eq_refl).
Defined.
End ws_witness.
