(* ===== verification/Transport.v ===== *)
(** * Addresses, listeners and dialers

    Models valuerpc/transport.go, transport_conn.go, transport_tls.go and
    peercred*.go: parsing a schemed address, the factories that choose a
    transport, Unix sockets and their stale files, the bring-your-own-connection
    adapters, keep-alive, peer certificates and credentials.

    What the operating system, the TLS library and a SOCKS5 proxy answer are
    arguments.  The file system is a map from paths to kinds of files, and the
    in-memory registry is the one of [MemTransport]. *)

From S2P Require Import Prelude Value RefValue Protocol Framing Channels MsgConn MemTransport WebSocket.


(** ** Addresses *)

Definition ParseAddress (address : string) : string * string :=
  match String.index 0 "://" address with
  | Some i => (String.substring 0 i address, String.substring (i + 3) (String.length address - (i + 3)) address)
  | None => ("tcp"%string, address)
  end.

Definition splitWSPath (addr : string) : string * string :=
  match String.index 0 "/" addr with
  | Some i => (String.substring 0 i addr, String.substring i (String.length addr - i) addr)
  | None => (addr, "/"%string)
  end.

(** ** Connections of the operating system *)

(** A connection is its socket ([fd]); what the system reports about a socket is a
    function of it. *)
Inductive netConn :=
| TCPConn (fd : nat)
| UnixConn (fd : nat)
| TLSConn (inner : netConn)
| ProxyConn (fd : nat).         (* what a SOCKS5 dialer returned *)

Inductive keepalive_ev := SetKeepAlive | SetKeepAlivePeriod (period : Z).

Definition enableKeepAlive (conn : netConn) (period : Z) : list keepalive_ev :=
  let conn := match conn with TLSConn inner => inner | c => c end in
  match conn with
  | TCPConn _ => if 0 <? period then [SetKeepAlive; SetKeepAlivePeriod period] else []
  | _ => []
  end.

(** A MsgConn, as far as the code distinguishes them. *)
Inductive msgConn :=
| MAdapter (conn : netConn) (t : messageConnAdapter) (ka : list keepalive_ev)
| MWebSocket (t : wsMsgConn) (pinger : bool)
| MMem (c : memConn)
| MQuic (conn : nat).

(** ** Listeners *)

Record streamListener := mkSL {
  sl_network : string;
  sl_address : string;
  sl_tls : bool;
  sl_keepAlive : Z;
  sl_writeTimeout : Z;
  sl_maxFrameSize : Z
}.

Record wsEndpoint := mkWE { we_host : string; we_path : string; we_writeTO : Z; we_maxFrameSize : Z; we_keepAlive : Z }.

Inductive Listener :=
| StreamListener (l : streamListener)
| WSListener (l : wsEndpoint)
| MemListener (l : nat).

(** [listenErr] is the outcome of net.Listen. *)
Definition NewStreamListener (network address : string) (keepAlive writeTimeout maxFrameSize : Z)
    (listenErr : option goerror) : goerror + Listener :=
  match listenErr with
  | Some e => inl e
  | None => inr (StreamListener (mkSL network address false keepAlive writeTimeout maxFrameSize))
  end.

(** [config] says whether a tls.Config was given. *)
Definition NewTLSListener (addr : string) (config : bool) (keepAlive writeTimeout maxFrameSize : Z)
    (listenErr : option goerror) : goerror + Listener :=
  if negb config then inl (ErrPlain "tls listener requires a non-nil *tls.Config with a server certificate")
  else match listenErr with
       | Some e => inl e
       | None => inr (StreamListener (mkSL "tcp" addr true keepAlive writeTimeout maxFrameSize))
       end.

Definition NewWebSocketListener (addr path : string) (writeTimeout maxFrameSize keepAlive : Z)
    (listenErr : option goerror) : goerror + Listener :=
  let path := if bool_decide (path = ""%string) then "/"%string else path in
  match listenErr with
  | Some e => inl e
  | None => inr (WSListener (mkWE addr path writeTimeout maxFrameSize keepAlive))
  end.

(** Accept of a stream listener: [accepted] is what the socket returned. *)
Definition streamListener_Accept (l : streamListener) (accepted : goerror + netConn) : goerror + msgConn :=
  match accepted with
  | inl e => inl e
  | inr c => inr (MAdapter c (NewMsgConn (sl_writeTimeout l) (sl_maxFrameSize l)) (enableKeepAlive c (sl_keepAlive l)))
  end.

(** ** Files and the world the factories act on *)

Inductive fileKind := FSocket | FOther.

Record world := mkWorld { w_files : gmap string fileKind; w_mem : memWorld }.

Definition upd_w_files f (t : world) : world := mkWorld (f (w_files t)) (w_mem t).
Definition upd_w_mem f (t : world) : world := mkWorld (w_files t) (f (w_mem t)).

Section factories.
Context (quote : string -> string).

Inductive world_ev := WNothing.
Abbreviation WM := (M world world_ev).

(** removeStaleSocket: [lstatErr] is an error of Lstat other than that the file
    does not exist, [removeErr] the outcome of os.Remove. *)
Definition removeStaleSocket (path : string) (lstatErr removeErr : option goerror) : WM (option goerror) :=
  match lstatErr with
  | Some e => mret (Some e)
  | None =>
      t ← gets id;
      match w_files t !! path with
      | None => mret None
      | Some FOther => mret (Some (ErrPlain ("refusing to remove non-socket file at " +:+ quote path)))
      | Some FSocket =>
          match removeErr with
          | Some e => mret (Some e)
          | None => modify (upd_w_files (delete path)) ≫= fun _ => mret None
          end
      end
  end.

Definition NewUnixListener (path : string) (writeTimeout maxFrameSize : Z) (lstatErr removeErr listenErr : option goerror)
    : WM (goerror + Listener) :=
  removeStaleSocket path lstatErr removeErr ≫= fun err =>
  match err with
  | Some e => mret (inl e)
  | None => mret (NewStreamListener "unix" path 0 writeTimeout maxFrameSize listenErr)
  end.

Definition newMem (name : string) : WM (goerror + Listener) :=
  t ← gets id;
  let r := NewMemListener quote name (w_mem t) in
  modify (upd_w_mem (fun _ => m_st r)) ≫= fun _ =>
  mret (match m_res r with inl e => inl e | inr l => inr (MemListener l) end).

Definition NewListener (address : string) (keepAlive writeTimeout maxFrameSize : Z)
    (lstatErr removeErr listenErr : option goerror) : WM (goerror + Listener) :=
  let '(network, addr) := ParseAddress address in
  if bool_decide (network ∈ ["unix"; "unixpacket"]) then
    NewUnixListener addr writeTimeout maxFrameSize lstatErr removeErr listenErr
  else if bool_decide (network ∈ ["tcp"; "tcp4"; "tcp6"]) then
    mret (NewStreamListener network addr keepAlive writeTimeout maxFrameSize listenErr)
  else if bool_decide (network = "ws") then
    let '(host, path) := splitWSPath addr in
    mret (NewWebSocketListener host path writeTimeout maxFrameSize keepAlive listenErr)
  else if bool_decide (network = "wss") then
    mret (inl (ErrPlain "wss:// server needs TLS; mount valueserver.NewWebSocketHandler on your own TLS http.Server"))
  else if bool_decide (network = "tls") then
    mret (inl (ErrPlain "tls:// server needs a *tls.Config with a certificate; use valueserver.NewTLSServer"))
  else if bool_decide (network = "quic") then
    mret (inl (ErrPlain "quic:// is provided by the separate module go.arpabet.com/value-rpc/quic (valuequic.NewServer)"))
  else if bool_decide (network = "mem") then newMem addr
  else mret (inl (ErrPlain ("unsupported listen network " +:+ quote network +:+ " in address " +:+ quote address))).

(** ** Dialers *)

Record streamDialer := mkSD {
  sd_network : string;
  sd_address : string;
  sd_socks5 : string;
  sd_keepAlive : Z;
  sd_writeTimeout : Z;
  sd_maxFrameSize : Z
}.

Record tlsDialer := mkTD { td_address : string; td_config : bool; td_keepAlive : Z; td_writeTimeout : Z; td_maxFrameSize : Z }.
Record wsDialer := mkWD { wd_url : string; wd_writeTO : Z; wd_maxFrameSize : Z; wd_keepAlive : Z; wd_dialTimeout : Z }.

Inductive Dialer :=
| StreamDialer (d : streamDialer)
| TLSDialer (d : tlsDialer)
| WSDialer (d : wsDialer)
| MemDialer (name : string)
| ErrDialer (e : goerror).

Definition NewStreamDialer (network address socks5 : string) (keepAlive writeTimeout maxFrameSize : Z) : Dialer :=
  StreamDialer (mkSD network address socks5 keepAlive writeTimeout maxFrameSize).
Definition NewTLSDialer (address : string) (config : bool) (keepAlive writeTimeout maxFrameSize : Z) : Dialer :=
  TLSDialer (mkTD address config keepAlive writeTimeout maxFrameSize).
Definition newWSDialer (url : string) (writeTimeout maxFrameSize keepAlive : Z) : Dialer :=
  WSDialer (mkWD url writeTimeout maxFrameSize keepAlive defaultWSDialTimeout).

Definition NewDialer (address socks5 : string) (keepAlive writeTimeout maxFrameSize : Z) : Dialer :=
  let '(network, addr) := ParseAddress address in
  if bool_decide (network ∈ ["unix"; "unixpacket"]) then NewStreamDialer network addr "" 0 writeTimeout maxFrameSize
  else if bool_decide (network ∈ ["tcp"; "tcp4"; "tcp6"]) then
    NewStreamDialer network addr socks5 keepAlive writeTimeout maxFrameSize
  else if bool_decide (network ∈ ["ws"; "wss"]) then
    newWSDialer (network +:+ "://" +:+ addr) writeTimeout maxFrameSize keepAlive
  else if bool_decide (network = "tls") then NewTLSDialer addr false keepAlive writeTimeout maxFrameSize
  else if bool_decide (network = "quic") then
    ErrDialer (ErrPlain "quic:// is provided by the separate module go.arpabet.com/value-rpc/quic (valuequic.NewClient)")
  else if bool_decide (network = "mem") then MemDialer addr
  else ErrDialer (ErrPlain ("unsupported dial network " +:+ quote network +:+ " in address " +:+ quote address)).

(** Dial of a stream dialer: [proxyErr] is the outcome of building the proxy
    dialer, [dialErr] that of the dial, [fd] the socket it opened. *)
Definition streamDialer_Dial (d : streamDialer) (fd : nat) (proxyErr dialErr : option goerror) : goerror + msgConn :=
  if negb (bool_decide (sd_socks5 d = ""%string)) then
    match proxyErr with
    | Some e => inl e
    | None =>
        match dialErr with
        | Some e => inl e
        | None => inr (MAdapter (ProxyConn fd) (NewMsgConn (sd_writeTimeout d) (sd_maxFrameSize d)) [])
        end
    end
  else
    match dialErr with
    | Some e => inl e
    | None =>
        let c := if bool_decide (sd_network d ∈ ["unix"; "unixpacket"]) then UnixConn fd else TCPConn fd in
        inr (MAdapter c (NewMsgConn (sd_writeTimeout d) (sd_maxFrameSize d)) (enableKeepAlive c (sd_keepAlive d)))
    end.

Definition tlsDialer_Dial (d : tlsDialer) (fd : nat) (dialErr : option goerror) : goerror + msgConn :=
  match dialErr with
  | Some e => inl e
  | None => inr (MAdapter (TLSConn (TCPConn fd)) (NewMsgConn (td_writeTimeout d) (td_maxFrameSize d))
                   (enableKeepAlive (TLSConn (TCPConn fd)) (td_keepAlive d)))
  end.

Definition errDialer_Dial (e : goerror) : goerror + msgConn := inl e.
End factories.

(** ** Bring your own connection (transport_conn.go) *)

Definition ErrConnConsumed : goerror := ErrPlain "value-rpc: connection already consumed".
Definition ErrListenerClosed : goerror := ErrPlain "value-rpc: listener closed".

(** funcDialer: every Dial calls the user's function. *)
Definition funcDialer_Dial (writeTimeout : Z) (connect : goerror + netConn) : goerror + msgConn :=
  match connect with
  | inl e => inl e
  | inr c => inr (MAdapter c (NewMsgConn writeTimeout MaxFrameSize) [])
  end.

Record singleConnDialer := mkSCD { scd_conn : netConn; scd_writeTimeout : Z; scd_used : bool }.

Definition NewSingleConnDialer (conn : netConn) (writeTimeout : Z) : singleConnDialer := mkSCD conn writeTimeout false.

Definition singleConnDialer_Dial (d : singleConnDialer) : (goerror + msgConn) * singleConnDialer :=
  if scd_used d then (inl ErrConnConsumed, d)
  else (inr (MAdapter (scd_conn d) (NewMsgConn (scd_writeTimeout d) MaxFrameSize) []),
        mkSCD (scd_conn d) (scd_writeTimeout d) true).

(** funcListener; [stop] is the user's hook and what it returns. *)
Record funcListener := mkFLi {
  fli_addr : option string;
  fli_stop : option (option goerror);
  fli_writeTimeout : Z;
  fli_closeOnce : bool;
  fli_closeErr : option goerror;
  fli_stops : nat                  (* how often the hook ran *)
}.

Definition NewAcceptListener (addr : option string) (stop : option (option goerror)) (writeTimeout : Z) : funcListener :=
  mkFLi addr stop writeTimeout false None 0.

Definition funcListener_Accept (l : funcListener) (accepted : goerror + netConn) : goerror + msgConn :=
  match accepted with
  | inl e => inl e
  | inr c => inr (MAdapter c (NewMsgConn (fli_writeTimeout l) MaxFrameSize) [])
  end.

Definition byoAddr_String : string := "".
Definition funcListener_Addr (l : funcListener) : string := default byoAddr_String (fli_addr l).

Definition funcListener_Close (l : funcListener) : option goerror * funcListener :=
  if fli_closeOnce l then (fli_closeErr l, l)
  else match fli_stop l with
       | Some r => (r, mkFLi (fli_addr l) (fli_stop l) (fli_writeTimeout l) true r (S (fli_stops l)))
       | None => (fli_closeErr l, mkFLi (fli_addr l) (fli_stop l) (fli_writeTimeout l) true (fli_closeErr l) (fli_stops l))
       end.

(** The accept and stop functions of NewSingleConnListener: a channel that holds
    the one connection, and a done channel. *)
Record singleConnSource := mkSCS { scs_queue : option netConn; scs_done : bool }.

Definition NewSingleConnSource (conn : netConn) : singleConnSource := mkSCS (Some conn) false.

Definition singleConn_accept (s : singleConnSource) (pick : nat) : option ((goerror + netConn) * singleConnSource) :=
  select pick
    [(match scs_queue s with Some _ => true | None => false end,
      match scs_queue s with
      | Some c => (inr c, mkSCS None (scs_done s))
      | None => (inl ErrListenerClosed, s)
      end);
     (scs_done s, (inl ErrListenerClosed, s))].

Definition singleConn_stop (s : singleConnSource) : option goerror * singleConnSource :=
  (None, mkSCS (scs_queue s) true).

(** ** Certificates and credentials of a peer *)

Section peers.
(** The verified chain a TLS connection reports after its handshake, and that of a
    QUIC connection. *)
Context {Cert : Type} (chainOf : netConn -> list Cert) (quicChain : nat -> list Cert).

(** TLSConnectionState of the adapter and of QUIC; the other MsgConns do not
    implement TLSStateConn. *)
Definition TLSConnectionState (c : msgConn) : option (option (list Cert)) :=
  match c with
  | MAdapter (TLSConn inner) _ _ => Some (Some (chainOf (TLSConn inner)))
  | MAdapter _ _ _ => Some None
  | MQuic conn => Some (Some (quicChain conn))
  | MWebSocket _ _ | MMem _ => None
  end.

Definition PeerCertificates (c : msgConn) : option (list Cert) :=
  match TLSConnectionState c with
  | None => None
  | Some None => None
  | Some (Some certs) => if bool_decide (length certs = 0%nat) then None else Some certs
  end.

Record PeerCred := mkCred { UID : Z; GID : Z; PID : Z }.

Definition errNotUnixConn : goerror := ErrPlain "not a unix-domain-socket connection".

(** readPeerCred (Linux): the outcomes of SyscallConn, of Control and of the
    getsockopt call. *)
Definition readPeerCred_linux (rawErr ctlErr : option goerror) (ucred : goerror + PeerCred) : goerror + PeerCred :=
  match rawErr with
  | Some e => inl e
  | None => match ctlErr with Some e => inl e | None => ucred end
  end.

(** readPeerCred (macOS): the groups are a list of which the first is primary. *)
Definition readPeerCred_darwin (rawErr ctlErr : option goerror) (xucred : goerror + Z * list Z) (pid : goerror + Z)
    : goerror + PeerCred :=
  match rawErr with
  | Some e => inl e
  | None =>
      match ctlErr with
      | Some e => inl e
      | None =>
          match xucred with
          | inl e => inl e
          | inr (uid, groups) =>
              match pid with
              | inl e => inl e
              | inr p => inr (mkCred uid (match groups with g :: _ => g | [] => 0 end) (wrap32 p))
              end
          end
      end
  end.

Definition readPeerCred_other : goerror + PeerCred :=
  inl (ErrPlain "peer credentials are not supported on this platform").

(** [readPeerCred] is the platform's, on a socket. *)
Definition peerCred (readPeerCred : nat -> goerror + PeerCred) (c : netConn) : goerror + PeerCred :=
  match c with UnixConn fd => readPeerCred fd | _ => inl errNotUnixConn end.

Definition PeerCredOf (readPeerCred : nat -> goerror + PeerCred) (c : msgConn) : option PeerCred :=
  match c with
  | MAdapter conn _ _ => match peerCred readPeerCred conn with inr x => Some x | inl _ => None end
  | _ => None
  end.

(** Credentials come from the connection's own Unix socket only, certificates from
    its own TLS or QUIC connection only. *)
Lemma PeerCredOf_spec rp c x :
  PeerCredOf rp c = Some x <-> exists fd t ka, c = MAdapter (UnixConn fd) t ka /\ rp fd = inr x.
Proof.
  unfold PeerCredOf, peerCred. split.
  - destruct c as [[] t ka| | |]; try done. destruct (rp fd) eqn:E; [done|]. intros [= ->]. eauto 10.
  - intros (fd & t & ka & -> & ->). done.
Qed.
Lemma PeerCertificates_spec c certs :
  PeerCertificates c = Some certs <->
  certs <> [] /\ ((exists inner t ka, c = MAdapter (TLSConn inner) t ka /\ certs = chainOf (TLSConn inner)) \/
                  exists conn, c = MQuic conn /\ certs = quicChain conn).
Proof.
  unfold PeerCertificates, TLSConnectionState. split.
  - intros Hc. destruct c as [[] t ka| | |]; try done; case_bool_decide as Hl; simplify_eq;
      (split; [intros E; apply Hl; by rewrite E|]); eauto 10.
  - intros [Hne [(inner & t & ka & -> & ->)|(conn & -> & ->)]];
      rewrite bool_decide_false; try done; by intros ?%nil_length_inv.
Qed.
End peers.

(** ** Theorems *)

Lemma index_scheme (n a : string) :
  (forall c, c ∈ bytes_of_string n -> c <> ":"%char) ->
  String.index 0 "://" (n +:+ "://" +:+ a) = Some (String.length n).
Proof.
  intros Hn. induction n as [|c n IH]; [by destruct a|].
  assert (c <> ":"%char) as Hc by (apply Hn; left).
  change (String.index 0 "://" (String c (n +:+ "://" +:+ a)) = Some (S (String.length n))).
  cbn [String.index]. replace (String.prefix "://" (String c (n +:+ "://" +:+ a))) with false.
  - rewrite IH; [done|]. intros x Hx. apply Hn. by right.
  - symmetry. cbn [String.prefix]. destruct (ascii_dec ":" c); [congruence|done].
Qed.

Lemma string_cons_app c (s a : string) : String c s +:+ a = String c (s +:+ a).
Proof. done. Qed.

Lemma substring_all (s : string) : String.substring 0 (String.length s) s = s.
Proof. induction s as [|c s IH]; [done|]. cbn. by rewrite IH. Qed.

Lemma substring_prefix (n a : string) : String.substring 0 (String.length n) (n +:+ a) = n.
Proof. induction n as [|c n IH]; [by destruct a|]. rewrite string_cons_app. cbn. by rewrite IH. Qed.

Lemma substring_suffix (n a : string) k m :
  k = String.length n -> m = String.length a -> String.substring k m (n +:+ a) = a.
Proof. intros -> ->. induction n as [|c n IH]; [apply substring_all|done]. Qed.

Lemma string_length_app (a b : string) : String.length (a +:+ b) = (String.length a + String.length b)%nat.
Proof. induction a as [|c a IH]; [done|]. rewrite string_cons_app. cbn. by rewrite IH. Qed.

Lemma string_app_assoc (a b c : string) : (a +:+ b) +:+ c = a +:+ (b +:+ c).
Proof. induction a as [|x a IH]; [done|]. by rewrite !string_cons_app, IH. Qed.

(** A search that succeeds splits the string at the place it found. *)
Lemma index_split (p s : string) i :
  p <> "" -> String.index 0 p s = Some i -> exists n a, s = n +:+ p +:+ a /\ String.length n = i.
Proof.
  intros Hp. revert i. induction s as [|c s IH]; intros i Hi; [by destruct p|].
  cbn [String.index] in Hi. destruct (String.prefix p (String c s)) eqn:Hpre.
  - injection Hi as <-. exists "". clear IH. revert p Hp Hpre.
    induction (String c s) as [|x r IHr]; intros [|y p] Hp Hpre; try done.
    cbn [String.prefix] in Hpre. destruct (ascii_dec y x) as [->|]; [|done].
    destruct p as [|z p]; [by exists r|]. destruct (IHr (String z p)) as (a & E & _); [done|done|].
    exists a. split; [|done]. change (String x r = String x (String z p +:+ a)). by rewrite E.
  - destruct (String.index 0 p s) as [j|]; [|done]. injection Hi as <-.
    destruct (IH j eq_refl) as (n & a & -> & Hl). exists (String c n), a. split; [done|]. cbn. by rewrite Hl.
Qed.

(** Where a separator is found, the two parts are what is before and after it. *)
Lemma split_at (p s : string) i :
  p <> "" -> String.index 0 p s = Some i ->
  let k := (i + String.length p)%nat in
  s = String.substring 0 i s +:+ p +:+ String.substring k (String.length s - k) s.
Proof.
  intros Hp (n & a & -> & <-)%index_split; [|done]. cbn zeta.
  rewrite substring_prefix. do 2 f_equal. rewrite <- string_app_assoc. symmetry. apply substring_suffix.
  - by rewrite string_length_app.
  - rewrite !string_length_app. lia.
Qed.

(** A schemed address is taken apart at its scheme, a bare one is a TCP address,
    and nothing of the address is lost. *)
Theorem parse_address_roundtrip :
  (forall network addr, (forall c, c ∈ bytes_of_string network -> c <> ":"%char) ->
     ParseAddress (network +:+ "://" +:+ addr) = (network, addr)) /\
  (forall address, let '(network, addr) := ParseAddress address in
     address = network +:+ "://" +:+ addr \/
     (network = "tcp" /\ addr = address /\ forall n a, address = n +:+ "://" +:+ a -> False)).
Proof.
  split.
  - intros n a Hn. unfold ParseAddress. rewrite index_scheme by done. f_equal; [apply substring_prefix|].
    rewrite <- (string_app_assoc n). apply substring_suffix.
    + by rewrite string_length_app.
    + rewrite !string_length_app. cbn. lia.
  - intros s. unfold ParseAddress. destruct (String.index 0 "://" s) as [i|] eqn:E.
    + left. by apply (split_at "://" s i).
    + right. split_and!; [done|done|]. intros n a ->. revert E. clear. induction n as [|c n IH]; [by destruct a|].
      change (String.index 0 "://" (String c (n +:+ "://" +:+ a)) = None -> False).
      cbn [String.index]. destruct (String.prefix _ _); [done|]. destruct (String.index 0 "://" _); [done|auto].
Qed.

(** A dialer and a listener that meet: the same socket network and address, the
    same WebSocket endpoint, or a name that leads to the listener. *)
Definition reaches (d : Dialer) (l : Listener) (t : world) : Prop :=
  match d, l with
  | StreamDialer d, StreamListener l => sd_network d = sl_network l /\ sd_address d = sl_address l /\ sl_tls l = false
  | WSDialer d, WSListener l =>
      wd_url d = "ws://" +:+ we_host l +:+ we_path l \/ (we_path l = "/" /\ wd_url d = "ws://" +:+ we_host l)
  | MemDialer name, MemListener l => mw_registry (w_mem t) !! name = Some l
  | _, _ => False
  end.

Lemma splitWSPath_spec addr host path :
  splitWSPath addr = (host, path) -> path <> "" /\ (addr = host +:+ path \/ (path = "/" /\ addr = host)).
Proof.
  unfold splitWSPath. destruct (String.index 0 "/" addr) as [i|] eqn:E.
  - apply index_split in E as (n & a & -> & <-); [|done]. intros [= <- <-].
    rewrite substring_prefix. rewrite (substring_suffix n ("/" +:+ a)); [|done|rewrite string_length_app; lia].
    split; [done|by left].
  - intros [= <- <-]. auto.
Qed.

(** The same address given to a server and to a client names the same endpoint,
    whenever a server can listen on it, for every network but unixpacket. *)
Theorem same_address_connects quote address socks5 ka wto mfs e1 e2 e3 t l :
  m_res (NewListener quote address ka wto mfs e1 e2 e3 t) = inr l ->
  (ParseAddress address).1 <> "unixpacket" ->
  reaches (NewDialer quote address socks5 ka wto mfs) l (m_st (NewListener quote address ka wto mfs e1 e2 e3 t)).
Proof.
  unfold NewListener, NewDialer. destruct (ParseAddress address) as [network addr]. cbn [fst]. intros Hl Hne. revert Hl.
  case_bool_decide as Hu.
  { apply elem_of_cons in Hu as [->|Hu%list_elem_of_singleton]; [|done].
    unfold NewUnixListener. rewrite M_bind_st. unfold mbind, M_bind, m_res.
    destruct (removeStaleSocket quote addr e1 e2 t) as [[[e|] t1] o]; cbn; [done|]. destruct e3; cbn; [done|].
    intros [= <-]. done. }
  case_bool_decide as Ht.
  { unfold m_res. cbn. destruct e3; cbn; [done|]. by intros [= <-]. }
  case_bool_decide as Hws.
  { subst network. rewrite bool_decide_true by (left). destruct (splitWSPath addr) as [host path] eqn:Es.
    apply splitWSPath_spec in Es as [Hp Es]. unfold m_res, NewWebSocketListener. rewrite bool_decide_false by done. cbn.
    destruct e3; cbn; [done|]. intros [= <-]. cbn. destruct Es as [->|[-> ->]]; [by left|by right]. }
  case_bool_decide as Hwss; [done|]. rewrite (bool_decide_false (network ∈ ["ws"; "wss"])).
  2:{ intros [E|E%list_elem_of_singleton]%elem_of_cons; done. }
  case_bool_decide as Htls; [done|]. case_bool_decide as Hq; [done|]. case_bool_decide as Hm; [|done].
  unfold newMem. rewrite M_gets_bind. cbn [id]. rewrite M_modify_bind. unfold m_res, m_st, NewMemListener.
  destruct (mw_registry (w_mem t) !! addr) eqn:Er; unfold mbind, M_bind, gets, modify, mret, M_ret; cbn; rewrite Er; cbn; [done|].
  intros [= <-]. apply lookup_insert_eq.
Qed.

(** A unixpacket address listens on a stream socket but dials a packet socket. *)
Theorem unixpacket_mismatch quote addr socks5 ka wto mfs t l :
  m_res (NewListener quote ("unixpacket://" +:+ addr) ka wto mfs None None None t) = inr l ->
  ~ reaches (NewDialer quote ("unixpacket://" +:+ addr) socks5 ka wto mfs) l
      (m_st (NewListener quote ("unixpacket://" +:+ addr) ka wto mfs None None None t)).
Proof.
  assert (ParseAddress ("unixpacket://" +:+ addr) = ("unixpacket", addr)) as E.
  { apply (proj1 parse_address_roundtrip "unixpacket" addr). intros c Hc. cbn in Hc.
    repeat (apply elem_of_cons in Hc as [->|Hc]; [done|]). by apply elem_of_nil in Hc. }
  unfold NewListener, NewDialer. rewrite E. rewrite !(bool_decide_true ("unixpacket" ∈ ["unix"; "unixpacket"])) by (right; left).
  unfold NewUnixListener, mbind, M_bind, m_res.
  destruct (removeStaleSocket quote addr None None t) as [[[e|] t1] o]; cbn; [done|].
  intros [= <-]. cbn. intros [Hx _]. discriminate Hx.
Qed.

(** NewUnixListener removes a stale socket and nothing else: whatever the
    operating system answers, a file that is not a socket is still there and makes
    it fail, and no other path changes. *)
Theorem unix_listener_spares_files quote path wto mfs e1 e2 e3 t :
  let r := NewUnixListener quote path wto mfs e1 e2 e3 t in
  (forall p, p <> path -> w_files (m_st r) !! p = w_files t !! p) /\
  (w_files t !! path = Some FOther -> w_files (m_st r) = w_files t /\ exists e, m_res r = inl e) /\
  (forall l, m_res r = inr l -> e1 = None -> w_files (m_st r) !! path = None).
Proof.
  intros r. subst r. unfold NewUnixListener, removeStaleSocket, mbind, M_bind, gets, modify, mret, M_ret, m_res, m_st.
  destruct e1 as [e|]; cbn; [split_and!; naive_solver|].
  destruct (w_files t !! path) as [[]|] eqn:Ef; cbn; [destruct e2 as [e|]; cbn| |]; split_and!; try naive_solver.
  - intros p Hne. by rewrite lookup_delete_ne.
  - intros l Hl _. apply lookup_delete_eq.
Qed.

(** ** Once-only adapters *)

Fixpoint dials (n : nat) (d : singleConnDialer) : list (goerror + msgConn) :=
  match n with
  | O => []
  | S n' => let '(r, d') := singleConnDialer_Dial d in r :: dials n' d'
  end.

Lemma dials_used n d : scd_used d = true -> dials n d = replicate n (inl ErrConnConsumed).
Proof.
  intros Hu. induction n as [|n IH]; [done|]. cbn. unfold singleConnDialer_Dial. rewrite Hu. cbn. by rewrite IH.
Qed.

Fixpoint closes (n : nat) (l : funcListener) : list (option goerror) * funcListener :=
  match n with
  | O => ([], l)
  | S n' => let '(r, l') := funcListener_Close l in let '(rs, l'') := closes n' l' in (r :: rs, l'')
  end.

Lemma closes_closed n l : fli_closeOnce l = true -> closes n l = (replicate n (fli_closeErr l), l).
Proof.
  intros Hc. induction n as [|n IH]; [done|]. cbn. unfold funcListener_Close. rewrite Hc, IH. done.
Qed.

(** A supplied connection is handed out once and every later dial fails with
    ErrConnConsumed; the stop hook of a listener runs once however often it is
    closed, and every Close returns its error. *)
Theorem supplied_connection_once conn wto addr stop n :
  dials (S n) (NewSingleConnDialer conn wto) =
    inr (MAdapter conn (NewMsgConn wto MaxFrameSize) []) :: replicate n (inl ErrConnConsumed) /\
  let '(rs, l) := closes (S n) (NewAcceptListener addr stop wto) in
  rs = replicate (S n) (default None stop) /\ fli_stops l = match stop with Some _ => 1%nat | None => 0%nat end.
Proof.
  split.
  - cbn. by rewrite dials_used.
  - cbn [closes]. unfold funcListener_Close. destruct stop as [e|]; cbn; by rewrite closes_closed.
Qed.

(** The single-connection listener yields its connection once; after Close, and
    with the connection taken, Accept fails at once, and before Close it waits. *)
Theorem single_listener_accepts_once conn s0 r s pick :
  s0 = NewSingleConnSource conn -> singleConn_accept s0 pick = Some (r, s) ->
  r = inr conn /\ (forall i, singleConn_accept s i = None) /\
  forall i, singleConn_accept (singleConn_stop s).2 i = Some (inl ErrListenerClosed, (singleConn_stop s).2).
Proof.
  intros -> Hs. unfold singleConn_accept in Hs. cbn in Hs. select_cases Hs; simplify_eq. split_and!; [done| |].
  - intros i. apply select_blocks. repeat constructor.
  - intros i. destruct (singleConn_accept (singleConn_stop (mkSCS None false)).2 i) as [x|] eqn:E.
    + unfold singleConn_accept in E. cbn in E. select_cases E; simplify_eq. done.
    + apply select_blocks in E. cbn in E. by inversion_clear E as [|? ? _ E']; inversion E'.
Qed.

Section limits.
Context `{ValueLib}.

(** A frame limit of zero or less turns the limit off, on stream and WebSocket
    connections alike. *)
Theorem nonpositive_limit_is_unlimited l accepted c t ka stream n max :
  sl_maxFrameSize l <= 0 -> streamListener_Accept l accepted = inr (MAdapter c t ka) ->
  (ReadMessage t stream).1 <> inr (FrameTooLarge n max) /\
  forall addr wto keep payload, within_limit (newWSMsgConn addr wto (sl_maxFrameSize l) keep).1 payload = true.
Proof.
  intros Hl Ha. destruct accepted as [e|c']; [done|]. injection Ha as <- <- <-. split.
  - unfold ReadMessage. destruct (ReadFull stream 4) as [[lenBuf rest]|e] eqn:E4; cbn -[ReadFull].
    2:{ intros [= ->]. unfold ReadFull in E4. repeat case_bool_decide; simplify_eq. }
    rewrite (proj2 (Z.ltb_ge _ _)) by done. cbn -[ReadFull].
    destruct (ReadFull rest _) as [[p rest']|e] eqn:Ep.
    2:{ cbn. intros [= ->]. unfold ReadFull in Ep. repeat case_bool_decide; simplify_eq. }
    destruct (Unpack p); [case_decide|]; done.
  - intros addr wto keep payload. unfold within_limit, newWSMsgConn. cbn [fst].
    by rewrite (proj2 (Z.ltb_ge 0 (sl_maxFrameSize l)) Hl).
Qed.
End limits.

(** ** Witnesses *)

Section transport_witness.
#[local] Existing Instance RefValueLib.

Definition demo_world : world := mkWorld {[ "/run/rpc.sock" := FSocket; "/etc/passwd" := FOther ]} noMem.

Lemma same_address_connects_witness :
  reaches (NewDialer demo_quote "mem://billing" "" 0 0 0) (MemListener 0)
    (m_st (NewListener demo_quote "mem://billing" 0 0 0 None None None demo_world)).
Proof.
  apply (same_address_connects demo_quote "mem://billing" "" 0 0 0 None None None demo_world (MemListener 0)).
  - vm_compute. reflexivity.
  - vm_compute. discriminate.
Defined.

Lemma unixpacket_mismatch_witness :
  ~ reaches (NewDialer demo_quote "unixpacket:///run/rpc.sock" "" 0 0 0)
      (StreamListener (mkSL "unix" "/run/rpc.sock" false 0 0 0))
      (m_st (NewListener demo_quote "unixpacket:///run/rpc.sock" 0 0 0 None None None demo_world)).
Proof.
  apply (unixpacket_mismatch demo_quote "/run/rpc.sock" "" 0 0 0 demo_world). vm_compute. reflexivity.
Defined.

Lemma single_listener_accepts_once_witness :
  forall i, singleConn_accept (mkSCS None false) i = None.
Proof.
  exact (proj1 (proj2 (single_listener_accepts_once (TCPConn 3) (NewSingleConnSource (TCPConn 3)) (inr (TCPConn 3)) (mkSCS None false) 0
    eq_refl eq_refl))).
Defined.

Lemma nonpositive_limit_is_unlimited_witness :
  (ReadMessage (NewMsgConn 0 0) (PutUint32 4294967295)).1 <> inr (FrameTooLarge 4294967295 0).
Proof.
  exact (proj1 (nonpositive_limit_is_unlimited (mkSL "tcp" "" false 0 0 0) (inr (TCPConn 3)) (TCPConn 3) (NewMsgConn 0 0) []
    (PutUint32 4294967295) 4294967295 0 ltac:(cbn; lia) eq_refl)).
Defined.
End transport_witness.
