(* ===== verification/ServerConn.v ===== *)
(** * Serving a connection

    Models what valueserver/server.go does with an accepted connection
    (handleConnection: authorizer, handshake, the read loop) and around it: the
    Run loop and the constructors that bind a listener.

    What the connection delivers is a list of read outcomes, so that the read
    loop is structural; a list that ends before the connection does is a loop
    that is still waiting. *)

From S2P Require Import Prelude Value RefValue Protocol Verify Framing Sha256 HashChain Credit Pump.
From S2P Require Import FlowControl Metadata ClientStream ServingClient SessionWork Server Channels MemTransport WebSocket Transport.

(** The user's ConnectAuthorizer. *)
Inductive authz_outcome := AuthzOk | AuthzErr (e : goerror) | AuthzPanic.

Inductive read_error := ReadEOF | ReadErr (e : goerror).

(** Where handleConnection is. *)
Inductive conn_result :=
| CReturned (err : option goerror)
| CRecovered                              (* a panic was recovered *)
| CWaiting                                (* in ReadMessage *)
| CBlocked.                               (* in processRequest *)

Section conn.
Context `{ValueLib} (d : Dialect) (growcap : nat -> nat).
Variable pickDone : servingClient -> VMap -> bool.
Variable authenticator : option (nat -> option Value -> string + goerror).

(** Panics of user code that handleConnection recovers: the Authenticator on a
    connection and its credential; code the session calls while it processes a
    frame (the metrics sink), which leaves the session in some state.  Handlers run
    on goroutines that recover on their own. *)
Variable authnPanics : nat -> option Value -> bool.
Variable crash : VMap -> servingClient -> option servingClient.

Inductive hc_ev :=
| HServer (e : @rs_ev _)
| HDeadline (c : nat) (on : bool)         (* SetReadDeadline, to a time or to none *)
| HRead (c : nat)                         (* ReadMessage is called *)
| HLog (req : VMap) (err : goerror)
| HSleep (ms : Z).

Abbreviation HC := (M rpcServer hc_ev).

(** Server methods, with their events. *)
Definition lift {A} (m : M rpcServer rs_ev A) : HC A := fun t => let '(a, t', o) := m t in (a, t', map HServer o).

Lemma lift_st {A} (m : M rpcServer rs_ev A) t : m_st (lift m t) = m_st (m t).
Proof. unfold lift, m_st. by destruct (m t) as [[??]?]. Qed.
Lemma lift_res {A} (m : M rpcServer rs_ev A) t : m_res (lift m t) = m_res (m t).
Proof. unfold lift, m_res. by destruct (m t) as [[??]?]. Qed.
Lemma lift_out {A} (m : M rpcServer rs_ev A) t : m_out (lift m t) = map HServer (m_out (m t)).
Proof. unfold lift, m_out. by destruct (m t) as [[??]?]. Qed.

(** ** The read loop *)

Inductive served := SvHandled (err : option goerror) | SvBlocked | SvPanicked.

(** cli.processRequest on the session the connection is attached to. *)
Definition serveFrame (l : nat) (req : VMap) : HC served :=
  t ← gets id;
  match rs_sessions t !! l ≫= (fun s => crash req (see_functions t s)) with
  | Some s' => modify (upd_rs_sessions (insert l s')) ≫= fun _ => mret SvPanicked
  | None =>
      lift (on_session l (processRequest d growcap pickDone req)) ≫= fun r =>
      mret (match r with Some (Handled e) => SvHandled e | _ => SvBlocked end)
  end.

Fixpoint readLoop (c l : nat) (reads : list (VMap + read_error)) : HC conn_result :=
  emit (HRead c) ≫= fun _ =>
  match reads with
  | [] => mret CWaiting
  | inr ReadEOF :: _ => mret (CReturned None)
  | inr (ReadErr e) :: _ => mret (CReturned (Some e))
  | inl req :: reads' =>
      serveFrame l req ≫= fun r =>
      match r with
      | SvHandled (Some e) => emit (HLog req e) ≫= fun _ => readLoop c l reads'
      | SvHandled None => readLoop c l reads'
      | SvBlocked => mret CBlocked
      | SvPanicked => mret CRecovered
      end
  end.

(** The handshake gets as far as the Authenticator, and that panics. *)
Definition authenticatorPanics (c : nat) (req : VMap) : bool :=
  match authenticator, GetNumberField req (MessageTypeField d) with
  | Some _, Some mt => (longOf mt =? HandshakeRequest) && ValidMagicAndVersion d req && authnPanics c (Get req (AuthField d))
  | _, _ => false
  end.

(** handshake with its reads; [hsTimeout] is cfg.handshakeTimeout. *)
Definition handshake_read (hsTimeout : Z) (c : nat) (reads : list (VMap + read_error)) (werr : option goerror)
    : HC (conn_result + nat * list (VMap + read_error)) :=
  when (0 <? hsTimeout) (emit (HDeadline c true)) ≫= fun _ =>
  emit (HRead c) ≫= fun _ =>
  match reads with
  | [] => mret (inl CWaiting)
  | inr ReadEOF :: _ => mret (inl (CReturned (Some (ErrPlain "EOF"))))
  | inr (ReadErr e) :: _ => mret (inl (CReturned (Some e)))
  | inl req :: reads' =>
      when (0 <? hsTimeout) (emit (HDeadline c false)) ≫= fun _ =>
      if authenticatorPanics c req then mret (inl CRecovered)
      else
        lift (handshake d pickDone authenticator c req werr) ≫= fun r =>
        match r with
        | inl e => mret (inl (CReturned (Some e)))
        | inr l => mret (inr (l, reads'))
        end
  end.

(** The authorizer, if there is one; a result ends the connection. *)
Definition authorize (hsTimeout : Z) (c : nat) (authz : option authz_outcome) : HC (option conn_result) :=
  match authz with
  | None => mret None
  | Some out =>
      when (0 <? hsTimeout) (emit (HDeadline c true)) ≫= fun _ =>
      mret (match out with
            | AuthzOk => None
            | AuthzErr e => Some (CReturned (Some (ErrPlain ("connection rejected by authorizer: " +:+ Error_String e))))
            | AuthzPanic => Some CRecovered
            end)
  end.

Definition handleConnection_body (hsTimeout : Z) (c : nat) (authz : option authz_outcome)
    (reads : list (VMap + read_error)) (werr : option goerror) : HC conn_result :=
  authorize hsTimeout c authz ≫= fun stop =>
  match stop with
  | Some r => mret r
  | None =>
      handshake_read hsTimeout c reads werr ≫= fun r =>
      match r with
      | inl res => mret res
      | inr (l, reads') => readLoop c l reads'
      end
  end.

(** The deferred conn.Close and recover. *)
Definition handleConnection (hsTimeout : Z) (c : nat) (authz : option authz_outcome)
    (reads : list (VMap + read_error)) (werr : option goerror) : HC conn_result :=
  handleConnection_body hsTimeout c authz reads werr ≫= fun r =>
  match r with
  | CReturned _ | CRecovered => lift (closeConn c) ≫= fun _ => mret r
  | CWaiting | CBlocked => mret r
  end.

(** ** Run *)

Inductive run_result := RunReturned | RunWaiting.

(** The accept loop, over what Accept returns; an error after shutdown ends it,
    any other makes it sleep and go on.  The connections it registers are handled
    by goroutines of their own. *)
Fixpoint Run (accepts : list (goerror + nat)) (backoff : Z) : HC run_result :=
  match accepts with
  | [] => mret RunWaiting
  | inl _ :: accepts' =>
      t ← gets id;
      if rs_shutdown t then mret RunReturned
      else let b := nextBackoff backoff in emit (HSleep b) ≫= fun _ => Run accepts' b
  | inr c :: accepts' => lift (acceptConn c) ≫= fun _ => Run accepts' 0
  end.

(** ** Properties *)

(** The sessions and the session a client id leads to. *)
Definition same_sessions (t t' : rpcServer) : Prop :=
  rs_sessions t' = rs_sessions t /\ rs_clientMap t' = rs_clientMap t /\ rs_activeConn t' = rs_activeConn t.

Lemma authorize_run hsTimeout c authz t :
  exists evs, authorize hsTimeout c authz t =
    (match authz with
     | Some (AuthzErr e) => Some (CReturned (Some (ErrPlain ("connection rejected by authorizer: " +:+ Error_String e))))
     | Some AuthzPanic => Some CRecovered
     | _ => None
     end, t, evs) /\
    evs = match authz with Some _ => if 0 <? hsTimeout then [HDeadline c true] else [] | None => [] end.
Proof. unfold authorize. destruct authz as [[]|], (0 <? hsTimeout); eexists; split; reflexivity. Qed.

(** An end of handleConnection_body is an end of the connection. *)
Lemma handleConnection_run hsTimeout c authz reads werr t r t' o :
  handleConnection_body hsTimeout c authz reads werr t = (r, t', o) ->
  handleConnection hsTimeout c authz reads werr t =
  match r with
  | CReturned _ | CRecovered => (r, upd_rs_closedConns (fun s => {[ c ]} ∪ s) t', o)
  | CWaiting | CBlocked => (r, t', o)
  end.
Proof.
  intros E. unfold handleConnection. rewrite (M_run_bind _ _ _ _ _ _ E).
  destruct r; unfold m_res, m_st, m_out; cbn; by rewrite app_nil_r.
Qed.

Lemma handshake_read_rejects hsTimeout c req rest werr t :
  authenticatorPanics c req = true \/ (exists e, checkHandshake d authenticator c (reqDetail (rs_cfg t) req) req = inl e) ->
  exists r o, handshake_read hsTimeout c (inl req :: rest) werr t = (inl r, t, o) /\ (r = CRecovered \/ exists e, r = CReturned (Some e)).
Proof.
  intros Hc. unfold handshake_read, mbind, M_bind, when, emit, mret, M_ret, lift.
  destruct (authenticatorPanics c req) eqn:Ep; [destruct (0 <? hsTimeout); eexists _, _; (split; [reflexivity|]); by left|]. destruct Hc as [[=]|[e Hc]].
  destruct (0 <? hsTimeout); cbn; rewrite (rejected_handshake_is_inert d pickDone authenticator c req werr t e Hc);
    eexists _, _; (split; [reflexivity|]); by eauto.
Qed.

Lemma handshake_read_fails hsTimeout c e rest werr t :
  exists o e', handshake_read hsTimeout c (inr e :: rest) werr t = (inl (CReturned (Some e')), t, o).
Proof. unfold handshake_read. destruct (0 <? hsTimeout), e; eexists _, _; reflexivity. Qed.

(** A peer that the authorizer refuses, that panics it or the Authenticator, whose
    connection breaks first or whose first message is not an acceptable handshake,
    reaches nothing:
    its connection is closed and the server is otherwise as it was. *)
(** C26: A connection whose authorizer refuses or panics, whose first message
    cannot be read, whose Authenticator panics, or whose handshake fails its
    checks leaves the server exactly as it was except that the connection is
    closed; the handler returns the error or recovers. *)
Theorem refused_peer_reaches_nothing hsTimeout c authz reads werr t :
  (exists e, authz = Some (AuthzErr e)) \/ authz = Some AuthzPanic \/
  (exists req rest, reads = inl req :: rest /\ authenticatorPanics c req = true) \/
  (exists req rest e, reads = inl req :: rest /\ checkHandshake d authenticator c (reqDetail (rs_cfg t) req) req = inl e) \/
  (exists e rest, reads = inr e :: rest) ->
  let r := handleConnection hsTimeout c authz reads werr t in
  m_st r = upd_rs_closedConns (fun s => {[ c ]} ∪ s) t /\
  (m_res r = CRecovered \/ exists e, m_res r = CReturned (Some e)).
Proof.
  intros Hcase.
  assert (exists r o, handleConnection_body hsTimeout c authz reads werr t = (r, t, o) /\
    (r = CRecovered \/ exists e, r = CReturned (Some e))) as (r & o & E & Hr).
  { unfold handleConnection_body. destruct (authorize_run hsTimeout c authz t) as (evs & Ea & _).
    rewrite (M_run_bind _ _ _ _ _ _ Ea).
    destruct authz as [[|e|]|]; [| |by eauto 10|]; [|by eauto 10|].
    all: destruct Hcase as [[? [=]]|[[=]|[(req & rest & -> & Hc)|[(req & rest & e & -> & Hc)|(e & rest & ->)]]]].
    all: first [destruct (handshake_read_rejects hsTimeout c req rest werr t (or_introl Hc)) as (r & o & Eh & Hr)
               |destruct (handshake_read_rejects hsTimeout c req rest werr t (or_intror (ex_intro _ e Hc))) as (r & o & Eh & Hr)
               |destruct (handshake_read_fails hsTimeout c e rest werr t) as (o & e' & Eh)].
    all: rewrite (M_run_bind _ _ _ _ _ _ Eh), m_res_eq, m_st_eq; eauto 10. }
  cbn zeta. rewrite (handleConnection_run _ _ _ _ _ _ _ _ _ E). destruct Hr as [->|[e ->]]; eauto.
Qed.

(** ** The requests of a connection *)

(** What the session's code does with the requests, one after the other. *)
Definition process_all (reqs : list VMap) (s : servingClient) : servingClient :=
  foldl (fun s req => m_st (processRequest d growcap pickDone req s)) s reqs.

(** No request blocks or panics the read loop. *)
Fixpoint never_stops (reqs : list VMap) (s : servingClient) : Prop :=
  match reqs with
  | [] => True
  | req :: reqs' =>
      m_res (processRequest d growcap pickDone req s) <> Blocked /\ crash req s = None /\
      never_stops reqs' (m_st (processRequest d growcap pickDone req s))
  end.

Lemma untyped_frame_returns req s :
  GetNumberField req (MessageTypeField d) = None -> m_res (processRequest d growcap pickDone req s) <> Blocked.
Proof. intros E. unfold processRequest. by rewrite M_gets_bind, E. Qed.

Lemma on_session_run {A} l (m : M servingClient sc_ev A) t s :
  rs_sessions t !! l = Some s ->
  m_res (on_session l m t) = Some (m_res (m (see_functions t s))) /\
  m_st (on_session l m t) = upd_rs_sessions (insert l (m_st (m (see_functions t s)))) t.
Proof.
  intros Hs. split; [|by rewrite on_session_st, Hs].
  unfold on_session, get_session. rewrite M_gets_bind, Hs, M_gets_bind. cbn [id]. unfold m_res, m_st.
  destruct (m (see_functions t s)) as [[a s'] o].
  rewrite M_modify_bind. unfold mbind, M_bind, mret, M_ret. by destruct (seqM _ _) as [[??]?].
Qed.

Lemma see_functions_id t s : sc_functionMap s = rs_functionMap t -> see_functions t s = s.
Proof. intros E. unfold see_functions. rewrite <- E. by destruct s. Qed.

(** A frame that neither blocks nor panics. *)
Lemma serveFrame_run l req t s :
  rs_sessions t !! l = Some s -> let v := see_functions t s in
  m_res (processRequest d growcap pickDone req v) <> Blocked -> crash req v = None ->
  (exists e, m_res (serveFrame l req t) = SvHandled e) /\
  m_st (serveFrame l req t) = upd_rs_sessions (insert l (m_st (processRequest d growcap pickDone req v))) t.
Proof.
  intros Hs v Hnb Hc. unfold serveFrame. rewrite M_gets_bind. cbn [id]. rewrite Hs. cbn [mbind option_bind]. fold v. rewrite Hc.
  destruct (on_session_run l (processRequest d growcap pickDone req) t s Hs) as [Er Et]. fold v in Er, Et.
  rewrite M_bind_res, M_bind_st, lift_res, lift_st, Er, Et. split; [|done].
  destruct (m_res (processRequest d growcap pickDone req v)) as [e|]; [|done]. by exists e.
Qed.

Lemma readLoop_frame c l req reads t e :
  m_res (serveFrame l req t) = SvHandled e ->
  m_res (readLoop c l (inl req :: reads) t) = m_res (readLoop c l reads (m_st (serveFrame l req t))) /\
  m_st (readLoop c l (inl req :: reads) t) = m_st (readLoop c l reads (m_st (serveFrame l req t))).
Proof.
  intros E. cbn [readLoop]. rewrite M_bind_res, M_bind_st, (M_bind_res (serveFrame _ _)), (M_bind_st (serveFrame _ _)).
  cbn [emit m_st fst snd m_res]. change (t, [HRead c]).1 with t. rewrite E.
  destruct e as [e|]; [|done]. rewrite M_bind_res, M_bind_st. done.
Qed.

Lemma readLoop_processes c l reqs last t s :
  rs_sessions t !! l = Some s -> never_stops reqs (see_functions t s) ->
  let r := readLoop c l (map inl reqs ++ [inr last]) t in
  m_res r = CReturned (match last with ReadEOF => None | ReadErr e => Some e end) /\
  see_functions (m_st r) <$> rs_sessions (m_st r) !! l = Some (process_all reqs (see_functions t s)) /\
  (forall l', l' <> l -> rs_sessions (m_st r) !! l' = rs_sessions t !! l') /\
  rs_clientMap (m_st r) = rs_clientMap t /\ rs_connMap (m_st r) = rs_connMap t.
Proof.
  revert t s. induction reqs as [|req reqs IH]; intros t s Hs Hb.
  - destruct last; (split; [done|]); (split; [change (see_functions t <$> rs_sessions t !! l = Some (see_functions t s)); by rewrite Hs|done]).
  - destruct Hb as (Hnb & Hc & Hb). cbn zeta. cbn [map app].
    destruct (serveFrame_run l req t s Hs Hnb Hc) as [[e Er] Et].
    destruct (readLoop_frame c l req (map inl reqs ++ [inr last]) t e Er) as [-> ->]. rewrite Et.
    set (s1 := m_st (processRequest d growcap pickDone req (see_functions t s))) in *.
    set (t1 := upd_rs_sessions (insert l s1) t) in *.
    assert (rs_sessions t1 !! l = Some s1) as Hs1 by (cbn; apply lookup_insert_eq).
    assert (see_functions t1 s1 = s1) as Ev.
    { apply see_functions_id. destruct (processRequest_identity d growcap pickDone req (see_functions t s)) as (_ & _ & _ & E). exact E. }
    destruct (IH t1 s1 Hs1) as (I1 & I2 & I3 & I4 & I5); [by rewrite Ev|]. rewrite Ev in I2.
    split_and!; [done|done| |by rewrite I4|by rewrite I5].
    intros l' Hne. rewrite I3 by done. cbn. by rewrite lookup_insert_ne.
Qed.

(** The deadlines set and the reads, in order. *)
Inductive conn_io := IODeadline (on : bool) | IORead.
Definition io_trace (o : list hc_ev) : list conn_io :=
  omap (fun e => match e with HDeadline _ b => Some (IODeadline b) | HRead _ => Some IORead | _ => None end) o.

Lemma io_trace_app o1 o2 : io_trace (o1 ++ o2) = io_trace o1 ++ io_trace o2.
Proof. apply omap_app. Qed.

Lemma io_trace_lift {A} (m : M rpcServer rs_ev A) t : io_trace (m_out (lift m t)) = [].
Proof. rewrite lift_out. induction (m_out (m t)); done. Qed.

Lemma io_trace_serveFrame l req t : io_trace (m_out (serveFrame l req t)) = [].
Proof.
  unfold serveFrame. rewrite M_gets_bind. destruct (_ ≫= _); [done|]. by rewrite M_bind_out, io_trace_app, io_trace_lift.
Qed.

Lemma io_trace_readLoop c l reqs last t s :
  rs_sessions t !! l = Some s -> never_stops reqs (see_functions t s) ->
  io_trace (m_out (readLoop c l (map inl reqs ++ [inr last]) t)) = replicate (S (length reqs)) IORead.
Proof.
  revert t s. induction reqs as [|req reqs IH]; intros t s Hs Hb; [by destruct last|].
  destruct Hb as (Hnb & Hc & Hb). cbn [map app readLoop]. rewrite M_bind_out, (M_bind_out (serveFrame _ _)), !io_trace_app.
  cbn [emit m_st fst snd m_out]. change (t, [HRead c]).1 with t. rewrite io_trace_serveFrame.
  destruct (serveFrame_run l req t s Hs Hnb Hc) as [[e ->] ->].
  set (s1 := m_st (processRequest d growcap pickDone req (see_functions t s))) in *.
  set (t1 := upd_rs_sessions (insert l s1) t) in *.
  assert (see_functions t1 s1 = s1) as Ev.
  { apply see_functions_id. destruct (processRequest_identity d growcap pickDone req (see_functions t s)) as (_ & _ & _ & E). exact E. }
  assert (rs_sessions t1 !! l = Some s1) as Hs1 by (cbn; apply lookup_insert_eq).
  specialize (IH t1 s1 Hs1). rewrite Ev in IH. change (replicate (S (length (req :: reqs))) IORead) with (IORead :: replicate (S (length reqs)) IORead). rewrite <- (IH Hb).
  destruct e; [rewrite M_bind_out, io_trace_app|]; done.
Qed.


(** Run returns only after Close; accept errors make it sleep between 5 ms and a
    second and go on. *)
Theorem run_survives_accept_errors accepts backoff t :
  backoff = 0 \/ 5 <= backoff <= 1000 ->
  let r := Run accepts backoff t in
  (m_res r = RunReturned -> rs_shutdown t = true /\ rs_shutdown (m_st r) = true) /\
  (forall ms, HSleep ms ∈ m_out r -> 5 <= ms <= 1000) /\
  (rs_shutdown t = false -> m_res r = RunWaiting).
Proof.
  revert backoff t. induction accepts as [|[e|c] accepts IH]; intros backoff t Hb; cbn zeta; cbn [Run].
  - split_and!; [done|intros ms []%elem_of_nil|done].
  - rewrite M_gets_bind. cbn [id]. destruct (rs_shutdown t) eqn:Hs.
    + split_and!; [done|intros ms []%elem_of_nil|done].
    + assert (5 <= nextBackoff backoff <= 1000) as Hn.
      { unfold nextBackoff. destruct (backoff =? 0) eqn:E0; bool_to_prop; [done|].
        destruct (1000 <? backoff * 2) eqn:E1; bool_to_prop; lia. }
      destruct (IH (nextBackoff backoff) t (or_intror Hn)) as (I1 & I2 & I3).
      assert ((emit (HSleep (nextBackoff backoff)) ≫= fun _ => Run accepts (nextBackoff backoff)) t =
        (m_res (Run accepts (nextBackoff backoff) t), m_st (Run accepts (nextBackoff backoff) t),
         HSleep (nextBackoff backoff) :: m_out (Run accepts (nextBackoff backoff) t))) as ->
        by exact (M_run_bind _ _ t tt t [HSleep (nextBackoff backoff)] eq_refl).
      rewrite m_res_eq, m_st_eq, m_out_eq. split_and!; [intros [? ?]%I1; congruence| |intros _; by apply I3].
      intros ms [[= ->]|Hin]%elem_of_cons; auto.
  - assert (rs_shutdown (m_st (acceptConn c t)) = rs_shutdown t) as Hs.
    { unfold acceptConn. rewrite M_gets_bind. cbn [id]. destruct (_ && _); [done|].
      destruct (rs_shutdown t) eqn:Es; exact Es. }
    destruct (IH 0 (m_st (acceptConn c t)) (or_introl eq_refl)) as (I1 & I2 & I3).
    rewrite Hs in I1, I3.
    assert (m_res ((lift (acceptConn c) ≫= fun _ => Run accepts 0) t) = m_res (Run accepts 0 (m_st (acceptConn c t)))) as ->.
    { unfold lift, mbind, M_bind, m_res, m_st. destruct (acceptConn c t) as [[a t'] o]. cbn.
      by destruct (Run accepts 0 t') as [[??]?]. }
    rewrite M_bind_st, M_bind_out, lift_st. split_and!; [done| |done].
    intros ms [Hin|Hin]%elem_of_app; [|by auto]. rewrite lift_out in Hin.
    apply list_elem_of_fmap in Hin as (e & [=] & _).
Qed.
End conn.

(** ** Constructors *)

Section constructors.
Context `{ValueLib} (quote : string -> string).
(** The fields of the configuration that are not scalars. *)
Context (extract : option (reqctx -> Metadata -> reqctx)) (dbg : bool).
Abbreviation WM := (M world world_ev).

Definition withListener (opts : list ServerOption) (lis : Listener) : Listener * rpcServer :=
  let cfg := newServerConfig opts in
  (lis, NewServerWithListener (op_maxConnections cfg) (sessionConfig cfg extract dbg)).

Definition build (opts : list ServerOption) (r : goerror + Listener) : goerror + (Listener * rpcServer) :=
  match r with inl e => inl e | inr lis => inr (withListener opts lis) end.

Definition NewServer (address : string) (opts : list ServerOption) (lstatErr removeErr listenErr : option goerror)
    : WM (goerror + (Listener * rpcServer)) :=
  let cfg := newServerConfig opts in
  NewListener quote address (op_keepAlive cfg) (op_writeTimeout cfg) (op_maxFrameSize cfg) lstatErr removeErr listenErr ≫= fun r =>
  mret (build opts r).

Definition NewDevelopmentServer (address : string) (lstatErr removeErr listenErr : option goerror)
    : WM (goerror + (Listener * rpcServer)) :=
  NewServer address [] lstatErr removeErr listenErr.

Definition NewUnixServer (path : string) (opts : list ServerOption) (lstatErr removeErr listenErr : option goerror)
    : WM (goerror + (Listener * rpcServer)) :=
  let cfg := newServerConfig opts in
  NewUnixListener quote path (op_writeTimeout cfg) (op_maxFrameSize cfg) lstatErr removeErr listenErr ≫= fun r =>
  mret (build opts r).

Definition NewWebSocketServer (addr path : string) (opts : list ServerOption) (listenErr : option goerror)
    : goerror + (Listener * rpcServer) :=
  let cfg := newServerConfig opts in
  build opts (NewWebSocketListener addr path (op_writeTimeout cfg) (op_maxFrameSize cfg) (op_keepAlive cfg) listenErr).

Definition NewTLSServer (addr : string) (config : bool) (opts : list ServerOption) (listenErr : option goerror)
    : goerror + (Listener * rpcServer) :=
  let cfg := newServerConfig opts in
  build opts (NewTLSListener addr config (op_keepAlive cfg) (op_writeTimeout cfg) (op_maxFrameSize cfg) listenErr).

Definition NewMemServer (name : string) (opts : list ServerOption) : WM (goerror + (Listener * rpcServer)) :=
  newMem quote name ≫= fun r => mret (build opts r).

Definition NewWebSocketHandler (opts : list ServerOption) : Listener * rpcServer :=
  let cfg := newServerConfig opts in
  withListener opts (WSListener (mkWE "websocket" "" (op_writeTimeout cfg) (op_maxFrameSize cfg) (op_keepAlive cfg))).

(** The frame limit connections of a listener get. *)
Definition listener_limit (l : Listener) : option Z :=
  match l with
  | StreamListener l => Some (sl_maxFrameSize l)
  | WSListener l => Some (we_maxFrameSize l)
  | MemListener _ => None
  end.

(** A server bound to an address runs with its options: the listener's frame
    limit, the connection cap and the session limits are those of the resolved
    configuration, it starts empty, and a listener that could not be bound makes
    no server. *)
Theorem server_honours_options address opts e1 e2 e3 w :
  match m_res (NewServer address opts e1 e2 e3 w) with
  | inr (lis, srv) =>
      let cfg := newServerConfig opts in
      (listener_limit lis = Some (op_maxFrameSize cfg) \/ exists l, lis = MemListener l) /\
      rs_maxConnections srv = op_maxConnections cfg /\ rs_cfg srv = sessionConfig cfg extract dbg /\
      rs_liveConns srv = 0 /\ rs_sessions srv = ∅
  | inl e =>
      let cfg := newServerConfig opts in
      m_res (NewListener quote address (op_keepAlive cfg) (op_writeTimeout cfg) (op_maxFrameSize cfg) e1 e2 e3 w) = inl e
  end.
Proof.
  unfold NewServer. cbn zeta. set (cfg := newServerConfig opts).
  rewrite M_bind_ret, m_res_eq.
  destruct (m_res (NewListener quote address _ _ _ e1 e2 e3 w)) as [e|lis] eqn:E; [done|]. cbn [build withListener].
  split_and!; try done. revert E. unfold NewListener. destruct (ParseAddress address) as [network addr].
  repeat case_bool_decide; try done.
  - unfold NewUnixListener, m_res, mbind, M_bind, NewStreamListener.
    destruct (removeStaleSocket quote addr e1 e2 w) as [[[e|] t1] o]; cbn; [done|]. destruct e3; [done|].
    intros [= <-]. by left.
  - unfold m_res, NewStreamListener. cbn. destruct e3; [done|]. intros [= <-]. by left.
  - destruct (splitWSPath addr) as [host path]. unfold m_res, NewWebSocketListener. cbn. destruct e3; [done|].
    intros [= <-]. by left.
  - unfold newMem. rewrite M_gets_bind. cbn [id]. rewrite M_modify_bind. unfold m_res at 1. cbn.
    destruct (m_res (NewMemListener quote addr (w_mem w))); [done|]. intros [= <-]. right. eauto.
Qed.
End constructors.

(** ** Witnesses *)

Section conn_witness.
#[local] Existing Instance RefValueLib.

Definition demo_hello : VMap := Dialect_NewHandshakeRequest NewDialect 7 "".
Definition no_panics (c : nat) (cred : option Value) : bool := false.
Definition no_crash (req : VMap) (s : servingClient) : option servingClient := None.
Definition demo_grow (n : nat) : nat := (n + 8)%nat.

Lemma refused_peer_reaches_nothing_witness :
  m_st (handleConnection NewDialect demo_grow no_pick None no_panics no_crash 10 5 (Some (AuthzErr (ErrPlain "no"))) [inl demo_hello] None srv0) =
  upd_rs_closedConns (fun s => {[ 5%nat ]} ∪ s) srv0.
Proof.
  exact (proj1 (refused_peer_reaches_nothing NewDialect demo_grow no_pick None no_panics no_crash 10 5 (Some (AuthzErr (ErrPlain "no")))
    [inl demo_hello] None srv0 (or_introl (ex_intro _ (ErrPlain "no") eq_refl)))).
Defined.


Lemma run_survives_accept_errors_witness :
  m_res (Run [inl (ErrPlain "EMFILE"); inr 1%nat; inl (ErrPlain "EMFILE")] 0 srv0) = RunWaiting.
Proof.
  exact (proj2 (proj2 (run_survives_accept_errors [inl (ErrPlain "EMFILE"); inr 1%nat; inl (ErrPlain "EMFILE")] 0 srv0
    (or_introl eq_refl))) eq_refl).
Defined.
End conn_witness.
