(* ===== verification/ServerHooks.v ===== *)
(** * The server's hooks

    SetConnectAuthorizer and SetAuthenticator (valueserver/server.go) and the
    connections that are served under them, with the hooks of examples/auth,
    examples/peer, examples/mtls and examples/unix as instances. *)

From S2P Require Import Prelude Value RefValue Protocol Verify Framing Sha256 HashChain Request Metadata ServingClient Server Transport ServerConn.

Section hooks.
Context `{ValueLib} (d : Dialect) (growcap : nat -> nat) (pickDone : servingClient -> VMap -> bool).
Context (authnPanics : nat -> option Value -> bool) (crash : VMap -> servingClient -> option servingClient).
Context {Cert : Type} (chainOf : netConn -> list Cert) (quicChain : nat -> list Cert).

(** api.go: both see the connection, the Authenticator also the credential. *)
Definition ConnectAuthorizer : Type := nat -> authz_outcome.
Definition Authenticator : Type := nat -> option Value -> string + goerror.

(** The two atomic.Value cells: nothing stored yet, or a function that may be nil. *)
Record hooks := mkHooks {
  hk_authorizer : option (option ConnectAuthorizer);
  hk_authenticator : option (option Authenticator)
}.
Definition noHooks : hooks := mkHooks None None.

Definition SetConnectAuthorizer (fn : option ConnectAuthorizer) (t : hooks) : hooks := mkHooks (Some fn) (hk_authenticator t).
Definition getConnectAuthorizer (t : hooks) : option ConnectAuthorizer :=
  match hk_authorizer t with Some v => v | None => None end.
Definition SetAuthenticator (fn : option Authenticator) (t : hooks) : hooks := mkHooks (hk_authorizer t) (Some fn).
Definition getAuthenticator (t : hooks) : option Authenticator :=
  match hk_authenticator t with Some v => v | None => None end.

(** A connection is served under the hooks in force when it is accepted. *)
Definition serve_connection (hk : hooks) (hsTimeout : Z) (c : nat) (reads : list (VMap + read_error)) (werr : option goerror)
    : M rpcServer hc_ev conn_result :=
  handleConnection d growcap pickDone (getAuthenticator hk) authnPanics crash hsTimeout c ((fun fn => fn c) <$> getConnectAuthorizer hk) reads werr.

(** Setting one hook leaves the other; the last setting counts. *)
Inductive hook_op := OpAuthorizer (fn : option ConnectAuthorizer) | OpAuthenticator (fn : option Authenticator).
Definition run_hook (t : hooks) (op : hook_op) : hooks :=
  match op with OpAuthorizer fn => SetConnectAuthorizer fn t | OpAuthenticator fn => SetAuthenticator fn t end.
Definition last_of {A} (f : hook_op -> option (option A)) (ops : list hook_op) : option A := default None (last (omap f ops)).

Lemma hooks_in_force ops :
  getConnectAuthorizer (foldl run_hook noHooks ops) = last_of (fun op => match op with OpAuthorizer fn => Some fn | _ => None end) ops /\
  getAuthenticator (foldl run_hook noHooks ops) = last_of (fun op => match op with OpAuthenticator fn => Some fn | _ => None end) ops.
Proof.
  unfold last_of. induction ops as [|op ops [IH1 IH2]] using rev_ind; [done|]. rewrite foldl_app, !omap_app. cbn [foldl].
  destruct op as [fn|fn]; cbn; rewrite ?app_nil_r, ?last_snoc; split; done.
Qed.

(** ** Who gets a session *)

Lemma resume_principal l cid tok pr c t l' :
  m_res (resume l cid tok pr c t) = inr l' -> exists s, rs_sessions (m_st (resume l cid tok pr c t)) !! l' = Some s /\ sc_principal s = pr.
Proof.
  unfold resume, get_session. rewrite M_gets_bind. destruct (rs_sessions t !! l) as [s|]; [|done].
  case_bool_decide as Ep; cbn [negb]; [|done]. destruct (authorizeResume _ _ _) as [ok tok']. rewrite M_modify_bind.
  destruct ok; [|done]. rewrite M_bind_ret. cbn. intros [= <-]. exists (upd_sc_resumeToken (fun _ => tok') s). split; [|done].
  unfold Session_replaceConn, closeConn. rewrite M_gets_bind. cbn. destruct (rs_activeConn t !! l); cbn; apply lookup_insert_eq.
Qed.

Lemma create_principal cid tok pr c t l :
  m_res (createOrUpdateServingClient d pickDone cid tok pr c t) = inr l ->
  exists s, rs_sessions (m_st (createOrUpdateServingClient d pickDone cid tok pr c t)) !! l = Some s /\ sc_principal s = pr.
Proof.
  unfold createOrUpdateServingClient, findOrCreate. rewrite M_assoc, M_gets_bind. cbn [id].
  destruct (rs_clientMap t !! cid) as [l0|] eqn:Em.
  - rewrite M_left_id. cbn [publish]. apply resume_principal.
  - rewrite !M_assoc, M_modify_bind, M_assoc, M_modify_bind, M_assoc, M_modify_bind, M_left_id. cbn [publish].
    rewrite M_gets_bind. cbn [id]. cbn [rs_clientMap upd_rs_activeConn upd_rs_sessions upd_rs_nextLoc]. rewrite Em, M_modify_bind. cbn.
    intros [= <-]. eexists. split; [apply lookup_insert_eq|done].
Qed.

(** A connection that attached to a session was authenticated, and the session is
    its principal's. *)
Lemma attached_principal authn c req werr t l :
  m_res (handshake d pickDone authn c req werr t) = inr l ->
  exists s, rs_sessions (m_st (handshake d pickDone authn c req werr t)) !! l = Some s /\
    match authn with Some f => f c (Get req (AuthField d)) = inl (sc_principal s) | None => sc_principal s = "" end.
Proof.
  unfold handshake. rewrite M_gets_bind. cbn [id].
  destruct (checkHandshake d authn c (reqDetail (rs_cfg t) req) req) as [e|[[cid tok] pr]] eqn:Ec; [done|].
  pose proof (checkHandshake_ok d authn _ _ _ _ _ _ Ec) as (_ & _ & _ & Ha).
  rewrite M_bind_res, M_bind_st. destruct (m_res (createOrUpdateServingClient d pickDone cid tok pr c t)) as [e|l0] eqn:Er; [done|].
  destruct (create_principal cid tok pr c t l0 Er) as (s & Hs & Hp).
  rewrite M_bind_res, M_bind_st. destruct werr; [done|]. cbn. intros [= <-]. exists s. split; [done|]. by rewrite Hp.
Qed.

(** ** The hooks of the examples *)

Definition credential_string (cred : option Value) : option string :=
  match cred with Some v => if decide (kindOf v = STRING) then Some (stringOf v) else None | None => None end.

(** examples/auth: a bearer token names its principal. *)
Definition token_authenticator (tokens : gmap string string) : Authenticator := fun _ cred =>
  match credential_string cred with
  | None => inr (ErrPlain "missing credential")
  | Some tok => match tokens !! tok with Some principal => inl principal | None => inr (ErrPlain "invalid token") end
  end.

(** examples/peer: the credential is the name. *)
Definition name_authenticator : Authenticator := fun _ cred =>
  match credential_string cred with None => inr (ErrPlain "missing name credential") | Some name => inl name end.

(** examples/mtls: a verified client certificate is required. *)
Definition mtls_authorizer (conns : nat -> msgConn) : ConnectAuthorizer := fun c =>
  match PeerCertificates chainOf quicChain (conns c) with
  | Some (_ :: _) => AuthzOk
  | _ => AuthzErr (ErrPlain "no client certificate")
  end.

(** examples/unix: only the owning user; the uid is compared as a uint32. *)
Definition uid_authorizer (readPeerCred : nat -> goerror + PeerCred) (uid : Z) (conns : nat -> msgConn) : ConnectAuthorizer := fun c =>
  match PeerCredOf readPeerCred (conns c) with
  | None => AuthzErr (ErrPlain "peer credentials unavailable")
  | Some cred => if negb (UID cred =? wrapu32 uid) then AuthzErr (ErrPlain "only the owning user may connect") else AuthzOk
  end.

(** With the authenticator of examples/auth, whoever attaches to a session
    presented the token of that session's principal. *)
Theorem token_holder_attaches tokens c req werr t l :
  m_res (handshake d pickDone (getAuthenticator (SetAuthenticator (Some (token_authenticator tokens)) noHooks)) c req werr t) = inr l ->
  exists s tok, rs_sessions (m_st (handshake d pickDone (Some (token_authenticator tokens)) c req werr t)) !! l = Some s /\
    credential_string (Get req (AuthField d)) = Some tok /\ tokens !! tok = Some (sc_principal s).
Proof.
  intros Hr. destruct (attached_principal _ _ _ _ _ _ Hr) as (s & Hs & Ha). cbn in Hs, Ha. unfold token_authenticator in Ha.
  destruct (credential_string _) as [tok|] eqn:Ec; [|done]. destruct (tokens !! tok) as [p|] eqn:Et; [|done].
  injection Ha as ->. by exists s, tok.
Qed.

(** The peer's identity, as the system reports it for the connection's own socket. *)
Definition owned_by (rp : nat -> goerror + PeerCred) (uid : Z) (m : msgConn) : Prop :=
  exists fd a ka x, m = MAdapter (UnixConn fd) a ka /\ rp fd = inr x /\ UID x = wrapu32 uid.
Definition certified (m : msgConn) : Prop :=
  (exists inner a ka, m = MAdapter (TLSConn inner) a ka /\ chainOf (TLSConn inner) <> []) \/
  (exists conn, m = MQuic conn /\ quicChain conn <> []).

(** The authorizers let a connection through exactly when it has the identity they
    ask for. *)
Lemma mtls_authorizer_exact conns c : mtls_authorizer conns c = AuthzOk <-> certified (conns c).
Proof.
  unfold mtls_authorizer, certified. split.
  - destruct (PeerCertificates _ _ _) as [[|cert certs]|] eqn:E; try done. intros _.
    apply PeerCertificates_spec in E as [Hne [(inner & t & ka & -> & E)|(conn & -> & E)]]; rewrite E in Hne; eauto 10.
  - intros Hc. assert (exists certs, PeerCertificates chainOf quicChain (conns c) = Some certs /\ certs <> []) as ([|cert certs] & -> & Hne); [|done..].
    destruct Hc as [(inner & t & ka & E & Hne)|(conn & E & Hne)]; eexists; (split; [apply PeerCertificates_spec|exact Hne]); eauto 10.
Qed.
Lemma uid_authorizer_exact rp uid conns c : uid_authorizer rp uid conns c = AuthzOk <-> owned_by rp uid (conns c).
Proof.
  unfold uid_authorizer, owned_by. split.
  - destruct (PeerCredOf rp (conns c)) as [x|] eqn:E; [|done]. apply PeerCredOf_spec in E as (fd & t & ka & -> & E).
    destruct (UID x =? wrapu32 uid) eqn:Eu; [|done]. apply Z.eqb_eq in Eu. eauto 10.
  - intros (fd & t & ka & x & E & Er & Eu). assert (PeerCredOf rp (conns c) = Some x) as -> by (apply PeerCredOf_spec; eauto).
    by rewrite Eu, Z.eqb_refl.
Qed.

(** A refusing authorizer lets nothing through. *)
Lemma refused_inert fn hk hsTimeout c reads werr t :
  (exists e, fn c = AuthzErr e) ->
  let r := serve_connection (SetConnectAuthorizer (Some fn) hk) hsTimeout c reads werr t in
  m_st r = upd_rs_closedConns (fun s => {[ c ]} ∪ s) t /\ exists e, m_res r = CReturned (Some e).
Proof.
  intros [e He]. cbn zeta. unfold serve_connection. cbn [getConnectAuthorizer SetConnectAuthorizer hk_authorizer fmap option_fmap option_map].
  rewrite He. unfold handleConnection, handleConnection_body, authorize. unM. destruct (0 <? hsTimeout); cbn; eauto.
Qed.

(** Whoever gets past the authorizers of examples/unix and examples/mtls is who
    they ask for. *)
(** C28: With the connection authorizer of examples/unix, a peer either is on
    a Unix socket whose kernel credentials, read from that connection's own
    socket, carry the owner's uid, or the server refuses it: it gets an error
    and the server is exactly as before except that the connection is closed,
    whatever the peer sends. With that of examples/mtls the same holds for a
    peer that is on a TLS or QUIC connection whose own certificate chain is
    not empty. *)
Theorem only_authorized_peers_served hk rp uid conns hsTimeout c reads werr t :
  let untouched (r : conn_result * rpcServer * list hc_ev) :=
    m_st r = upd_rs_closedConns (fun s => {[ c ]} ∪ s) t /\ exists e, m_res r = CReturned (Some e) in
  (owned_by rp uid (conns c) \/ untouched (serve_connection (SetConnectAuthorizer (Some (uid_authorizer rp uid conns)) hk) hsTimeout c reads werr t)) /\
  (certified (conns c) \/ untouched (serve_connection (SetConnectAuthorizer (Some (mtls_authorizer conns)) hk) hsTimeout c reads werr t)).
Proof.
  cbn zeta. split.
  - destruct (uid_authorizer rp uid conns c) eqn:E; [left; by apply uid_authorizer_exact|right; apply refused_inert; eauto|].
    revert E. unfold uid_authorizer. destruct (PeerCredOf _ _); [by destruct (negb _)|done].
  - destruct (mtls_authorizer conns c) eqn:E; [left; by apply mtls_authorizer_exact|right; apply refused_inert; eauto|].
    revert E. unfold mtls_authorizer. by destruct (PeerCertificates _ _ _) as [[|]|].
Qed.

End hooks.

Section hooks_witness.
#[local] Existing Instance RefValueLib.

Definition demo_tokens : gmap string string := {[ "alice-token" := "alice" ]}.
Definition demo_auth_hello : VMap := Put (Dialect_NewHandshakeRequest NewDialect 7 "") (AuthField NewDialect) (Some (Utf8 "alice-token")).
Definition demo_token_authn : option (nat -> option Value -> string + goerror) := Some (token_authenticator demo_tokens).

Lemma token_holder_attaches_witness :
  m_res (handshake NewDialect no_pick demo_token_authn 5 demo_auth_hello None srv0) = inr 0%nat /\
  exists s tok, rs_sessions (m_st (handshake NewDialect no_pick demo_token_authn 5 demo_auth_hello None srv0)) !! 0%nat = Some s /\
    credential_string (Get demo_auth_hello (AuthField NewDialect)) = Some tok /\ demo_tokens !! tok = Some (sc_principal s).
Proof.
  assert (m_res (handshake NewDialect no_pick demo_token_authn 5 demo_auth_hello None srv0) = inr 0%nat) as Hr by (vm_compute; reflexivity).
  split; [exact Hr|]. exact (token_holder_attaches NewDialect no_pick demo_tokens 5 demo_auth_hello None srv0 0 Hr).
Defined.

(** A TCP peer at the server of examples/unix. *)
Lemma only_authorized_peers_served_witness :
  m_st (serve_connection NewDialect demo_grow no_pick no_panics no_crash
    (SetConnectAuthorizer (Some (uid_authorizer (fun _ => inr (mkCred 1000 1000 1)) 1000 (fun _ => MAdapter (TCPConn 3) (NewMsgConn 0 0) []))) noHooks)
    10 5 [inl demo_auth_hello] None srv0) = upd_rs_closedConns (fun s => {[ 5%nat ]} ∪ s) srv0.
Proof.
  destruct (proj1 (only_authorized_peers_served NewDialect demo_grow no_pick no_panics no_crash (fun _ : netConn => @nil nat) (fun _ => [])
    noHooks (fun _ => inr (mkCred 1000 1000 1)) 1000 (fun _ => MAdapter (TCPConn 3) (NewMsgConn 0 0) []) 10 5 [inl demo_auth_hello] None srv0))
    as [(fd & a & ka & x & E & _)|[E _]]; [discriminate E|exact E].
Defined.
End hooks_witness.
