(* ===== verification/ClientConn.v ===== *)
(** * A connection of the client

    Models rpcConn of valueclient/connection.go: the queue of outgoing messages,
    the two loops (each a goroutine with a program counter), SendRequest, Close
    and newConn with its synchronous handshake.  The other files of the client
    see a connection as a number on which messages are sent; the theorem here
    says what becomes of a message once it was sent.

    The transport is the argument of the steps that call it: what WriteMessage
    and ReadMessage returned.  It is assumed to refuse writes once it was closed,
    as MsgConn promises, and nothing else. *)

From S2P Require Import Prelude Value RefValue Protocol HashChain Channels Request Metadata ClientServing Client.

(** Where requestLoop is. *)
Inductive loopPC {A} :=
| LoopSelect                               (* at the select *)
| LoopWriting (m : A)                      (* in WriteMessage *)
| LoopFailed (err : goerror)               (* it failed; at closedIntentionally *)
| LoopReport (err : goerror)               (* found open; about to call BadConnection *)
| LoopReporting                            (* in BadConnection *)
| LoopReturned.
Arguments loopPC : clear implicits.

(** Where responseLoop is. *)
Inductive respPC {A} :=
| RespNotStarted
| RespReading
| RespHandling (m : A)
| RespFailed (err : goerror)               (* the read failed; at closedIntentionally *)
| RespReport (err : goerror)               (* found open; about to call BadConnection *)
| RespReporting
| RespReturned.
Arguments respPC : clear implicits.

Section conn.
Context `{ValueLib} (d : Dialect).

Record rpcConn := mkRpcConn {
  rn_reqCh : list VMap;
  rn_sendingCap : Z;                       (* capacity of reqCh; 0: unbuffered *)
  rn_done : bool;
  rn_closeOnce : bool;
  rn_transportClosed : bool;
  rn_loop : loopPC VMap;
  rn_resp : respPC VMap
}.

Definition upd_rn_reqCh f (t : rpcConn) : rpcConn :=
  mkRpcConn (f (rn_reqCh t)) (rn_sendingCap t) (rn_done t) (rn_closeOnce t) (rn_transportClosed t) (rn_loop t) (rn_resp t).
Definition upd_rn_close (done once closed : bool) (t : rpcConn) : rpcConn :=
  mkRpcConn (rn_reqCh t) (rn_sendingCap t) done once closed (rn_loop t) (rn_resp t).
Definition upd_rn_loop pc (t : rpcConn) : rpcConn :=
  mkRpcConn (rn_reqCh t) (rn_sendingCap t) (rn_done t) (rn_closeOnce t) (rn_transportClosed t) pc (rn_resp t).
Definition upd_rn_resp pc (t : rpcConn) : rpcConn :=
  mkRpcConn (rn_reqCh t) (rn_sendingCap t) (rn_done t) (rn_closeOnce t) (rn_transportClosed t) (rn_loop t) pc.

Inductive rn_ev :=
| NAccepted (m : VMap)                     (* SendRequest put it on the channel *)
| NDropped (m : VMap)                      (* SendRequest returned through done *)
| NWrote (m : VMap)
| NWriteFailed (m : VMap)
| NRead (m : VMap)
| NHandled (m : VMap)                      (* respHandler *)
| NBadConnection (err : goerror).          (* errorHandler.BadConnection *)

Abbreviation RN := (M rpcConn rn_ev).

(** closedIntentionally *)
Definition closedIntentionally (t : rpcConn) : bool := rn_done t.

(** rpcConn.Close: the once-guarded close of done, then the transport. *)
Definition rpcConn_closeDone : RN unit :=
  t ← gets id; when (negb (rn_closeOnce t)) (modify (upd_rn_close true true (rn_transportClosed t))).
Definition rpcConn_closeTransport : RN unit := modify (fun t => upd_rn_close (rn_done t) (rn_closeOnce t) true t).
Definition rpcConn_Close : RN unit := rpcConn_closeDone ≫= fun _ => rpcConn_closeTransport.

(** rpcConn.Stats *)
Definition rpcConn_Stats (t : rpcConn) : Z * Z := (Z.of_nat (length (rn_reqCh t)), rn_sendingCap t).

(** rpcClient.Stats; [conns] are the connections by their numbers. *)
Definition rpcClient_Stats (conns : nat -> rpcConn) (t : rpcClient) : list (string * Z) :=
  let '(sendingLen, sendingCap) := match cl_conn t with Some c => rpcConn_Stats (conns c) | None => (0, 0) end in
  [("requests", cl_lastRequest t); ("reconnects", cl_reconnects t); ("sendingLen", sendingLen); ("sendingCap", sendingCap)]%string.

(** A send on reqCh can proceed: there is room, or the request loop waits at the
    other end of an unbuffered channel. *)
Definition can_queue (t : rpcConn) : bool :=
  (Z.of_nat (length (rn_reqCh t)) <? rn_sendingCap t) ||
  ((rn_sendingCap t =? 0) && match rn_loop t with LoopSelect => true | _ => false end).

(** SendRequest, [false] while it blocks. *)
Definition SendRequest (pick : nat) (req : VMap) : RN bool :=
  t ← gets id;
  match select pick [(can_queue t, true); (rn_done t, false)] with
  | None => mret false
  | Some true =>
      (if rn_sendingCap t =? 0 then modify (upd_rn_loop (LoopWriting req)) else modify (upd_rn_reqCh (fun q => q ++ [req]))) ≫= fun _ =>
      emit (NAccepted req) ≫= fun _ => mret true
  | Some false => emit (NDropped req) ≫= fun _ => mret true
  end.

(** One action of requestLoop.  [werr] is what WriteMessage returns; the check of
    closedIntentionally and the call of BadConnection are actions of their own, so
    that Close can come in between; the loop is in BadConnection until it
    returns. *)
Definition requestLoop (pick : nat) (werr : option goerror) : RN unit :=
  t ← gets id;
  match rn_loop t with
  | LoopSelect =>
      match select pick [(rn_done t, None); (negb (bool_decide (rn_reqCh t = [])), head (rn_reqCh t))] with
      | None => mret tt
      | Some (Some req) => modify (upd_rn_reqCh tail) ≫= fun _ => modify (upd_rn_loop (LoopWriting req))
      | Some None => modify (upd_rn_loop LoopReturned)
      end
  | LoopWriting req =>
      match werr with
      | None => emit (NWrote req) ≫= fun _ => modify (upd_rn_loop LoopSelect)
      | Some err =>
          emit (NWriteFailed req) ≫= fun _ => modify (upd_rn_loop (LoopFailed err))
      end
  | LoopFailed err => modify (upd_rn_loop (if closedIntentionally t then LoopReturned else LoopReport err))
  | LoopReport err => emit (NBadConnection err) ≫= fun _ => modify (upd_rn_loop LoopReporting)
  | LoopReporting => modify (upd_rn_loop LoopSelect)
  | LoopReturned => mret tt
  end.

(** One action of responseLoop; [r] is what ReadMessage returns. *)
Definition responseLoop (r : goerror + VMap) : RN unit :=
  t ← gets id;
  match rn_resp t with
  | RespReading =>
      match r with
      | inr resp => emit (NRead resp) ≫= fun _ => modify (upd_rn_resp (RespHandling resp))
      | inl err => modify (upd_rn_resp (RespFailed err))
      end
  | RespHandling resp => emit (NHandled resp) ≫= fun _ => modify (upd_rn_resp RespReading)
  | RespFailed err => modify (upd_rn_resp (if closedIntentionally t then RespReturned else RespReport err))
  | RespReport err => emit (NBadConnection err) ≫= fun _ => modify (upd_rn_resp RespReporting)
  | RespReporting => modify (upd_rn_resp RespReturned)
  | RespNotStarted | RespReturned => mret tt
  end.

(** newConn after a dial that succeeded, up to the send of the handshake. *)
Definition newConn_start (sendingCap : Z) : rpcConn := mkRpcConn [] sendingCap false false false LoopSelect RespNotStarted.

(** The handshake message: the client id, the token and the credential. *)
Definition newConn_hello (clientId : Z) (resumeToken : string) (credential : option Value) : VMap :=
  let hs := Dialect_NewHandshakeRequest d clientId resumeToken in
  match credential with Some c => Put hs (AuthField d) (Some c) | None => hs end.

(** The rest of newConn: the response, read under the dial's deadline. *)
Definition newConn_finish (r : goerror + VMap) : RN (option goerror) :=
  match r with
  | inl err => rpcConn_Close ≫= fun _ => mret (Some (ErrWrap "handshake" err))
  | inr resp =>
      emit (NRead resp) ≫= fun _ => emit (NHandled resp) ≫= fun _ =>
      modify (upd_rn_resp RespReading) ≫= fun _ => mret None
  end.

(** ** Every interleaving *)

Definition accepted_of (e : rn_ev) : option VMap := match e with NAccepted m => Some m | _ => None end.
Definition attempted_of (e : rn_ev) : option VMap := match e with NWrote m | NWriteFailed m => Some m | _ => None end.
Definition written_of (e : rn_ev) : option VMap := match e with NWrote m => Some m | _ => None end.
Definition read_of (e : rn_ev) : option VMap := match e with NRead m => Some m | _ => None end.
Definition handled_of (e : rn_ev) : option VMap := match e with NHandled m => Some m | _ => None end.
Definition reports (e : rn_ev) : option goerror := match e with NBadConnection err => Some err | _ => None end.

Definition writing (t : rpcConn) : list VMap := match rn_loop t with LoopWriting m => [m] | _ => [] end.
Definition pending_reports (t : rpcConn) : list goerror :=
  match rn_loop t with LoopReport err => [err] | _ => [] end ++ match rn_resp t with RespReport err => [err] | _ => [] end.
Definition handling (t : rpcConn) : list VMap := match rn_resp t with RespHandling m => [m] | _ => [] end.

Inductive conn_step : rpcConn -> list rn_ev -> rpcConn -> Prop :=
| step_send pick req t : conn_step t (m_out (SendRequest pick req t)) (m_st (SendRequest pick req t))
| step_request pick werr t :
    (rn_transportClosed t = true -> werr <> None) ->
    conn_step t (m_out (requestLoop pick werr t)) (m_st (requestLoop pick werr t))
| step_response r t : conn_step t (m_out (responseLoop r t)) (m_st (responseLoop r t))
| step_finish r t :
    rn_resp t = RespNotStarted ->
    conn_step t (m_out (newConn_finish r t)) (m_st (newConn_finish r t))
| step_close_done t : conn_step t (m_out (rpcConn_closeDone t)) (m_st (rpcConn_closeDone t))
| step_close_transport t :
    rn_done t = true ->
    conn_step t (m_out (rpcConn_closeTransport t)) (m_st (rpcConn_closeTransport t)).

Inductive conn_reach : rpcConn -> list rn_ev -> rpcConn -> Prop :=
| reach_refl t : conn_reach t [] t
| reach_step t o t' o' t'' : conn_reach t o t' -> conn_step t' o' t'' -> conn_reach t (o ++ o') t''.

(** What is known after a history [o]. *)
Definition conn_inv (o : list rn_ev) (t : rpcConn) : Prop :=
  omap accepted_of o = omap attempted_of o ++ writing t ++ rn_reqCh t /\
  omap read_of o = omap handled_of o ++ handling t /\
  (rn_sendingCap t = 0 -> rn_reqCh t = []) /\
  (rn_closeOnce t = true -> rn_done t = true).

Ltac conn_norm := rewrite ?omap_app; cbn [omap list_omap accepted_of attempted_of read_of handled_of app]; rewrite ?app_nil_r.

Lemma SendRequest_inv pick req o t :
  conn_inv o t -> conn_inv (o ++ m_out (SendRequest pick req t)) (m_st (SendRequest pick req t)).
Proof.
  destruct t as [q cap dn once tc lp rp]. intros (Ha & Hr & Hc & Ho). unfold SendRequest. unM.
  destruct (select _ _) as [[]|] eqn:Es; cbn; [|unfold conn_inv, writing, handling in *; cbn in *; by conn_norm..].
  unfold conn_inv, writing, handling in *; cbn in *. select_cases Es; [|done].
  injection Es as Hq. symmetry in Hq. unfold can_queue in Hq. cbn in Hq.
  destruct (cap =? 0) eqn:Ecap; cbn.
  - apply Z.eqb_eq in Ecap as ->. rewrite (Hc eq_refl) in *. cbn in Hq. destruct lp; try done. conn_norm. by rewrite Ha, app_nil_r.
  - conn_norm. rewrite Ha, Hr. rewrite <- !app_assoc. split_and!; try done. intros ->. done.
Qed.

Lemma requestLoop_inv pick werr o t :
  conn_inv o t -> conn_inv (o ++ m_out (requestLoop pick werr t)) (m_st (requestLoop pick werr t)).
Proof.
  destruct t as [q cap dn once tc lp rp]. intros (Ha & Hr & Hc & Ho).
  unfold requestLoop, closedIntentionally. unM. unfold conn_inv, writing, handling in *. cbn in *.
  destruct lp as [|m|e|e| |]; cbn in *.
  - destruct (select _ _) as [[req|]|] eqn:Es; cbn; conn_norm; [|done..].
    select_cases Es; [done|]. injection Es as Hq Hh. destruct q as [|m q]; [done|]. injection Hh as ->.
    split_and!; try done. intros Hz. by specialize (Hc Hz).
  - destruct werr; cbn; conn_norm; rewrite Ha, Hr; rewrite <- ?app_assoc; done.
  - destruct dn; cbn; conn_norm; done.
  - conn_norm. done.
  - conn_norm. done.
  - conn_norm. done.
Qed.

Lemma responseLoop_inv r o t : conn_inv o t -> conn_inv (o ++ m_out (responseLoop r t)) (m_st (responseLoop r t)).
Proof.
  destruct t as [q cap dn once tc lp rp]. intros (Ha & Hr & Hc & Ho).
  unfold responseLoop, closedIntentionally. unM. unfold conn_inv, writing, handling in *. cbn in *.
  destruct rp as [| |m|e|e| |]; cbn in *; [|destruct r as [e|m]| |destruct dn|..]; cbn; conn_norm;
    rewrite ?Ha, ?Hr, ?app_nil_r; rewrite <- ?app_assoc; done.
Qed.

Lemma conn_step_inv o t o' t' : conn_inv o t -> conn_step t o' t' -> conn_inv (o ++ o') t'.
Proof.
  intros Hi Hs. destruct Hs as [pick req t|pick werr t _|r t|r t Hn|t|t _].
  - by apply SendRequest_inv.
  - by apply requestLoop_inv.
  - by apply responseLoop_inv.
  - destruct t as [q cap dn once tc lp rp]. destruct Hi as (Ha & Hr & Hc & Ho). cbn in Hn. subst rp.
    unfold newConn_finish, rpcConn_Close, rpcConn_closeDone, rpcConn_closeTransport.
    destruct r; unM; unfold conn_inv, writing, handling in *; cbn in *; [destruct once|]; cbn; conn_norm;
      rewrite ?Hr; rewrite ?app_nil_r; rewrite <- ?app_assoc; done.
  - destruct t as [q cap dn once tc lp rp]. destruct Hi as (Ha & Hr & Hc & Ho).
    unfold rpcConn_closeDone. unM. unfold conn_inv, writing, handling in *; cbn in *. destruct once; cbn; conn_norm; done.
  - destruct t as [q cap dn once tc lp rp]. destruct Hi as (Ha & Hr & Hc & Ho).
    unfold rpcConn_closeTransport. unM. unfold conn_inv, writing, handling in *; cbn in *. conn_norm. done.
Qed.

Lemma conn_reach_inv o t o' t' : conn_inv o t -> conn_reach t o' t' -> conn_inv (o ++ o') t'.
Proof.
  intros Hi Hr. induction Hr as [|t o1 t1 o2 t2 Hr IH Hs]; [by rewrite app_nil_r|].
  rewrite app_assoc. eapply conn_step_inv; eauto.
Qed.

(** A connection closed on purpose reports only what a loop was already about to
    report, and writes nothing once its transport is closed. *)
Lemma conn_step_closed t o t' :
  conn_step t o t' -> rn_done t = true ->
  rn_done t' = true /\ omap reports o ++ pending_reports t' ≡ₚ pending_reports t /\
  (rn_transportClosed t = true -> rn_transportClosed t' = true /\ omap written_of o = []).
Proof.
  intros Hs Hd. destruct Hs as [pick req t|pick werr t Hw|r t|r t Hn|t|t _]; destruct t as [q cap dn once tc lp rp]; cbn in *; subst dn;
    unfold SendRequest, requestLoop, responseLoop, newConn_finish, rpcConn_Close, rpcConn_closeDone,
      rpcConn_closeTransport, closedIntentionally, pending_reports; unM.
  - destruct (select _ _) as [[]|] eqn:Es; [destruct (cap =? 0) eqn:Ec|..]; cbn; try done. cbn in Es. select_cases Es; [|done].
    injection Es as Hq. unfold can_queue in Hq. cbn -[Z.eqb Z.ltb] in Hq. rewrite Ec in Hq. apply Z.eqb_eq in Ec as ->. 
    split_and!; try done. destruct lp; try done. rewrite orb_false_r in Hq. symmetry in Hq. bool_to_prop. lia.
  - destruct lp; [destruct (select _ _) as [[]|]|destruct werr|..]; cbn; try done.
    split_and!; try done. intros Hc. by specialize (Hw Hc).
  - destruct rp; [|destruct r|..]; cbn; rewrite ?app_nil_r; split_and!; try done. solve_Permutation.
  - subst rp. destruct r; [destruct once|]; cbn; done.
  - destruct once; cbn; done.
  - done.
Qed.

Lemma conn_reach_closed t o t' :
  conn_reach t o t' -> rn_done t = true ->
  rn_done t' = true /\ omap reports o ++ pending_reports t' ≡ₚ pending_reports t /\
  (rn_transportClosed t = true -> rn_transportClosed t' = true /\ omap written_of o = []).
Proof.
  intros Hr Hd. induction Hr as [|t o t1 o1 t2 Hr IH Hs]; [done|]. destruct (IH Hd) as (Hd1 & Hrep & Hw).
  destruct (conn_step_closed _ _ _ Hs Hd1) as (Hd2 & Hrep2 & Hw2). rewrite !omap_app, <- app_assoc, Hrep2.
  split_and!; try done. intros Hc. destruct (Hw Hc) as [Hc1 ->]. destruct (Hw2 Hc1) as [Hc2 ->]. done.
Qed.

Lemma written_attempted (o : list rn_ev) : (forall m, NWriteFailed m ∉ o) -> omap written_of o = omap attempted_of o.
Proof.
  induction o as [|e o IH]; [done|]. intros Hf.
  assert (omap written_of o = omap attempted_of o) as E by (apply IH; intros m Hm; apply (Hf m); by right).
  destruct e; cbn; rewrite ?E; try done. destruct (Hf m). left.
Qed.

(** What the loops of a connection do with its messages, in every interleaving
    with senders and Close. *)
(** C19: For every interleaving of senders, the request loop, the response
    loop and Close of a client connection: the messages accepted are exactly
    those the loop attempted, the one in hand and the queue, in order, the
    handshake first; without a write error what was written is a prefix of
    what was accepted; every message read is handled, in order; once the
    connection was closed on purpose the only bad-connection reports still to
    come are those of a loop that had passed its check of closedIntentionally
    before, each made at most once, and once the transport is closed too
    nothing more is written. *)
Theorem connection_sends_in_order cap hs (o : list rn_ev) t :
  0 <= cap -> let x := SendRequest 0 hs (newConn_start cap) in
  conn_reach (m_st x) o t ->
  let out := m_out x ++ o in
  omap accepted_of out = omap attempted_of out ++ writing t ++ rn_reqCh t /\
  head (omap accepted_of out) = Some hs /\
  ((forall m, NWriteFailed m ∉ out) -> omap written_of out `prefix_of` omap accepted_of out) /\
  omap read_of out = omap handled_of out ++ handling t /\
  (forall o' t', rn_done t = true -> conn_reach t o' t' ->
     omap reports o' ++ pending_reports t' ≡ₚ pending_reports t /\ (rn_transportClosed t = true -> omap written_of o' = [])).
Proof.
  intros Hcap x Hr out.
  assert (conn_inv (m_out x) (m_st x)) as Hi.
  { apply (SendRequest_inv 0 hs [] (newConn_start cap)). unfold conn_inv. done. }
  assert (m_out x = [NAccepted hs]) as Hx.
  { subst x. unfold SendRequest. rewrite M_gets_bind. cbn [id].
    assert (can_queue (newConn_start cap) = true) as ->.
    { unfold can_queue, newConn_start. cbn -[Z.ltb Z.eqb]. change (Z.of_nat 0) with 0.
      destruct (0 <? cap) eqn:E1, (cap =? 0) eqn:E2; bool_to_prop; (lia || done). }
    unfold select. cbn -[Z.eqb]. by destruct (cap =? 0). }
  destruct (conn_reach_inv _ _ _ _ Hi Hr) as (Ha & Hh & _). fold out in Ha, Hh. split_and!; try done.
  - unfold out. rewrite Hx. done.
  - intros Hf. rewrite (written_attempted _ Hf), Ha. by eexists.
  - intros o' t' Hd Hr'. destruct (conn_reach_closed _ _ _ Hr' Hd) as (_ & Hrep & Hw). split; [done|]. intros Hc. by apply Hw.
Qed.

End conn.

(** ** Witness *)

Section conn_witness.
#[local] Existing Instance RefValueLib.

Definition demo_hs : VMap := newConn_hello NewDialect 7 "" None.
Definition demo_msg : VMap := NewSystemRequest NewDialect 1 CancelRequest.

(** The loop takes the handshake, a second message is queued behind it, the
    handshake is written and the connection closed. *)
Lemma connection_sends_in_order_witness :
  let x := SendRequest 0 demo_hs (newConn_start 2) in
  exists o t, conn_reach (m_st x) o t /\ rn_reqCh t = [demo_msg] /\
  omap accepted_of (m_out x ++ o) = omap attempted_of (m_out x ++ o) ++ writing t ++ rn_reqCh t.
Proof.
  intros x. assert (exists o t, conn_reach (m_st x) o t /\ rn_reqCh t = [demo_msg]) as (o & t & Hr & Hq).
  { eexists _, _. split.
    - eapply reach_step; [|apply step_close_done].
      eapply reach_step; [eapply reach_step; [eapply reach_step; [apply reach_refl|apply (step_request 0 None)]
        |apply (step_send 0 demo_msg)]|apply (step_request 0 None)].
      all: intros Hc; vm_compute in Hc; discriminate Hc.
    - vm_compute. reflexivity. }
  exists o, t. split; [done|]. split; [done|].
  apply (connection_sends_in_order 2 demo_hs o t); [lia|done].
Defined.
End conn_witness.
