(* ===== verification/ClientOptions.v ===== *)
(** * Client options and constructors

    Models valueclient/options.go and the constructors of valueclient/client.go:
    how a list of options becomes a configuration, what of it reaches the dialer
    and the client, the interceptor chain of CallFunction, and the deadline of a
    dial.

    An option is data ([ClientOption]) with its closure ([apply_option]): the
    functions With... only build such closures.  Durations are nanoseconds. *)

From S2P Require Import Prelude Value RefValue Protocol Verify HashChain Pump Request Metadata ClientServing Client.
From S2P Require Import Resilience MemTransport WebSocket Transport.

Definition DefaultSendingCap : Z := 1024.
Definition DefaultTimeoutMls : Z := 1000.
Definition DefaultTimeout : Z := 10 * 1000000000.
Definition KeepAlivePeriod : Z := 15 * 1000000000.
Definition DefaultDialTimeout : Z := 30 * 1000000000.

(** The last of the values an option list sets, or the default. *)
Definition last_set {A B} (f : A -> option B) (dflt : B) (l : list A) : B := default dflt (last (omap f l)).

Lemma last_set_snoc {A B} (f : A -> option B) (dflt : B) l o :
  last_set f dflt (l ++ [o]) = match f o with Some v => v | None => last_set f dflt l end.
Proof.
  unfold last_set. rewrite omap_app. cbn. destruct (f o) as [v|]; cbn; [by rewrite last_snoc|by rewrite app_nil_r].
Qed.

Section options.
Context `{ValueLib}.

(** The unary call path and what wraps it. *)
Abbreviation Invoker := (reqctx -> string -> option Value -> option Value + goerror).
Abbreviation ClientInterceptor := (reqctx -> string -> option Value -> Invoker -> option Value + goerror).

(** [None] is a nil logger or metrics sink, [Some false] the no-op one. *)
Record clientConfig := mkClientConfig {
  cc_sendingCap : Z;
  cc_timeoutMls : Z;
  cc_maxPending : Z;
  cc_logger : option bool;
  cc_metrics : option bool;
  cc_metadata : option (reqctx -> Metadata);
  cc_reconnect : ReconnectPolicy;
  cc_interceptors : list ClientInterceptor;
  cc_keepAlive : Z;
  cc_writeTimeout : Z;
  cc_maxFrameSize : Z;
  cc_dialTimeout : Z
}.

Inductive ClientOption :=
| WithReconnectPolicy (p : ReconnectPolicy)
| WithSendingCap (n : Z)
| WithTimeout (timeoutMls : Z)
| WithStreamMaxPending (n : Z)
| WithKeepAlivePeriod (n : Z)
| WithWriteTimeout (n : Z)
| WithMaxFrameSize (n : Z)
| WithDialTimeout (n : Z)
| WithMetrics (m : option bool)
| WithInterceptors (interceptors : list ClientInterceptor)
| WithMetadata (inject : option (reqctx -> Metadata))
| WithLogger (logger : option bool).

Definition apply_option (c : clientConfig) (o : ClientOption) : clientConfig :=
  match c with
  | mkClientConfig sc tm mp lg me md rc ic ka wt mf dt =>
      match o with
      | WithReconnectPolicy p => mkClientConfig sc tm mp lg me md p ic ka wt mf dt
      | WithSendingCap n => mkClientConfig n tm mp lg me md rc ic ka wt mf dt
      | WithTimeout n => mkClientConfig sc n mp lg me md rc ic ka wt mf dt
      | WithStreamMaxPending n => mkClientConfig sc tm n lg me md rc ic ka wt mf dt
      | WithKeepAlivePeriod n => mkClientConfig sc tm mp lg me md rc ic n wt mf dt
      | WithWriteTimeout n => mkClientConfig sc tm mp lg me md rc ic ka n mf dt
      | WithMaxFrameSize n => mkClientConfig sc tm mp lg me md rc ic ka wt n dt
      | WithDialTimeout n => mkClientConfig sc tm mp lg me md rc ic ka wt mf n
      | WithMetrics m => mkClientConfig sc tm mp lg m md rc ic ka wt mf dt
      | WithInterceptors l => mkClientConfig sc tm mp lg me md rc (ic ++ l) ka wt mf dt
      | WithMetadata f => mkClientConfig sc tm mp lg me f rc ic ka wt mf dt
      | WithLogger l => mkClientConfig sc tm mp l me md rc ic ka wt mf dt
      end
  end.

(** The zero ReconnectPolicy: fail fast, no retry. *)
Definition zeroPolicy : ReconnectPolicy := mkPolicy None 0 0 0 false.

Definition defaultClientConfig : clientConfig :=
  mkClientConfig DefaultSendingCap DefaultTimeoutMls DefaultMaxPending (Some false) (Some false) None zeroPolicy []
    KeepAlivePeriod DefaultTimeout (16 * 1024 * 1024) DefaultDialTimeout.

(** nil loggers and sinks are replaced by the no-op ones. *)
Definition newClientConfig (opts : list ClientOption) : clientConfig :=
  match foldl apply_option defaultClientConfig opts with
  | mkClientConfig sc tm mp lg me md rc ic ka wt mf dt =>
      mkClientConfig sc tm mp (Some (default false lg)) (Some (default false me)) md rc ic ka wt mf dt
  end.

(** ** Constructors *)

(** A client with what of its configuration the model of Client.v does not
    carry. *)
Record clientHandle := mkHandle {
  ch_client : rpcClient;
  ch_dialer : Dialer;
  ch_sendingCap : Z;
  ch_dialTimeout : Z;
  ch_metrics : bool;
  ch_unaryInvoker : Invoker -> Invoker     (* around invokeUnary *)
}.

Section constructors.
Context (quote : string -> string) (clientId : Z).

Definition buildClient (dialer : Dialer) (opts : list ClientOption) : clientHandle :=
  let cfg := newClientConfig opts in
  mkHandle
    (NewClientWithDialer clientId (cc_maxPending cfg) (cc_timeoutMls cfg) (cc_metadata cfg) (cc_reconnect cfg))
    dialer (cc_sendingCap cfg) (cc_dialTimeout cfg) (default false (cc_metrics cfg))
    (fun invokeUnary => ChainClientInterceptors invokeUnary (cc_interceptors cfg)).

Definition NewClient (address socks5 : string) (opts : list ClientOption) : clientHandle :=
  let cfg := newClientConfig opts in
  buildClient (NewDialer quote address socks5 (cc_keepAlive cfg) (cc_writeTimeout cfg) (cc_maxFrameSize cfg)) opts.

Definition NewUnixClient (path : string) (opts : list ClientOption) : clientHandle :=
  let cfg := newClientConfig opts in
  buildClient (NewStreamDialer "unix" path "" 0 (cc_writeTimeout cfg) (cc_maxFrameSize cfg)) opts.

Definition NewWebSocketClient (url : string) (opts : list ClientOption) : clientHandle :=
  let cfg := newClientConfig opts in
  buildClient (NewDialer quote url "" (cc_keepAlive cfg) (cc_writeTimeout cfg) (cc_maxFrameSize cfg)) opts.

Definition NewTLSClient (address : string) (config : bool) (opts : list ClientOption) : clientHandle :=
  let cfg := newClientConfig opts in
  buildClient (NewTLSDialer address config (cc_keepAlive cfg) (cc_writeTimeout cfg) (cc_maxFrameSize cfg)) opts.

Definition NewMemClient (name : string) (opts : list ClientOption) : clientHandle := buildClient (MemDialer name) opts.

(** ** The deadline of a dial *)

(** ConnectContext: the context's own deadline, or the dial timeout from now. *)
Definition dialDeadline (h : clientHandle) (now : Z) (ctxDeadline : option Z) : option Z :=
  match ctxDeadline with
  | Some dl => Some dl
  | None => if 0 <? ch_dialTimeout h then Some (now + ch_dialTimeout h) else None
  end.

(** CallFunction: the interceptors around the network call. *)
Definition CallFunction_via (h : clientHandle) (invokeUnary : Invoker) (ctx : reqctx) (name : string)
    (args : option Value) : option Value + goerror :=
  ch_unaryInvoker h invokeUnary ctx name args.

(** ** What the options do *)

Definition sets_interceptors (o : ClientOption) : list ClientInterceptor :=
  match o with WithInterceptors l => l | _ => [] end.
Definition sets_sendingCap (o : ClientOption) : option Z := match o with WithSendingCap n => Some n | _ => None end.
Definition sets_timeout (o : ClientOption) : option Z := match o with WithTimeout n => Some n | _ => None end.
Definition sets_maxPending (o : ClientOption) : option Z := match o with WithStreamMaxPending n => Some n | _ => None end.
Definition sets_maxFrameSize (o : ClientOption) : option Z := match o with WithMaxFrameSize n => Some n | _ => None end.
Definition sets_writeTimeout (o : ClientOption) : option Z := match o with WithWriteTimeout n => Some n | _ => None end.
Definition sets_keepAlive (o : ClientOption) : option Z := match o with WithKeepAlivePeriod n => Some n | _ => None end.
Definition sets_dialTimeout (o : ClientOption) : option Z := match o with WithDialTimeout n => Some n | _ => None end.
Definition sets_reconnect (o : ClientOption) : option ReconnectPolicy := match o with WithReconnectPolicy p => Some p | _ => None end.
Definition sets_metadata (o : ClientOption) : option (option (reqctx -> Metadata)) := match o with WithMetadata f => Some f | _ => None end.

(** The fields of a configuration, in terms of the options alone. *)
Definition resolved (opts : list ClientOption) (cfg : clientConfig) : Prop :=
  cc_interceptors cfg = concat (map sets_interceptors opts) /\
  cc_sendingCap cfg = last_set sets_sendingCap DefaultSendingCap opts /\
  cc_timeoutMls cfg = last_set sets_timeout DefaultTimeoutMls opts /\
  cc_maxPending cfg = last_set sets_maxPending DefaultMaxPending opts /\
  cc_maxFrameSize cfg = last_set sets_maxFrameSize (16 * 1024 * 1024) opts /\
  cc_writeTimeout cfg = last_set sets_writeTimeout DefaultTimeout opts /\
  cc_keepAlive cfg = last_set sets_keepAlive KeepAlivePeriod opts /\
  cc_dialTimeout cfg = last_set sets_dialTimeout DefaultDialTimeout opts /\
  cc_reconnect cfg = last_set sets_reconnect zeroPolicy opts /\
  cc_metadata cfg = last_set sets_metadata None opts.

Lemma options_fold opts : resolved opts (foldl apply_option defaultClientConfig opts).
Proof.
  induction opts as [|o opts IH] using rev_ind; [done|]. rewrite foldl_snoc. unfold resolved in *.
  rewrite map_app, concat_app. cbn [map concat]. rewrite !last_set_snoc, app_nil_r.
  destruct (foldl apply_option defaultClientConfig opts), o; cbn in *; rewrite ?app_nil_r; intuition (subst; done).
Qed.

Lemma options_resolved opts :
  resolved opts (newClientConfig opts) /\ is_Some (cc_logger (newClientConfig opts)) /\ is_Some (cc_metrics (newClientConfig opts)).
Proof.
  pose proof (options_fold opts) as Hf. unfold newClientConfig.
  destruct (foldl apply_option defaultClientConfig opts). cbn in *. split_and!; eauto.
Qed.

(** The frame limit a dialer gives its connections. *)
Definition dialer_limit (x : Dialer) : option Z :=
  match x with
  | StreamDialer s => Some (sd_maxFrameSize s)
  | TLSDialer s => Some (td_maxFrameSize s)
  | WSDialer s => Some (wd_maxFrameSize s)
  | MemDialer _ | ErrDialer _ => None
  end.

Lemma NewDialer_limit address socks5 ka wt mf :
  dialer_limit (NewDialer quote address socks5 ka wt mf) = Some mf \/
  dialer_limit (NewDialer quote address socks5 ka wt mf) = None.
Proof. unfold NewDialer. destruct (ParseAddress address). repeat case_bool_decide; auto. Qed.

(** A client runs with its options: every scalar is the last one set or its
    default, interceptors accumulate and the first one is outermost, the dialer
    carries the frame limit, and without a deadline of its own a dial is bounded
    by the dial timeout. *)
Theorem client_honours_options address socks5 opts :
  let h := NewClient address socks5 opts in
  let c := ch_client h in
  cl_clientId c = clientId /\
  cl_timeoutMls c = last_set sets_timeout DefaultTimeoutMls opts /\
  cl_maxPending c = last_set sets_maxPending DefaultMaxPending opts /\
  cl_reconnect c = last_set sets_reconnect zeroPolicy opts /\
  cl_metadata c = last_set sets_metadata None opts /\
  ch_sendingCap h = last_set sets_sendingCap DefaultSendingCap opts /\
  (dialer_limit (ch_dialer h) = Some (last_set sets_maxFrameSize (16 * 1024 * 1024) opts) \/
   dialer_limit (ch_dialer h) = None) /\
  (forall invokeUnary ctx name args,
     CallFunction_via h invokeUnary ctx name args = wrap_all (concat (map sets_interceptors opts)) invokeUnary ctx name args) /\
  (forall now ctxDeadline,
     let dt := last_set sets_dialTimeout DefaultDialTimeout opts in
     dialDeadline h now ctxDeadline =
       match ctxDeadline with Some dl => Some dl | None => if 0 <? dt then Some (now + dt) else None end).
Proof.
  destruct (options_resolved opts) as [(Hi & Hs & Ht & Hp & Hm & Hw & Hk & Hd & Hr & Hmd) _].
  cbn zeta. unfold NewClient, buildClient. cbn [ch_client ch_dialer ch_sendingCap].
  split_and!; try done.
  - rewrite <- Hm. apply NewDialer_limit.
  - intros. unfold CallFunction_via. cbn [ch_unaryInvoker]. rewrite <- Hi.
    unfold ChainClientInterceptors. rewrite chain_loop_spec by done. by rewrite firstn_all.
  - intros now ctxDeadline. unfold dialDeadline. cbn [ch_dialTimeout]. by rewrite Hd.
Qed.
End constructors.
End options.

(** A second option of a kind wins, interceptors add up. *)
Example options_demo :
  let cfg := @newClientConfig RefValueLib [@WithTimeout RefValueLib 5; WithSendingCap 3; WithTimeout 7; WithLogger None] in
  (cc_timeoutMls cfg, cc_sendingCap cfg, cc_logger cfg, cc_maxPending cfg) = (7, 3, Some false, 4096).
Proof. reflexivity. Qed.
