(* ===== verification/EndToEnd.v ===== *)
(** * A remote call is a local call

    Composes the client (Client.v), a transport (the class [MsgLink] of
    MsgConn.v, in each direction) and the server's session (ServingClient.v) into
    the whole path of one unary call: invokeUnary, the request on the wire,
    processRequest and serveFunctionRequest, the response on the wire, the
    response loop, and the value invokeUnary returns.

    [handle_spec] is what the call should be: the admission checks of the server
    around an application of the registered handler.  [rpc_refines_local_call]
    says that the composition computes it, with the arguments, the deadline
    budget, the metadata and the principal the caller had. *)

From S2P Require Import Prelude Value RefValue Protocol Verify Sha256 HashChain Credit Pump.
From S2P Require Import FlowControl Request Metadata ClientStream ServingClient ServingProps ClientServing Client ClientProps.
From S2P Require Import ServingSystem ClientReconnect ClientCalls Framing MsgConn.

Section endtoend.
Context `{ValueLib} (d : Dialect) `{!dialect_ok d} (growcap : nat -> nat) (pickDone : servingClient -> VMap -> bool).

(** ** The specification *)

(** A nil argument arrives as a null; a null result is returned as nil. *)
Definition wire_arg (args : option Value) : option Value := Some (default Null args).
Definition wire_result (res : option Value) : option Value :=
  match res with Some v => if decide (kindOf v = NULL) then None else Some v | None => None end.

(** The context the handler runs in: its deadline in nanoseconds from the start,
    the caller's metadata, the session's principal, and the session as the peer. *)
Definition context_for (s : servingClient) (deadline : option Z) (md : Metadata) : reqctx :=
  let cx := mkCtx (sc_nextCtx s) deadline None None false in
  let cx := if decide (md = ∅) then cx
            else
              let cx := ContextWithMetadata cx md in
              match cfg_metadataExtractor (sc_cfg s) with Some extract => extract cx md | None => cx end in
  let cx := if negb (bool_decide (sc_principal s = "")) then ContextWithPrincipal cx (sc_principal s) else cx in
  contextWithPeer cx.

(** The caller's effective timeout of [eff] milliseconds as the handler's budget. *)
Definition budget (eff : Z) : option Z := if 0 <? eff then Some (eff * 1000000) else None.

(** The same at the width the server computes it with: above [max_timeout]
    milliseconds (292 years) the product wraps. *)
Definition max_timeout : Z := 9223372036854.
Definition handler_ctx (s : servingClient) (eff : Z) (md : Metadata) : reqctx :=
  context_for s (if 0 <? eff then Some (millis eff) else None) md.

Lemma millis_exact ms : 0 < ms <= max_timeout -> millis ms = ms * 1000000.
Proof. unfold max_timeout, millis. intros. apply wrap64_id. unfold in_int64, two63. lia. Qed.

Lemma handler_ctx_budget s eff md : eff <= max_timeout -> handler_ctx s eff md = context_for s (budget eff) md.
Proof.
  intros He. unfold handler_ctx, budget. destruct (0 <? eff) eqn:E; [|done]. bool_to_prop.
  by rewrite millis_exact.
Qed.

(** One millisecond more is a deadline in the past: the handler's context has
    expired before it starts. *)
Theorem large_sla_wraps : millis (max_timeout + 1) < 0.
Proof. vm_compute. reflexivity. Qed.

(** The metadata the client's injector gives a call. *)
Definition call_metadata (t : rpcClient) (ctx : reqctx) : Metadata :=
  match cl_metadata t with Some inject => inject ctx | None => ∅ end.

(** A result, or an error with its code; [None]: no answer, the handler
    panicked. *)
Definition dispatch_spec (s : servingClient) (cx : reqctx) (name : string) (args : option Value)
    : option (option Value + Z * string) :=
  match sc_functionMap s !! name with
  | None => Some (inr (CodeNotFound, "function not found " +:+ name))
  | Some fn =>
      if negb (Verify (wire_arg args) (fn_args fn)) then
        Some (inr (CodeInvalidArgument, "function '" +:+ name +:+ "' invalid args" +:+ valDetail (sc_cfg s) (wire_arg args)))
      else if negb (bool_decide (fn_ft fn = singleFunction)) then
        Some (inr (CodeInvalidArgument, "function wrong type " +:+ name +:+ ", expected " +:+
          pretty (functionType_iota (fn_ft fn)) +:+ ", actual " +:+ pretty (functionType_iota singleFunction)))
      else
        match fn_handler fn cx (wire_arg args) with
        | Panicked => None
        | Failed err => Some (inr (HandlerErrorCode err, "function " +:+ name +:+ ": " +:+ wireMessage err))
        | Returned res =>
            if negb (Verify res (fn_res fn)) then
              Some (inr (CodeInternal, "function '" +:+ name +:+ "' invalid results" +:+ valDetail (sc_cfg s) res))
            else Some (inl res)
        end
  end.

Definition handle_spec (s : servingClient) (cx : reqctx) (name : string) (args : option Value)
    : option (option Value + Z * string) :=
  let max := cfg_maxConcurrentRequests (sc_cfg s) in
  if (0 <? max) && (max <? sc_inFlight s + 1) then
    Some (inr (CodeResourceExhausted, "server busy: too many concurrent requests (max " +:+ pretty max +:+ ")"))
  else dispatch_spec s cx name args.

(** The answer as a frame, and as what the caller gets. *)
Definition answer_frame (id : Z) (a : option Value + Z * string) : VMap :=
  match a with
  | inl res => NewFunctionResult d (Long id) res
  | inr (code, msg) => NewFunctionError d (Long id) code msg
  end.
Definition caller_sees (a : option Value + Z * string) : option Value + goerror :=
  match a with inl res => inl (wire_result res) | inr (code, msg) => inr (ErrRpc code msg) end.

(** ** The composition *)

Definition client_sent (e : cl_ev) : option VMap := match e with CSend _ m => Some m | _ => None end.
Definition session_sent (e : sc_ev) : option VMap := match e with ESend m => Some m | _ => None end.

(** The read loop's processRequest and the handler goroutine it starts, if any:
    the frames handed to the sender. *)
Definition session_frames (req : VMap) (s : servingClient) : list VMap :=
  let y := processRequest d growcap pickDone req s in
  omap session_sent (m_out y) ++
  concat (map (fun e => match e with
    | EServe ft r => omap session_sent (m_out (serveFunctionRequest d pickDone ft r (m_st y)))
    | _ => []
    end) (m_out y)).

(** The case of SingleResp's select that is ready without a timeout. *)
Definition caller_case (r : rpcRequestCtx) : option single_case :=
  match rc_resultBuf r with
  | v :: _ => Some (ResultReceived v)
  | [] => if (0 <? rc_resultCloses r)%nat then Some ResultClosed else None
  end.

(** One message through a link. *)
Definition through {L} `{!MsgLink L} (m : VMap) (l : L) : option VMap :=
  match lk_write m l with
  | Some l' => match lk_read l' with Some (m', _) => Some m' | None => None end
  | None => None
  end.

(** The whole call; [None] when no answer arrives. *)
Definition unary_call {L} `{!MsgLink L} (de : dial_env) (ctx : reqctx) (until : option Z) (name : string)
    (args : option Value) (up down : L) (t : rpcClient) (s : servingClient) : option (option Value + goerror) :=
  let x := invokeUnary_begin d growcap de ctx until name args t in
  match m_res x with
  | inl err => Some (inr err)
  | inr l =>
      match omap client_sent (m_out x) !! 0%nat with
      | None => None
      | Some req =>
          match through req up with
          | None => None
          | Some req' =>
              match session_frames req' s !! 0%nat with
              | None => None
              | Some resp =>
                  match through resp down with
                  | None => None
                  | Some resp' =>
                      let t' := m_st (handleFrame d growcap de resp' (m_st x)) in
                      match cl_requests t' !! l with
                      | None => None
                      | Some r =>
                          match caller_case r with
                          | None => None
                          | Some c => Some (m_res (invokeUnary_end d growcap de l c t'))
                          end
                      end
                  end
              end
          end
      end
  end.

(** ** The client's half *)

Definition wire_request (t : rpcClient) (ctx : reqctx) (until : option Z) (name : string) (args : option Value) : VMap :=
  Put (constructRequest d ctx FunctionRequest name args (effectiveTimeout until t) t)
    (RequestIdField d) (Some (Long (wrap64 (cl_lastRequest t + 1)))).

Lemma begin_run de ctx until name args t c :
  cl_conn t = Some c -> in_int64 (cl_lastRequest t + 1) ->
  cl_servingMap t !! (cl_lastRequest t + 1) = None ->
  let req := wire_request t ctx until name args in
  let x := invokeUnary_begin d growcap de ctx until name args t in
  m_res x = inr (cl_nextLoc t) /\ omap client_sent (m_out x) = [req] /\
  exists r, awaiting (m_st x) (cl_lastRequest t + 1) (cl_nextLoc t) r /\ rc_resultErr r = None /\ rc_resultCloses r = 0%nat.
Proof.
  intros Hc Hid Hs req x. subst x. unfold invokeUnary_begin, startCall, sendRequest, registerRequest, ensureConnection, hasConn,
    newRequestCtx, transmitRequest, get_req, getConn_SendRequest. unM. rewrite Hc. cbn.
  rewrite lookup_insert, decide_True by done. cbn. rewrite Hc. cbn.
  split_and!; [done|done|].
  exists (NewRequestCtx (cl_lastRequest t + 1) unaryKind req 1 (cl_maxPending t) true true). split; [|done].
  unfold awaiting, req, wire_request. cbn. rewrite wrap64_id by done.
  rewrite (lookup_insert (cl_requestCtxMap t)), decide_True by done.
  rewrite (lookup_insert (cl_requests t)), decide_True by done. done.
Qed.

(** The frame of an error answer. *)
Lemma unary_error_run de resp rid l r t :
  awaiting t rid l r -> rc_resultErr r = None -> rc_resultCloses r = 0%nat ->
  messageType d resp = Some ErrorResponse -> requestIdOf d resp = Some rid ->
  let t' := m_st (handleFrame d growcap de resp t) in
  exists r', cl_requests t' !! l = Some r' /\ caller_case r' = Some ResultClosed /\
    m_res (invokeUnary_end d growcap de l ResultClosed t') = inr (serverError d resp).
Proof.
  intros (Hm & Hl & Hs & Hid & Hk & Hp & Hb & Hcap & Hdn & Hc & Hme) Herr Hcl0 Hmt Hrid t'. subst t'.
  unfold handleFrame. rewrite (frame_routed _ _ _ _ ErrorResponse rid) by auto. rewrite Hm.
  unfold processResponse, get_req. rewrite M_gets_bind, Hl, Hid. cbn [Z.eqb Pos.eqb FunctionResponse ErrorResponse].
  set (e := serverError d resp). set (r1 := rc_with_err (Some e) r). set (t1 := upd_cl_requests (insert l r1) t).
  assert (exists r2 nc, RequestCtx_Close d r1 = (tt, r2, [RRequestEnd nc.1 nc.2]) /\ rc_kind r2 = unaryKind /\
    rc_resultBuf r2 = [] /\ rc_resultCloses r2 = 1%nat /\ rc_resultErr r2 = Some e) as (r2 & nc & Hcl & K2 & B2 & C2 & E2).
  { unfold RequestCtx_Close, RequestCtx_closeResult, RequestCtx_Error. unM. rewrite Hc. cbn. rewrite Hp. cbn. rewrite Hme. cbn.
    eexists _, (_, _). split; [reflexivity|]. cbn. by rewrite Hcl0. }
  assert (cl_requests t1 !! l = Some r1) as Hl1 by (cbn; by rewrite lookup_insert, decide_True).
  pose proof (on_request_run d l (SetError e) r tt r1 [] t Hl eq_refl) as Hrun1.
  pose proof (on_request_run d l (RequestCtx_Close d) r1 tt r2 [nc] t1 Hl1 Hcl) as Hrun2.
  unfold on_request_. rewrite !M_assoc, (M_run_bind _ _ t _ _ _ Hrun1), M_left_id, m_st_eq.
  rewrite (M_run_bind (emit (CStreamError rid e)) _ _ tt _ [CStreamError rid e] eq_refl), m_st_eq.
  rewrite M_assoc, (M_run_bind _ _ _ _ _ _ Hrun2), M_left_id, m_st_eq.
  set (t2 := upd_cl_requests (insert l r2) t1). set (t3 := m_st (removeRequest rid t2)).
  assert (cl_requests t3 !! l = Some r2) as Hl3 by (cbn; by rewrite lookup_insert, decide_True).
  exists r2. split; [done|]. unfold caller_case. rewrite B2, C2. split; [done|].
  unfold invokeUnary_end, singleResp, get_req. rewrite M_gets_bind, Hl3. cbn [SingleResp].
  unfold RequestCtx_Error. rewrite E2. cbn [default when].
  by rewrite !M_bind_res.
Qed.

(** ** The server's half *)

(** What the server reads from a request with the fields of [wire_request]. *)
Record request_fields (req : VMap) (id eff : Z) (name : string) (args : option Value) (md : Metadata) : Prop := {
  rf_type : GetNumberField req (MessageTypeField d) = Some (Long FunctionRequest);
  rf_id : GetNumberField req (RequestIdField d) = Some (Long id);
  rf_name : GetStringField req (FunctionNameField d) = Some (Utf8 name);
  rf_args : Get req (ArgumentsField d) = wire_arg args;
  rf_timeout : GetNumberField req (TimeoutField d) = if 0 <? eff then Some (Long eff) else None;
  rf_metadata : DecodeMetadata d req = if decide (md = ∅) then None else Some md
}.

Lemma DecodeMetadata_equiv m1 m2 : m1 ≡ m2 -> DecodeMetadata d m1 = DecodeMetadata d m2.
Proof. intros E. unfold DecodeMetadata. by rewrite (E _). Qed.

Lemma request_fields_equiv m1 m2 id eff name args md :
  m1 ≡ m2 -> request_fields m2 id eff name args md -> request_fields m1 id eff name args md.
Proof. intros E []. split; equiv_rw E; try done. by rewrite (DecodeMetadata_equiv _ _ E). Qed.

Lemma wire_request_fields t ctx until name args :
  in_int64 (cl_lastRequest t + 1) ->
  request_fields (wire_request t ctx until name args) (cl_lastRequest t + 1) (effectiveTimeout until t) name args
    (call_metadata t ctx).
Proof.
  intros Hid. unfold wire_request, constructRequest, wire_arg, MessageType_Long. rewrite wrap64_id by done.
  generalize (effectiveTimeout until t). intros eff.
  set (md := call_metadata t ctx).
  set (base := Put (Put (Put EmptyMap _ _) _ _) _ _). set (base1 := if 0 <? eff then _ else base).
  match goal with |- request_fields (Put ?m _ _) _ _ _ _ _ => assert (m = PutMetadata d base1 md) as -> end.
  { unfold PutMetadata, md, call_metadata. destruct (cl_metadata t); [done|]. unfold EncodeMetadata. by rewrite bool_decide_true. }
  assert (Get base1 (MetadataField d) = Some Null) as Hnull by (unfold base1, base; destruct (0 <? eff); by env_simpl).
  pose proof (metadata_roundtrip d base1 md Hnull) as Hmd.
  split.
  6: { rewrite <- Hmd. unfold DecodeMetadata. by rewrite Get_Put_ne by field_ne. }
  all: unfold PutMetadata; destruct (EncodeMetadata md); unfold base1, base; destruct (0 <? eff) eqn:E; try (by env_simpl).
  all: destruct args; by env_simpl.
Qed.

(** The handler goroutine: the answer to an admitted or refused request. *)
Definition answer_list (id : Z) (a : option (option Value + Z * string)) : list VMap :=
  match a with Some a => [answer_frame id a] | None => [] end.

Lemma processRequest_run req id eff name args md s :
  request_fields req id eff name args md -> in_int64 id ->
  sc_done s = false -> sc_pendingStreams s !! id = None -> sc_requestMap s !! id = None ->
  let max := cfg_maxConcurrentRequests (sc_cfg s) in
  processRequest d growcap pickDone req s =
    if (0 <? max) && (max <? sc_inFlight s + 1) then
      (Handled None, s, [ESend (NewFunctionError d (Long id) CodeResourceExhausted
         ("server busy: too many concurrent requests (max " +:+ pretty max +:+ ")"))])
    else (Handled None, upd_sc_inFlight (fun n => n + 1) s, [EServe singleFunction req]).
Proof.
  intros [] Hid Hd Hps Hrm max. unfold processRequest, findPendingStream, serveNewRequest. unM. rewrite rf_type0, rf_id0. cbn.
  rewrite !longOf_Long by (done || (unfold FunctionRequest; auto with vrpc)). cbn. rewrite Hps. cbn. rewrite Hrm. cbn.
  unfold max. destruct (_ && _); cbn; [|done]. rewrite send_open by done. cbn. destruct s; cbn.
  unfold upd_sc_inFlight; cbn. by rewrite Z.add_simpl_r.
Qed.

Lemma admit_run req rid eff name args md s :
  request_fields req rid eff name args md -> in_int64 eff ->
  admitRequest d singleFunction req s =
    match sc_functionMap s !! name with
    | None => (inl (NewFunctionError d (Long rid) CodeNotFound ("function not found " +:+ name)), s, [])
    | Some fn =>
        if negb (Verify (wire_arg args) (fn_args fn)) then
          (inl (NewFunctionError d (Long rid) CodeInvalidArgument
            ("function '" +:+ name +:+ "' invalid args" +:+ valDetail (sc_cfg s) (wire_arg args))), s, [])
        else if negb (bool_decide (fn_ft fn = singleFunction)) then
          (inl (NewFunctionError d (Long rid) CodeInvalidArgument ("function wrong type " +:+ name +:+ ", expected " +:+
            pretty (functionType_iota (fn_ft fn)) +:+ ", actual " +:+ pretty (functionType_iota singleFunction))), s, [])
        else (inr (mkAdmitted (Long rid) name fn (wire_arg args) (handler_ctx s eff md)), upd_sc_nextCtx S s, [])
    end.
Proof.
  intros [] Heff. unfold admitRequest. rewrite M_gets_bind. cbn [Datatypes.id].
  rewrite rf_id0, rf_name0, rf_args0, rf_metadata0. cbn zeta. rewrite stringOf_Utf8.
  destruct (sc_functionMap s !! name) as [fn|]; [|done].
  destruct (negb (Verify _ _)); [done|]. destruct (negb (bool_decide (fn_ft fn = _))); [done|].
  rewrite bool_decide_true by done. cbn [negb andb]. unfold newRequestContext. rewrite M_assoc, M_gets_bind, M_assoc, M_modify_bind, M_left_id.
  destruct (decide (singleFunction = singleFunction)); [|done]. rewrite rf_timeout0. unfold handler_ctx, context_for.
  destruct (0 <? eff) eqn:Ee; [rewrite longOf_Long, Ee by done|]; by destruct (decide (md = ∅)).
Qed.

(** doServeFunctionRequest, on a session that differs from [s] in the in-flight
    counter only. *)
Lemma doServe_run req rid eff name args md s n :
  request_fields req rid eff name args md -> in_int64 eff ->
  let x := doServeFunctionRequest d pickDone singleFunction req (upd_sc_inFlight n s) in
  m_res x = (fun a => Some (answer_frame rid a)) <$> dispatch_spec s (handler_ctx s eff md) name args /\
  sc_done (m_st x) = sc_done s /\ m_out x = [].
Proof.
  intros Hf Heff x. subst x. unfold doServeFunctionRequest, dispatch_spec. rewrite M_gets_bind. cbn [Datatypes.id].
  pose proof (admit_run _ _ _ _ _ _ (upd_sc_inFlight n s) Hf Heff) as Ha.
  change (sc_functionMap (upd_sc_inFlight n s)) with (sc_functionMap s) in Ha.
  change (sc_cfg (upd_sc_inFlight n s)) with (sc_cfg s) in Ha.
  change (handler_ctx (upd_sc_inFlight n s)) with (handler_ctx s) in Ha.
  destruct (sc_functionMap s !! name) as [fn|]; [|by rewrite (M_run_bind _ _ _ _ _ _ Ha)].
  destruct (negb (Verify (wire_arg args) _)); [by rewrite (M_run_bind _ _ _ _ _ _ Ha)|].
  destruct (negb (bool_decide (fn_ft fn = _))) eqn:Eft; [by rewrite (M_run_bind _ _ _ _ _ _ Ha)|].
  apply negb_false_iff, bool_decide_eq_true in Eft.
  rewrite (M_run_bind _ _ _ _ _ _ Ha), m_res_eq, m_st_eq, m_out_eq. cbn [app ad_fn ad_ctx ad_args].
  unfold startHandler, finishHandler. cbn [ad_fn ad_reqId ad_name]. rewrite Eft. unM.
  destruct (fn_handler fn _ _) as [res|err|]; cbn; [|by destruct err|done].
  destruct (negb (Verify res _)); done.
Qed.

Lemma serve_run req rid eff name args md s n :
  request_fields req rid eff name args md -> in_int64 eff -> sc_done s = false ->
  omap session_sent (m_out (serveFunctionRequest d pickDone singleFunction req (upd_sc_inFlight n s))) =
  answer_list rid (dispatch_spec s (handler_ctx s eff md) name args).
Proof.
  intros Hf Heff Hd. destruct (doServe_run _ _ _ _ _ _ s n Hf Heff) as (Hres & Hdone & Hout).
  unfold serveFunctionRequest, serveBegin. rewrite bool_decide_true by done. cbn [when].
  rewrite (M_run_bind (emit _) _ _ _ _ _ eq_refl), m_out_eq, M_bind_out. cbn [app omap list_omap session_sent].
  rewrite omap_app, Hout, Hres. cbn [omap list_omap app].
  set (s' := m_st (doServeFunctionRequest _ _ _ _ _)) in *. clearbody s'.
  unfold serveEnd. destruct (dispatch_spec _ _ _ _) as [a|]; cbn [fmap option_fmap option_map answer_list]; [|done].
  rewrite bool_decide_true by done. cbn [when].
  rewrite M_bind_out, (M_run_bind (emit _) _ _ _ _ _ eq_refl), m_out_eq, send_open by congruence. done.
Qed.

Lemma session_answers req id eff name args md s :
  request_fields req id eff name args md -> in_int64 id -> in_int64 eff ->
  sc_done s = false -> sc_pendingStreams s !! id = None -> sc_requestMap s !! id = None ->
  session_frames req s = answer_list id (handle_spec s (handler_ctx s eff md) name args).
Proof.
  intros Hf Hid Heff Hd Hps Hrm. unfold session_frames. rewrite (processRequest_run _ _ _ _ _ _ _ Hf) by done.
  destruct (_ && _) eqn:Eb; cbn.
  - unfold handle_spec. by rewrite Eb.
  - rewrite app_nil_r. unfold handle_spec. rewrite Eb. by apply (serve_run _ _ _ _ _ _ _ _ Hf).
Qed.

(** ** Both together *)

(** An idle link that takes a message. *)
Definition carries {L} `{!MsgLink L} (l : L) (m : VMap) : Prop :=
  lk_rel l [] /\ lk_fits l m /\ is_Some (lk_write m l).

Lemma carries_through {L} `{!MsgLink L} (l : L) m : carries l m -> exists m', through m l = Some m' /\ m' ≡ m.
Proof.
  intros (Hr & Hf & [l' Hw]). pose proof (lk_write_rel _ _ _ _ Hr Hf Hw) as Hr'.
  destruct (lk_read_rel _ _ _ Hr') as (m' & l2 & Hrd & E & _). exists m'. unfold through. by rewrite Hw, Hrd.
Qed.

(** What the client reads from an answer. *)
Lemma result_frame_read rid res resp :
  resp ≡ NewFunctionResult d (Long rid) res -> in_int64 rid ->
  messageType d resp = Some FunctionResponse /\ requestIdOf d resp = Some rid /\
  fieldOrNil resp (ResultField d) = wire_result res.
Proof.
  intros E Hrid. unfold messageType, requestIdOf, fieldOrNil. equiv_rw E.
  unfold NewFunctionResult, wire_result, MessageType_Long.
  destruct res as [v|]; env_simpl; rewrite !longOf_Long by (done || (unfold FunctionResponse; auto with vrpc));
    split_and!; try done. by rewrite decide_True by done.
Qed.

Lemma error_frame_read rid code msg resp :
  resp ≡ NewFunctionError d (Long rid) code msg -> in_int64 rid -> in_int32 code ->
  messageType d resp = Some ErrorResponse /\ requestIdOf d resp = Some rid /\
  serverError d resp = ErrRpc code msg.
Proof.
  intros E Hrid Hc. unfold serverError. rewrite (GetString_present resp (ErrorField d) (Utf8 msg)).
  - unfold messageType, requestIdOf. equiv_rw E. unfold NewFunctionError, MessageType_Long. env_simpl.
    rewrite !longOf_Long by (done || (unfold ErrorResponse, in_int32, in_int64, two63 in *; lia)).
    by rewrite wrap32_id.
  - rewrite (E _). unfold NewFunctionError. by env_simpl.
  - apply kind_Utf8.
Qed.

Lemma unary_call_spec {L} `{!MsgLink L} de ctx until name args (up down : L) t s c :
  let rid := cl_lastRequest t + 1 in
  let eff := effectiveTimeout until t in
  let answer := handle_spec s (handler_ctx s eff (call_metadata t ctx)) name args in
  cl_conn t = Some c -> in_int64 rid -> cl_servingMap t !! rid = None -> in_int64 eff ->
  sc_done s = false -> sc_pendingStreams s !! rid = None -> sc_requestMap s !! rid = None ->
  (forall code msg, answer = Some (inr (code, msg)) -> in_int32 code) ->
  carries up (wire_request t ctx until name args) ->
  (forall a, answer = Some a -> carries down (answer_frame rid a)) ->
  unary_call de ctx until name args up down t s = caller_sees <$> answer.
Proof.
  intros rid eff answer Hc Hrid Hsm Heff Hd Hps Hrm Hcode Hup Hdown.
  destruct (begin_run de ctx until name args t c Hc Hrid Hsm) as (Hres & Hout & r & Haw & Herr & Hcl).
  fold rid in Haw.
  unfold unary_call. rewrite Hres, Hout. cbn [lookup list_lookup].
  destruct (carries_through up _ Hup) as (req' & -> & Ereq).
  pose proof (request_fields_equiv _ _ _ _ _ _ _ Ereq (wire_request_fields t ctx until name args Hrid)) as Hf.
  rewrite (session_answers _ _ _ _ _ _ s Hf Hrid Heff Hd Hps Hrm). fold rid eff answer.
  destruct answer as [a|]; [|done]. cbn [answer_list lookup list_lookup].
  destruct (carries_through down _ (Hdown a eq_refl)) as (resp' & -> & Eresp).
  destruct a as [res|[code msg]]; cbn [answer_frame] in Eresp; cbn [fmap option_fmap option_map caller_sees].
  - destruct (result_frame_read _ _ _ Eresp Hrid) as (Hmt & Hid & Hfld).
    destruct (unary_answer_run d growcap de resp' rid _ r _ Haw Hmt Hid) as ((r' & Hl & Hb & _) & _ & _ & Hr & _).
    rewrite Hfld in *. rewrite Hl. unfold caller_case. rewrite Hb. by rewrite Hr.
  - destruct (error_frame_read _ _ _ _ Eresp Hrid (Hcode _ _ eq_refl)) as (Hmt & Hid & Hse).
    destruct (unary_error_run de resp' rid _ r _ Haw Herr Hcl Hmt Hid) as (r' & Hl & Hcase & Hr).
    rewrite Hl, Hcase, Hr. by rewrite Hse.
Qed.

(** One unary call over any transport is the local application of the
    registered handler behind the server's checks. *)
(** C1: A unary call, composed from the client's invokeUnary, a message link
    in each direction (any implementation of the MsgLink interface), the
    session's processRequest and handler goroutine, the response loop and
    SingleResp, returns exactly what a local application of the registered
    handler returns behind the server's admission checks: the result, the
    handler's error with its code and place, or the error of the check that
    refused it (busy, unknown function, bad arguments, wrong kind, bad
    result); no answer when the handler panics. The handler runs with the
    caller's arguments and metadata, the session's principal, and a deadline
    of exactly the caller's effective timeout (none when that is not
    positive). For an effective timeout of at most 9223372036854 ms, above
    which the code's product in nanoseconds wraps, and for a response that
    arrives before the caller's timer. *)
Theorem rpc_refines_local_call {L} `{!MsgLink L} de ctx until name args (up down : L) t s c :
  let rid := cl_lastRequest t + 1 in
  let eff := effectiveTimeout until t in
  let answer := handle_spec s (context_for s (budget eff) (call_metadata t ctx)) name args in
  cl_conn t = Some c -> in_int64 rid -> cl_servingMap t !! rid = None -> in_int64 eff -> eff <= max_timeout ->
  sc_done s = false -> sc_pendingStreams s !! rid = None -> sc_requestMap s !! rid = None ->
  (forall code msg, answer = Some (inr (code, msg)) -> in_int32 code) ->
  carries up (wire_request t ctx until name args) ->
  (forall a, answer = Some a -> carries down (answer_frame rid a)) ->
  unary_call de ctx until name args up down t s = caller_sees <$> answer.
Proof.
  intros rid eff answer Hc Hrid Hnew Heff Hle. unfold answer. rewrite <- handler_ctx_budget by done.
  by apply (unary_call_spec de ctx until name args up down t s c).
Qed.

End endtoend.

(** ** Witness: a call over two framed byte streams *)

Section endtoend_witness.
#[local] Existing Instance RefValueLib.

Definition double_handler : reqctx -> option Value -> outcome Value :=
  fun _ args => match args with Some v => Returned (Some (Long (2 * longOf v))) | None => Failed (ErrPlain "no argument") end.
Definition demo_served : servingClient :=
  NewServingClient 7 "" "" {[ "double" := mkFunction "double" Any Any singleFunction double_handler ]} (mkServerConfig 2 1 4 None false).
Definition demo_caller : rpcClient := upd_cl_conn (fun _ => Some 0%nat) (NewClientWithDialer 7 4 1000 None demo_policy).
Definition demo_ctx0 : reqctx := mkCtx 0 None None None false.

Lemma demo_carries m :
  (match Pack m with Some p => (Z.of_nat (length p) <? 1000) | None => false end) = true ->
  carries (newFramedLink 0 MaxFrameSize) m.
Proof.
  intros Hp. destruct (Pack m) as [p|] eqn:Ep; [|discriminate]. apply Z.ltb_lt in Hp. split_and!.
  - apply newFramedLink_rel.
  - exists p. split; [done|]. unfold fits, two32. cbn [newFramedLink fl_reader NewMsgConn maxFrameSize]. unfold MaxFrameSize. lia.
  - cbn [lk_write framed_link]. unfold framed_write.
    destruct (WriteMessage _ None None m) as [[err frame] t'] eqn:EW.
    apply (WriteMessage_frame _ m p) in EW as (-> & _); [by eexists|done|done|unfold two32; lia].
Qed.

Lemma rpc_refines_local_call_witness :
  unary_call NewDialect demo_cl_grow demo_pick demo_dial demo_ctx0 None "double" (Some (Long 21))
    (newFramedLink 0 MaxFrameSize) (newFramedLink 0 MaxFrameSize) demo_caller demo_served = Some (inl (Some (Long 42))).
Proof.
  rewrite (rpc_refines_local_call NewDialect demo_cl_grow demo_pick demo_dial demo_ctx0 None "double" (Some (Long 21))
    (newFramedLink 0 MaxFrameSize) (newFramedLink 0 MaxFrameSize) demo_caller demo_served 0%nat).
  - vm_compute. reflexivity.
  - reflexivity.
  - vm_compute. split; discriminate || reflexivity.
  - reflexivity.
  - vm_compute. split; discriminate || reflexivity.
  - vm_compute. discriminate.
  - reflexivity.
  - reflexivity.
  - reflexivity.
  - intros code msg Ha. vm_compute in Ha. discriminate Ha.
  - apply demo_carries. vm_compute. reflexivity.
  - intros a Ha. vm_compute in Ha. injection Ha as <-. apply demo_carries. vm_compute. reflexivity.
Defined.
End endtoend_witness.
