(* ===== verification/Typed.v ===== *)
(** * Typed calls

    Models valuerpc/codec.go and the typed wrappers of valueclient/typed.go and
    valueserver/typed.go.  A codec is the user's pair of functions; what the
    theorems ask of it is that it survives the wire ([lawful], [lawful_stream]).

    The goroutines of the stream wrappers copy one channel to another; they are
    functions of the values their input channel yields before it closes. *)

From S2P Require Import Prelude Value RefValue Protocol Verify Sha256 HashChain Credit Pump.
From S2P Require Import FlowControl Request Metadata ClientStream ServingClient ServingProps ClientServing Client ClientProps.
From S2P Require Import ServingSystem Server ClientReconnect ClientCalls Framing MsgConn EndToEnd.

Section typed.
Context `{ValueLib}.

Record Codec (T : Type) := mkCodec {
  Encode : T -> option Value;
  Decode : option Value -> goerror + T
}.
#[global] Arguments mkCodec {T} _ _.
#[global] Arguments Encode {T} _ _.
#[global] Arguments Decode {T} _ _.

Definition ValueCodec : Codec (option Value) := mkCodec (fun v => v) inr.

(** What a typed handler does. *)
Inductive typed_outcome (T : Type) :=
| TReturned (res : T)
| TFailed (err : goerror)
| TPanicked.
#[global] Arguments TReturned {T} _.
#[global] Arguments TFailed {T} _.
#[global] Arguments TPanicked {T}.

(** ** valueclient/typed.go *)

(** [call] is cli.CallFunction with the name; [None] while it waits. *)
Definition CallUnary {Req Resp} (call : option Value -> option (option Value + goerror))
    (req : Req) (reqCodec : Codec Req) (respCodec : Codec Resp) : option (Resp + goerror) :=
  match call (Encode reqCodec req) with
  | None => None
  | Some (inr err) => Some (inr err)
  | Some (inl res) => Some (match Decode respCodec res with inl err => inr err | inr v => inl v end)
  end.

(** The goroutine of GetStreamTyped over the values of [raw]: what it puts on
    the typed channel, the error it reports, and the values it leaves unread. *)
Fixpoint getStream_pump {Resp} (respCodec : Codec Resp) (raw : list (option Value))
    : list Resp * option goerror * list (option Value) :=
  match raw with
  | [] => ([], None, [])
  | v :: raw' =>
      match Decode respCodec v with
      | inl err => ([], Some err, raw')
      | inr x => let '(out, err, rest) := getStream_pump respCodec raw' in (x :: out, err, rest)
      end
  end.

(** GetStreamTyped: the raw stream's error, or the values and the decode error;
    [errp] says whether the caller asked for it. *)
Definition GetStreamTyped {Req Resp} (getStream : option Value -> goerror + list (option Value))
    (req : Req) (reqCodec : Codec Req) (respCodec : Codec Resp) (errp : bool)
    : goerror + list Resp * option goerror :=
  match getStream (Encode reqCodec req) with
  | inl err => inl err
  | inr raw =>
      let '(out, err, _) := getStream_pump respCodec raw in
      inr (out, if errp then err else None)
  end.

(** PutStreamTyped: what its goroutine puts on the raw channel. *)
Definition PutStreamTyped {Val} (valCodec : Codec Val) (vals : list Val) : list (option Value) := map (Encode valCodec) vals.

(** ** valueserver/typed.go *)

Definition decodeFailed (err : goerror) : goerror :=
  ErrRpc CodeInvalidArgument ("decode request: " +:+ Error_String err).

(** The handler AddUnary registers. *)
Definition unary_closure {Req Resp} (reqCodec : Codec Req) (respCodec : Codec Resp)
    (fn : reqctx -> Req -> typed_outcome Resp) : reqctx -> option Value -> outcome Value :=
  fun ctx args =>
    match Decode reqCodec args with
    | inl err => Failed (decodeFailed err)
    | inr req =>
        match fn ctx req with
        | TReturned resp => Returned (Encode respCodec resp)
        | TFailed err => Failed err
        | TPanicked => Panicked
        end
    end.

Definition AddUnary {Req Resp} (name : string) (reqCodec : Codec Req) (respCodec : Codec Resp)
    (fn : reqctx -> Req -> typed_outcome Resp) : M rpcServer rs_ev (option goerror) :=
  AddFunction name Any Any (unary_closure reqCodec respCodec fn).

(** What it stores. *)
Definition unary_function {Req Resp} (name : string) (reqCodec : Codec Req) (respCodec : Codec Resp)
    (fn : reqctx -> Req -> typed_outcome Resp) : function :=
  mkFunction name Any Any singleFunction (unary_closure reqCodec respCodec fn).

(** The handler AddOutgoingStreamTyped registers: the typed handler's values,
    encoded by its goroutine. *)
Definition AddOutgoingStreamTyped {Req Resp} (reqCodec : Codec Req) (respCodec : Codec Resp)
    (fn : reqctx -> Req -> goerror + list Resp) (ctx : reqctx) (args : option Value) : goerror + list (option Value) :=
  match Decode reqCodec args with
  | inl err => inl (decodeFailed err)
  | inr req => match fn ctx req with inl err => inl err | inr typed => inr (map (Encode respCodec) typed) end
  end.

(** ** Lawful codecs *)

(** The argument and the result of a call, after the wire. *)
Definition lawful_arg {T} (c : Codec T) (x : T) : Prop := Decode c (wire_arg (Encode c x)) = inr x.
Definition lawful_result {T} (c : Codec T) (x : T) : Prop := Decode c (wire_result (Encode c x)) = inr x.

(** A stream value: a null one would be taken for an absent one. *)
Definition lawful_stream {T} (c : Codec T) (x : T) : Prop :=
  exists v, Encode c x = Some v /\ kindOf v <> NULL /\ Decode c (Some v) = inr x.

Context (d : Dialect) `{!dialect_ok d} (growcap : nat -> nat) (pickDone : servingClient -> VMap -> bool).

(** The outcome of a typed handler, as the caller sees it. *)
Definition typed_spec {T} (name : string) (o : typed_outcome T) : option (T + goerror) :=
  match o with
  | TReturned r => Some (inl r)
  | TFailed err => Some (inr (ErrRpc (HandlerErrorCode err) ("function " +:+ name +:+ ": " +:+ wireMessage err)))
  | TPanicked => None
  end.

(** What the dispatcher answers for a function registered with AddUnary. *)
Lemma dispatch_typed {Req Resp} (reqCodec : Codec Req) (respCodec : Codec Resp) fn s cx name args :
  sc_functionMap s !! name = Some (unary_function name reqCodec respCodec fn) ->
  dispatch_spec s cx name args =
    match unary_closure reqCodec respCodec fn cx (wire_arg args) with
    | Panicked => None
    | Failed err => Some (inr (HandlerErrorCode err, "function " +:+ name +:+ ": " +:+ wireMessage err))
    | Returned res => Some (inl res)
    end.
Proof.
  intros Hf. unfold dispatch_spec. rewrite Hf. cbn [unary_function fn_args fn_res fn_ft fn_handler].
  change (Verify (wire_arg args) Any) with true. rewrite bool_decide_true by done. cbn [negb].
  destruct (unary_closure _ _ _ _ _) as [res|err|]; [|done..]. by change (Verify res Any) with true.
Qed.

Lemma AddUnary_stores {Req Resp} name (reqCodec : Codec Req) (respCodec : Codec Resp) fn srv :
  rs_functionMap srv !! name = None ->
  m_res (AddUnary name reqCodec respCodec fn srv) = None /\
  rs_functionMap (m_st (AddUnary name reqCodec respCodec fn srv)) !! name = Some (unary_function name reqCodec respCodec fn).
Proof.
  intros Hn. unfold AddUnary, AddFunction, storeFunction, hasFunction. unM. rewrite Hn. cbn. by rewrite lookup_insert, decide_True.
Qed.

(** A typed call over any transport: the handler runs on the caller's value and
    the caller gets its result, or its error with its code; an argument the
    server cannot decode is refused as InvalidArgument without running the
    handler. *)
(** C21: CallUnary against a function registered with AddUnary, over any link:
    when the codecs survive the wire the caller gets what the typed handler
    returns for its value, or the handler's error with its code; an argument
    the server cannot decode is refused with InvalidArgument and the handler
    does not run. *)
Theorem typed_call_is_local_call {Req Resp L} `{!MsgLink L} (reqCodec : Codec Req) (respCodec : Codec Resp) fn
    de ctx until name (req : Req) (up down : L) t s c :
  let rid := cl_lastRequest t + 1 in
  let eff := effectiveTimeout until t in
  let cx := handler_ctx s eff (call_metadata t ctx) in
  let answer := dispatch_spec s cx name (Encode reqCodec req) in
  let call args := unary_call d growcap pickDone de ctx until name args up down t s in
  sc_functionMap s !! name = Some (unary_function name reqCodec respCodec fn) ->
  cl_conn t = Some c -> in_int64 rid -> cl_servingMap t !! rid = None -> in_int64 eff ->
  sc_done s = false -> sc_pendingStreams s !! rid = None -> sc_requestMap s !! rid = None ->
  (0 <? cfg_maxConcurrentRequests (sc_cfg s)) && (cfg_maxConcurrentRequests (sc_cfg s) <? sc_inFlight s + 1) = false ->
  (forall code msg, answer = Some (inr (code, msg)) -> in_int32 code) ->
  carries up (wire_request d t ctx until name (Encode reqCodec req)) ->
  (forall a, answer = Some a -> carries down (answer_frame d rid a)) ->
  (forall r, fn cx req = TReturned r -> lawful_result respCodec r) ->
  (lawful_arg reqCodec req ->
     CallUnary call req reqCodec respCodec = typed_spec name (fn cx req)) /\
  (forall err, Decode reqCodec (wire_arg (Encode reqCodec req)) = inl err ->
     CallUnary call req reqCodec respCodec =
       Some (inr (ErrRpc CodeInvalidArgument ("function " +:+ name +:+ ": decode request: " +:+ Error_String err)))).
Proof.
  intros rid eff cx answer call Hf Hc Hrid Hsm Heff Hd Hps Hrm Hfree Hcode Hup Hdown Hres.
  assert (handle_spec s cx name (Encode reqCodec req) = answer) as Hh by (unfold handle_spec; by rewrite Hfree).
  assert (call (Encode reqCodec req) = caller_sees <$> answer) as Hcall.
  { unfold call. rewrite <- Hh. apply (unary_call_spec d growcap pickDone de ctx until name _ up down t s c); try done;
      fold rid eff cx; rewrite Hh; done. }
  unfold CallUnary. rewrite Hcall. unfold answer. rewrite (dispatch_typed reqCodec respCodec fn) by done.
  unfold unary_closure. split.
  - intros ->. destruct (fn cx req) as [r|err|] eqn:Efn; cbn [fmap option_fmap option_map caller_sees typed_spec]; [|done..].
    by rewrite (Hres r eq_refl).
  - intros err ->. cbn [fmap option_fmap option_map caller_sees decodeFailed]. done.
Qed.

(** ** Streams *)

(** The values a client takes from StreamValue frames. *)
Definition stream_values (frames : list VMap) : list (option Value) :=
  omap (fun m => match fieldOrNil m (ValueField d) with Some v => Some (Some v) | None => None end) frames.

Lemma stream_value_read rid v m :
  m ≡ NewStreamValue d (Long rid) (Some v) -> kindOf v <> NULL -> fieldOrNil m (ValueField d) = Some v.
Proof. intros E Hk. unfold fieldOrNil. equiv_rw E. unfold NewStreamValue. env_simpl. by rewrite decide_False. Qed.

(** The typed values a handler emits are the ones the caller reads, in order and
    without error, when every value survives the wire; a value that does not
    decode ends the typed stream after the values before it, with its error, and
    the rest is left unread. *)
Theorem typed_stream_roundtrip {Resp} (respCodec : Codec Resp) rid (vals : list Resp) frames :
  Forall2 (fun m x => m ≡ NewStreamValue d (Long rid) (Encode respCodec x)) frames vals ->
  Forall (lawful_stream respCodec) vals ->
  getStream_pump respCodec (stream_values frames) = (vals, None, []) /\
  (forall bad err rest, Decode respCodec bad = inl err ->
     getStream_pump respCodec (stream_values frames ++ bad :: rest) = (vals, Some err, rest)).
Proof.
  intros HF Hl. revert Hl. induction HF as [|m x frames vals E HF IH]; intros Hl.
  - split; [done|]. intros bad err rest Hb. cbn. by rewrite Hb.
  - apply Forall_cons in Hl as [(v & Hv & Hk & Hdec) Hl]. destruct (IH Hl) as [IH1 IH2]. rewrite Hv in E.
    unfold stream_values. cbn [omap list_omap]. rewrite (stream_value_read _ _ _ E Hk). fold (stream_values frames).
    cbn [getStream_pump app]. rewrite Hdec, IH1. split; [done|]. intros bad err rest Hb. by rewrite (IH2 bad err rest Hb).
Qed.
End typed.

(** ** Witnesses *)

Section typed_witness.
#[local] Existing Instance RefValueLib.

Definition int_codec : Codec Z :=
  mkCodec (fun n => Some (Long n))
    (fun v => match v with
              | Some v => if decide (kindOf v = NUMBER) then inr (longOf v) else inl (ErrPlain "not a number")
              | None => inl (ErrPlain "missing")
              end).

Definition typed_double : reqctx -> Z -> typed_outcome Z := fun _ n => TReturned (2 * n).
Definition demo_typed : servingClient :=
  NewServingClient 7 "" "" {[ "double" := unary_function "double" int_codec int_codec typed_double ]}
    (mkServerConfig 2 1 4 None false).

Lemma typed_call_is_local_call_witness :
  CallUnary (fun args => unary_call NewDialect demo_cl_grow demo_pick demo_dial demo_ctx0 None "double" args
    (newFramedLink 0 MaxFrameSize) (newFramedLink 0 MaxFrameSize) demo_caller demo_typed) 21 int_codec int_codec = Some (inl 42).
Proof.
  refine (proj1 (typed_call_is_local_call NewDialect demo_cl_grow demo_pick int_codec int_codec typed_double demo_dial
    demo_ctx0 None "double" 21 (newFramedLink 0 MaxFrameSize) (newFramedLink 0 MaxFrameSize) demo_caller demo_typed 0%nat
    _ _ _ _ _ _ _ _ _ _ _ _ _) _).
  1-2: reflexivity.
  1: vm_compute; split; discriminate || reflexivity.
  1: reflexivity.
  1: vm_compute; split; discriminate || reflexivity.
  1-4: reflexivity.
  - intros code msg Ha. vm_compute in Ha. discriminate Ha.
  - apply demo_carries. vm_compute. reflexivity.
  - intros a Ha. vm_compute in Ha. injection Ha as <-. apply demo_carries. vm_compute. reflexivity.
  - intros r [= <-]. reflexivity.
  - reflexivity.
Defined.

Lemma typed_stream_roundtrip_witness :
  getStream_pump int_codec (stream_values NewDialect (map (fun n => NewStreamValue NewDialect (Long 3) (Some (Long n))) [1; 2]) ++
    [Some (Utf8 "x"); Some (Long 4)]) = ([1; 2], Some (ErrPlain "not a number"), [Some (Long 4)]).
Proof.
  apply (typed_stream_roundtrip NewDialect int_codec 3 [1; 2]).
  - repeat constructor.
  - repeat constructor; eexists; (split; [reflexivity|]); split; [discriminate|reflexivity|discriminate|reflexivity].
  - reflexivity.
Defined.
End typed_witness.
