(* ===== verification/RateLimit.v ===== *)
(** * Client-side rate limiting and deadlines

    Models RateLimit (a lazily refilled token bucket over float64) and Timeout of
    resilience/policies.go.  float64 is IEEE binary64 as [SpecFloat] defines it,
    rounding to nearest even; the elapsed time between two calls is an argument
    (time.Now is monotonic: it is never negative). *)

From Stdlib Require Import SpecFloat.
From S2P Require Import Prelude Value RefValue Protocol.

(** ** binary64 arithmetic *)

Abbreviation prec := 53%Z.
Abbreviation emax := 1024%Z.

Definition f64_of_Z (z : Z) : spec_float := binary_normalize prec emax z 0 false.
Definition f64_add : spec_float -> spec_float -> spec_float := SFadd prec emax.
Definition f64_sub : spec_float -> spec_float -> spec_float := SFsub prec emax.
Definition f64_mul : spec_float -> spec_float -> spec_float := SFmul prec emax.
Definition f64_div : spec_float -> spec_float -> spec_float := SFdiv prec emax.

(** Duration.Seconds *)
Definition Seconds (ns : Z) : spec_float :=
  f64_add (f64_of_Z (Z.quot ns 1000000000)) (f64_div (f64_of_Z (Z.rem ns 1000000000)) (f64_of_Z 1000000000)).

(** ** The bucket *)

Record tokenBucket := mkTB { tb_tokens : spec_float; tb_max : spec_float; tb_perSec : spec_float }.

Definition newTokenBucket (perSecond : spec_float) (burst : Z) : tokenBucket :=
  let burst := if burst <? 1 then 1 else burst in mkTB (f64_of_Z burst) (f64_of_Z burst) perSecond.

(** The refill, clamped. *)
Definition refill (elapsed : Z) (t : tokenBucket) : spec_float :=
  let tokens := f64_add (tb_tokens t) (f64_mul (Seconds elapsed) (tb_perSec t)) in
  if SFltb (tb_max t) tokens then tb_max t else tokens.

Definition allow_token (elapsed : Z) (t : tokenBucket) : bool * tokenBucket :=
  let tokens := refill elapsed t in
  if SFleb (f64_of_Z 1) tokens then (true, mkTB (f64_sub tokens (f64_of_Z 1)) (tb_max t) (tb_perSec t))
  else (false, mkTB tokens (tb_max t) (tb_perSec t)).

(** The interceptor: next runs only when a token was taken. *)
Definition RateLimit {V} (quote : string -> string) (method : string) (elapsed : Z) (next : option V * option goerror)
    (t : tokenBucket) : (option V * option goerror) * bool * tokenBucket :=
  let '(ok, t') := allow_token elapsed t in
  if ok then (next, true, t')
  else ((None, Some (ErrRpc CodeResourceExhausted ("rate limit exceeded for " +:+ quote method))), false, t').

(** The verdicts for calls [elapsed] apart. *)
Fixpoint verdicts (es : list Z) (t : tokenBucket) : list bool :=
  match es with
  | [] => []
  | e :: es' => let '(ok, t') := allow_token e t in ok :: verdicts es' t'
  end.

(** ** Timeout *)

(** context.WithTimeout keeps the earlier of the parent's deadline and its own;
    times in nanoseconds. *)
Definition Timeout_deadline (timeout now : Z) (parent : option Z) : option Z :=
  match parent with
  | Some p => Some (if p <? now + timeout then p else now + timeout)
  | None => Some (now + timeout)
  end.

(** Nested timeouts: the context a call runs under. *)
Definition nested_deadline (timeouts : list Z) (now : Z) (parent : option Z) : option Z :=
  foldl (fun dl timeout => Timeout_deadline timeout now dl) parent timeouts.

(** ** Properties *)

Lemma refill_nan elapsed t : tb_tokens t = S754_nan -> refill elapsed t = S754_nan.
Proof. intros Hn. unfold refill. rewrite Hn. cbn. by destruct (tb_max t). Qed.

Lemma verdicts_nan es t : tb_tokens t = S754_nan -> verdicts es t = replicate (length es) false.
Proof.
  revert t. induction es as [|e es IH]; intros t Hn; [done|]. cbn [verdicts length replicate].
  unfold allow_token. rewrite (refill_nan _ _ Hn). cbn. f_equal. by apply IH.
Qed.

(** A balance that is not a number never recovers, and an infinite rate makes it
    one as soon as two calls fall into the same clock reading. *)
Theorem infinite_rate_blocks es burst :
  verdicts (0 :: es) (newTokenBucket (S754_infinity false) burst) = replicate (S (length es)) false.
Proof.
  cbn [verdicts]. unfold allow_token.
  assert (refill 0 (newTokenBucket (S754_infinity false) burst) = S754_nan) as ->.
  { unfold refill, newTokenBucket. cbn [tb_tokens tb_perSec tb_max].
    change (f64_mul (Seconds 0) (S754_infinity false)) with S754_nan. generalize (f64_of_Z (if burst <? 1 then 1 else burst)).
    intros f. unfold f64_add, SFadd. destruct f as [[]|[]| |[] m e]; done. }
  cbn -[replicate]. cbn [replicate length]. f_equal. by apply verdicts_nan.
Qed.

(** What an admitted and a refused call do to the bucket. *)
Theorem rate_limit_accounts {V} quote method elapsed (next : option V * option goerror) t :
  let '(r, ran, t') := RateLimit quote method elapsed next t in
  let tokens := refill elapsed t in
  SFltb (tb_max t) tokens = false /\
  tb_max t' = tb_max t /\ tb_perSec t' = tb_perSec t /\
  (if ran : bool then SFleb (f64_of_Z 1) tokens = true /\ r = next /\ tb_tokens t' = f64_sub tokens (f64_of_Z 1)
   else SFleb (f64_of_Z 1) tokens = false /\ CodeOf r.2 = CodeResourceExhausted /\ tb_tokens t' = tokens).
Proof.
  unfold RateLimit, allow_token.
  assert (SFltb (tb_max t) (refill elapsed t) = false) as Hle.
  { unfold refill. cbn zeta. set (x := f64_add _ _). destruct (SFltb (tb_max t) x) eqn:E; [|done].
    apply (f64_gtb_irrefl (tb_max t)). }
  destruct (SFleb _ (refill elapsed t)) eqn:E; cbn; split_and!; done.
Qed.

(** A nested deadline is the earliest one: no policy extends it. *)
Theorem timeout_only_tightens timeouts now parent :
  match nested_deadline timeouts now parent with
  | Some dl => (forall x, x ∈ timeouts -> dl <= now + x) /\ (forall p, parent = Some p -> dl <= p) /\
      (parent = Some dl \/ exists x, x ∈ timeouts /\ dl = now + x)
  | None => timeouts = [] /\ parent = None
  end.
Proof.
  induction timeouts as [|x l IH] using rev_ind.
  - cbn. destruct parent; [|done]. split_and!; [by intros ? ?%elem_of_nil|by intros ? [= ->]|by left].
  - unfold nested_deadline in *. rewrite foldl_snoc. set (dl0 := foldl _ parent l) in *. clearbody dl0.
    unfold Timeout_deadline. destruct dl0 as [dl|].
    + destruct IH as (H1 & H2 & H3). destruct (dl <? now + x) eqn:E; bool_to_prop; split_and!.
      * intros y [Hy| ->%list_elem_of_singleton]%elem_of_app; [by apply H1|lia].
      * done.
      * destruct H3 as [->|(y & Hy & ->)]; [by left|]. right. exists y. split; [|done]. apply elem_of_app. by left.
      * intros y [Hy| ->%list_elem_of_singleton]%elem_of_app; [specialize (H1 y Hy)|]; lia.
      * intros p Hp. specialize (H2 p Hp). lia.
      * right. exists x. split; [|done]. apply elem_of_app. right. by apply list_elem_of_singleton.
    + destruct IH as [-> ->]. split_and!; [|done|].
      * intros y Hy%list_elem_of_singleton. subst. lia.
      * right. exists x. split; [by apply list_elem_of_singleton|done].
Qed.

(** A bucket of three at ten per second: a burst of three, then one call per
    tenth of a second. *)
Example rate_limit_demo :
  verdicts [0; 0; 0; 0; 50000000; 50000000; 0] (newTokenBucket (f64_of_Z 10) 3) = [true; true; true; false; false; true; false].
Proof. vm_compute. reflexivity. Qed.
