(* ===== verification/Orphans.v ===== *)
(** * What a reconnect does to open streams

    The client fails its open streams when the connection drops; the server's
    session survives the drop.  This file puts the two halves together: neither the
    end of the old connection nor the resumption nor anything the client sends
    tells the server that a stream the client failed is over. *)

From S2P Require Import Prelude Value RefValue Protocol Verify Sha256 HashChain Credit Pump.
From S2P Require Import FlowControl Request Metadata ClientStream ServingClient ServingSystem ClientServing Client ClientProps.
From S2P Require Import Server ServerConn ClientReconnect ClientCalls.

Section orphans.
Context `{ValueLib} (d : Dialect) `{!dialect_ok d} (growcap : nat -> nat).

(** A session and the streams it keeps. *)
Definition same_streams (s s' : servingClient) : Prop :=
  sc_requestMap s' = sc_requestMap s /\ sc_requests s' = sc_requests s /\ sc_liveStreams s' = sc_liveStreams s /\
  sc_cancelled s' = sc_cancelled s /\ sc_requestCancels s' = sc_requestCancels s.

Lemma resume_keeps_streams l cid tok pr c t s :
  rs_sessions t !! l = Some s ->
  exists s', rs_sessions (m_st (resume l cid tok pr c t)) !! l = Some s' /\ same_streams s s'.
Proof.
  intros Hs. unfold resume, get_session. rewrite M_gets_bind, Hs.
  case_bool_decide as Ep; cbn [negb]; [|exists s; done].
  destruct (authorizeResume sha256 (sc_resumeToken s) tok) as [ok tok']. rewrite M_modify_bind.
  exists (upd_sc_resumeToken (fun _ => tok') s). split; [|done].
  destruct ok; [|cbn; by rewrite lookup_insert, decide_True].
  rewrite M_bind_ret, m_st_eq. unfold Session_replaceConn. rewrite M_gets_bind, M_bind_st. cbn [modify m_st fst snd].
  unfold m_st. cbn. by destruct (rs_activeConn t !! l); cbn; rewrite lookup_insert, decide_True.
Qed.

(** The end of a connection, on the server: the read loop returns, the connection
    is closed and its bookkeeping undone. *)
Definition connection_ends (pickDone : servingClient -> VMap -> bool) (crash : VMap -> servingClient -> option servingClient)
    (c l : nat) (e : read_error) (t : rpcServer) : rpcServer :=
  m_st (connDone c (m_st (readLoop d growcap pickDone crash c l [inr e] t))).

Lemma connection_ends_sessions pickDone crash c l e t : rs_sessions (connection_ends pickDone crash c l e t) = rs_sessions t.
Proof. unfold connection_ends. by destruct e. Qed.

(** A stream frame for a request the client no longer knows. *)
Lemma unknown_stream_frame de resp mt rid t :
  messageType d resp = Some mt -> mt = StreamReady \/ mt = StreamValue \/ mt = StreamEnd ->
  requestIdOf d resp = Some rid -> cl_requestCtxMap t !! rid = None -> cl_servingMap t !! rid = None ->
  handleFrame d growcap de resp t = (tt, t, [CProtocolError resp ErrRequestNotFound]).
Proof.
  intros (v & Hv & Hl)%messageType_field Hmt Hid Hr Hs. unfold handleFrame, getResponseHandler, requestIdOf in *. rewrite Hv, Hl.
  destruct (GetNumberField resp (RequestIdField d)) as [idV|]; [|done]. injection Hid as Hid.
  destruct Hmt as [-> | [-> | ->]]; cbn [Z.eqb Pos.eqb orb HandshakeResponse FunctionRequest GetStreamRequest
    PutStreamRequest ChatRequest StreamReady StreamValue StreamEnd]; rewrite M_gets_bind; cbn [id]; by rewrite Hid, Hs, Hr.
Qed.

End orphans.

(** ** Witness *)

Section orphans_witness.
#[local] Existing Instance RefValueLib.

Definition demo_feed : rpcRequestCtx := NewRequestCtx 3 Request.getStreamKind EmptyMap 4 4 true true.
Definition demo_dropped : rpcClient :=
  upd_cl_requests (insert 0%nat demo_feed) (upd_cl_requestCtxMap (insert 3 0%nat) (NewClientWithDialer 7 4 1000 None demo_policy)).
(** The link the client presents, and the one the session stored. *)
Definition demo_link : string := EncodeToString (replicate 32 (Ascii.ascii_of_nat 7)).
Definition demo_stored : string := EncodeToString (sha256 (replicate 32 (Ascii.ascii_of_nat 7))).
Definition demo_session : servingClient := upd_sc_requestMap (insert 3 5%nat) (NewServingClient 7 demo_stored "" ∅ demo_cfg).
Definition demo_kept : rpcServer := upd_rs_sessions (insert 0%nat demo_session) (NewServerWithListener 0 demo_cfg).
Definition demo_ended : rpcServer := connection_ends NewDialect demo_cl_grow no_pick no_crash 8 0 ReadEOF demo_kept.

End orphans_witness.
