(* ===== verification/QuicEndpoint.v ===== *)
(** * QUIC listeners and dialers

    Models the constructors of quic/transport.go: the TLS configuration each side
    gives to the QUIC library, the dial deadline, and what Accept and Dial wrap.
    Addresses are lists of characters.  The QUIC library's own calls are
    arguments (their outcomes). *)

From S2P Require Import Prelude Value RefValue Protocol Channels Framing Quic.

(** ** net.SplitHostPort: the host, or [None] for an error *)

Definition index_of (c : ascii) (s : list ascii) : option nat := fst <$> list_find (fun x => x = c) s.
Definition is_found (o : option nat) : bool := match o with Some _ => true | None => false end.
Definition last_index_of (c : ascii) (s : list ascii) : option nat :=
  match list_find (fun x => x = c) (rev s) with Some (i, _) => Some (length s - 1 - i)%nat | None => None end.

Definition SplitHostPort (hostport : list ascii) : option (list ascii) :=
  match last_index_of ":" hostport with
  | None => None                           (* missing port *)
  | Some i =>
      match hostport with
      | "["%char :: _ =>
          match index_of "]" hostport with
          | None => None                   (* missing ']' *)
          | Some end_ =>
              if bool_decide ((end_ + 1)%nat = length hostport) then None
              else if negb (bool_decide ((end_ + 1)%nat = i)) then None
              else if is_found (index_of "[" (drop 1 hostport)) then None
              else if is_found (index_of "]" (drop (end_ + 1) hostport)) then None
              else Some (take (end_ - 1) (drop 1 hostport))
          end
      | _ =>
          let host := take i hostport in
          if is_found (index_of ":" host) then None
          else if is_found (index_of "[" hostport) || is_found (index_of "]" hostport) then None
          else Some host
      end
  end.

(** ** TLS configurations *)

Record tlsConfig := mkTLS {
  tc_NextProtos : list string;
  tc_ServerName : list ascii;
  tc_Certificates : bool
}.

Definition alpn : list string := ["vrpc"].

Definition withALPN (protos : list string) : list string := match protos with [] => alpn | _ => protos end.

Definition serverTLS (conf : tlsConfig) : tlsConfig :=
  mkTLS (withALPN (tc_NextProtos conf)) (tc_ServerName conf) (tc_Certificates conf).

Definition clientTLS (conf : option tlsConfig) (addr : list ascii) : tlsConfig :=
  let c := default (mkTLS [] [] false) conf in
  let name := match tc_ServerName c with
              | [] => default [] (SplitHostPort addr)
              | name => name
              end in
  mkTLS (withALPN (tc_NextProtos c)) name (tc_Certificates c).

(** ** quicConfig *)

Record quicConfig := mkQuicConfig { qf_MaxIncomingStreams : Z; qf_MaxIdleTimeout : Z; qf_KeepAlivePeriod : Z }.

Definition MaxStreams : Z := 65536.
Definition QuicKeepAlivePeriod : Z := 15 * 1000000000.
Definition DialTimeout : Z := 30 * 1000000000.
Definition newQuicConfig : quicConfig := mkQuicConfig MaxStreams (30 * 1000000000) QuicKeepAlivePeriod.

(** ** Listener and dialer *)

Record quicListener := mkQL { ql_addr : list ascii; ql_tls : tlsConfig; ql_config : quicConfig; ql_writeTO : Z }.
Record quicDialer := mkQD { qd_addr : list ascii; qd_config : option tlsConfig; qd_writeTO : Z }.

Definition ErrQuicConfig : goerror :=
  ErrPlain "quic listener requires a non-nil *tls.Config with a server certificate".

(** [listenErr]: what quic.ListenAddr returns. *)
Definition quic_NewListener (addr : list ascii) (config : option tlsConfig) (writeTimeout : Z) (listenErr : option goerror)
    : goerror + quicListener :=
  match config with
  | None => inl ErrQuicConfig
  | Some conf =>
      match listenErr with
      | Some e => inl e
      | None => inr (mkQL addr (serverTLS conf) newQuicConfig writeTimeout)
      end
  end.

Definition quicListener_Accept `{ValueLib} (l : quicListener) (acceptErr : option goerror) : goerror + quicMsgConn :=
  match acceptErr with Some e => inl e | None => inr (newQUICMsgConn false (ql_writeTO l)) end.

Definition quic_NewDialer (addr : list ascii) (config : option tlsConfig) (writeTimeout : Z) : quicDialer :=
  mkQD addr config writeTimeout.

(** The deadline the QUIC handshake runs under. *)
Definition quic_dialDeadline (now : Z) (ctxDeadline : option Z) : option Z :=
  match ctxDeadline with
  | Some dl => Some dl
  | None => if 0 <? DialTimeout then Some (now + DialTimeout) else None
  end.

(** [dial] is quic.DialAddr on an address, under a deadline and a configuration. *)
Definition quicDialer_Dial `{ValueLib} (dial : list ascii -> option Z -> tlsConfig -> option goerror)
    (d : quicDialer) (now : Z) (ctxDeadline : option Z) : goerror + quicMsgConn :=
  match dial (qd_addr d) (quic_dialDeadline now ctxDeadline) (clientTLS (qd_config d) (qd_addr d)) with
  | Some e => inl e
  | None => inr (newQUICMsgConn true (qd_writeTO d))
  end.

(** ** Properties *)

(** TLS picks a protocol both sides offer. *)
Definition negotiated (server client : tlsConfig) : option string :=
  list_find (fun p => p ∈ tc_NextProtos client) (tc_NextProtos server) ≫= fun ip => Some ip.2.

Lemma index_of_none c s : c ∉ s -> index_of c s = None.
Proof.
  intros Hn. unfold index_of. destruct (list_find _ s) as [[i x]|] eqn:E; [|done].
  apply list_find_Some in E as (Hl & -> & _). by apply list_elem_of_lookup_2 in Hl.
Qed.

Lemma last_index_of_app c a b : c ∉ b -> last_index_of c (a ++ c :: b) = Some (length a).
Proof.
  intros Hn. unfold last_index_of. rewrite rev_app_distr. cbn [rev]. rewrite <- app_assoc.
  assert (list_find (fun x => x = c) (rev b ++ [c] ++ rev a) = Some (length b, c)) as ->.
  { apply list_find_Some. split_and!.
    - rewrite lookup_app_r by (rewrite length_rev; done). by rewrite length_rev, Nat.sub_diag.
    - done.
    - intros j y Hj Hlt ->. rewrite lookup_app_l in Hj by (rewrite length_rev; done).
      apply list_elem_of_lookup_2 in Hj. by rewrite list_elem_of_In, <- in_rev, <- list_elem_of_In in Hj. }
  f_equal. rewrite length_app. cbn. lia.
Qed.

(** The host of host:port. *)
Lemma SplitHostPort_host host port :
  (forall c, c ∈ [":"; "["; "]"]%char -> (c ∉ host) /\ (c ∉ port)) ->
  SplitHostPort (host ++ (":"%char :: port)) = Some host.
Proof.
  intros Hc. unfold SplitHostPort. rewrite last_index_of_app by (apply Hc; set_solver).
  assert (forall c, c ∈ ["["; "]"]%char -> index_of c (host ++ (":"%char :: port)) = None) as Hn.
  { intros c Hin. apply index_of_none. intros [Hh|[->|Hp]%elem_of_cons]%elem_of_app.
    - destruct (Hc c) as [Hx _]; set_solver.
    - set_solver.
    - destruct (Hc c) as [_ Hx]; set_solver. }
  assert (head (host ++ (":"%char :: port)) <> Some "["%char) as Hhd.
  { destruct host as [|h host]; [done|]. cbn. intros [= ->]. destruct (Hc "["%char) as [Hx _]; set_solver. }
  rewrite take_app_length, (index_of_none ":" host) by (apply Hc; set_solver).
  rewrite !Hn by set_solver. cbn [is_found orb].
  destruct (host ++ (":"%char :: port)) as [|h rest] eqn:E; [by destruct host|]. cbn in Hhd.
  destruct (decide (h = "["%char)) as [->|Hne]; [done|].
  destruct h as [[] [] [] [] [] [] [] []]; done.
Qed.

(** The two ends of a connection agree: an ALPN protocol is always offered,
    "vrpc" by default on both sides, so configurations that name none negotiate
    it; what the user set is kept; a client without a server name verifies the
    host it dials; a listener without a certificate configuration is refused. *)
Theorem quic_endpoints_agree (s : tlsConfig) (c : option tlsConfig) (host port : list ascii) writeTimeout :
  (forall x, x ∈ [":"; "["; "]"]%char -> (x ∉ host) /\ (x ∉ port)) ->
  let addr := host ++ (":"%char :: port) in
  let cc := default (mkTLS [] [] false) c in
  tc_NextProtos (serverTLS s) <> [] /\ tc_NextProtos (clientTLS c addr) <> [] /\
  (tc_NextProtos s = [] -> tc_NextProtos cc = [] -> negotiated (serverTLS s) (clientTLS c addr) = Some "vrpc") /\
  (tc_NextProtos cc <> [] -> tc_NextProtos (clientTLS c addr) = tc_NextProtos cc) /\
  tc_ServerName (clientTLS c addr) = (match tc_ServerName cc with [] => host | name => name end) /\
  tc_Certificates (serverTLS s) = tc_Certificates s /\
  quic_NewListener addr None writeTimeout None = inl ErrQuicConfig.
Proof.
  intros Hc addr cc. assert (forall l, withALPN l <> []) as Hal by (by intros []).
  split_and!; try done; try apply Hal.
  - intros Hs Hcc. unfold negotiated, serverTLS, clientTLS. cbn. unfold cc in Hcc. by rewrite Hs, Hcc.
  - unfold clientTLS. cbn. fold cc. by destruct (tc_NextProtos cc).
  - unfold clientTLS. cbn. fold cc. destruct (tc_ServerName cc); [|done]. unfold addr. by rewrite SplitHostPort_host.
Qed.

Definition demo_host : list ascii := ["d"; "b"; "1"]%char.
Definition demo_port : list ascii := ["4"; "4"; "3"]%char.

Lemma demo_host_plain x : x ∈ [":"; "["; "]"]%char -> (x ∉ demo_host) /\ (x ∉ demo_port).
Proof.
  intros Hx. repeat (apply elem_of_cons in Hx as [->|Hx]; [split; apply (bool_decide_unpack _); vm_compute; exact I|]).
  by apply elem_of_nil in Hx.
Qed.

Lemma quic_endpoints_agree_witness :
  tc_ServerName (clientTLS None (demo_host ++ (":"%char :: demo_port))) = demo_host.
Proof.
  exact (proj1 (proj2 (proj2 (proj2 (proj2 (quic_endpoints_agree (mkTLS [] [] true) None demo_host demo_port 0 demo_host_plain)))))).
Defined.

(** Brackets around an IPv6 host are taken off; a bare one is refused. *)
Example split_ipv6 :
  SplitHostPort ["["; ":"; ":"; "1"; "]"; ":"; "9"]%char = Some [":"; ":"; "1"]%char /\
  SplitHostPort [":"; ":"; "1"; ":"; "9"]%char = None.
Proof. split; vm_compute; reflexivity. Qed.
