(* ===== verification/Sender.v ===== *)
(** * The session's sender

    Models the outgoing half of valueserver/serving_client.go: the queue, send,
    the sender goroutine, replaceConn and the part of Close that touches them;
    and the message constructors serving_client.go has of its own, next to those
    of valuerpc/peer.go.

    The session model (ServingClient.v) ends where a frame is handed to the
    sender; here is what becomes of it when connections are replaced under the
    sender.  A transport that was closed is assumed to refuse writes. *)

From S2P Require Import Prelude Value RefValue Protocol Channels.

Section sender.
Context `{ValueLib} (d : Dialect).

(** ** The server's own message constructors *)

Definition FunctionResult (requestId : Value) (result : option Value) : VMap :=
  let resp := Put (Put EmptyMap (MessageTypeField d) (Some (MessageType_Long FunctionResponse))) (RequestIdField d) (Some requestId) in
  match result with Some r => Put resp (ResultField d) (Some r) | None => resp end.

Definition StreamReady_frame (requestId : Value) : VMap :=
  Put (Put EmptyMap (MessageTypeField d) (Some (MessageType_Long StreamReady))) (RequestIdField d) (Some requestId).

Definition StreamValue_frame (requestId : Value) (val : option Value) : VMap :=
  Put (Put (Put EmptyMap (MessageTypeField d) (Some (MessageType_Long StreamValue))) (RequestIdField d) (Some requestId))
    (ValueField d) val.

Definition StreamEnd_frame (requestId : Value) (val : option Value) : VMap :=
  let resp := Put (Put EmptyMap (MessageTypeField d) (Some (MessageType_Long StreamEnd))) (RequestIdField d) (Some requestId) in
  match val with Some v => Put resp (ValueField d) (Some v) | None => resp end.

Definition FunctionError (requestId : Value) (code : Z) (msg : string) : VMap :=
  Put (Put (Put (Put EmptyMap (MessageTypeField d) (Some (MessageType_Long ErrorResponse))) (RequestIdField d) (Some requestId))
    (CodeField d) (Some (Long code))) (ErrorField d) (Some (Utf8 msg)).

Definition handlerErrCode (err : goerror) : Z :=
  let code := CodeOf (Some err) in
  if negb (code =? CodeUnknown) then code
  else match err with
       | ErrDeadlineExceeded => CodeDeadlineExceeded
       | ErrCanceled => CodeCanceled
       | _ => CodeInternal
       end.

Definition handlerError (requestId : Value) (where_ : string) (err : goerror) : VMap :=
  let msg := match err with ErrRpc _ m => m | e => Error_String e end in
  FunctionError requestId (handlerErrCode err) (where_ +:+ ": " +:+ msg).

(** The two sets of constructors build the same messages: what one peer sends,
    the other would have. *)
Theorem server_constructors_agree rid res val code msg where_ err :
  FunctionResult rid res = NewFunctionResult d rid res /\ StreamReady_frame rid = NewStreamReady d rid /\
  StreamValue_frame rid val = NewStreamValue d rid val /\ StreamEnd_frame rid val = NewStreamEnd d rid val /\
  FunctionError rid code msg = NewFunctionError d rid code msg /\ handlerErrCode err = HandlerErrorCode err /\
  handlerError rid where_ err = NewHandlerError d rid where_ err.
Proof. done. Qed.

(** ** The queue and its goroutine *)

Inductive senderPC :=
| SenderSelect                             (* at the select *)
| SenderLoading (resp : VMap)              (* before activeConn.Load *)
| SenderWriting (c : nat) (resp : VMap)    (* in WriteMessage *)
| SenderReturned.

Record outbox := mkOutbox {
  ob_queue : list VMap;
  ob_cap : Z;                              (* 0: unbuffered *)
  ob_done : bool;
  ob_active : option nat;                  (* activeConn *)
  ob_closed : gset nat;                    (* connections that were closed *)
  ob_pc : senderPC
}.

Definition upd_ob_queue f (t : outbox) : outbox := mkOutbox (f (ob_queue t)) (ob_cap t) (ob_done t) (ob_active t) (ob_closed t) (ob_pc t).
Definition upd_ob_conn a f (t : outbox) : outbox := mkOutbox (ob_queue t) (ob_cap t) (ob_done t) a (f (ob_closed t)) (ob_pc t).
Definition upd_ob_done b (t : outbox) : outbox := mkOutbox (ob_queue t) (ob_cap t) b (ob_active t) (ob_closed t) (ob_pc t).
Definition upd_ob_pc pc (t : outbox) : outbox := mkOutbox (ob_queue t) (ob_cap t) (ob_done t) (ob_active t) (ob_closed t) pc.

Inductive ob_ev :=
| OAccepted (m : VMap)
| ORefused (m : VMap)                      (* send returned ErrClientClosed *)
| OWrote (c : nat) (m : VMap)
| OLost (m : VMap).                        (* no connection, or the write failed *)

Abbreviation OB := (M outbox ob_ev).

Definition newOutbox (cap : Z) (conn : nat) : outbox := mkOutbox [] cap false (Some conn) ∅ SenderSelect.

Definition can_send (t : outbox) : bool :=
  (Z.of_nat (length (ob_queue t)) <? ob_cap t) ||
  ((ob_cap t =? 0) && match ob_pc t with SenderSelect => true | _ => false end).

(** send: [None] while it blocks, else whether it was accepted. *)
Definition send_frame (pick : nat) (resp : VMap) : OB (option bool) :=
  t ← gets id;
  match select pick [(can_send t, true); (ob_done t, false)] with
  | None => mret None
  | Some true =>
      (if ob_cap t =? 0 then modify (upd_ob_pc (SenderLoading resp)) else modify (upd_ob_queue (fun q => q ++ [resp]))) ≫= fun _ =>
      emit (OAccepted resp) ≫= fun _ => mret (Some true)
  | Some false => emit (ORefused resp) ≫= fun _ => mret (Some false)
  end.

(** One action of sender; [werr]: what WriteMessage returns. *)
Definition sender (pick : nat) (werr : option goerror) : OB unit :=
  t ← gets id;
  match ob_pc t with
  | SenderSelect =>
      match select pick [(ob_done t, None); (negb (bool_decide (ob_queue t = [])), ob_queue t !! 0%nat)] with
      | None => mret tt
      | Some None => modify (upd_ob_pc SenderReturned)
      | Some (Some resp) => modify (upd_ob_queue tail) ≫= fun _ => modify (upd_ob_pc (SenderLoading resp))
      end
  | SenderLoading resp =>
      match ob_active t with
      | None => emit (OLost resp) ≫= fun _ => modify (upd_ob_pc SenderSelect)
      | Some c => modify (upd_ob_pc (SenderWriting c resp))
      end
  | SenderWriting c resp =>
      emit (match werr with None => OWrote c resp | Some _ => OLost resp end) ≫= fun _ => modify (upd_ob_pc SenderSelect)
  | SenderReturned => mret tt
  end.

(** replaceConn: close the old connection, then publish the new one; the sender
    may load the old one in between. *)
Definition outbox_closeOld : OB unit :=
  t ← gets id;
  match ob_active t with Some old => modify (upd_ob_conn (ob_active t) (fun s => {[ old ]} ∪ s)) | None => mret tt end.
Definition outbox_publish (c : nat) : OB unit := modify (upd_ob_conn (Some c) id).
Definition outbox_replaceConn (c : nat) : OB unit := outbox_closeOld ≫= fun _ => outbox_publish c.

(** The part of Close that concerns the outgoing side. *)
Definition outbox_Close : OB unit :=
  t ← gets id;
  modify (upd_ob_done true) ≫= fun _ =>
  match ob_active t with Some c => modify (upd_ob_conn (ob_active t) (fun s => {[ c ]} ∪ s)) | None => mret tt end.

(** ** Every interleaving *)

Inductive ob_step : outbox -> list ob_ev -> outbox -> Prop :=
| ob_send pick resp t : ob_step t (m_out (send_frame pick resp t)) (m_st (send_frame pick resp t))
| ob_sender pick werr t :
    (forall c resp, ob_pc t = SenderWriting c resp -> c ∈ ob_closed t -> werr <> None) ->
    ob_step t (m_out (sender pick werr t)) (m_st (sender pick werr t))
| ob_close_old t : ob_step t (m_out (outbox_closeOld t)) (m_st (outbox_closeOld t))
| ob_publish c t : ob_step t (m_out (outbox_publish c t)) (m_st (outbox_publish c t))
| ob_close t : ob_step t (m_out (outbox_Close t)) (m_st (outbox_Close t)).

Inductive ob_reach : outbox -> list ob_ev -> outbox -> Prop :=
| ob_refl t : ob_reach t [] t
| ob_trans t o t' o' t'' : ob_reach t o t' -> ob_step t' o' t'' -> ob_reach t (o ++ o') t''.

Definition ob_accepted (e : ob_ev) : option VMap := match e with OAccepted m => Some m | _ => None end.
Definition ob_disposed (e : ob_ev) : option VMap := match e with OWrote _ m | OLost m => Some m | _ => None end.

Definition in_hand (t : outbox) : list VMap :=
  match ob_pc t with SenderLoading m | SenderWriting _ m => [m] | _ => [] end.

Definition ob_inv (o : list ob_ev) (t : outbox) : Prop :=
  omap ob_accepted o = omap ob_disposed o ++ in_hand t ++ ob_queue t /\ (ob_cap t = 0 -> ob_queue t = []).

Ltac ob_norm := rewrite ?omap_app; cbn [omap list_omap ob_accepted ob_disposed app]; rewrite ?app_nil_r.

Lemma ob_step_inv o t o' t' : ob_inv o t -> ob_step t o' t' -> ob_inv (o ++ o') t'.
Proof.
  intros [Ha Hc] Hs. unfold ob_inv, in_hand in *.
  destruct Hs as [pick resp t|pick werr t _|t|c t|t]; destruct t as [q cap dn ac cl pc]; cbn in *.
  - unfold send_frame. unM. destruct (select _ _) as [[]|] eqn:Es; cbn; ob_norm; [|done..].
    select_cases Es; [|done]. injection Es as Hq. symmetry in Hq. unfold can_send in Hq. cbn in Hq.
    destruct (cap =? 0) eqn:Ecap; cbn.
    + apply Z.eqb_eq in Ecap as ->. rewrite (Hc eq_refl) in *. destruct pc; try done. ob_norm. by rewrite Ha, app_nil_r.
    + ob_norm. rewrite Ha, <- !app_assoc. split; [done|]. intros ->. done.
  - unfold sender. unM. destruct pc as [|m|c m|]; cbn in *.
    + destruct (select _ _) as [[resp|]|] eqn:Es; cbn; ob_norm; [|done..].
      select_cases Es; [done|]. injection Es as Hq Hh. destruct q as [|m q]; [done|]. injection Hh as ->.
      split; [done|]. intros Hz. by specialize (Hc Hz).
    + destruct ac; cbn; ob_norm; [done|]. by rewrite Ha, <- app_assoc.
    + destruct werr; cbn; ob_norm; by rewrite Ha, <- app_assoc.
    + by ob_norm.
  - unfold outbox_closeOld. unM. destruct ac; cbn; by ob_norm.
  - unfold outbox_publish. unM. by ob_norm.
  - unfold outbox_Close. unM. destruct ac; cbn; by ob_norm.
Qed.

(** Closed connections stay closed and take no frame. *)
Lemma ob_step_closed t o t' :
  ob_step t o t' -> ob_closed t ⊆ ob_closed t' /\ forall c m, OWrote c m ∈ o -> c ∉ ob_closed t.
Proof.
  intros Hs. destruct Hs as [pick resp t|pick werr t Hw|t|c t|t]; destruct t as [q cap dn ac cl pc]; cbn in *.
  - unfold send_frame. unM. destruct (select _ _) as [[]|]; [destruct (cap =? 0)|..]; cbn; split; try done;
      intros c m Hin; repeat (apply elem_of_cons in Hin as [Hin|Hin]); (done || by apply elem_of_nil in Hin).
  - unfold sender. unM. destruct pc as [|m|c m|]; cbn in *.
    + destruct (select _ _) as [[]|]; cbn; split; try done; by intros ? ? ?%elem_of_nil.
    + destruct ac; cbn; split; try done; [by intros ? ? ?%elem_of_nil|by intros ? ? [=]%list_elem_of_singleton].
    + split; [done|]. intros c0 m0 Hin%list_elem_of_singleton. destruct werr; [done|]. injection Hin as -> ->.
      intros Hcl. by apply (Hw c m eq_refl Hcl).
    + split; [done|]. by intros ? ? ?%elem_of_nil.
  - unfold outbox_closeOld. unM. destruct ac; cbn; (split; [set_solver|]); by intros ? ? ?%elem_of_nil.
  - unfold outbox_publish. unM. split; [done|]. by intros ? ? ?%elem_of_nil.
  - unfold outbox_Close. unM. destruct ac; cbn; (split; [set_solver|]); by intros ? ? ?%elem_of_nil.
Qed.

Lemma ob_reach_closed t o t' :
  ob_reach t o t' -> ob_closed t ⊆ ob_closed t' /\ forall c m, OWrote c m ∈ o -> c ∉ ob_closed t.
Proof.
  intros Hr. induction Hr as [t|t o t1 o1 t2 Hr [IH1 IH2] Hs]; [split; [done|by intros ? ? ?%elem_of_nil]|].
  destruct (ob_step_closed _ _ _ Hs) as [Hc Hw]. split; [set_solver|].
  intros c m [Hin|Hin]%elem_of_app; [by eapply IH2|]. specialize (Hw c m Hin). set_solver.
Qed.

Lemma ob_reach_inv o t o' t' : ob_inv o t -> ob_reach t o' t' -> ob_inv (o ++ o') t'.
Proof.
  intros Hi Hr. induction Hr as [|t o1 t1 o2 t2 Hr IH Hs]; [by rewrite app_nil_r|].
  rewrite app_assoc. eapply ob_step_inv; eauto.
Qed.

(** Frames leave in the order they were handed over, each at most once, over a
    single sender; a replaced connection never receives one again. *)
Theorem sender_in_order cap conn (o : list ob_ev) t :
  ob_reach (newOutbox cap conn) o t ->
  omap ob_accepted o = omap ob_disposed o ++ in_hand t ++ ob_queue t /\
  (forall o' t' c m, ob_reach t o' t' -> OWrote c m ∈ o' -> c ∉ ob_closed t) /\
  (forall c old, ob_active t = Some old -> old ∈ ob_closed (m_st (outbox_replaceConn c t))).
Proof.
  intros Hr. split_and!.
  - apply (ob_reach_inv [] (newOutbox cap conn) o t); [done|done].
  - intros o' t' c m Hr' Hin. by eapply (proj2 (ob_reach_closed _ _ _ Hr')).
  - intros c old Hac. unfold outbox_replaceConn, outbox_closeOld, outbox_publish. unM. rewrite Hac. cbn. set_solver.
Qed.
End sender.

Section sender_witness.
#[local] Existing Instance RefValueLib.

Definition demo_frame : VMap := FunctionResult NewDialect (Long 1) (Some (Long 42)).

(** One frame taken by the sender, one queued. *)
Lemma sender_in_order_witness :
  exists o t, ob_reach (newOutbox 4 0) o t /\ omap ob_accepted o = [demo_frame; demo_frame] /\
    omap ob_accepted o = omap ob_disposed o ++ in_hand t ++ ob_queue t.
Proof.
  assert (exists o t, ob_reach (newOutbox 4 0) o t /\ omap ob_accepted o = [demo_frame; demo_frame]) as (o & t & Hr & Ho).
  { generalize demo_frame. intros m. eexists _, _. split.
    - eapply ob_trans; [eapply ob_trans; [eapply ob_trans; [apply ob_refl|apply (ob_send 0 m)]
        |apply (ob_send 0 m)]|apply (ob_sender 0 None)].
      intros c resp Hpc. cbn in Hpc. discriminate Hpc.
    - reflexivity. }
  exists o, t. split; [exact Hr|]. split; [exact Ho|]. exact (proj1 (sender_in_order 4 0 o t Hr)).
Defined.
End sender_witness.
