(* ===== verification/ClientHandlers.v ===== *)
(** * The client's handlers

    Models the handler setters and getters of valueclient/client.go and where the
    client's reports go: StreamError and ProtocolError to the error handler that
    is installed at the moment, BadConnection to the one a connection captured
    when it was dialled (ConnectContext passes getErrorHandler() to newConn), the
    handshake response to the connection handler, the latency of unary calls to
    the monitor.  The client is its own error handler until one is set, and again
    after Close; as such it reconnects when a connection goes bad, unless it was
    closed.

    User handlers are numbers. *)

From S2P Require Import Prelude.

Inductive target := Self | User (h : nat).

Record handlers := mkHandlers {
  hd_errorHandler : option target;
  hd_connectionHandler : option nat;
  hd_perfMonitor : option nat;
  hd_connHandler : gmap nat target;        (* rpcConn.errorHandler of each connection *)
  hd_shuttingDown : bool
}.

Definition newHandlers : handlers := mkHandlers None None None ∅ false.

Definition getErrorHandler (t : handlers) : target := default Self (hd_errorHandler t).
(** [None] is the default, which only logs. *)
Definition getConnectionHandler (t : handlers) : option nat := hd_connectionHandler t.

Inductive handler_op :=
| SetErrorHandler (h : target)
| SetConnectionHandler (h : nat)
| SetMonitor (h : nat)
| Dialled (c : nat)                        (* ConnectContext created connection c *)
| ClosedClient.                            (* Close *)

Definition run_handler_op (t : handlers) (op : handler_op) : handlers :=
  match op with
  | SetErrorHandler h => mkHandlers (Some h) (hd_connectionHandler t) (hd_perfMonitor t) (hd_connHandler t) (hd_shuttingDown t)
  | SetConnectionHandler h => mkHandlers (hd_errorHandler t) (Some h) (hd_perfMonitor t) (hd_connHandler t) (hd_shuttingDown t)
  | SetMonitor h => mkHandlers (hd_errorHandler t) (hd_connectionHandler t) (Some h) (hd_connHandler t) (hd_shuttingDown t)
  | Dialled c => mkHandlers (hd_errorHandler t) (hd_connectionHandler t) (hd_perfMonitor t) (<[ c := getErrorHandler t ]> (hd_connHandler t)) (hd_shuttingDown t)
  | ClosedClient => mkHandlers (Some Self) (hd_connectionHandler t) (hd_perfMonitor t) (hd_connHandler t) true
  end.

Definition handlers_after (ops : list handler_op) : handlers := foldl run_handler_op newHandlers ops.

(** What the client reports, and to whom. *)
Inductive report := RStreamError | RProtocolError | RBadConnection (c : nat) | RConnected | RCallDone.

(** [None]: nobody but the log. *)
Definition report_to (t : handlers) (r : report) : option target :=
  match r with
  | RStreamError | RProtocolError => Some (getErrorHandler t)
  | RBadConnection c => hd_connHandler t !! c
  | RConnected => User <$> getConnectionHandler t
  | RCallDone => User <$> hd_perfMonitor t
  end.

(** Whether a lost connection makes the client reconnect on its own
    (rpcClient.BadConnection, which returns at once when shutting down). *)
Definition reconnects_itself (t : handlers) (c : nat) : bool :=
  match report_to t (RBadConnection c) with Some Self => negb (hd_shuttingDown t) | _ => false end.

(** ** Properties *)

Definition sets_error (op : handler_op) : option target :=
  match op with SetErrorHandler h => Some h | ClosedClient => Some Self | _ => None end.

Lemma errorHandler_last ops : hd_errorHandler (handlers_after ops) = last (omap sets_error ops).
Proof.
  induction ops as [|op ops IH] using rev_ind; [done|]. unfold handlers_after in *. rewrite foldl_snoc, omap_app.
  destruct op; cbn; rewrite ?app_nil_r, ?last_snoc; done.
Qed.

Lemma shuttingDown_closed ops : hd_shuttingDown (handlers_after ops) = true <-> ClosedClient ∈ ops.
Proof.
  induction ops as [|op ops IH] using rev_ind; [by split; [|intros ?%not_elem_of_nil]|]. unfold handlers_after in *. rewrite foldl_snoc.
  destruct op; cbn; rewrite ?IH; set_solver.
Qed.

Lemma connHandler_kept ops c op' :
  (forall c', op' = Dialled c' -> c' <> c) ->
  hd_connHandler (run_handler_op (handlers_after ops) op') !! c = hd_connHandler (handlers_after ops) !! c.
Proof. intros Hne. destruct op'; cbn; try done. rewrite lookup_insert_ne by (by apply Hne). done. Qed.

(** A connection keeps the error handler it was dialled with, whatever is set
    later; every other error goes to the handler set last.  So a client whose
    handler was replaced after connecting still reconnects by itself when that
    connection is lost, and one that had a user handler when it connected does
    not. *)
Theorem error_handler_captured before after c :
  Dialled c ∉ after ->
  let t := handlers_after (before ++ Dialled c :: after) in
  report_to t (RBadConnection c) = Some (default Self (last (omap sets_error before))) /\
  report_to t RStreamError = Some (default Self (last (omap sets_error (before ++ after)))) /\
  (reconnects_itself t c = true <-> default Self (last (omap sets_error before)) = Self /\ ClosedClient ∉ before ++ after).
Proof.
  intros Hn t.
  assert (hd_connHandler t !! c = Some (default Self (last (omap sets_error before)))) as Hc.
  { unfold t. clear t. induction after as [|op after IH] using rev_ind.
    - unfold handlers_after. rewrite foldl_snoc. cbn. rewrite lookup_insert_eq. unfold getErrorHandler.
      by rewrite <- errorHandler_last.
    - replace (before ++ Dialled c :: after ++ [op]) with ((before ++ Dialled c :: after) ++ [op]) by by rewrite <- app_assoc.
      unfold handlers_after at 1. rewrite foldl_snoc. fold (handlers_after (before ++ Dialled c :: after)).
      rewrite connHandler_kept; [apply IH; set_solver|]. intros c' -> ->. apply Hn, elem_of_app. right. by apply list_elem_of_singleton. }
  split_and!; [done| |].
  - unfold t. cbn [report_to]. unfold getErrorHandler. rewrite errorHandler_last, !omap_app. done.
  - unfold reconnects_itself. cbn [report_to]. rewrite Hc.
    assert (ClosedClient ∈ before ++ after <-> hd_shuttingDown t = true) as ->
      by (unfold t; rewrite shuttingDown_closed; set_solver).
    destruct (default Self _); cbn; destruct (hd_shuttingDown t); naive_solver.
Qed.

Lemma error_handler_captured_witness :
  reconnects_itself (handlers_after [Dialled 0; SetErrorHandler (User 3)]) 0 = true.
Proof.
  apply (proj2 (proj2 (error_handler_captured [] [SetErrorHandler (User 3)] 0 ltac:(set_solver)))). split; [reflexivity|set_solver].
Defined.
