(* ===== verification/ReverseStreams.v ===== *)
(** * Streams the server opens

    Models GetStream, PutStream and Chat of valueserver/serving_stream.go on top
    of openStream and awaitReady (ServingClient.v): the part before the wait is
    openStream with the kind's message; the part after takes the case of the wait
    that fired and returns the goroutines it starts. *)

From S2P Require Import Prelude Value RefValue Protocol Verify Sha256 HashChain Credit Pump.
From S2P Require Import FlowControl Metadata ClientStream ServingClient ServingSystem ServingProps.

Inductive stream_api := ApiGetStream | ApiPutStream | ApiChat.

#[export] Instance stream_api_eq_dec : EqDecision stream_api.
Proof. solve_decision. Defined.

Definition api_kind (a : stream_api) : streamKind :=
  match a with ApiGetStream => getStreamKind | ApiPutStream => putStreamKind | ApiChat => chatKind end.
Definition api_message (a : stream_api) : Z :=
  match a with ApiGetStream => GetStreamRequest | ApiPutStream => PutStreamRequest | ApiChat => ChatRequest end.
(** The capacity of the channel that receives from the client. *)
Definition api_capacity (a : stream_api) (receiveCap : Z) : Z :=
  match a with ApiGetStream => receiveCap | ApiPutStream => 1 | ApiChat => wrap64 (receiveCap + 1) end.

(** The goroutines of an established stream: watchStream's and streamOut. *)
Inductive reverse_job := JWatch (l : nat) | JStreamOut (l : nat).

Section reverse.
Context `{ValueLib} (d : Dialect) `{!dialect_ok d} (growcap : nat -> nat) (pickDone : servingClient -> VMap -> bool).

Definition open_begin (a : stream_api) (name : string) (args : option Value) (receiveCap : Z)
    : M servingClient sc_ev (goerror + (Z * nat)) :=
  openStream d pickDone (api_message a) (api_kind a) name args (api_capacity a receiveCap).

(** [cancellable]: whether the context can be cancelled at all. *)
Definition Session_GetStream_end (cancellable : bool) (l : nat) (reqId : Z) (c : ready_case)
    : M servingClient sc_ev (goerror + list reverse_job) :=
  awaitReady d pickDone l reqId c ≫= fun e =>
  match e with
  | Some err => mret (inl err)
  | None =>
      on_stream d pickDone l ClientStream_sendInitialCredit ≫= fun _ =>
      mret (inr (if cancellable then [JWatch l] else []))
  end.

Definition Session_PutStream_end (cancellable : bool) (l : nat) (reqId : Z) (c : ready_case)
    : M servingClient sc_ev (goerror + list reverse_job) :=
  awaitReady d pickDone l reqId c ≫= fun e =>
  match e with
  | Some err => mret (inl err)
  | None => mret (inr ((if cancellable then [JWatch l] else []) ++ [JStreamOut l]))
  end.

Definition Session_Chat_end (cancellable : bool) (l : nat) (reqId : Z) (c : ready_case)
    : M servingClient sc_ev (goerror + list reverse_job) :=
  awaitReady d pickDone l reqId c ≫= fun e =>
  match e with
  | Some err => mret (inl err)
  | None =>
      on_stream d pickDone l ClientStream_sendInitialCredit ≫= fun _ =>
      mret (inr ((if cancellable then [JWatch l] else []) ++ [JStreamOut l]))
  end.

Definition open_end (a : stream_api) : bool -> nat -> Z -> ready_case -> M servingClient sc_ev (goerror + list reverse_job) :=
  match a with ApiGetStream => Session_GetStream_end | ApiPutStream => Session_PutStream_end | ApiChat => Session_Chat_end end.

(** A stream between openStream and its acknowledgement. *)
Definition opening (a : stream_api) (t : servingClient) (reqId : Z) (l : nat) (cs : clientStream) : Prop :=
  sc_done t = false /\ sc_pendingStreams t !! reqId = Some l /\ sc_streams t !! l = Some cs /\
  cs_requestId cs = reqId /\ cs_kind cs = api_kind a /\ cs_grantCredit cs = true /\
  (cs_resultPump cs = None <-> a = ApiPutStream).

Definition gives_up (c : ready_case) : bool :=
  match c with ReadyCtxDone _ | ReadyTimeout _ => true | _ => false end.

(** One method of a stream that grants nothing. *)
Lemma on_stream_quiet {A} l (m : M clientStream Z A) cs a cs' t :
  sc_streams t !! l = Some cs -> m cs = (a, cs', []) ->
  on_stream d pickDone l m t = (Some a, upd_sc_streams (insert l cs') t, []).
Proof. intros Hl Hm. unfold on_stream. rewrite M_gets_bind. cbn [id]. rewrite Hl, Hm, M_modify_bind. done. Qed.

Lemma cancel_run reqId l cs t :
  sc_done t = false -> sc_streams t !! l = Some cs ->
  exists cs', cancelClientStream d pickDone l reqId t =
    (tt, upd_sc_streams (insert l cs') (upd_sc_pendingStreams (delete reqId) t), [ESend (NewSystemRequest d reqId CancelRequest)]) /\
    cs_closeOnce cs' = true /\ cs_getClosed cs' = true /\ cs_putClosed cs' = true.
Proof.
  intros Hd Hl.
  assert (exists cs', ClientStream_Close cs = (tt, cs', []) /\ cs_closeOnce cs' = true /\ cs_getClosed cs' = true /\
    cs_putClosed cs' = true) as (cs' & Hc & Hx).
  { unfold ClientStream_Close, ClientStream_closeResult. unM. destruct (cs_closeOnce cs) eqn:E; cbn.
    - eexists. split; [reflexivity|]. by cbn.
    - eexists. split; [reflexivity|]. by destruct (cs_resultPump cs). }
  exists cs'. split; [|done]. unfold cancelClientStream, deletePendingStream.
  rewrite (M_run_bind _ _ _ _ _ _ (send_open pickDone _ t Hd)), M_modify_bind.
  rewrite (M_run_bind _ _ _ _ _ _ (on_stream_quiet l ClientStream_Close cs tt cs' (upd_sc_pendingStreams (delete reqId) t) Hl Hc)).
  done.
Qed.

Lemma gives_up_run a cancellable l reqId c t t' out :
  gives_up c = true -> cancelClientStream d pickDone l reqId t = (tt, t', out) ->
  exists e, open_end a cancellable l reqId c t = (inl e, t', out).
Proof.
  intros Hg Hr.
  assert (exists e, awaitReady d pickDone l reqId c t = (Some e, t', out)) as (e & He).
  { unfold awaitReady. destruct c as [| |e| |[e|]]; try done; rewrite (M_run_bind _ _ _ _ _ _ Hr); cbn; rewrite app_nil_r; eauto. }
  exists e. destruct a; cbn [open_end]; unfold Session_GetStream_end, Session_PutStream_end, Session_Chat_end;
    rewrite (M_run_bind _ _ _ _ _ _ He); cbn; by rewrite app_nil_r.
Qed.

Lemma initial_credit_run t reqId l cs p :
  sc_done t = false -> sc_streams t !! l = Some cs -> cs_requestId cs = reqId -> cs_grantCredit cs = true ->
  cs_resultPump cs = Some p ->
  on_stream d pickDone l ClientStream_sendInitialCredit t =
    (Some tt, upd_sc_streams (insert l cs) t, [ESend (NewStreamCredit d (Long reqId) (cs_creditWindow cs))]).
Proof.
  intros Hd Hl <- Hg Hp. unfold on_stream. rewrite M_gets_bind. cbn [id]. rewrite Hl.
  assert (ClientStream_sendInitialCredit cs = (tt, cs, [cs_creditWindow cs])) as ->.
  { unfold ClientStream_sendInitialCredit. unM. by rewrite Hp, Hg. }
  rewrite M_modify_bind.
  set (t' := upd_sc_streams (insert l cs) t). unfold seqM. cbn [map foldr].
  rewrite M_assoc, (M_run_bind _ _ _ _ _ _ (send_open pickDone _ t' Hd)), M_left_id. done.
Qed.

Lemma ready_run a cancellable t reqId l cs :
  opening a t reqId l cs ->
  open_end a cancellable l reqId ReadyAck t =
    (inr ((if cancellable then [JWatch l] else []) ++ (if bool_decide (a = ApiGetStream) then [] else [JStreamOut l])),
     (if bool_decide (a = ApiPutStream) then t else upd_sc_streams (insert l cs) t),
     if bool_decide (a = ApiPutStream) then [] else [ESend (NewStreamCredit d (Long reqId) (cs_creditWindow cs))]).
Proof.
  intros (Hd & Hp & Hl & Hi & Hk & Hg & Hpump).
  assert (a <> ApiPutStream -> exists p, cs_resultPump cs = Some p) as Hs.
  { intros Hne. destruct (cs_resultPump cs) as [p|]; [eauto|]. destruct Hne. by apply Hpump. }
  destruct a; cbn [open_end];
    unfold Session_GetStream_end, Session_PutStream_end, Session_Chat_end, awaitReady; rewrite M_left_id; [|done|];
    destruct (Hs ltac:(done)) as (p & Hpp);
    rewrite (M_run_bind _ _ _ _ _ _ (initial_credit_run t reqId l cs p Hd Hl Hi Hg Hpp)); cbn; by rewrite ?app_nil_r.
Qed.

(** Opening a stream toward the client is all or nothing: given up (context
    or timeout), the id is unregistered, the stream is closed in
    both directions and the client is told to cancel it, and nothing else is
    sent; acknowledged, it stays registered, a receiving stream grants its window
    once, and exactly the goroutines of its kind start. *)
Theorem reverse_open_all_or_nothing a cancellable t reqId l cs c :
  opening a t reqId l cs ->
  let x := open_end a cancellable l reqId c t in
  (gives_up c = true ->
     (exists e, m_res x = inl e) /\ m_out x = [ESend (NewSystemRequest d reqId CancelRequest)] /\
     sc_pendingStreams (m_st x) !! reqId = None /\
     exists cs', sc_streams (m_st x) !! l = Some cs' /\ cs_closeOnce cs' = true /\ cs_getClosed cs' = true /\ cs_putClosed cs' = true) /\
  (c = ReadyAck ->
     m_res x = inr ((if cancellable then [JWatch l] else []) ++
       (if bool_decide (a = ApiGetStream) then [] else [JStreamOut l])) /\
     m_out x = (if bool_decide (a = ApiPutStream) then [] else [ESend (NewStreamCredit d (Long reqId) (cs_creditWindow cs))]) /\
     sc_pendingStreams (m_st x) !! reqId = Some l).
Proof.
  intros Ho x. split.
  - intros Hg. destruct Ho as (Hd & Hp & Hl & _). destruct (cancel_run reqId l cs t Hd Hl) as (cs' & Hr & Hx).
    destruct (gives_up_run a cancellable l reqId c t _ _ Hg Hr) as (e & He). unfold x. rewrite He. cbn.
    split_and!; [eauto|done|by rewrite lookup_delete_eq|]. exists cs'. by rewrite lookup_insert_eq.
  - intros ->. unfold x. rewrite (ready_run a cancellable t reqId l cs Ho). cbn. split_and!; [done|done|].
    destruct Ho as (_ & Hp & _). by destruct (bool_decide _).
Qed.

Lemma send_none m t : sc_done t = false -> send pickDone m t = (None, t, [ESend m]).
Proof. intros Hd. unfold send. unM. by rewrite Hd. Qed.

(** What openStream leaves behind is such a stream. *)
Theorem open_begin_opening a name args cap t reqId l t' out :
  sc_done t = false -> open_begin a name args cap t = (inr (reqId, l), t', out) ->
  exists cs, opening a t' reqId l cs /\ cs = newClientStream reqId (api_kind a) (api_capacity a cap) DefaultMaxPending true /\
  out = [ESend (NewStreamRequest d (api_message a) reqId name args)].
Proof.
  intros Hd. unfold open_begin, openStream, nextServerRequestId. unM.
  rewrite send_none by exact Hd. cbn. intros [= <- <- <- <-].
  exists (newClientStream (wrap64 (- wrap64 (sc_lastServerRequest t + 1))) (api_kind a) (api_capacity a cap) DefaultMaxPending true).
  split_and!; [|done|done].
  unfold opening. cbn. rewrite !lookup_insert_eq. by destruct a.
Qed.
End reverse.
