(* ===== verification/StreamLink.v ===== *)
(** * One direction of one stream, between any two ends

    A stream's values flow from a sending end (a goroutine that drains a channel
    behind a credit gate) to a receiving end (a frame handler, a pump and its
    deliver hook).  The program has four of each: the server's served requests,
    the streams it opens, the client's requests and the streams it serves.
    [Sender] and [Receiver] are what such an end promises about the frames it
    reads and writes; the composition ([world]) and its theorems use nothing
    else.  ClientEnds.v and ServerEnds.v show that the eight ends of the code keep the
    promises.

    The composition is related to the abstract flow of FlowControl.v: every step
    of the code is matched by steps of the flow ([world_step_sim]), so that the
    flow's safety and progress hold of the code. *)

From S2P Require Import Prelude Value RefValue Protocol Credit Pump FlowControl.

Section items.
Context `{ValueLib} (d : Dialect).

(** ** What a frame means to a stream *)

(** A frame of the sender, as the receiver of stream [rid] understands it. *)
Inductive item :=
| IReady
| IValue (v : Value)
| INull                                   (* value.Null, which a nil becomes *)
| IOdd                                    (* any other value without a kind *)
| IEnd
| IEndWith (v : option Value).              (* with a last value *)

Definition payload_item (m : VMap) : item :=
  match fieldOrNil m (ValueField d) with
  | Some v => IValue v
  | None => match Get m (ValueField d) with Some v => if isNull v then INull else IOdd | None => IOdd end
  end.

Definition last_item (m : VMap) : item :=
  if (match Get m (ValueField d) with Some v => isNull v | None => false end) then IEnd
  else IEndWith (fieldOrNil m (ValueField d)).

Definition item_of (rid : Z) (m : VMap) : option item :=
  if bool_decide (requestIdOf d m = Some rid) then
    match messageType d m with
    | Some mt =>
        if mt =? StreamReady then Some IReady
        else if mt =? StreamValue then
          Some (payload_item m)
        else if mt =? StreamEnd then
          Some (last_item m)
        else None
    | None => None
    end
  else None.

(** A frame of the receiver, as the sender understands it. *)
Definition credit_of (rid : Z) (m : VMap) : option Z :=
  if bool_decide (requestIdOf d m = Some rid) && bool_decide (messageType d m = Some StreamCredit) then
    longOf <$> GetNumberField m (CreditField d)
  else None.

(** The item a value becomes on the wire. *)
Definition value_item (v : option Value) : item :=
  match v with
  | Some v => if decide (kindOf v = NULL) then if isNull v then INull else IOdd else IValue v
  | None => INull
  end.

Definition nonnull (v : option Value) : Prop := match v with Some v => kindOf v <> NULL | None => False end.

#[export] Instance item_of_proper rid : Proper ((≡) ==> (=)) (item_of rid).
Proof. intros m m' E. 
  unfold item_of, payload_item, last_item.
  by rewrite (requestIdOf_proper d m m' E), (messageType_proper d m m' E), (fieldOrNil_proper m m' E _ _ eq_refl), (E _).
Qed.
#[export] Instance credit_of_proper rid : Proper ((≡) ==> (=)) (credit_of rid).
Proof. intros m m' E. unfold credit_of. rewrite (requestIdOf_proper d m m' E), (messageType_proper d m m' E). by equiv_rw E. Qed.

(** Reading them back. *)
Definition item_type (i : item) : Z :=
  match i with IReady => StreamReady | IValue _ | INull | IOdd => StreamValue | IEnd | IEndWith _ => StreamEnd end.

Lemma item_of_inv rid m i :
  item_of rid m = Some i ->
  messageType d m = Some (item_type i) /\ requestIdOf d m = Some rid /\
  match i with
  | IReady => True
  | IValue v => fieldOrNil m (ValueField d) = Some v
  | INull => fieldOrNil m (ValueField d) = None /\ Get m (ValueField d) = Some Null
  | IOdd => fieldOrNil m (ValueField d) = None
  | IEnd => fieldOrNil m (ValueField d) = None /\ Get m (ValueField d) = Some Null
  | IEndWith v => fieldOrNil m (ValueField d) = v
  end.
Proof.
  unfold item_of. case_bool_decide as Hid; [|done]. destruct (messageType d m) as [mt|]; [|done].
  destruct (mt =? StreamReady) eqn:E1; [apply Z.eqb_eq in E1 as ->; by intros [= <-]|].
  destruct (mt =? StreamValue) eqn:E2.
  - apply Z.eqb_eq in E2 as ->. unfold payload_item. intros [= <-].
    destruct (fieldOrNil m (ValueField d)) eqn:Ef; [done|].
    destruct (Get m (ValueField d)) as [v|]; [|done]. destruct (isNull v) eqn:En; [|done].
    apply isNull_spec in En as ->. done.
  - destruct (mt =? StreamEnd) eqn:E3; [|done]. apply Z.eqb_eq in E3 as ->. unfold last_item, fieldOrNil. intros [= <-].
    destruct (Get m (ValueField d)) as [v|]; [|done]. destruct (isNull v) eqn:En; [|done].
    apply isNull_spec in En as ->. by rewrite decide_True by apply kind_Null.
Qed.

Lemma credit_of_inv rid m n :
  credit_of rid m = Some n ->
  messageType d m = Some StreamCredit /\ requestIdOf d m = Some rid /\
  exists c, GetNumberField m (CreditField d) = Some c /\ longOf c = n.
Proof.
  unfold credit_of. case_bool_decide as Hid; [|done]. case_bool_decide as Ht; [|done]. cbn.
  intros (c & Hc & E)%fmap_Some. eauto.
Qed.

Lemma fieldOrNil_value m v :
  fieldOrNil m (ValueField d) = Some v -> Get m (ValueField d) = Some v /\ kindOf v <> NULL.
Proof. unfold fieldOrNil. destruct (Get m _) as [x|]; [|done]. case_decide; [done|]. by intros [= ->]. Qed.

(** The frames of stream [rid]; [reqId] is its id as a value. *)
Section frames.
Context `{!dialect_ok d} (rid : Z) (reqId : Value).
Hypothesis Hnum : kindOf reqId = NUMBER.
Hypothesis Hrid : longOf reqId = rid.

Lemma frame_of_type mt m :
  GetNumberField m (MessageTypeField d) = Some (Long mt) -> in_int64 mt ->
  GetNumberField m (RequestIdField d) = Some reqId ->
  messageType d m = Some mt /\ requestIdOf d m = Some rid.
Proof. intros H1 H2 H3. unfold messageType, requestIdOf. by rewrite H1, H3, longOf_Long, Hrid. Qed.

Ltac frame_tac mt :=
  let Et := fresh in let Ei := fresh in
  match goal with
  | |- context [item_of _ ?m] => destruct (frame_of_type mt m) as [Et Ei]
  | |- context [credit_of _ ?m] => destruct (frame_of_type mt m) as [Et Ei]
  end;
  [ unfold MessageType_Long; by env_simpl | (unfold StreamReady, StreamValue, StreamEnd, StreamCredit; auto with vrpc)
  | by rewrite ?GetNumberField_Put_ne, ?GetNumberField_Put_eq by (done || field_ne)
  | unfold item_of, credit_of; rewrite Et, Ei, ?bool_decide_true by done; cbn [andb Z.eqb Pos.eqb mt] ].

Lemma ready_item : item_of rid (NewStreamReady d reqId) = Some IReady.
Proof. unfold NewStreamReady. frame_tac StreamReady. done. Qed.

Lemma value_frame_item v : item_of rid (NewStreamValue d reqId v) = Some (value_item v).
Proof.
  unfold NewStreamValue. frame_tac StreamValue. unfold payload_item, fieldOrNil, value_item. destruct v as [v|]; env_simpl.
  - by case_decide.
  - by rewrite decide_True by done.
Qed.

Lemma end_item : item_of rid (NewStreamEnd d reqId None) = Some IEnd.
Proof. unfold NewStreamEnd. frame_tac StreamEnd. unfold last_item. by env_simpl. Qed.

Lemma credit_frame n : in_int64 n -> credit_of rid (NewStreamCredit d reqId n) = Some n.
Proof. intros Hn. unfold NewStreamCredit. frame_tac StreamCredit. env_simpl. cbn. by rewrite longOf_Long. Qed.

Lemma credit_frame_no_item n : item_of rid (NewStreamCredit d reqId n) = None.
Proof. unfold NewStreamCredit. frame_tac StreamCredit. done. Qed.

Lemma ready_no_credit : credit_of rid (NewStreamReady d reqId) = None.
Proof. unfold NewStreamReady. frame_tac StreamReady. by rewrite bool_decide_false. Qed.

End frames.

End items.

Arguments item {_}.

(** ** The two ends *)

(** The pump goroutine's two actions, where they are enabled. *)
Section pump_actions.
Context `{ValueLib}.
Definition pump_take (p : StreamPump (option Value)) : option (StreamPump (option Value)) :=
  match pc p with AtLock => run_locked None p | _ => None end.
Definition pump_deliver (p : StreamPump (option Value)) : option (StreamPump (option Value)) :=
  match pc p with Sending v => Some (run_sent v p) | _ => None end.
End pump_actions.

Section ends.
Context `{ValueLib} (d : Dialect) (growcap : nat -> nat) (rid : Z).

(** Where a sending goroutine is: not started; at its channel; with a value it
    has no credit for yet; with a credit taken and the value not sent yet; with
    the end of the channel seen and not sent yet; finished. *)
Inductive send_pc := Unready | Idle | Holding (v : option Value) | Committed (v : option Value) | Closing | Done.

Definition is_done (k : send_pc) : bool := match k with Done => true | _ => false end.

Record sview := mkSV { sv_pc : send_pc; sv_gate : CreditGate }.

(** Every frame of [o] means something to the stream. *)
Definition all_parsed {A} (f : VMap -> option A) (o : list VMap) : Prop := length (omap f o) = length o.

Lemma all_parsed_each {A} (f : VMap -> option A) o : all_parsed f o -> Forall (fun m => is_Some (f m)) o.
Proof.
  unfold all_parsed. induction o as [|m o IH]; cbn; [constructor|]. destruct (f m) as [a|] eqn:E; cbn.
  - intros [= Hl]. constructor; [by eexists|auto].
  - intros Hl. assert (length (omap f o) <= length o)%nat by (clear; induction o as [|m o IH]; cbn; [done|]; destruct (f m); cbn; lia). lia.
Qed.

(** One action of the goroutine; the argument is what its channel yields
    ([None]: closed), used where it reads the channel.  [acks]: the sender is the
    responder and acknowledges the stream first. *)
Inductive sender_acts (acks : bool) : sview -> option (option Value) -> sview -> list item -> Prop :=
| sa_ready x g : sender_acts acks (mkSV Unready g) x (mkSV Idle g) (if acks then [IReady] else [])
| sa_take v g : sender_acts acks (mkSV Idle g) (Some v) (mkSV (Holding v) g) []
| sa_closed g : sender_acts acks (mkSV Idle g) None (mkSV Closing g) []
| sa_closed_end g g' : sender_acts acks (mkSV Idle g) None (mkSV Done g') [IEnd]
| sa_wait v x g : Acquire g = None -> sender_acts acks (mkSV (Holding v) g) x (mkSV (Holding v) g) []
| sa_acquire v x g g' :
    Acquire g = Some (true, g') -> sender_acts acks (mkSV (Holding v) g) x (mkSV (Committed v) g') []
| sa_acquire_send v x g g' :
    Acquire g = Some (true, g') -> sender_acts acks (mkSV (Holding v) g) x (mkSV Idle g') [value_item v]
| sa_send v x g : sender_acts acks (mkSV (Committed v) g) x (mkSV Idle g) [value_item v]
| sa_end x g g' : sender_acts acks (mkSV Closing g) x (mkSV Done g') [IEnd]
| sa_done x g g' : sender_acts acks (mkSV Done g) x (mkSV Done g') [].

(** A sending end with state [S]: its goroutine, and the loop that reads the
    frames addressed to it.  [sd_view] is [None] when it is not in operation. *)
Record Sender (S : Type) := mkSender {
  sd_acks : bool;
  sd_view : S -> option sview;
  sd_act : option (option Value) -> S -> S * list VMap;
  sd_frame : VMap -> S -> S * list VMap;
  sd_act_law x s sv :
    sd_view s = Some sv -> exists sv', sd_view (sd_act x s).1 = Some sv' /\
      sender_acts sd_acks sv x sv' (omap (item_of d rid) (sd_act x s).2) /\ all_parsed (item_of d rid) (sd_act x s).2;
  sd_credit_law m n s k g :
    sd_view s = Some (mkSV k g) -> credit_of d rid m = Some n ->
    exists g', sd_view (sd_frame m s).1 = Some (mkSV k g') /\ (k <> Done -> g' = Grant n g) /\
      (sd_frame m s).2 = []
}.

(** What the receiving end keeps; [rv_ended]: the sender's end has arrived. *)
Record rview := mkRV {
  rv_pump : StreamPump (option Value);
  rv_delivered : Z;
  rv_window : Z;
  rv_ended : bool
}.

Definition rv_with_pump (p : StreamPump (option Value)) (r : rview) : rview :=
  mkRV p (rv_delivered r) (rv_window r) (rv_ended r).

(** A receiving end: the loop that reads frames, the pump goroutine in its three
    actions, and the initial grant.  [rcv_acked]: the receiver opened the stream
    and gets the acknowledgement through its pump. *)
Record Receiver (R : Type) := mkReceiver {
  rcv_acked : bool;
  rcv_view : R -> option rview;
  rcv_frame : VMap -> R -> R * list VMap;
  rcv_take : R -> R;
  rcv_deliver : R -> R;
  rcv_hook : R -> R * list VMap;
  rcv_start : R -> R * list VMap;
  rcv_ready_law m s r p' :
    rcv_view s = Some r -> rv_ended r = false -> rcv_acked = true -> item_of d rid m = Some IReady ->
    Push None growcap None (rv_pump r) = (true, p') ->
    rcv_view (rcv_frame m s).1 = Some (rv_with_pump p' r) /\ (rcv_frame m s).2 = [];
  rcv_value_law m v s r p' :
    rcv_view s = Some r -> rv_ended r = false -> item_of d rid m = Some (IValue v) ->
    Push None growcap (Some v) (rv_pump r) = (true, p') -> overflow p' = false ->
    rcv_view (rcv_frame m s).1 = Some (rv_with_pump p' r) /\ (rcv_frame m s).2 = [];
  rcv_null_law m s r :
    rcv_view s = Some r -> rv_ended r = false -> overflow (rv_pump r) = false -> item_of d rid m = Some INull ->
    rcv_view (rcv_frame m s).1 = Some r /\ (rcv_frame m s).2 = [];
  rcv_end_law m s r :
    rcv_view s = Some r -> rv_ended r = false -> item_of d rid m = Some IEnd ->
    rcv_view (rcv_frame m s).1 = Some (mkRV (Close (rv_pump r)) (rv_delivered r) (rv_window r) true) /\
    (rcv_frame m s).2 = [];
  rcv_take_law s r p' :
    rcv_view s = Some r -> pc (rv_pump r) = AtLock -> run_locked None (rv_pump r) = Some p' ->
    rcv_view (rcv_take s) = Some (rv_with_pump p' r);
  rcv_deliver_law s r v :
    rcv_view s = Some r -> pc (rv_pump r) = Sending v ->
    rcv_view (rcv_deliver s) = Some (rv_with_pump (run_sent v (rv_pump r)) r);
  rcv_hook_law s r :
    rcv_view s = Some r -> let g := grantRecv (rv_window r) (rv_delivered r) in
    (forall n, g.2 = Some n -> in_int64 n) ->
    rcv_view (rcv_hook s).1 = Some (mkRV (rv_pump r) g.1 (rv_window r) (rv_ended r)) /\
    omap (credit_of d rid) (rcv_hook s).2 = option_list g.2 /\ all_parsed (credit_of d rid) (rcv_hook s).2;
  rcv_start_law s r :
    rcv_view s = Some r -> rcv_acked = true -> in_int64 (rv_window r) ->
    rcv_view (rcv_start s).1 = Some r /\ omap (credit_of d rid) (rcv_start s).2 = [rv_window r] /\
    all_parsed (credit_of d rid) (rcv_start s).2
}.

End ends.

Arguments send_pc {_}.
Arguments sview {_}.
Arguments rview {_}.
Arguments sd_acks {_ _ _ _}.
Arguments sd_view {_ _ _ _}.
Arguments sd_act {_ _ _ _}.
Arguments sd_frame {_ _ _ _}.
Arguments rcv_acked {_ _ _ _ _}.
Arguments rcv_view {_ _ _ _ _}.
Arguments rcv_frame {_ _ _ _ _}.
Arguments rcv_take {_ _ _ _ _}.
Arguments rcv_deliver {_ _ _ _ _}.
Arguments rcv_hook {_ _ _ _ _}.
Arguments rcv_start {_ _ _ _ _}.

(** ** The composition *)

Section world.
Context `{ValueLib} (d : Dialect) (growcap : nat -> nat) (rid : Z).
Hypothesis growcap_larger : forall n, (n < growcap n)%nat.
Context {S R : Type} (tx : Sender d rid S) (rx : Receiver d growcap rid R).
Hypothesis same_ack : sd_acks tx = rcv_acked rx.

(** The two ends, the frames in transit, and three ghosts: the values the
    producer handed over, whether the deliver hook of the value received last is
    still to run, and whether the window was granted. *)
Record world := mkWorld {
  w_snd : S;
  w_rcv : R;
  w_fwd : list VMap;
  w_back : list VMap;
  w_made : list (option Value);
  w_hook : bool;
  w_est : bool
}.

(** What the producer hands over when the goroutine reads its channel. *)
Definition taken (s : S) (x : option (option Value)) : list (option Value) :=
  match sd_view tx s, x with
  | Some (mkSV Idle _), Some v => [v]
  | _, _ => []
  end.

Inductive world_step : world -> world -> Prop :=
(** The sending goroutine. *)
| ws_act w x :
    world_step w (mkWorld (sd_act tx x (w_snd w)).1 (w_rcv w) (w_fwd w ++ (sd_act tx x (w_snd w)).2) (w_back w)
      (w_made w ++ taken (w_snd w) x) (w_hook w) (w_est w))
(** The connections: a frame arrives as an equivalent one, in order. *)
| ws_recv w m m' rest i :
    w_fwd w = m :: rest -> m' ≡ m -> item_of d rid m = Some i ->
    world_step w (mkWorld (w_snd w) (rcv_frame rx m' (w_rcv w)).1 rest (w_back w ++ (rcv_frame rx m' (w_rcv w)).2)
      (w_made w) (w_hook w) (w_est w))
| ws_credit w m m' rest n :
    w_back w = m :: rest -> m' ≡ m -> credit_of d rid m = Some n ->
    world_step w (mkWorld (sd_frame tx m' (w_snd w)).1 (w_rcv w) (w_fwd w ++ (sd_frame tx m' (w_snd w)).2) rest
      (w_made w) (w_hook w) (w_est w))
(** The pump goroutine and the consumer. *)
| ws_take w r p' :
    rcv_view rx (w_rcv w) = Some r -> w_hook w = false -> pc (rv_pump r) = AtLock ->
    run_locked None (rv_pump r) = Some p' ->
    world_step w (mkWorld (w_snd w) (rcv_take rx (w_rcv w)) (w_fwd w) (w_back w) (w_made w) (w_hook w) (w_est w))
| ws_deliver w r v :
    rcv_view rx (w_rcv w) = Some r -> pc (rv_pump r) = Sending v ->
    world_step w (mkWorld (w_snd w) (rcv_deliver rx (w_rcv w)) (w_fwd w) (w_back w) (w_made w) true (w_est w))
| ws_hook w :
    w_hook w = true ->
    world_step w (mkWorld (w_snd w) (rcv_hook rx (w_rcv w)).1 (w_fwd w) (w_back w ++ (rcv_hook rx (w_rcv w)).2)
      (w_made w) false (w_est w))
(** The initial grant of a receiver that opened the stream, once it received the
    acknowledgement. *)
| ws_start w r :
    rcv_view rx (w_rcv w) = Some r -> rcv_acked rx = true -> w_est w = false -> outSent (rv_pump r) <> [] ->
    world_step w (mkWorld (w_snd w) (rcv_start rx (w_rcv w)).1 (w_fwd w) (w_back w ++ (rcv_start rx (w_rcv w)).2)
      (w_made w) (w_hook w) true)
(** Everything else on the two sides and on the connection, which leaves this
    stream alone. *)
| ws_snd_other w s' o :
    sd_view tx s' = sd_view tx (w_snd w) -> omap (item_of d rid) o = [] ->
    world_step w (mkWorld s' (w_rcv w) (w_fwd w ++ o) (w_back w) (w_made w) (w_hook w) (w_est w))
| ws_rcv_other w r' o :
    rcv_view rx r' = rcv_view rx (w_rcv w) -> omap (credit_of d rid) o = [] ->
    world_step w (mkWorld (w_snd w) r' (w_fwd w) (w_back w ++ o) (w_made w) (w_hook w) (w_est w))
| ws_fwd_other w m rest :
    w_fwd w = m :: rest -> item_of d rid m = None ->
    world_step w (mkWorld (w_snd w) (w_rcv w) rest (w_back w) (w_made w) (w_hook w) (w_est w))
| ws_back_other w m rest :
    w_back w = m :: rest -> credit_of d rid m = None ->
    world_step w (mkWorld (w_snd w) (w_rcv w) (w_fwd w) rest (w_made w) (w_hook w) (w_est w)).

Definition acked : bool := rcv_acked rx.

(** Both sides have registered the stream, with window [n]. *)
Record opened (n : Z) (w : world) : Prop := {
  op_snd : sd_view tx (w_snd w) = Some (mkSV Unready NewCreditGate);
  op_rcv : rcv_view rx (w_rcv w) = Some (mkRV (NewStreamPump n) (if acked then -1 else 0) n false);
  op_fwd : omap (item_of d rid) (w_fwd w) = [];
  op_back : omap (credit_of d rid) (w_back w) = if acked then [] else [n];
  op_ghost : w_made w = [] /\ w_hook w = false /\ w_est w = negb acked
}.

(** ** The simulation *)

Abbreviation flow := (FlowControl.flow (V := option Value)).
Abbreviation fstep := (flow_step None growcap).

Ltac flow_cbn :=
  cbn [gate sent wireValues wireCredits pump recvDelivered hookPending established window
       w_snd w_rcv w_fwd w_back w_made w_hook w_est].

Definition ack_prefix : list (option Value) := if acked then [None] else [].

Definition handed (k : send_pc) : list (option Value) := match k with Holding v => [v] | _ => [] end.
Definition committed (k : send_pc) : list item := match k with Committed v => [value_item v] | _ => [] end.
Definition end_item_of (k : send_pc) (ended : bool) : list item :=
  match k with Done => if ended then [] else [IEnd] | _ => [] end.

(** Before the acknowledgement reached the receiver. *)
Definition sim_before (n : Z) (k : send_pc) (r : rview) (items : list item) (fl : flow) : Prop :=
  acked = true /\ r = mkRV (NewStreamPump n) (-1) n false /\ fl = init_initiator None growcap n /\
  items ++ committed k = match k with Unready => [] | _ => [IReady] end ++ end_item_of k false.

(** The receiver's pump is the flow's, closed once the end arrived, finished once
    it was drained. *)
Definition pump_rel (r : rview) (p : StreamPump (option Value)) : Prop :=
  if rv_ended r then
    rv_pump r = Close p \/ (rv_pump r = finish (Close p) /\ live p = [] /\ pc p = AtLock)
  else rv_pump r = p.

Definition sim_after (n : Z) (k : send_pc) (r : rview) (items : list item) (fl : flow) : Prop :=
  (k = Unready -> acked = false) /\ rv_delivered r = recvDelivered fl /\ rv_window r = n /\ pump_rel r (pump fl) /\
  items ++ committed k = map value_item (wireValues fl) ++ end_item_of k (rv_ended r) /\
  (rv_ended r = true -> k = Done /\ wireValues fl = []).

Definition flow_ok (n : Z) (fl : flow) : Prop :=
  flow_inv None fl /\ flow_order ack_prefix fl /\ window fl = n /\ (acked = false -> established fl = true).

Record sim (n : Z) (w : world) (fl : flow) : Prop := {
  sim_flow : flow_ok n fl;
  sim_ghost : w_hook w = hookPending fl /\ w_est w = established fl;
  sim_back : omap (credit_of d rid) (w_back w) = wireCredits fl;
  sim_nonnull : Forall nonnull (w_made w) /\ Forall nonnull (wireValues fl);
  sim_ends : exists k g r,
    sd_view tx (w_snd w) = Some (mkSV k g) /\ (k <> Done -> g = gate fl) /\ w_made w = sent fl ++ handed k /\
    rcv_view rx (w_rcv w) = Some r /\
    (sim_before n k r (omap (item_of d rid) (w_fwd w)) fl \/ sim_after n k r (omap (item_of d rid) (w_fwd w)) fl)
}.


Lemma app_single_inv {A} (l : list A) x y : l ++ [x] = [y] -> l = [] /\ x = y.
Proof. destruct l as [|a [|b l]]; cbn; naive_solver. Qed.

Definition phase (n : Z) (k : send_pc) (r : rview) (items : list item) (fl : flow) : Prop :=
  sim_before n k r items fl \/ sim_after n k r items fl.

(** The sender's actions on the abstract side: acquiring a credit is the flow's
    send, everything else leaves the flow as it is. *)
Definition flow_sent (g' : CreditGate) (v : option Value) (fl : flow) : flow :=
  mkFlow g' (sent fl ++ [v]) (wireValues fl ++ [v]) (wireCredits fl) (pump fl) (recvDelivered fl)
    (hookPending fl) (established fl) (window fl).

(** What the goroutine read from its channel. *)
Definition taken_at (k : send_pc) (x : option (option Value)) : list (option Value) :=
  match k, x with Idle, Some v => [v] | _, _ => [] end.

Lemma sender_before n k g x sv' out r items fl :
  sender_acts acked (mkSV k g) x sv' out -> (k <> Done -> g = gate fl) -> sim_before n k r items fl ->
  sim_before n (sv_pc sv') r (items ++ out) fl /\ (sv_pc sv' <> Done -> sv_gate sv' = gate fl) /\
  handed (sv_pc sv') = handed k ++ taken_at k x.
Proof.
  intros Hact Hg (Ha & Hr & Hf & Hi). unfold sim_before, taken_at.
  inv Hact; cbn [sv_pc sv_gate committed end_item_of handed app] in *; rewrite ?Ha, ?app_nil_r in *;
    try specialize (Hg ltac:(done)); try (split_and!; [try done..|auto|done]).
  all: try (subst items; done).
  all: try (subst; discriminate).
Qed.

Lemma sender_after n k g x sv' out r items fl :
  sender_acts acked (mkSV k g) x sv' out -> (k <> Done -> g = gate fl) -> sim_after n k r items fl ->
  (exists v, handed k = [v] /\ handed (sv_pc sv') = [] /\ Acquire (gate fl) = Some (true, sv_gate sv') /\ taken_at k x = [] /\
     sim_after n (sv_pc sv') r (items ++ out) (flow_sent (sv_gate sv') v fl)) \/
  (sim_after n (sv_pc sv') r (items ++ out) fl /\ (sv_pc sv' <> Done -> sv_gate sv' = gate fl) /\
   handed (sv_pc sv') = handed k ++ taken_at k x).
Proof.
  intros Hact Hg (Hu & Hd & Hw & Hp & Hi & He). unfold sim_after, taken_at.
  assert (k <> Done -> rv_ended r = false) as Hne by (destruct (rv_ended r); naive_solver).
  inv Hact; cbn [sv_pc sv_gate committed end_item_of handed app] in *; rewrite ?app_nil_r in *;
    first [specialize (Hg ltac:(done)); specialize (Hne ltac:(done)); rewrite Hne in *; subst g | clear Hg Hne].
  all: try (right; split_and!; try done; by rewrite ?Hi, ?app_nil_r).
  - right. specialize (Hu eq_refl). rewrite Hu, app_nil_r. split_and!; done.
  - left. exists v. unfold flow_sent. flow_cbn. rewrite Hi, map_app, app_nil_r. split_and!; done.
  - left. exists v. unfold flow_sent. flow_cbn. rewrite Hi, map_app, app_nil_r. split_and!; done.
Qed.

(** ** Every step of the code is matched by the flow *)

Lemma flow_ok_step n fl fl' : flow_ok n fl -> fstep fl fl' -> flow_ok n fl'.
Proof.
  intros (Hi & Ho & Hw & He) Hs. split_and!.
  - exact (flow_step_inv None growcap growcap_larger _ _ Hi Hs).
  - exact (flow_step_order None growcap growcap_larger _ _ _ Hi Hs Ho).
  - rewrite <- Hw. by inv Hs.
  - intros Ha. specialize (He Ha). by inv Hs.
Qed.

Lemma sim_act n w x fl :
  sim n w fl -> Forall nonnull (w_made w ++ taken (w_snd w) x) ->
  let out := sd_act tx x (w_snd w) in
  exists fl', reach fstep fl fl' /\
    sim n (mkWorld out.1 (w_rcv w) (w_fwd w ++ out.2) (w_back w) (w_made w ++ taken (w_snd w) x) (w_hook w) (w_est w)) fl'.
Proof.
  intros [Hok [Hhk Hes] Hbk [Hnm Hnw] (k & g & r & Hsv & Hg & Hmade & Hrv & Hph)] Hnm' out.
  destruct (sd_act_law _ _ _ tx x (w_snd w) _ Hsv) as ([k' g'] & Hsv' & Hact & _). rewrite same_ack in Hact.
  fold out in Hsv', Hact.
  assert (taken (w_snd w) x = taken_at k x) as Etk by (unfold taken; rewrite Hsv; done). rewrite Etk in *.
  destruct Hph as [Hph|Hph].
  - destruct (sender_before _ _ _ _ _ _ _ _ _ Hact Hg Hph) as (Hph' & Hg' & Hh'). cbn [sv_pc sv_gate] in *.
    exists fl. split; [constructor|]. split; cbn; try done.
    exists k', g', r. rewrite omap_app, Hh', app_assoc, <- Hmade. split_and!; auto.
  - destruct (sender_after _ _ _ _ _ _ _ _ _ Hact Hg Hph) as [(v & Hk & Hk' & Ha & Ht & Hph')|(Hph' & Hg' & Hh')]; cbn [sv_pc sv_gate] in *.
    + assert (fstep fl (flow_sent g' v fl)) as Hst by by apply fl_send.
      exists (flow_sent g' v fl). split; [by eapply reach_next; [constructor|]|].
      rewrite Ht, app_nil_r in *. rewrite Hmade, Hk in Hnm. apply Forall_app in Hnm as [_ Hv].
      split; flow_cbn; try done.
      * by eapply flow_ok_step.
      * split; [exact Hnm'|]. apply Forall_app. auto.
      * exists k', g', r. rewrite omap_app. split_and!; auto. rewrite Hmade, Hk, Hk', app_nil_r. done.
    + exists fl. split; [constructor|]. split; cbn; try done.
      exists k', g', r. rewrite omap_app, Hh', app_assoc, <- Hmade. split_and!; auto.
Qed.
Lemma nonnull_item v : nonnull v -> exists v0, v = Some v0 /\ value_item v = IValue v0.
Proof. destruct v as [v|]; [|done]. intros Hv. exists v. unfold value_item. by rewrite decide_False. Qed.

(** A frame adds at most one value to the pump. *)
Definition grows (r r' : rview) : Prop :=
  pc (rv_pump r') = pc (rv_pump r) /\ (length (live (rv_pump r')) <= length (live (rv_pump r)) + 1)%nat.

(** The receiver's loop reads a frame of the stream. *)
Lemma recv_before n k r items i fl m' s :
  0 < n < two63 -> sim_before n k r (i :: items) fl -> rcv_view rx s = Some r -> item_of d rid m' = Some i ->
  exists r', rcv_view rx (rcv_frame rx m' s).1 = Some r' /\ (rcv_frame rx m' s).2 = [] /\
    sim_after n k r' items fl /\ grows r r'.
Proof.
  intros Hn (Ha & Hr & Hf & Hi) Hrv Hm. unfold acked in Ha.
  destruct (Push_open (V := option Value) None growcap None (NewStreamPump n) (NewStreamPump_wf None n) eq_refl eq_refl) as [p' Hp].
  { cbn. destruct (n <=? 0) eqn:E; bool_to_prop; unfold zlen; cbn; lia. }
  assert (i = IReady /\ k <> Unready /\ items ++ committed k = end_item_of k false) as (-> & Hk & Hi').
  { destruct k; cbn in Hi |- *; try discriminate; injection Hi as -> Hi; done. }
  destruct (rcv_ready_law _ _ _ _ rx m' s r p' Hrv ltac:(by rewrite Hr) Ha Hm ltac:(by rewrite Hr)) as [Hv Hc].
  pose proof (Push_true None growcap None _ _ (NewStreamPump_wf None n) Hp) as (Hl & Hpc & _).
  eexists. split_and!; [exact Hv|done| |subst r; split; cbn; [done|rewrite Hl, length_app; cbn; lia]].
  subst r fl. unfold sim_after, init_initiator, pump_rel. flow_cbn.
  cbn [rv_with_pump rv_pump rv_delivered rv_window rv_ended]. rewrite Hp. split_and!; try done.
Qed.

Lemma recv_after n k r items i fl m' s :
  flow_ok n fl -> Forall nonnull (wireValues fl) ->
  sim_after n k r (i :: items) fl -> rcv_view rx s = Some r -> item_of d rid m' = Some i ->
  exists r' fl', reach fstep fl fl' /\ rcv_view rx (rcv_frame rx m' s).1 = Some r' /\
    (rcv_frame rx m' s).2 = [] /\
    sim_after n k r' items fl' /\ gate fl' = gate fl /\ sent fl' = sent fl /\ wireCredits fl' = wireCredits fl /\
    hookPending fl' = hookPending fl /\ established fl' = established fl /\ Forall nonnull (wireValues fl') /\ grows r r'.
Proof.
  intros Hok Hnn (Hu & Hd & Hw & Hp & Hi & He) Hrv Hm. cbn [app] in Hi.
  destruct (wireValues fl) as [|v wv] eqn:Ewv.
  - (* the end *)
    destruct k; try discriminate. cbn [end_item_of map app] in Hi.
    destruct (rv_ended r) eqn:Er; [discriminate|]. injection Hi as -> Hi.
    destruct (rcv_end_law _ _ _ _ rx m' s r Hrv Er Hm) as [Hv Hc].
    exists (mkRV (Close (rv_pump r)) (rv_delivered r) (rv_window r) true), fl.
    unfold pump_rel in Hp. rewrite Er in Hp. 
    assert (grows r (mkRV (Close (rv_pump r)) (rv_delivered r) (rv_window r) true)) by (split; cbn; unfold live; cbn; [done|lia]).
    split_and!; try done; [constructor| |by rewrite Ewv].
    unfold sim_after, pump_rel. cbn. rewrite Ewv, Hp. split_and!; auto.
  - (* a value *)
    assert (rv_ended r = false) as Er by (destruct (rv_ended r); [by destruct (He eq_refl)|done]).
    unfold pump_rel in Hp. rewrite Er in Hp.
    apply Forall_cons in Hnn as [Hv Hnn]. destruct (nonnull_item v Hv) as (v0 & -> & Ev).
    cbn [map app] in Hi. rewrite Ev in Hi. injection Hi as -> Hi.
    destruct (Push None growcap (Some v0) (pump fl)) as [b p'] eqn:HP.
    destruct Hok as (Hfi & Hfo & Hfw & _).
    destruct (inv_recv None growcap growcap_larger (Some v0) wv b p' fl Hfi Ewv HP) as [-> Hfi'].
    destruct (rcv_value_law _ _ _ _ rx m' v0 s r p' Hrv Er Hm) as [Hv' Hc].
    { by rewrite Hp. }
    { apply (fi_open _ _ Hfi'). }
    eexists _, _. split; [eapply reach_next; [constructor|]; exact (fl_recv None growcap (Some v0) wv true p' fl Ewv HP)|].
    pose proof (Push_true None growcap (Some v0) _ _ (fi_wf _ _ Hfi) HP) as (Hl & Hpc & _).
    split; [exact Hv'|]. split; [done|]. flow_cbn. split_and!; try done.
    2:{ split; cbn; rewrite Hp; [done|]. rewrite Hl, length_app. cbn. lia. }
    unfold sim_after, pump_rel. flow_cbn. cbn [rv_with_pump rv_pump rv_delivered rv_window rv_ended].
    rewrite Er in *. split_and!; try done. 
Qed.

Lemma flow_ok_reach n fl fl' : flow_ok n fl -> reach fstep fl fl' -> flow_ok n fl'.
Proof. intros H0. apply reach_inv; [done|]. intros a b. apply flow_ok_step. Qed.

Lemma flow_ok_window n fl : flow_ok n fl -> 0 < n < two63.
Proof. intros (Hi & _ & <- & _). apply (fi_window _ _ Hi). Qed.

Lemma sim_recv n w m m' rest i fl :
  sim n w fl -> w_fwd w = m :: rest -> m' ≡ m -> item_of d rid m = Some i ->
  let out := rcv_frame rx m' (w_rcv w) in
  exists fl', reach fstep fl fl' /\
    sim n (mkWorld (w_snd w) out.1 rest (w_back w ++ out.2) (w_made w) (w_hook w) (w_est w)) fl'.
Proof.
  intros [Hok [Hhk Hes] Hbk [Hnm Hnw] (k & g & r & Hsv & Hg & Hmade & Hrv & Hph)] Hfwd Heq Hm out.
  rewrite Hfwd in Hph. cbn [omap list_omap] in Hph. rewrite Hm in Hph.
  assert (item_of d rid m' = Some i) as Hm' by by rewrite (item_of_proper d rid _ _ Heq).
  destruct Hph as [Hph|Hph].
  - destruct (recv_before _ _ _ _ _ _ _ _ (flow_ok_window _ _ Hok) Hph Hrv Hm') as (r' & Hrv' & Hc & Hph' & _).
    exists fl. split; [constructor|]. split; flow_cbn; try done.
    + unfold out. by rewrite omap_app, Hc, app_nil_r.
    + exists k, g, r'. split_and!; auto.
  - destruct (recv_after _ _ _ _ _ _ _ _ Hok Hnw Hph Hrv Hm') as
      (r' & fl' & Hr & Hrv' & Hc & Hph' & Eg & Es & Ec & Eh & Ee & Hnw' & _).
    exists fl'. split; [done|]. split; flow_cbn.
    + by eapply flow_ok_reach.
    + by rewrite Eh, Ee.
    + unfold out. by rewrite omap_app, Hc, app_nil_r, Ec.
    + done.
    + exists k, g, r'. rewrite Eg, Es. split_and!; auto.
Qed.

(** A credit reaches the sender. *)
Lemma sim_credit n w m m' rest c fl :
  sim n w fl -> w_back w = m :: rest -> m' ≡ m -> credit_of d rid m = Some c ->
  let out := sd_frame tx m' (w_snd w) in
  exists fl', reach fstep fl fl' /\
    sim n (mkWorld out.1 (w_rcv w) (w_fwd w ++ out.2) rest (w_made w) (w_hook w) (w_est w)) fl' /\
    wireCredits fl' = omap (credit_of d rid) rest /\ gate fl' = Grant c (gate fl) /\
    recvDelivered fl' = recvDelivered fl /\ pump fl' = pump fl /\ wireValues fl' = wireValues fl.
Proof.
  intros [Hok [Hhk Hes] Hbk [Hnm Hnw] (k & g & r & Hsv & Hg & Hmade & Hrv & Hph)] Hback Heq Hm out.
  rewrite Hback in Hbk. cbn [omap list_omap] in Hbk. rewrite Hm in Hbk.
  assert (credit_of d rid m' = Some c) as Hm' by by rewrite (credit_of_proper d rid _ _ Heq).
  destruct (sd_credit_law _ _ _ tx m' c (w_snd w) k g Hsv Hm') as (g' & Hsv' & Hg' & Hc).
  assert (fstep fl (mkFlow (Grant c (gate fl)) (sent fl) (wireValues fl) (omap (credit_of d rid) rest) (pump fl)
    (recvDelivered fl) (hookPending fl) (established fl) (window fl))) as Hst by (apply fl_credit; by symmetry).
  eexists. split; [by eapply reach_next; [constructor|]|]. split; [|done]. split; flow_cbn; try done.
  - by eapply flow_ok_step.
  - exists k, g', r. rewrite omap_app. unfold out. rewrite Hc, app_nil_r. split_and!; auto.
    + intros Hk. by rewrite Hg', Hg.
    + destruct Hph as [(Ha & Hr & Hf & Hi)|Hph]; [|right; exact Hph].
      exfalso. rewrite Hf in Hbk. discriminate.
Qed.

(** ** The pump of the receiver *)

Lemma run_locked_Close (q : StreamPump (option Value)) :
  pump_wf None q -> inputEnd q = false -> stopped q = false ->
  run_locked None (Close q) =
    match run_locked None q with Some q' => Some (Close q') | None => Some (finish (Close q)) end.
Proof.
  intros Hwf Hi Hs. unfold run_locked, pendingLen. cbn. rewrite Hi, Hs. cbn. rewrite andb_false_r, andb_true_r. cbn.
  case_bool_decide as Ez; cbn; [done|].
  destruct (queue q !! head q) eqn:Eq; [by case_bool_decide|].
  apply lookup_ge_None in Eq. destruct (wf_head _ _ Hwf) as [|[E0 E1]]; [lia|]. by rewrite E0, E1 in Ez.
Qed.

Lemma run_locked_none (q : StreamPump (option Value)) :
  pump_wf None q -> inputEnd q = false -> stopped q = false -> run_locked None q = None -> live q = [].
Proof.
  intros Hwf Hi Hs. intros Hr. apply (pending_zero None _ Hwf). revert Hr. unfold run_locked. rewrite Hi, Hs, !andb_true_r.
  case_bool_decide as Ez; [done|]. destruct (queue q !! head q) eqn:El; [done|]. intros _.
  apply lookup_ge_None in El. destruct (wf_head _ _ Hwf) as [|[E0 E1]]; [lia|]. unfold pendingLen. by rewrite E0, E1.
Qed.

Definition flow_with_pump (p : StreamPump (option Value)) (h : bool) (fl : flow) : flow :=
  mkFlow (gate fl) (sent fl) (wireValues fl) (wireCredits fl) p (recvDelivered fl) h (established fl) (window fl).

(** The pump goroutine takes a value, or finishes. *)
Lemma sim_take n w r p' fl :
  sim n w fl -> rcv_view rx (w_rcv w) = Some r -> w_hook w = false -> pc (rv_pump r) = AtLock ->
  run_locked None (rv_pump r) = Some p' ->
  exists fl', reach fstep fl fl' /\
    sim n (mkWorld (w_snd w) (rcv_take rx (w_rcv w)) (w_fwd w) (w_back w) (w_made w) (w_hook w) (w_est w)) fl'.
Proof.
  intros [Hok [Hhk Hes] Hbk [Hnm Hnw] (k & g & r0 & Hsv & Hg & Hmade & Hrv & Hph)] Hrv0 Hh Hpc Hrun.
  rewrite Hrv in Hrv0. injection Hrv0 as ->.
  pose proof (rcv_take_law _ _ _ _ rx _ _ _ Hrv Hpc Hrun) as Hv.
  destruct Hph as [(_ & -> & _)|(Hu & Hd & Hw & Hp & Hi & He)]; [done|].
  assert (exists q', pump_rel (rv_with_pump p' r) q' /\
    ((q' = pump fl) \/ (pc (pump fl) = AtLock /\ run_locked None (pump fl) = Some q'))) as (q' & Hp' & Hq').
  { destruct Hok as (Hfi & _). destruct (fi_open _ _ Hfi) as (O1 & O2 & _). unfold pump_rel in *. cbn.
    destruct (rv_ended r); [|rewrite Hp in *; eauto].
    destruct Hp as [Hp|(Hp & _)]; rewrite Hp in Hpc, Hrun; [|done]. cbn in Hpc.
    rewrite run_locked_Close in Hrun by (done || apply (fi_wf _ _ Hfi)).
    destruct (run_locked None (pump fl)) as [q'|] eqn:Eq; injection Hrun as <-; [exists q'; auto|].
    exists (pump fl). split; [|by left]. right. split_and!; try done.
    by apply run_locked_none; [apply (fi_wf _ _ Hfi)|..]. }
  set (fl' := flow_with_pump q' (hookPending fl) fl).
  assert (reach fstep fl fl') as Hr.
  { destruct Hq' as [->|[Hq1 Hq2]]; [destruct fl; constructor|]. eapply reach_next; [constructor|].
    unfold fl', flow_with_pump. rewrite <- Hhk, Hh. apply fl_take; [by rewrite <- Hhk|done|done]. }
  exists fl'. split; [done|]. split; flow_cbn; try done; [by eapply flow_ok_reach|].
  exists k, g, (rv_with_pump p' r). split_and!; auto. right. unfold sim_after, fl', flow_with_pump. flow_cbn. done.
Qed.

(** The consumer receives a value. *)
Lemma sim_deliver n w r v fl :
  sim n w fl -> rcv_view rx (w_rcv w) = Some r -> pc (rv_pump r) = Sending v ->
  exists fl', reach fstep fl fl' /\
    sim n (mkWorld (w_snd w) (rcv_deliver rx (w_rcv w)) (w_fwd w) (w_back w) (w_made w) true (w_est w)) fl'.
Proof.
  intros [Hok [Hhk Hes] Hbk [Hnm Hnw] (k & g & r0 & Hsv & Hg & Hmade & Hrv & Hph)] Hrv0 Hpc.
  rewrite Hrv in Hrv0. injection Hrv0 as ->.
  pose proof (rcv_deliver_law _ _ _ _ rx _ _ _ Hrv Hpc) as Hv.
  destruct Hph as [(_ & -> & _)|(Hu & Hd & Hw & Hp & Hi & He)]; [done|].
  assert (pc (pump fl) = Sending v /\ pump_rel (rv_with_pump (run_sent v (rv_pump r)) r) (run_sent v (pump fl))) as [Hpc' Hp'].
  { unfold pump_rel in *. cbn. destruct (rv_ended r); [|by rewrite Hp in *].
    destruct Hp as [Hp|(Hp & _)]; rewrite Hp in *; [|done]. split; [done|]. by left. }
  set (fl' := flow_with_pump (run_sent v (pump fl)) true fl).
  assert (fstep fl fl') as Hst by by apply fl_deliver.
  exists fl'. split; [by eapply reach_next; [constructor|]|]. split; flow_cbn; try done; [by eapply flow_ok_step|].
  exists k, g, (rv_with_pump (run_sent v (rv_pump r)) r). split_and!; auto. right.
  unfold sim_after, fl', flow_with_pump. flow_cbn. done.
Qed.

Lemma grant_int64 n fl c :
  flow_ok n fl -> (grantRecv n (recvDelivered fl)).2 = Some c -> in_int64 c.
Proof.
  intros (Hfi & _ & <- & _) Hc. pose proof (fi_window _ _ Hfi). pose proof (batchOf_bounds (window fl) ltac:(lia)).
  pose proof (fi_delivered _ _ Hfi) as Hdl.
  pose proof (grantRecv_spec (window fl) (recvDelivered fl) ltac:(lia) Hdl) as Hs.
  destruct (grantRecv _ _) as [? o]. cbn in Hc. rewrite Hc in Hs. unfold in_int64, two63 in *. lia.
Qed.

(** The deliver hook. *)
Lemma sim_hooked n w fl :
  sim n w fl -> w_hook w = true ->
  let out := rcv_hook rx (w_rcv w) in
  exists fl', reach fstep fl fl' /\
    sim n (mkWorld (w_snd w) out.1 (w_fwd w) (w_back w ++ out.2) (w_made w) false (w_est w)) fl'.
Proof.
  intros [Hok [Hhk Hes] Hbk [Hnm Hnw] (k & g & r & Hsv & Hg & Hmade & Hrv & Hph)] Hh out.
  destruct Hph as [(_ & _ & -> & _)|(Hu & Hd & Hw & Hp & Hi & He)]; [by rewrite Hhk in Hh|].
  pose proof Hok as (Hfi & _ & Hfw & _).
  assert (fstep fl (mkFlow (gate fl) (sent fl) (wireValues fl)
    (wireCredits fl ++ match (grantRecv (window fl) (recvDelivered fl)).2 with Some c => [c] | None => [] end)
    (pump fl) (grantRecv (window fl) (recvDelivered fl)).1 false (established fl) (window fl))) as Hst
    by (apply fl_hook; congruence).
  destruct (rcv_hook_law _ _ _ _ rx (w_rcv w) r Hrv) as (Hv & Hc & _).
  { intros c. rewrite Hw, Hd. by apply grant_int64. }
  rewrite Hw, Hd, <- Hfw in Hv, Hc.
  eexists. split; [by eapply reach_next; [constructor|]|]. split; flow_cbn; try done.
  - by eapply flow_ok_step.
  - unfold out. rewrite omap_app, Hc, Hbk. by destruct (grantRecv _ _) as [? []].
  - exists k, g. eexists. split_and!; [done|done|done|exact Hv|]. right. unfold sim_after. flow_cbn. done.
Qed.

Lemma pump_rel_outSent r p : pump_rel r p -> outSent (rv_pump r) = outSent p.
Proof. unfold pump_rel. destruct (rv_ended r); [intros [->|(-> & _)]|intros ->]; done. Qed.

(** The initial grant. *)
Lemma sim_started n w r fl :
  sim n w fl -> rcv_view rx (w_rcv w) = Some r -> rcv_acked rx = true -> w_est w = false -> outSent (rv_pump r) <> [] ->
  let out := rcv_start rx (w_rcv w) in
  exists fl', reach fstep fl fl' /\
    sim n (mkWorld (w_snd w) out.1 (w_fwd w) (w_back w ++ out.2) (w_made w) (w_hook w) true) fl'.
Proof.
  intros [Hok [Hhk Hes] Hbk [Hnm Hnw] (k & g & r0 & Hsv & Hg & Hmade & Hrv & Hph)] Hrv0 Ha He0 Ho out.
  rewrite Hrv in Hrv0. injection Hrv0 as ->.
  destruct Hph as [(_ & -> & _)|(Hu & Hd & Hw & Hp & Hi & He)]; [done|].
  pose proof Hok as (Hfi & _ & Hfw & _). rewrite (pump_rel_outSent _ _ Hp) in Ho.
  pose proof (fi_window _ _ Hfi).
  destruct (rcv_start_law _ _ _ _ rx (w_rcv w) r Hrv Ha) as (Hv & Hc & _).
  { rewrite Hw, <- Hfw. unfold in_int64, two63 in *. lia. }
  assert (fstep fl (mkFlow (gate fl) (sent fl) (wireValues fl) (wireCredits fl ++ [window fl]) (pump fl)
    (recvDelivered fl) (hookPending fl) true (window fl))) as Hst by (apply fl_establish; [congruence|done]).
  eexists. split; [by eapply reach_next; [constructor|]|]. split; flow_cbn; try done.
  - by eapply flow_ok_step.
  - unfold out. by rewrite omap_app, Hc, Hbk, Hw, Hfw.
  - exists k, g, r. split_and!; auto. by right.
Qed.

(** What the two ends send is addressed to each other: items forward, credits
    back, and nothing in answer to them. *)
Record in_order (w : world) : Prop := {
  io_act x : all_parsed (item_of d rid) (sd_act tx x (w_snd w)).2;
  io_hook : w_hook w = true -> all_parsed (credit_of d rid) (rcv_hook rx (w_rcv w)).2;
  io_start r : rcv_view rx (w_rcv w) = Some r -> rcv_acked rx = true -> w_est w = false -> outSent (rv_pump r) <> [] ->
    all_parsed (credit_of d rid) (rcv_start rx (w_rcv w)).2;
  io_recv m m' rest i : w_fwd w = m :: rest -> m' ≡ m -> item_of d rid m = Some i -> (rcv_frame rx m' (w_rcv w)).2 = [];
  io_credit m c : credit_of d rid m = Some c -> (sd_frame tx m (w_snd w)).2 = []
}.

Lemma sim_in_order n w fl : sim n w fl -> in_order w.
Proof.
  intros [Hok [Hhk Hes] Hbk [Hnm Hnw] (k & g & r & Hsv & Hg & Hmade & Hrv & Hph)]. split.
  - intros x. by destruct (sd_act_law _ _ _ tx x (w_snd w) _ Hsv) as (? & _ & _ & ?).
  - intros Hh. destruct Hph as [(_ & _ & -> & _)|(Hu & Hd & Hw & _)]; [by rewrite Hhk in Hh|].
    destruct (rcv_hook_law _ _ _ _ rx (w_rcv w) r Hrv) as (_ & _ & ?); [|done]. intros c. rewrite Hw, Hd. by apply grant_int64.
  - intros r0 Hrv0 Ha He0 Ho. rewrite Hrv in Hrv0. injection Hrv0 as <-.
    destruct Hph as [(_ & -> & _)|(Hu & Hd & Hw & _)]; [done|].
    destruct (rcv_start_law _ _ _ _ rx (w_rcv w) r Hrv Ha) as (_ & _ & ?); [|done].
    pose proof (flow_ok_window _ _ Hok). rewrite Hw. unfold in_int64, two63 in *. lia.
  - intros m m' rest i Hfwd Heq Hm. rewrite Hfwd in Hph. cbn [omap list_omap] in Hph. rewrite Hm in Hph.
    assert (item_of d rid m' = Some i) as Hm' by by rewrite (item_of_proper d rid _ _ Heq). destruct Hph as [Hph|Hph].
    + by destruct (recv_before _ _ _ _ _ _ _ _ (flow_ok_window _ _ Hok) Hph Hrv Hm') as (_ & _ & Hc & _).
    + by destruct (recv_after _ _ _ _ _ _ _ _ Hok Hnw Hph Hrv Hm') as (_ & _ & _ & _ & Hc & _).
  - intros m c Hm. by destruct (sd_credit_law _ _ _ tx m c (w_snd w) k g Hsv Hm) as (_ & _ & _ & Hc).
Qed.

(** Every step of the two programs and the connection between them is matched by
    steps of the abstract flow. *)
Lemma world_step_sim n w w' fl :
  sim n w fl -> world_step w w' -> Forall nonnull (w_made w') -> exists fl', reach fstep fl fl' /\ sim n w' fl'.
Proof.
  intros Hs Hw Hnn. inv Hw.
  - by apply sim_act.
  - by eapply sim_recv.
  - edestruct sim_credit as (fl' & ? & ? & _); eauto.
  - by eapply sim_take.
  - by eapply sim_deliver.
  - by eapply sim_hooked.
  - by eapply sim_started.
  - exists fl. split; [constructor|]. destruct Hs as [? ? ? ? (k & g & r & Hsv & Hs)]. split; flow_cbn; try done.
    exists k, g, r. rewrite omap_app. subst_eq (omap (item_of d rid) o). rewrite app_nil_r. split; [congruence|done].
  - exists fl. split; [constructor|]. destruct Hs as [? ? Hb ? (k & g & r & Hsv & Hg & Hm & Hrv & Hs)]. split; flow_cbn; try done.
    + rewrite omap_app. subst_eq (omap (credit_of d rid) o). by rewrite app_nil_r.
    + exists k, g, r. split_and!; try done. congruence.
  - exists fl. split; [constructor|]. destruct Hs as [? ? ? ? (k & g & r & Hs)]. split; flow_cbn; try done.
    exists k, g, r. subst_eq (w_fwd w). cbn [omap list_omap] in Hs. subst_eq (item_of d rid m). done.
  - exists fl. split; [constructor|]. destruct Hs as [? ? Hb ? ?]. split; flow_cbn; try done.
    rewrite <- Hb. subst_eq (w_back w). cbn [omap list_omap]. subst_eq (credit_of d rid m). done.
Qed.

Lemma opened_sim n w : 0 < n < two63 -> opened n w -> exists fl, sim n w fl.
Proof.
  intros Hn [Hsv Hrv Hfwd Hback (Hm & Hh & He)].
  destruct acked eqn:Ea.
  - exists (init_initiator None growcap n). split; unfold init_initiator; flow_cbn; try done.
    + unfold flow_ok, ack_prefix. rewrite Ea. split_and!; [by apply init_initiator_inv|apply init_order_initiator; lia|done|done].
    + rewrite Hm. done.
    + exists Unready, NewCreditGate, (mkRV (NewStreamPump n) (-1) n false). rewrite Hfwd, Hm.
      split_and!; try done. left. unfold sim_before. split_and!; done.
  - set (fl := mkFlow NewCreditGate [] [] [n] (NewStreamPump n) 0 false true n : flow).
    assert (flow_inv None fl) as Hfi.
    { apply (flow_step_inv None growcap growcap_larger (init_responder n)); [by apply init_responder_inv|].
      apply (fl_establish None growcap (init_responder n)); done. }
    exists fl. split; unfold fl; flow_cbn; try done.
    + unfold flow_ok, ack_prefix. rewrite Ea. by split_and!.
    + rewrite Hm. done.
    + exists Unready, NewCreditGate, (mkRV (NewStreamPump n) 0 n false). rewrite Hfwd, Hm.
      split_and!; try done. right. unfold sim_after. split_and!; done.
Qed.

(** What the producer handed over only grows. *)
Lemma made_grows w w' : world_step w w' -> exists vs, w_made w' = w_made w ++ vs.
Proof. intros Hs. inv Hs; flow_cbn; eauto; exists []; by rewrite app_nil_r. Qed.

Lemma reach_sim n w0 w :
  0 < n < two63 -> opened n w0 -> reach world_step w0 w -> Forall nonnull (w_made w) -> exists fl, sim n w fl.
Proof.
  intros Hn Ho Hr. induction Hr as [|a b Hr IH Hst]; intros Hnn; [by apply opened_sim|].
  destruct (made_grows _ _ Hst) as [vs Hm]. destruct IH as [fl Hs].
  { rewrite Hm in Hnn. by apply Forall_app in Hnn as [? _]. }
  destruct (world_step_sim n a b fl Hs Hst Hnn) as (fl' & _ & ?). eauto.
Qed.

(** ** Safety *)

Lemma sim_pump n w fl r :
  sim n w fl -> rcv_view rx (w_rcv w) = Some r -> pump_wf None (rv_pump r) /\ stopped (rv_pump r) = false.
Proof.
  intros [Hok _ _ _ (k & g & r0 & _ & _ & _ & Hrv & Hph)] Hrv0. rewrite Hrv in Hrv0. injection Hrv0 as ->.
  destruct Hok as (Hfi & _). destruct (fi_open _ _ Hfi) as (_ & Hst & _).
  destruct Hph as [(_ & -> & _)|(_ & _ & _ & Hp & _)]; [split; [apply NewStreamPump_wf|done]|].
  pose proof (Close_wf None _ (fi_wf _ _ Hfi)) as Hcw.
  unfold pump_rel in Hp. destruct (rv_ended r); [destruct Hp as [->|(-> & Hl & Hpc)]|rewrite Hp].
  - done.
  - split; [|done]. apply finish_wf; [done|cbn; congruence|by right].
  - split; [apply (fi_wf _ _ Hfi)|done].
Qed.

(** What holds of every reachable world. *)
Record exact (n : Z) (w : world) (k : send_pc) (r : rview) : Prop := {
  ex_overflow : overflow (rv_pump r) = false;
  ex_bounded : zlen (live (rv_pump r)) <= n;
  ex_order : exists transit, ack_prefix ++ w_made w = outSent (rv_pump r) ++ in_hand (rv_pump r) ++ live (rv_pump r) ++ transit;
  ex_finished : pc (rv_pump r) = Finished -> k = Done /\ outSent (rv_pump r) = ack_prefix ++ w_made w
}.

Lemma sim_exact n w fl k g r :
  sim n w fl -> sd_view tx (w_snd w) = Some (mkSV k g) -> rcv_view rx (w_rcv w) = Some r -> exact n w k r.
Proof.
  intros [Hok _ _ _ (k0 & g0 & r0 & Hsv & _ & Hmade & Hrv & Hph)] Hsv0 Hrv0.
  rewrite Hrv in Hrv0. injection Hrv0 as ->. rewrite Hsv in Hsv0. injection Hsv0 as -> ->.
  pose proof (flow_ok_window _ _ Hok) as Hn. destruct Hok as (Hfi & Hfo & Hfw & _).
  destruct (fi_open _ _ Hfi) as (Ho1 & Ho2 & Ho3).
  destruct Hph as [(_ & -> & Hf & _)|(_ & _ & _ & Hp & Hi & He)].
  - split; cbn; try done; [unfold zlen; cbn; lia|]. by eexists.
  - pose proof (pump_rel_outSent _ _ Hp) as Ho. unfold flow_order in Hfo.
    assert (zlen (live (pump fl)) <= n) as Hb by (rewrite <- Hfw, <- (fi_max _ _ Hfi); apply (wf_bound _ _ (fi_wf _ _ Hfi))).
    assert (ack_prefix ++ w_made w = outSent (pump fl) ++ in_hand (pump fl) ++ live (pump fl) ++ wireValues fl ++ handed k) as Hall
      by (by rewrite Hmade, !app_assoc, <- (app_assoc (outSent _)), <- (app_assoc (outSent _)), <- (app_assoc (in_hand _)), Hfo).
    unfold pump_rel in Hp. destruct (rv_ended r) eqn:Er.
    + destruct (He eq_refl) as [-> Hw]. rewrite Hw in Hall. cbn [handed app] in Hall.
      destruct Hp as [Hp|(Hp & Hl & Hpc)].
      * split; rewrite Hp; cbn; try done.
        -- exists []. exact Hall.
        -- intros Hf. destruct (wf_done _ _ (fi_wf _ _ Hfi) Hf) as [|[]]; congruence.
      * split; rewrite Hp; cbn; try done.
        -- exists []. rewrite Hall. unfold in_hand. cbn. by rewrite Hpc.
        -- intros _. rewrite Hall, Hl. unfold in_hand. rewrite Hpc. by rewrite !app_nil_r.
    + split; rewrite Hp; try done.
      * by exists (wireValues fl ++ handed k).
      * intros Hf. destruct (wf_done _ _ (fi_wf _ _ Hfi) Hf) as [|[]]; congruence.
Qed.

(** ** Progress *)

(** The goroutines of the two ends, without the connection. *)
Inductive local_step : world -> world -> Prop :=
| lo_act w x :
    local_step w (mkWorld (sd_act tx x (w_snd w)).1 (w_rcv w) (w_fwd w ++ (sd_act tx x (w_snd w)).2) (w_back w)
      (w_made w ++ taken (w_snd w) x) (w_hook w) (w_est w))
| lo_take w r p' :
    rcv_view rx (w_rcv w) = Some r -> w_hook w = false -> pc (rv_pump r) = AtLock ->
    run_locked None (rv_pump r) = Some p' ->
    local_step w (mkWorld (w_snd w) (rcv_take rx (w_rcv w)) (w_fwd w) (w_back w) (w_made w) (w_hook w) (w_est w))
| lo_deliver w r v :
    rcv_view rx (w_rcv w) = Some r -> pc (rv_pump r) = Sending v ->
    local_step w (mkWorld (w_snd w) (rcv_deliver rx (w_rcv w)) (w_fwd w) (w_back w) (w_made w) true (w_est w))
| lo_hook w :
    w_hook w = true ->
    local_step w (mkWorld (w_snd w) (rcv_hook rx (w_rcv w)).1 (w_fwd w) (w_back w ++ (rcv_hook rx (w_rcv w)).2)
      (w_made w) false (w_est w))
| lo_start w r :
    rcv_view rx (w_rcv w) = Some r -> rcv_acked rx = true -> w_est w = false -> outSent (rv_pump r) <> [] ->
    local_step w (mkWorld (w_snd w) (rcv_start rx (w_rcv w)).1 (w_fwd w) (w_back w ++ (rcv_start rx (w_rcv w)).2)
      (w_made w) (w_hook w) true).

Lemma local_world w w' : local_step w w' -> world_step w w'.
Proof. destruct 1; [constructor|econstructor; eauto..]. Qed.

(** A system that hosts the stream: its steps include those of the two ends and of
    the connection; a frame of another stream at the head of a wire is handled by
    the end that reads it, which leaves the stream alone but may send frames of
    others.  [h_at c w]: in state [c] of the system the stream is in state [w]. *)
Record Host (C : Type) := mkHost {
  h_step : C -> C -> Prop;
  h_at : C -> world -> Prop;
  h_local c w w' :
    h_at c w -> local_step w w' -> Forall nonnull (w_made w') -> exists c', h_step c c' /\ h_at c' w';
  h_recv c w m rest i :
    h_at c w -> w_fwd w = m :: rest -> item_of d rid m = Some i ->
    exists c', h_step c c' /\ h_at c' (mkWorld (w_snd w) (rcv_frame rx m (w_rcv w)).1 rest (w_back w ++ (rcv_frame rx m (w_rcv w)).2)
      (w_made w) (w_hook w) (w_est w));
  h_credit c w m rest n :
    h_at c w -> w_back w = m :: rest -> credit_of d rid m = Some n ->
    exists c', h_step c c' /\ h_at c' (mkWorld (sd_frame tx m (w_snd w)).1 (w_rcv w) (w_fwd w ++ (sd_frame tx m (w_snd w)).2) rest
      (w_made w) (w_hook w) (w_est w));
  h_pass_fwd c w m rest :
    h_at c w -> w_fwd w = m :: rest -> item_of d rid m = None ->
    exists c' r' o, h_step c c' /\ rcv_view rx r' = rcv_view rx (w_rcv w) /\ omap (credit_of d rid) o = [] /\
      h_at c' (mkWorld (w_snd w) r' rest (w_back w ++ o) (w_made w) (w_hook w) (w_est w));
  h_pass_back c w m rest :
    h_at c w -> w_back w = m :: rest -> credit_of d rid m = None ->
    exists c' s' o, h_step c c' /\ sd_view tx s' = sd_view tx (w_snd w) /\ omap (item_of d rid) o = [] /\
      h_at c' (mkWorld s' (w_rcv w) (w_fwd w ++ o) rest (w_made w) (w_hook w) (w_est w))
}.

(** Nothing is left for the receiver to do. *)
Definition quiescent (w : world) : Prop :=
  w_fwd w = [] /\ w_hook w = false /\
  exists r, rcv_view rx (w_rcv w) = Some r /\
    (pc (rv_pump r) = Finished \/ (pc (rv_pump r) = AtLock /\ run_locked None (rv_pump r) = None)).

Definition pump_load (p : StreamPump (option Value)) : nat :=
  3 * length (live p) + 2 * length (in_hand p) + match pc p with Finished => 0 | _ => 1 end.
Definition load (w : world) : nat :=
  4 * length (w_fwd w) + (if w_hook w then 1 else 0) +
  match rcv_view rx (w_rcv w) with Some r => pump_load (rv_pump r) | None => 0 end.

(** The sender's side of a world. *)
Definition same_sender (w w' : world) : Prop :=
  w_snd w' = w_snd w /\ w_made w' = w_made w /\ w_est w' = w_est w.

Lemma grows_load r r' : grows r r' -> (pump_load (rv_pump r') <= pump_load (rv_pump r) + 3)%nat.
Proof. intros [Hp Hl]. unfold pump_load, in_hand. rewrite Hp. lia. Qed.

Lemma recv_grows n w fl m rest i r :
  sim n w fl -> w_fwd w = m :: rest -> item_of d rid m = Some i -> rcv_view rx (w_rcv w) = Some r ->
  exists r', rcv_view rx (rcv_frame rx m (w_rcv w)).1 = Some r' /\ grows r r'.
Proof.
  intros [Hok _ _ [_ Hnw] (k & g & r0 & _ & _ & _ & Hrv & Hph)] Hfwd Hm Hrv0. rewrite Hrv in Hrv0. injection Hrv0 as ->.
  rewrite Hfwd in Hph. cbn [omap list_omap] in Hph. rewrite Hm in Hph. destruct Hph as [Hph|Hph].
  - destruct (recv_before _ _ _ _ _ _ _ _ (flow_ok_window _ _ Hok) Hph Hrv Hm) as (r' & ? & _ & _ & ?). eauto.
  - destruct (recv_after _ _ _ _ _ _ _ _ Hok Hnw Hph Hrv Hm) as (r' & ? & _ & ? & _ & _ & _ & _ & _ & _ & _ & _ & ?). eauto.
Qed.

Lemma take_load p p' :
  pump_wf None p -> pc p = AtLock -> run_locked None p = Some p' -> (pump_load p' < pump_load p)%nat.
Proof.
  intros Hwf Hpc Hr. unfold pump_load, in_hand.
  destruct (run_locked_spec None p p' Hwf Hpc Hr) as [[-> _]|(v & Hl & Hpc' & _)]; rewrite Hpc.
  - cbn. unfold live. cbn. lia.
  - rewrite Hl, Hpc'. cbn. lia.
Qed.

Lemma hook_view n w fl r :
  sim n w fl -> w_hook w = true -> rcv_view rx (w_rcv w) = Some r ->
  exists r', rcv_view rx (rcv_hook rx (w_rcv w)).1 = Some r' /\ rv_pump r' = rv_pump r.
Proof.
  intros [Hok [Hhk _] _ _ (k & g & r0 & _ & _ & _ & Hrv & Hph)] Hh Hrv0. rewrite Hrv in Hrv0. injection Hrv0 as ->.
  destruct Hph as [(_ & _ & -> & _)|(_ & Hd & Hw & _)]; [by rewrite Hhk in Hh|].
  destruct (rcv_hook_law _ _ _ _ rx (w_rcv w) r Hrv) as [Hv _]; [|by eexists].
  intros c. rewrite Hw, Hd. by apply grant_int64.
Qed.

(** At rest, everything the sender sent has been received. *)
Lemma quiescent_pump n w fl k g :
  sim n w fl -> quiescent w -> sd_view tx (w_snd w) = Some (mkSV k g) -> k <> Unready -> (forall v, k <> Committed v) ->
  wireValues fl = [] /\ hookPending fl = false /\ live (pump fl) = [] /\ in_hand (pump fl) = [] /\
  (k = Done -> exists r, rcv_view rx (w_rcv w) = Some r /\ pc (rv_pump r) = Finished).
Proof.
  intros [Hok [Hhk _] _ _ (k0 & g0 & r & Hsv & _ & _ & Hrv & Hph)] (Hf & Hh & r0 & Hrv0 & Hq) Hsv0 Hk Hc.
  rewrite Hsv in Hsv0. injection Hsv0 as -> ->. rewrite Hrv in Hrv0. injection Hrv0 as <-.
  rewrite Hf in Hph. cbn [omap list_omap app] in Hph. destruct Hok as (Hfi & _).
  destruct (fi_open _ _ Hfi) as (O1 & O2 & _). pose proof (fi_wf _ _ Hfi) as Hwf.
  assert (committed k = []) as Ec by (destruct k; naive_solver).
  destruct Hph as [(_ & _ & _ & Hi)|(_ & _ & _ & Hp & Hi & He)]; [by destruct k|].
  rewrite Ec in Hi. cbn [app] in Hi. symmetry in Hi. apply app_eq_nil in Hi as [Hw Hend]. apply map_eq_nil in Hw.
  assert (pc (pump fl) <> Finished) as Hnf by (intros E; destruct (wf_done _ _ Hwf E) as [|[]]; congruence).
  unfold pump_rel in Hp. destruct (rv_ended r) eqn:Er.
  - destruct Hp as [Hp|(Hp & Hl & Hpc)]; rewrite Hp in Hq; cbn in Hq.
    + destruct Hq as [?|[Hpc Hr]]; [done|]. rewrite run_locked_Close in Hr by done.
      by destruct (run_locked None (pump fl)).
    + unfold in_hand. rewrite Hpc. split_and!; try done; [congruence|]. intros _. exists r. by rewrite Hp.
  - rewrite Hp in Hq. destruct Hq as [?|[Hpc Hr]]; [done|]. split_and!; [done|congruence| |by unfold in_hand; rewrite Hpc|].
    + by apply run_locked_none.
    + intros ->. discriminate.
Qed.

Section hosted.
Context {C : Type} (h : Host C).
Abbreviation step := (h_step _ h).
Abbreviation at_ := (h_at _ h).

Lemma reach_one (c c' : C) : step c c' -> reach step c c'.
Proof. intros Hs. eapply reach_next; [constructor|done]. Qed.

(** A step of the system that is a step of the stream keeps the simulation. *)
Lemma local_sim n w w' fl :
  sim n w fl -> local_step w w' -> Forall nonnull (w_made w') -> exists fl', sim n w' fl'.
Proof. intros Hs Hl Hm. destruct (world_step_sim n w w' fl Hs (local_world _ _ Hl) Hm) as (fl' & _ & ?). eauto. Qed.

Lemma pass_fwd_sim n w fl m rest r' o :
  sim n w fl -> w_fwd w = m :: rest -> item_of d rid m = None -> rcv_view rx r' = rcv_view rx (w_rcv w) -> omap (credit_of d rid) o = [] ->
  sim n (mkWorld (w_snd w) r' rest (w_back w ++ o) (w_made w) (w_hook w) (w_est w)) fl.
Proof.
  intros [? ? Hb ? (k & g & r & Hv & Hg & Hmd & Hrv & Hph)] Hf Hm Hr Ho. split; flow_cbn; try done.
  - by rewrite omap_app, Ho, app_nil_r.
  - rewrite Hf in Hph. cbn [omap list_omap] in Hph. rewrite Hm in Hph. exists k, g, r. split_and!; try done. congruence.
Qed.
Lemma pass_back_sim n w fl m rest s' o :
  sim n w fl -> w_back w = m :: rest -> credit_of d rid m = None -> sd_view tx s' = sd_view tx (w_snd w) -> omap (item_of d rid) o = [] ->
  sim n (mkWorld s' (w_rcv w) (w_fwd w ++ o) rest (w_made w) (w_hook w) (w_est w)) fl.
Proof.
  intros [? ? Hb ? (k & g & r & Hv & Hg & Hmd & Hrv & Hph)] Hf Hm Hr Ho. split; flow_cbn; try done.
  - rewrite <- Hb, Hf. cbn [omap list_omap]. by rewrite Hm.
  - exists k, g, r. rewrite omap_app, Ho, app_nil_r. split_and!; try done. congruence.
Qed.

Lemma receiver_progress n c w fl :
  at_ c w -> sim n w fl ->
  quiescent w \/ exists c' w' fl', step c c' /\ at_ c' w' /\ sim n w' fl' /\ same_sender w w' /\ (load w' < load w)%nat.
Proof.
  intros Hc Hs. pose proof Hs as [_ _ _ [Hnn _] (k & g & r & _ & _ & _ & Hrv & _)].
  destruct (sim_pump _ _ _ _ Hs Hrv) as [Hwf _]. unfold load. rewrite Hrv.
  destruct (w_fwd w) as [|m rest] eqn:Hf.
  2:{ right. destruct (item_of d rid m) as [i|] eqn:Hm.
      - destruct (recv_grows _ _ _ _ _ _ _ Hs Hf Hm Hrv) as (r' & Hrv' & Hgr). apply grows_load in Hgr.
        destruct (h_recv _ h c w m rest i Hc Hf Hm) as (c' & Hst & Hc').
        destruct (world_step_sim n w _ fl Hs (ws_recv w m m rest i Hf ltac:(done) Hm) Hnn) as (fl' & _ & Hs').
        eexists c', _, fl'. do 3 (split; [done|]). flow_cbn. rewrite Hrv'. split; [done|]. cbn [length]. lia.
      - destruct (h_pass_fwd _ h c w m rest Hc Hf Hm) as (c' & r' & o & Hst & Hr' & Ho & Hc').
        eexists c', _, fl. split; [done|]. split; [done|]. split; [by eapply pass_fwd_sim|].
        flow_cbn. rewrite Hr', Hrv. split; [done|]. cbn [length]. lia. }
  assert (forall w', local_step w w' -> w_made w' = w_made w -> same_sender w w' -> (load w' < load w)%nat ->
    exists c' w'' fl', step c c' /\ at_ c' w'' /\ sim n w'' fl' /\ same_sender w w'' /\ (load w'' < load w)%nat) as Hloc.
  { intros w' Hl Hm Hss Hlt. assert (Forall nonnull (w_made w')) as Hn' by congruence.
    destruct (h_local _ h c w w' Hc Hl Hn') as (c' & Hst & Hc'). destruct (local_sim n w w' fl Hs Hl Hn') as [fl' Hs']. by exists c', w', fl'. }
  unfold load in Hloc. rewrite Hrv, Hf in Hloc. destruct (w_hook w) eqn:Hh.
  { right. destruct (hook_view _ _ _ _ Hs Hh Hrv) as (r' & Hrv' & Hp).
    eapply Hloc; [by apply lo_hook|done|done|]. flow_cbn. rewrite Hrv', Hp, Hf. cbn [length]. lia. }
  destruct (pc (rv_pump r)) as [|v|] eqn:Hpc.
  - destruct (run_locked None (rv_pump r)) as [p'|] eqn:Hr; [|left; split_and!; [done..|exists r; auto]].
    right. eapply Hloc; [by eapply lo_take|done|done|]. flow_cbn. rewrite (rcv_take_law _ _ _ _ rx _ _ _ Hrv Hpc Hr), Hf, Hh.
    pose proof (take_load _ _ Hwf Hpc Hr). cbn [length rv_with_pump rv_pump]. lia.
  - right. eapply Hloc; [by eapply lo_deliver|done|done|]. flow_cbn. rewrite (rcv_deliver_law _ _ _ _ rx _ _ _ Hrv Hpc), Hf.
    unfold pump_load, in_hand. cbn [length rv_with_pump rv_pump]. rewrite Hpc. cbn. unfold live. cbn. lia.
  - left. split_and!; [done..|exists r; auto].
Qed.

Lemma settle n c w fl :
  at_ c w -> sim n w fl ->
  exists c' w' fl', reach step c c' /\ at_ c' w' /\ sim n w' fl' /\ same_sender w w' /\ quiescent w'.
Proof.
  remember (load w) as ld eqn:El. revert c w fl El.
  induction ld as [ld IH] using (well_founded_induction lt_wf). intros c w fl -> Hc Hs.
  destruct (receiver_progress n c w fl Hc Hs) as [Hq|(c1 & w1 & fl1 & Hst & Hc1 & Hs1 & (E1 & E2 & E3) & Hlt)].
  - exists c, w, fl. split_and!; try done. constructor.
  - destruct (IH _ Hlt c1 w1 fl1 eq_refl Hc1 Hs1) as (c2 & w2 & fl2 & Hr & Hc2 & Hs2 & (F1 & F2 & F3) & Hq).
    exists c2, w2, fl2. split; [eapply reach_trans; [by apply reach_one|done]|]. do 2 (split; [done|]).
    split; [unfold same_sender; by rewrite F1, F2, F3|exact Hq].
Qed.

(** The sender reads every credit that is on its way. *)
Lemma absorb n c w fl k g :
  at_ c w -> sim n w fl -> sd_view tx (w_snd w) = Some (mkSV k g) ->
  exists c' w' fl' g', reach step c c' /\ at_ c' w' /\ sim n w' fl' /\ sd_view tx (w_snd w') = Some (mkSV k g') /\ w_back w' = [] /\
    w_made w' = w_made w /\ w_est w' = w_est w /\ w_hook w' = w_hook w /\
    pump fl' = pump fl /\ recvDelivered fl' = recvDelivered fl /\ wireValues fl' = wireValues fl.
Proof.
  remember (w_back w) as b eqn:Eb. revert c w fl g Eb. induction b as [|m rest IH]; intros c w fl g Eb Hc Hs Hv.
  { exists c, w, fl, g. split_and!; try done. constructor. }
  symmetry in Eb. destruct (credit_of d rid m) as [x|] eqn:Hm.
  - destruct (sim_credit n w m m rest x fl Hs Eb ltac:(done) Hm) as (fl1 & _ & Hs1 & _ & _ & Ed & Ep & Ew).
    destruct (sd_credit_law _ _ _ tx m x (w_snd w) k g Hv Hm) as (g1 & Hv1 & _).
    destruct (h_credit _ h c w m rest x Hc Eb Hm) as (c1 & Hst1 & Hc1).
    destruct (IH c1 (mkWorld _ _ _ rest _ _ _) fl1 g1 eq_refl Hc1 Hs1 Hv1) as (c2 & w2 & fl2 & g2 & Hr & Hc2 & Hs2 & Hv2 & Hb & Hm2 & He & Hh & Hp & Hd & Hw).
    exists c2, w2, fl2, g2. split_and!; try done; try congruence. eapply reach_trans; [by apply reach_one|done].
  - destruct (h_pass_back _ h c w m rest Hc Eb Hm) as (c1 & s1 & o & Hst1 & Es & Ho & Hc1).
    pose proof (pass_back_sim n w fl m rest s1 o Hs Eb Hm Es Ho) as Hs1.
    destruct (IH c1 (mkWorld _ _ _ rest _ _ _) fl g eq_refl Hc1 Hs1) as (c2 & w2 & fl2 & g2 & Hr & Hx); [cbn; congruence|].
    exists c2, w2, fl2, g2. split; [|exact Hx]. eapply reach_trans; [by apply reach_one|done].
Qed.

(** A sender that waits for a credit can get one. *)
Lemma unblock n c w fl v g :
  at_ c w -> sim n w fl -> sd_view tx (w_snd w) = Some (mkSV (Holding v) g) -> w_est w = true ->
  exists c' w' fl' g' g'', reach step c c' /\ at_ c' w' /\ sim n w' fl' /\ sd_view tx (w_snd w') = Some (mkSV (Holding v) g') /\
    Acquire g' = Some (true, g'') /\ w_made w' = w_made w /\ w_est w' = true.
Proof.
  intros Hc0 Hs Hv He. destruct (settle n c w fl Hc0 Hs) as (c1 & w1 & fl1 & Hr1 & Hc1 & Hs1 & (E1 & E2 & E3) & Hq).
  rewrite <- E1 in Hv.
  destruct (quiescent_pump n w1 fl1 _ _ Hs1 Hq Hv ltac:(done) ltac:(done)) as (Hw & Hh & Hl & Hi & _).
  destruct (absorb n c1 w1 fl1 _ _ Hc1 Hs1 Hv) as (c2 & w2 & fl2 & g2 & Hr2 & Hc2 & Hs2 & Hv2 & Hb & Hm2 & He2 & Hh2 & Hp & Hd & Hw2).
  pose proof Hs2 as [Hok [Hk2 Hes2] Hc _ (k & g3 & r & Hv3 & Hg & _)]. rewrite Hv2 in Hv3. injection Hv3 as <- <-.
  specialize (Hg ltac:(done)). rewrite Hb in Hc. cbn in Hc. destruct Hok as (Hfi & _ & Hfw & _).
  pose proof Hs1 as [_ [Hk1 _] _ _ _].
  pose proof (fi_conserve _ _ Hfi) as Hcons. pose proof (fi_delivered _ _ Hfi). pose proof (fi_window _ _ Hfi).
  pose proof (batchOf_bounds (window fl2) ltac:(lia)). destruct (fi_gate _ _ Hfi) as [Hcl _].
  rewrite <- Hc, Hp, Hw2, Hw, Hl, Hi, <- Hk2, Hh2, Hk1, Hh, <- Hes2, He2, E3, He in Hcons.
  unfold zsum, zlen, b2z in Hcons. cbn in Hcons.
  exists c2, w2, fl2, g2, (mkGate (wrap64 (credit g2 - 1)) (closed g2)). split_and!; try done; try congruence.
  - by eapply reach_trans.
  - rewrite Hg. unfold Acquire. rewrite Hcl, (proj2 (Z.leb_gt _ _)) by lia. done.
Qed.

Lemma act_view n c w fl x k g :
  at_ c w -> sim n w fl -> sd_view tx (w_snd w) = Some (mkSV k g) -> (forall v, x = Some v -> nonnull v) ->
  exists c' w' fl' sv' out, reach step c c' /\ at_ c' w' /\ sim n w' fl' /\ sd_view tx (w_snd w') = Some sv' /\
    sender_acts acked (mkSV k g) x sv' out /\ w_made w' = w_made w ++ taken_at k x /\ w_est w' = w_est w.
Proof.
  intros Hc Hs Hv Hx. destruct (sd_act_law _ _ _ tx x (w_snd w) _ Hv) as (sv' & Hv' & Ha & _). rewrite same_ack in Ha.
  assert (taken (w_snd w) x = taken_at k x) as Etk by (unfold taken; by rewrite Hv).
  assert (Forall nonnull (w_made w ++ taken (w_snd w) x)) as Hnn.
  { rewrite Etk. apply Forall_app. split; [apply (sim_nonnull _ _ _ Hs)|]. destruct k, x; try constructor; auto. }
  destruct (local_sim n w _ fl Hs (lo_act w x) Hnn) as [fl' Hs']. destruct (h_local _ h c w _ Hc (lo_act w x) Hnn) as (c' & Hst & Hc').
  eexists c', _, fl', sv', _. split; [by apply reach_one|]. split; [exact Hc'|]. split; [exact Hs'|]. flow_cbn.
  rewrite Etk. by split_and!.
Qed.

(** The window is granted, if it was not. *)
Lemma establish n c w fl k g :
  at_ c w -> sim n w fl -> sd_view tx (w_snd w) = Some (mkSV k g) -> k <> Unready -> (forall v, k <> Committed v) ->
  exists c' w' fl', reach step c c' /\ at_ c' w' /\ sim n w' fl' /\ sd_view tx (w_snd w') = Some (mkSV k g) /\
    w_made w' = w_made w /\ w_est w' = true.
Proof.
  intros Hc0 Hs Hv Hk Hc. destruct (w_est w) eqn:He.
  { exists c, w, fl. split_and!; try done. constructor. }
  destruct (settle n c w fl Hc0 Hs) as (c1 & w1 & fl1 & Hr1 & Hc1 & Hs1 & (E1 & E2 & E3) & Hq). rewrite <- E1 in Hv.
  destruct (quiescent_pump n w1 fl1 _ _ Hs1 Hq Hv Hk Hc) as (Hw & Hh & Hl & Hi & _).
  pose proof Hs1 as [(Hfi & Hfo & _ & Hresp) [_ Hes] _ [Hnn _] (k0 & g0 & r & Hv0 & _ & _ & Hrv & Hph)].
  assert (acked = true) as Ha by (destruct acked; [done|]; specialize (Hresp eq_refl); congruence).
  rewrite Hv in Hv0. injection Hv0 as <- <-.
  destruct Hq as (Hf & _). rewrite Hf in Hph.
  destruct Hph as [(_ & _ & _ & Hit)|(_ & _ & _ & Hp & _)].
  { destruct k; cbn in Hit; try discriminate; try done. by destruct (Hc v). }
  assert (outSent (rv_pump r) <> []) as Ho.
  { rewrite (pump_rel_outSent _ _ Hp). intros E. unfold flow_order in Hfo.
    rewrite Hw, Hl, Hi, E in Hfo. unfold ack_prefix in Hfo. by rewrite Ha in Hfo. }
  pose proof (lo_start w1 r Hrv Ha ltac:(congruence) Ho) as Hst.
  destruct (local_sim n w1 _ fl1 Hs1 Hst Hnn) as [fl2 Hs2]. destruct (h_local _ h c1 w1 _ Hc1 Hst Hnn) as (c2 & Hst2 & Hc2).
  eexists c2, _, fl2. split; [by eapply reach_next; [exact Hr1|]|]. by split_and!.
Qed.

(** The sender can get back to its channel, with everything it took sent. *)
Definition can_idle (n : Z) (c : C) (made : list (option Value)) : Prop :=
  exists c' w' fl' g', reach step c c' /\ at_ c' w' /\ sim n w' fl' /\ sd_view tx (w_snd w') = Some (mkSV Idle g') /\ w_made w' = made.

Lemma can_idle_trans n c c1 made : reach step c c1 -> can_idle n c1 made -> can_idle n c made.
Proof. intros Hr (c' & w' & fl' & g' & Hr' & Hx). exists c', w', fl', g'. split; [by eapply reach_trans|done]. Qed.

Lemma act_idle n c w fl k g :
  at_ c w -> sim n w fl -> sd_view tx (w_snd w) = Some (mkSV k g) -> k = Unready \/ (exists v, k = Committed v) -> can_idle n c (w_made w).
Proof.
  intros Hc Hs Hv Hk. destruct (act_view n c w fl None _ _ Hc Hs Hv ltac:(done)) as (c1 & w1 & fl1 & sv1 & o & Hr & Hc1 & Hs1 & Hv1 & Ha & Hm & _).
  exists c1, w1, fl1, (sv_gate sv1). destruct Hk as [->|[v ->]]; inv Ha; cbn in Hm; rewrite app_nil_r in Hm; by split_and!.
Qed.

Lemma hold_idle n c w fl v g : at_ c w -> sim n w fl -> sd_view tx (w_snd w) = Some (mkSV (Holding v) g) -> can_idle n c (w_made w).
Proof.
  intros Hc Hs Hv. destruct (establish n c w fl _ _ Hc Hs Hv ltac:(done) ltac:(done)) as (c1 & w1 & fl1 & Hr1 & Hc1 & Hs1 & Hv1 & Hm1 & He1).
  destruct (unblock n c1 w1 fl1 v g Hc1 Hs1 Hv1 He1) as (c2 & w2 & fl2 & g2 & g2' & Hr2 & Hc2 & Hs2 & Hv2 & Hacq & Hm2 & _).
  destruct (act_view n c2 w2 fl2 None _ _ Hc2 Hs2 Hv2 ltac:(done)) as (c3 & w3 & fl3 & sv3 & o & Hr3 & Hc3 & Hs3 & Hv3 & Ha & Hm3 & _).
  cbn in Hm3. rewrite app_nil_r in Hm3. replace (w_made w) with (w_made w3) by congruence.
  apply (can_idle_trans n c c3); [eapply reach_trans; [exact Hr1|]; by eapply reach_trans|].
  inv Ha.
  - by eapply act_idle; eauto.
  - eexists c3, w3, fl3, _. split_and!; try done. constructor.
Qed.

Lemma to_idle n c w fl k g :
  at_ c w -> sim n w fl -> sd_view tx (w_snd w) = Some (mkSV k g) -> k <> Closing -> k <> Done -> can_idle n c (w_made w).
Proof.
  intros Hc Hs Hv Hk1 Hk2. destruct k as [| |v|v| |]; try done.
  - eapply act_idle; eauto.
  - exists c, w, fl, g. split_and!; try done. constructor.
  - by eapply hold_idle.
  - eapply act_idle; eauto.
Qed.

(** The producer's channel closes and everything is delivered: [made] was handed
    over before, [vs] comes on top. *)
Definition can_complete (c : C) (made vs : list (option Value)) : Prop :=
  exists c' w' g r, reach step c c' /\ at_ c' w' /\ sd_view tx (w_snd w') = Some (mkSV Done g) /\
    rcv_view rx (w_rcv w') = Some r /\ pc (rv_pump r) = Finished /\ w_made w' = made ++ vs /\
    outSent (rv_pump r) = ack_prefix ++ made ++ vs.

Lemma can_complete_trans c c1 made vs vs' :
  reach step c c1 -> can_complete c1 (made ++ vs) vs' -> can_complete c made (vs ++ vs').
Proof.
  intros Hr (c' & w' & g & r & Hr' & Hx). exists c', w', g, r. rewrite <- !app_assoc in Hx. split; [by eapply reach_trans|done].
Qed.

Lemma done_completes n c w fl g :
  at_ c w -> sim n w fl -> sd_view tx (w_snd w) = Some (mkSV Done g) -> can_complete c (w_made w) [].
Proof.
  intros Hc Hs Hv. destruct (settle n c w fl Hc Hs) as (c1 & w1 & fl1 & Hr1 & Hc1 & Hs1 & (E1 & E2 & E3) & Hq). rewrite <- E1 in Hv.
  destruct (quiescent_pump n w1 fl1 _ _ Hs1 Hq Hv ltac:(done) ltac:(done)) as (_ & _ & _ & _ & Hd).
  destruct (Hd eq_refl) as (r & Hrv & Hf).
  destruct (sim_exact n w1 fl1 _ _ r Hs1 Hv Hrv) as [_ _ _ Hfin]. destruct (Hfin Hf) as [_ Ho].
  exists c1, w1, g, r. rewrite app_nil_r. rewrite E2 in *. by split_and!.
Qed.

Lemma close_completes n c w fl k g :
  at_ c w -> sim n w fl -> sd_view tx (w_snd w) = Some (mkSV k g) -> k = Idle \/ k = Closing -> can_complete c (w_made w) [].
Proof.
  intros Hc Hs Hv Hk. destruct (act_view n c w fl None _ _ Hc Hs Hv ltac:(done)) as (c1 & w1 & fl1 & sv1 & o & Hr1 & Hc1 & Hs1 & Hv1 & Ha & Hm1 & _).
  assert (w_made w1 = w_made w ++ []) as Hm1' by (destruct Hk as [->| ->]; exact Hm1).
  apply (can_complete_trans c c1 _ [] []); [done|]. rewrite <- Hm1'.
  destruct Hk as [->| ->]; inv Ha; [|by eapply done_completes|by eapply done_completes].
  destruct (act_view n c1 w1 fl1 None _ _ Hc1 Hs1 Hv1 ltac:(done)) as (c2 & w2 & fl2 & sv2 & o2 & Hr2 & Hc2 & Hs2 & Hv2 & Ha2 & Hm2 & _).
  apply (can_complete_trans c1 c2 _ [] []); [done|]. cbn in Hm2. rewrite <- Hm2. inv Ha2. by eapply done_completes.
Qed.

Lemma all_complete n vs c w fl k g :
  Forall nonnull vs -> at_ c w -> sim n w fl -> sd_view tx (w_snd w) = Some (mkSV k g) -> k <> Closing -> k <> Done ->
  can_complete c (w_made w) vs.
Proof.
  intros Hvs. revert c w fl k g. induction Hvs as [|v vs Hv0 Hvs IH]; intros c w fl k g Hc Hs Hv Hk1 Hk2;
    destruct (to_idle n c w fl k g Hc Hs Hv Hk1 Hk2) as (c1 & w1 & fl1 & g1 & Hr1 & Hc1 & Hs1 & Hv1 & Hm1); rewrite <- Hm1.
  - apply (can_complete_trans c c1 _ [] []); [done|]. rewrite app_nil_r. by eapply close_completes; eauto.
  - destruct (act_view n c1 w1 fl1 (Some v) _ _ Hc1 Hs1 Hv1) as (c2 & w2 & fl2 & sv2 & o2 & Hr2 & Hc2 & Hs2 & Hv2 & Ha2 & Hm2 & _).
    { by intros ? [= <-]. }
    apply (can_complete_trans c c1 _ [] (v :: vs)); [done|]. rewrite app_nil_r.
    apply (can_complete_trans c1 c2 _ [v] vs); [done|]. cbn in Hm2. rewrite <- Hm2. inv Ha2. by eapply (IH c2 w2 fl2).
Qed.

(** From every state of the stream, whatever else the system carries. *)
Lemma hosted_live n c w fl k g vs :
  at_ c w -> sim n w fl -> sd_view tx (w_snd w) = Some (mkSV k g) -> Forall nonnull vs -> (k = Closing \/ k = Done -> vs = []) ->
  can_complete c (w_made w) vs.
Proof.
  intros Hc Hs Hv Hvs Hk. destruct k; try (by eapply all_complete; [..|exact Hs|exact Hv| |]).
  - rewrite (Hk (or_introl eq_refl)). eapply close_completes; [exact Hc|exact Hs|exact Hv|auto].
  - rewrite (Hk (or_intror eq_refl)). by eapply done_completes.
Qed.

End hosted.

(** The stream alone hosts itself: foreign frames are dropped. *)
Definition alone : Host world.
Proof.
  refine (mkHost world world_step eq _ _ _ _ _).
  - intros c w w' <- Hl _. exists w'. split; [by apply local_world|done].
  - intros c w m rest i <- Hf Hm. eexists. split; [by eapply (ws_recv c m m rest)|done].
  - intros c w m rest n <- Hf Hm. eexists. split; [by eapply (ws_credit c m m rest)|done].
  - intros c w m rest <- Hf Hm. eexists _, (w_rcv c), []. rewrite app_nil_r. split; [by eapply (ws_fwd_other c m rest)|done].
  - intros c w m rest <- Hf Hm. eexists _, (w_snd c), []. rewrite app_nil_r. split; [by eapply (ws_back_other c m rest)|done].
Defined.

(** The producer's channel closes and everything is delivered. *)
Definition completes (w : world) (vs : list (option Value)) : Prop :=
  exists w' g r, reach world_step w w' /\ sd_view tx (w_snd w') = Some (mkSV Done g) /\
    rcv_view rx (w_rcv w') = Some r /\ pc (rv_pump r) = Finished /\ w_made w' = w_made w ++ vs /\
    outSent (rv_pump r) = ack_prefix ++ w_made w ++ vs.

(** ** The two guarantees *)

Lemma stream_safe n w0 w :
  0 < n < two63 -> opened n w0 -> reach world_step w0 w -> Forall nonnull (w_made w) ->
  exists k g r, sd_view tx (w_snd w) = Some (mkSV k g) /\ rcv_view rx (w_rcv w) = Some r /\ exact n w k r.
Proof.
  intros Hn Ho Hr Hnn. destruct (reach_sim n w0 w Hn Ho Hr Hnn) as [fl Hs].
  pose proof Hs as [_ _ _ _ (k & g & r & Hsv & _ & _ & Hrv & _)]. exists k, g, r.
  split_and!; [done|done|]. by eapply sim_exact.
Qed.

Lemma stream_live n w0 w vs k g :
  0 < n < two63 -> opened n w0 -> reach world_step w0 w -> Forall nonnull (w_made w) -> Forall nonnull vs ->
  sd_view tx (w_snd w) = Some (mkSV k g) -> (k = Closing \/ k = Done -> vs = []) -> completes w vs.
Proof.
  intros Hn Ho Hr Hnn Hvs Hv Hk. destruct (reach_sim n w0 w Hn Ho Hr Hnn) as [fl Hs].
  destruct (hosted_live alone n w w fl k g vs eq_refl Hs Hv Hvs Hk) as (c' & w' & g' & r & Hre & <- & Hx). by exists c', g', r.
Qed.

Lemma stream_in_order n w0 w :
  0 < n < two63 -> opened n w0 -> reach world_step w0 w -> Forall nonnull (w_made w) -> in_order w.
Proof. intros Hn Ho Hr Hnn. destruct (reach_sim n w0 w Hn Ho Hr Hnn) as [fl Hs]. by eapply sim_in_order. Qed.

(** What they add to the wires. *)
Lemma local_wires w w' :
  in_order w -> local_step w w' ->
  exists o1 o2, w_fwd w' = w_fwd w ++ o1 /\ w_back w' = w_back w ++ o2 /\
    all_parsed (item_of d rid) o1 /\ all_parsed (credit_of d rid) o2.
Proof.
  intros [Ha Hh Hs _ _] Hl. destruct Hl as [w x|w r p'|w r v|w|w r]; cbn.
  - exists (sd_act tx x (w_snd w)).2, []. rewrite app_nil_r. by split_and!.
  - exists [], []. by rewrite !app_nil_r.
  - exists [], []. by rewrite !app_nil_r.
  - exists [], (rcv_hook rx (w_rcv w)).2. rewrite app_nil_r. split_and!; auto. done.
  - exists [], (rcv_start rx (w_rcv w)).2. rewrite app_nil_r. split_and!; eauto. done.
Qed.

(** ** Null values

    The receivers ignore a null value; the credit it cost is never returned. *)

(** Nothing of the stream is in transit, the receiver's pump is empty. *)
Record at_rest (r : rview) (w : world) : Prop := {
  ar_rcv : rcv_view rx (w_rcv w) = Some r;
  ar_open : rv_ended r = false /\ overflow (rv_pump r) = false;
  ar_pump : pc (rv_pump r) = AtLock /\ run_locked None (rv_pump r) = None;
  ar_fwd : omap (item_of d rid) (w_fwd w) = [];
  ar_back : omap (credit_of d rid) (w_back w) = [];
  ar_ghost : w_hook w = false /\ w_est w = true
}.

(** At rest and with a sender that waits for a credit. *)
Definition starved (v : option Value) (r : rview) (w : world) : Prop :=
  at_rest r w /\ exists g, sd_view tx (w_snd w) = Some (mkSV (Holding v) g) /\ Acquire g = None.

Lemma omap_cons_nil {A B} (f : A -> option B) x l : omap f (x :: l) = [] -> f x = None /\ omap f l = [].
Proof. cbn. by destruct (f x). Qed.

Lemma starved_step v r w w' : starved v r w -> world_step w w' -> starved v r w' /\ w_made w' = w_made w.
Proof.
  intros [[Hr Ho [Hpc Hl] Hf Hb [Hh He]] (g & Hv & Ha)] Hst.
  inv Hst; cbn [w_snd w_rcv w_fwd w_back w_made w_hook w_est] in *; try congruence.
  - destruct (sd_act_law _ _ _ tx x (w_snd w) _ Hv) as (sv' & Hv' & Hact & _).
    assert (taken (w_snd w) x = []) as -> by (unfold taken; by rewrite Hv). rewrite app_nil_r.
    inv Hact; try congruence. split; [|done]. split; [|by eexists]. split; cbn; try done. rewrite omap_app, Hf. cbn [app]. congruence.
  - match goal with E : w_fwd w = _ |- _ => rewrite E in Hf; destruct (omap_cons_nil _ _ _ Hf) as [? _]; congruence end.
  - match goal with E : w_back w = _ |- _ => rewrite E in Hb; destruct (omap_cons_nil _ _ _ Hb) as [? _]; congruence end.
  - split; [|done]. split; [|exists g; cbn; split; congruence]. split; cbn; try done. rewrite omap_app, Hf. cbn [app]. congruence.
  - split; [|done]. split; [|by exists g]. split; cbn; try done; [congruence|]. rewrite omap_app, Hb. cbn [app]. congruence.
  - match goal with E : w_fwd w = _ |- _ => rewrite E in Hf; destruct (omap_cons_nil _ _ _ Hf) as [_ ?] end.
    split; [|done]. split; [|by exists g]. by split.
  - match goal with E : w_back w = _ |- _ => rewrite E in Hb; destruct (omap_cons_nil _ _ _ Hb) as [_ ?] end.
    split; [|done]. split; [|by exists g]. by split.
Qed.

Lemma starved_forever v r w w' : starved v r w -> reach world_step w w' -> starved v r w' /\ w_made w' = w_made w.
Proof.
  intros Hs Hr. induction Hr as [|a b Hr [IH E] Hst]; [done|]. destruct (starved_step v r a b IH Hst). split; [done|congruence].
Qed.

(** A null in transit is read and forgotten. *)
Lemma drop_null r w :
  rcv_view rx (w_rcv w) = Some r -> rv_ended r = false -> overflow (rv_pump r) = false ->
  omap (item_of d rid) (w_fwd w) = [INull] ->
  exists w', reach world_step w w' /\ w_snd w' = w_snd w /\ rcv_view rx (w_rcv w') = Some r /\
    omap (item_of d rid) (w_fwd w') = [] /\ omap (credit_of d rid) (w_back w') = omap (credit_of d rid) (w_back w) /\
    w_made w' = w_made w /\ w_hook w' = w_hook w /\ w_est w' = w_est w.
Proof.
  remember (w_fwd w) as l eqn:El. revert w El. induction l as [|m rest IH]; intros w El Hr He Ho Hf; [done|].
  symmetry in El. cbn [omap list_omap] in Hf. destruct (item_of d rid m) as [i|] eqn:Hm.
  - injection Hf as -> Hrest. destruct (rcv_null_law _ _ _ _ rx m _ _ Hr He Ho Hm) as [Hr' Hc].
    eexists. split; [eapply reach_next; [constructor|]; by eapply (ws_recv w m m rest)|]. cbn. rewrite omap_app, Hc, app_nil_r. by split_and!.
  - destruct (IH (mkWorld (w_snd w) (w_rcv w) rest (w_back w) (w_made w) (w_hook w) (w_est w)) eq_refl Hr He Ho Hf)
      as (w' & Hre & Hx). exists w'. split; [|exact Hx].
    eapply reach_trans; [|exact Hre]. eapply reach_next; [constructor|]. by eapply (ws_fwd_other w m rest).
Qed.

(** One action of the sender in a world at rest. *)
Lemma rest_act r w k g x :
  at_rest r w -> sd_view tx (w_snd w) = Some (mkSV k g) ->
  exists w' sv' out, world_step w w' /\ sender_acts acked (mkSV k g) x sv' out /\ sd_view tx (w_snd w') = Some sv' /\
    w_rcv w' = w_rcv w /\ omap (item_of d rid) (w_fwd w') = out /\ w_back w' = w_back w /\ w_made w' = w_made w ++ taken_at k x /\
    w_hook w' = w_hook w /\ w_est w' = w_est w.
Proof.
  intros [] Hv. destruct (sd_act_law _ _ _ tx x (w_snd w) _ Hv) as (sv' & Hv' & Ha & _). rewrite same_ack in Ha.
  eexists _, sv', _. split; [apply (ws_act w x)|]. split; [exact Ha|]. cbn. rewrite omap_app, ar_fwd0. split_and!; try done.
  unfold taken. by rewrite Hv.
Qed.

Lemma at_rest_same r w w' :
  at_rest r w -> w_rcv w' = w_rcv w -> omap (item_of d rid) (w_fwd w') = [] -> w_back w' = w_back w ->
  w_hook w' = w_hook w -> w_est w' = w_est w -> at_rest r w'.
Proof. intros [] E1 E2 E3 E4 E5. split; rewrite ?E1, ?E3, ?E4, ?E5; done. Qed.

Definition idle_with (c : Z) (w : world) : Prop :=
  exists g, sd_view tx (w_snd w) = Some (mkSV Idle g) /\ closed g = false /\ credit g = c.

Lemma take_rest r w c v :
  at_rest r w -> idle_with c w ->
  exists w' g, reach world_step w w' /\ at_rest r w' /\ sd_view tx (w_snd w') = Some (mkSV (Holding v) g) /\
    closed g = false /\ credit g = c /\ w_made w' = w_made w ++ [v].
Proof.
  intros Hr (g & Hv & Hc & Hg). destruct (rest_act r w _ _ (Some v) Hr Hv) as (w' & sv' & out & Hst & Ha & Hv' & E1 & E2 & E3 & E4 & E5 & E6).
  inv Ha. exists w', g. split_and!; try done; [by eapply reach_next; [constructor|]|by eapply at_rest_same].
Qed.

Lemma null_round r w c :
  at_rest r w -> idle_with c w -> 0 < c < two63 ->
  exists w', reach world_step w w' /\ at_rest r w' /\ idle_with (c - 1) w' /\ w_made w' = w_made w ++ [None].
Proof.
  intros Hr Hi Hc. destruct (take_rest r w c None Hr Hi) as (w1 & g & Hr1 & Hr1' & Hv1 & Hcl & Hg & Hm1).
  destruct (rest_act r w1 _ _ None Hr1' Hv1) as (w2 & sv2 & out & Hst2 & Ha & Hv2 & E1 & E2 & E3 & E4 & E5 & E6).
  cbn [taken_at] in E4. rewrite app_nil_r in E4.
  assert (forall g', Acquire g = Some (true, g') -> closed g' = false /\ credit g' = c - 1) as Hacq.
  { intros g'. unfold Acquire. rewrite Hcl, (proj2 (Z.leb_gt _ _)) by lia. cbn. intros [= <-]. cbn. split; [done|].
    rewrite wrap64_id, Hg; [done|unfold in_int64, two63 in *; lia]. }
  assert (Acquire g <> None) as Hne by (unfold Acquire; rewrite Hcl, (proj2 (Z.leb_gt _ _)) by lia; done).
  (* the frame leaves, at once or with the next action *)
  assert (exists w3 g', reach world_step w2 w3 /\ sd_view tx (w_snd w3) = Some (mkSV Idle g') /\ closed g' = false /\ credit g' = c - 1 /\
    w_rcv w3 = w_rcv w2 /\ omap (item_of d rid) (w_fwd w3) = [INull] /\ w_back w3 = w_back w2 /\ w_made w3 = w_made w2 /\
    w_hook w3 = w_hook w2 /\ w_est w3 = w_est w2) as (w3 & g' & Hr3 & Hv3 & Hcl3 & Hg3 & F1 & F2 & F3 & F4 & F5 & F6).
  { inv Ha; try done.
    - assert (at_rest r w2) as Hr2 by by eapply at_rest_same.
      destruct (rest_act r w2 _ _ None Hr2 Hv2) as (w3 & sv3 & out3 & Hst3 & Ha3 & Hv3 & F1 & F2 & F3 & F4 & F5 & F6).
      cbn [taken_at] in F4. rewrite app_nil_r in F4. inv Ha3.
      destruct (Hacq _ ltac:(eassumption)). eexists w3, _. split; [by eapply reach_next; [constructor|]|]. by split_and!.
    - destruct (Hacq _ ltac:(eassumption)). eexists w2, _. split; [constructor|]. by split_and!. }
  destruct Hr1' as [A1 [A2 A3] A4 A5 A6 A7].
  destruct (drop_null r w3) as (w4 & Hr4 & G1 & G2 & G3 & G4 & G5 & G6 & G7); [congruence|done..|].
  exists w4. split_and!.
  - eapply reach_trans; [exact Hr1|]. eapply reach_trans; [by eapply reach_next; [constructor|]|]. by eapply reach_trans.
  - split; try done; [congruence|]. rewrite G6, G7. rewrite F5, F6, E5, E6. done.
  - exists g'. rewrite G1. by split_and!.
  - congruence.
Qed.

Lemma null_rounds r w (c : nat) :
  at_rest r w -> idle_with (Z.of_nat c) w -> Z.of_nat c < two63 ->
  exists w', reach world_step w w' /\ at_rest r w' /\ idle_with 0 w' /\ w_made w' = w_made w ++ replicate c None.
Proof.
  revert w. induction c as [|c IH]; intros w Hr Hi Hc.
  - exists w. cbn. rewrite app_nil_r. split_and!; try done. constructor.
  - destruct (null_round r w _ Hr Hi) as (w1 & Hr1 & Ha1 & Hi1 & Hm1); [lia|].
    destruct (IH w1) as (w2 & Hr2 & Ha2 & Hi2 & Hm2); [done|by replace (Z.of_nat c) with (Z.of_nat (Datatypes.S c) - 1) by lia|lia|].
    exists w2. split_and!; [by eapply reach_trans|done|done|]. rewrite Hm2, Hm1, <- app_assoc. done.
Qed.

(** The stream comes to rest with its window granted. *)
Lemma comes_to_rest n w0 :
  0 < n < two63 -> opened n w0 ->
  exists w r c, reach world_step w0 w /\ at_rest r w /\ idle_with (Z.of_nat c) w /\ Z.of_nat c <= n /\ w_made w = [] /\
    outSent (rv_pump r) = ack_prefix.
Proof.
  intros Hn Ho. destruct (op_ghost _ _ Ho) as (Hm0 & _ & _).
  destruct (reach_sim n w0 w0 Hn Ho) as [fl0 Hs0]; [constructor|by rewrite Hm0|].
  destruct (to_idle alone n w0 w0 fl0 _ _ eq_refl Hs0 (op_snd _ _ Ho) ltac:(done) ltac:(done)) as (c1 & w1 & fl1 & g1 & Hr1 & -> & Hs1 & Hv1 & Hm1).
  destruct (establish alone n _ _ fl1 _ _ eq_refl Hs1 Hv1 ltac:(done) ltac:(done)) as (c2 & w2 & fl2 & Hr2 & -> & Hs2 & Hv2 & Hm2 & He2).
  destruct (settle alone n _ _ fl2 eq_refl Hs2) as (c3 & w3 & fl3 & Hr3 & -> & Hs3 & (E1 & E2 & E3) & Hq). rewrite <- E1 in Hv2.
  destruct (quiescent_pump n w3 fl3 _ _ Hs3 Hq Hv2 ltac:(done) ltac:(done)) as (Hw & Hh & Hl & Hi & _).
  destruct (absorb alone n _ w3 fl3 _ _ eq_refl Hs3 Hv2) as (c4 & w4 & fl4 & g4 & Hr4 & -> & Hs4 & Hv4 & Hb & Hm4 & He4 & Hh4 & Hp & Hd & Hw4).
  pose proof Hs4 as [(Hfi & Hfo & Hfw & _) [Hk4 Hes4] Hc4 _ (k & g & r & Hv & Hg & Hmade & Hrv & Hph)].
  rewrite Hv4 in Hv. injection Hv as <- <-. specialize (Hg ltac:(done)).
  assert (w_made w4 = []) as Hmn by congruence. assert (established fl4 = true) as Hest by congruence.
  pose proof Hs3 as [_ [Hk3 _] _ _ _].
  assert (hookPending fl4 = false) as Hhp by congruence.
  destruct Hph as [(_ & _ & -> & _)|(_ & Hdl & Hwn & Hpr & Hit & Hend)]; [done|].
  assert (rv_ended r = false) as Hne by (destruct (rv_ended r); [by destruct (Hend eq_refl)|done]).
  unfold pump_rel in Hpr. rewrite Hne in Hpr.
  destruct (fi_open _ _ Hfi) as (O1 & O2 & O3). pose proof (fi_wf _ _ Hfi) as Hwf. destruct (fi_gate _ _ Hfi) as [Hcl Hge].
  rewrite Hp, Hw4 in *. rewrite Hw in *.
  assert (pc (pump fl3) = AtLock) as Hpc.
  { unfold in_hand in Hi. destruct (pc (pump fl3)) eqn:Epc; [done|done|]. destruct (wf_done _ _ Hwf Epc) as [|[]]; congruence. }
  assert (run_locked None (pump fl3) = None) as Hrl.
  { unfold run_locked. rewrite O1, O2. rewrite bool_decide_true; [done|]. by apply (pending_zero None _ Hwf). }
  pose proof (fi_conserve _ _ Hfi) as Hcons. pose proof (fi_delivered _ _ Hfi). pose proof (fi_ack _ _ Hfi) as Hack.
  rewrite Hp, Hw4, Hl, Hi, Hhp, Hest, <- Hc4, Hb, Hfw in Hcons. unfold zsum, zlen, b2z in Hcons. cbn in Hcons.
  assert (recvDelivered fl4 <> -1) as Hnd by (intros E; rewrite (Hack E (or_introl Hest)) in Hhp; done).
  exists w4, r, (Z.to_nat (credit g4)).
  split; [eapply reach_trans; [exact Hr1|]; eapply reach_trans; [exact Hr2|]; by eapply reach_trans|].
  split; [split; try done; try congruence|].
  - split; congruence.
  - rewrite Hpr. by split.
  - cbn in Hit. by apply app_eq_nil in Hit as [? _].
  - by rewrite Hb.
  - split; congruence.
  - split; [exists g4; split_and!; [done|congruence|rewrite Z2Nat.id; congruence]|].
    split; [rewrite Hg, Z2Nat.id by done; lia|]. split; [done|].
    unfold flow_order in Hfo. rewrite Hp, Hw4, Hl, Hi, !app_nil_r in Hfo. rewrite Hpr, Hfo.
    rewrite Hmn in Hmade. symmetry in Hmade. apply app_eq_nil in Hmade as [-> _]. by rewrite app_nil_r.
Qed.

(** As many nil values as the window allows, and the sender waits for ever with
    the next value, while the receiver has nothing to read. *)
Lemma nulls_starve n w0 v :
  0 < n < two63 -> opened n w0 ->
  exists w r c, reach world_step w0 w /\ Z.of_nat c <= n /\ w_made w = replicate c None ++ [v] /\
    outSent (rv_pump r) = ack_prefix /\
    forall w', reach world_step w w' -> starved v r w' /\ w_made w' = w_made w.
Proof.
  intros Hn Ho. destruct (comes_to_rest n w0 Hn Ho) as (w1 & r & c & Hr1 & Ha1 & Hi1 & Hc & Hm1 & Ho1).
  destruct (null_rounds r w1 c Ha1 Hi1) as (w2 & Hr2 & Ha2 & Hi2 & Hm2); [lia|].
  destruct (take_rest r w2 0 v Ha2 Hi2) as (w3 & g & Hr3 & Ha3 & Hv3 & Hcl & Hg & Hm3).
  exists w3, r, c. split; [eapply reach_trans; [exact Hr1|]; by eapply reach_trans|]. split; [done|].
  split; [by rewrite Hm3, Hm2, Hm1|]. split; [done|]. intros w' Hr'. eapply starved_forever; [|exact Hr'].
  split; [done|]. exists g. split; [done|]. unfold Acquire. by rewrite Hg, Hcl.
Qed.

End world.
