(* ===== verification/ClientEnds.v ===== *)
(** * The client's ends of a stream

    The request object as the receiver of a get stream or chat and as the sender
    of a put stream or chat, and the served stream as their mirror images, shown
    to be a [Receiver] and a [Sender] (StreamLink.v).  The operations are the
    client's own (Client.v): the response loop's handleFrame, the pump's actions
    and deliver hook, sendInitialCredit, streamOut and the streamer. *)

From S2P Require Import Prelude Value RefValue Protocol Verify Sha256 HashChain Credit Pump.
From S2P Require Import FlowControl Request Metadata ClientStream ServingClient ClientServing Client ClientProps.
From S2P Require Import ServingSystem ClientReconnect ClientCalls Framing MsgConn ServingProps EndToEnd StreamLink.

Section client_ends.
Context `{ValueLib} (d : Dialect) `{!dialect_ok d} (growcap : nat -> nat) (de : dial_env) (rid : Z).
Hypothesis rid_range : in_int64 rid.

Abbreviation CL := (M rpcClient cl_ev).

(** A piece of client code as a transition that sends frames. *)
Definition cl_run {A} (m : CL A) (t : rpcClient) : rpcClient * list VMap :=
  (m_st (m t), omap client_sent (m_out (m t))).

(** ** Shared lemmas *)

Lemma long_rid : kindOf (Long rid) = NUMBER /\ longOf (Long rid) = rid.
Proof. split; [apply kind_Long|by apply longOf_Long]. Qed.

(** Stream frames are routed to the served stream or the request of their id. *)
Lemma stream_routed resp mt t :
  messageType d resp = Some mt -> requestIdOf d resp = Some rid ->
  mt = StreamReady \/ mt = StreamValue \/ mt = StreamEnd \/ mt = StreamCredit ->
  handleFrame d growcap de resp t =
    match cl_servingMap t !! rid with
    | Some l => (on_serving l (serveRunning d growcap mt resp) ≫= fun _ => mret tt) t
    | None =>
        match cl_requestCtxMap t !! rid with
        | Some l => processResponse d growcap (Client_CancelRequest d growcap de) mt resp l t
        | None => (tt, t, [CProtocolError resp ErrRequestNotFound])
        end
    end.
Proof.
  intros (v & Hv & Hl)%messageType_field Hid Hmt. unfold handleFrame, getResponseHandler, requestIdOf in *. rewrite Hv, Hl.
  destruct (GetNumberField resp (RequestIdField d)) as [idV|]; [|done]. injection Hid as Hid.
  assert (mt <> HandshakeResponse /\ mt <> FunctionRequest /\ mt <> GetStreamRequest /\ mt <> PutStreamRequest /\ mt <> ChatRequest)
    as (N1 & N2 & N3 & N4 & N5)
    by (destruct Hmt as [->|[->|[->| ->]]]; done).
  rewrite !(proj2 (Z.eqb_neq _ _)) by done. cbn [orb]. rewrite M_gets_bind. cbn [id]. rewrite Hid.
  destruct (cl_servingMap t !! rid); [done|]. by destruct (cl_requestCtxMap t !! rid).
Qed.

(** The events of a method of a request, as the client emits them on connection
    [c]. *)
Definition req_event (c : nat) (id : Z) (e : req_ev) : cl_ev :=
  match e with
  | RGrant n => CSend c (NewStreamCredit d (Long id) n)
  | RRequestEnd name code => CRequestEnd name code
  end.

Lemma on_request_events {A} l (m : M rpcRequestCtx req_ev A) r a r' es t c :
  cl_requests t !! l = Some r -> cl_conn t = Some c -> m r = (a, r', es) ->
  on_request d l m t = (Some a, upd_cl_requests (insert l r') t, map (req_event c (rc_requestId r)) es).
Proof.
  intros Hl Hc Hm. unfold on_request, get_req. rewrite M_gets_bind, Hl, Hm, M_modify_bind.
  set (t1 := upd_cl_requests (insert l r') t).
  assert (seqM (map (req_callback d (rc_requestId r)) es) t1 = (tt, t1, map (req_event c (rc_requestId r)) es)) as Hs.
  { clear Hm. induction es as [|e es IH]; [done|]. cbn [map seqM].
    assert (req_callback d (rc_requestId r) e t1 = (tt, t1, [req_event c (rc_requestId r) e])) as He.
    { destruct e; [|done]. cbn [req_callback req_event]. unfold sendStreamCredit, getConn_SendRequest, hasConn. unM. rewrite Hc. cbn. by rewrite Hc. }
    by rewrite (M_run_bind _ _ _ _ _ _ He), IH. }
  rewrite (M_run_bind _ _ _ _ _ _ Hs). cbn. by rewrite app_nil_r.
Qed.

Lemma cl_run_request {A} l (m : M rpcRequestCtx req_ev A) r a r' es t c :
  cl_requests t !! l = Some r -> cl_conn t = Some c -> m r = (a, r', es) ->
  cl_run (on_request_ d l m) t =
    (upd_cl_requests (insert l r') t, omap client_sent (map (req_event c (rc_requestId r)) es)).
Proof.
  intros Hl Hc Hm. unfold cl_run, on_request_. rewrite (M_run_bind _ _ _ _ _ _ (on_request_events l m r a r' es t c Hl Hc Hm)).
  cbn. by rewrite app_nil_r.
Qed.

(** A credit never makes the client send anything. *)
Lemma credit_frame_silent m t c :
  messageType d m = Some StreamCredit -> requestIdOf d m = Some rid -> GetNumberField m (CreditField d) = Some c ->
  omap client_sent (m_out (handleFrame d growcap de m t)) = [].
Proof.
  intros Hmt Hid Hc. rewrite (stream_routed m _ t Hmt Hid) by auto.
  destruct (cl_servingMap t !! rid) as [ls|].
  - unfold on_serving. unM. destruct (cl_servings t !! ls) as [vs|]; [|done].
    unfold serveRunning. cbn [Z.eqb Pos.eqb CancelRequest StreamValue StreamEnd StreamCredit]. rewrite Hc. done.
  - destruct (cl_requestCtxMap t !! rid) as [lr|]; [|done].
    unfold processResponse, get_req. rewrite M_gets_bind. destruct (cl_requests t !! lr) as [r|] eqn:Hl; [|done].
    cbn [Z.eqb Pos.eqb FunctionResponse ErrorResponse StreamReady StreamValue StreamEnd CancelRequest StreamCredit]. rewrite Hc.
    unfold on_request_. by rewrite (M_run_bind _ _ _ _ _ _ (on_request_run d lr _ r tt _ [] t Hl eq_refl)).
Qed.

(** ** The request as a receiver *)

Section request_receiver.
Context (l : nat).

(** In operation: registered under its id until the end arrived, with a
    connection for its credits. *)
Definition receiving (t : rpcClient) (r : rpcRequestCtx) : Prop :=
  rc_requestId r = rid /\ rc_grantCredit r = true /\ is_Some (cl_conn t) /\
  (rc_getClosed r = false -> cl_requestCtxMap t !! rid = Some l /\ cl_servingMap t !! rid = None /\ rc_closeOnce r = false).
#[local] Instance receiving_dec t r : Decision (receiving t r).
Proof. unfold receiving. apply _. Defined.

Definition request_view (t : rpcClient) : option rview :=
  match cl_requests t !! l with
  | Some r =>
      match rc_resultPump r with
      | Some p => if decide (receiving t r) then Some (mkRV p (rc_recvDelivered r) (rc_creditWindow r) (rc_getClosed r)) else None
      | None => None
      end
  | None => None
  end.

Lemma request_view_inv t v :
  request_view t = Some v ->
  exists r c, cl_requests t !! l = Some r /\ cl_conn t = Some c /\ rc_resultPump r = Some (rv_pump v) /\ receiving t r /\
    v = mkRV (rv_pump v) (rc_recvDelivered r) (rc_creditWindow r) (rc_getClosed r).
Proof.
  unfold request_view. destruct (cl_requests t !! l) as [r|]; [|done]. destruct (rc_resultPump r) as [p|] eqn:Ep; [|done].
  case_decide as Hd; [|done]. intros [= <-]. pose proof Hd as (_ & _ & [c Hc] & _). exists r, c. do 3 (split; [done|]). by split.
Qed.

(** A method that leaves the registration alone. *)
Lemma request_view_set t r r' p :
  cl_requests t !! l = Some r -> receiving t r -> rc_resultPump r' = Some p ->
  rc_requestId r' = rc_requestId r -> rc_grantCredit r' = rc_grantCredit r ->
  (rc_getClosed r' = false -> rc_getClosed r = false /\ rc_closeOnce r' = rc_closeOnce r) ->
  request_view (upd_cl_requests (insert l r') t) = Some (mkRV p (rc_recvDelivered r') (rc_creditWindow r') (rc_getClosed r')).
Proof.
  intros Hl (H1 & H2 & H3 & H4) Hp E1 E2 E3. unfold request_view. cbn. rewrite lookup_insert_eq, Hp.
  rewrite decide_True; [done|]. split_and!; cbn; try congruence.
  intros Hg. destruct (E3 Hg) as [Hg' Hc]. destruct (H4 Hg') as (? & ? & ?). split_and!; congruence.
Qed.

(** What the loop does with the frames of the stream. *)
Lemma request_notify t v m x p' mt :
  request_view t = Some v -> rv_ended v = false -> messageType d m = Some mt -> requestIdOf d m = Some rid ->
  (mt = StreamReady /\ x = None) \/ (mt = StreamValue /\ fieldOrNil m (ValueField d) = x /\ x <> None) ->
  Push None growcap x (rv_pump v) = (true, p') ->
  request_view (cl_run (handleFrame d growcap de m) t).1 = Some (rv_with_pump p' v) /\
  (cl_run (handleFrame d growcap de m) t).2 = [].
Proof.
  intros Hv He Hmt Hid Hx HP. destruct (request_view_inv t v Hv) as (r & c & Hl & Hc & Hp & Hrecv & Ev).
  rewrite Ev in He. cbn in He. pose proof Hrecv as (Hr1 & Hr2 & _ & Hr4). destruct (Hr4 He) as (Hmap & Hsm & Hco).
  assert (notifyResult growcap x r = (Some true, rc_with_pump (Some p') r, [])) as Hn
    by (unfold notifyResult; unM; rewrite Hp, HP; done).
  pose proof (on_request_events l _ _ _ _ _ t c Hl Hc Hn) as Hrun. cbn [map] in Hrun.
  pose proof (request_view_set t r (rc_with_pump (Some p') r) p' Hl Hrecv eq_refl eq_refl eq_refl (fun Hg => conj Hg eq_refl)) as Hv'.
  unfold cl_run. rewrite (stream_routed m mt t Hmt Hid) by naive_solver. rewrite Hsm, Hmap.
  unfold processResponse, get_req. rewrite M_gets_bind, Hl.
  rewrite Ev. unfold rv_with_pump. cbn [rv_delivered rv_window rv_ended].
  destruct Hx as [[-> ->]|(-> & Hf & Hne)]; cbn [Z.eqb Pos.eqb FunctionResponse ErrorResponse StreamReady StreamValue].
  - unfold notify_then. rewrite (M_run_bind _ _ _ _ _ _ Hrun). cbn. by split.
  - rewrite Hf. destruct x as [x|]; [|done]. unfold notify_then. rewrite (M_run_bind _ _ _ _ _ _ Hrun). cbn. by split.
Qed.

Lemma request_null t v m :
  request_view t = Some v -> rv_ended v = false -> messageType d m = Some StreamValue -> requestIdOf d m = Some rid ->
  fieldOrNil m (ValueField d) = None -> cl_run (handleFrame d growcap de m) t = (t, []).
Proof.
  intros Hv He Hmt Hid Hf. destruct (request_view_inv t v Hv) as (r & c & Hl & Hc & Hp & Hrecv & Ev).
  rewrite Ev in He. cbn in He. pose proof Hrecv as (Hr1 & Hr2 & _ & Hr4). destruct (Hr4 He) as (Hmap & Hsm & Hco).
  unfold cl_run. rewrite (stream_routed m _ t Hmt Hid) by auto. rewrite Hsm, Hmap.
  unfold processResponse, get_req. rewrite M_gets_bind, Hl.
  cbn [Z.eqb Pos.eqb FunctionResponse ErrorResponse StreamReady StreamValue]. by rewrite Hf.
Qed.

Lemma request_end t v m :
  request_view t = Some v -> rv_ended v = false -> messageType d m = Some StreamEnd -> requestIdOf d m = Some rid ->
  fieldOrNil m (ValueField d) = None ->
  request_view (cl_run (handleFrame d growcap de m) t).1 = Some (mkRV (Close (rv_pump v)) (rv_delivered v) (rv_window v) true) /\
  (cl_run (handleFrame d growcap de m) t).2 = [].
Proof.
  intros Hv He Hmt Hid Hf. destruct (request_view_inv t v Hv) as (r & c & Hl & Hc & Hp & Hrecv & Ev).
  rewrite Ev in He. cbn in He. pose proof Hrecv as (Hr1 & Hr2 & _ & Hr4). destruct (Hr4 He) as (Hmap & Hsm & Hco).
  assert (exists b r' es, TryGetClose d r = (b, r', es) /\ omap client_sent (map (req_event c (rc_requestId r)) es) = [] /\
    rc_resultPump r' = Some (Close (rv_pump v)) /\ rc_requestId r' = rc_requestId r /\ rc_grantCredit r' = rc_grantCredit r /\
    rc_getClosed r' = true /\ rc_recvDelivered r' = rc_recvDelivered r /\ rc_creditWindow r' = rc_creditWindow r)
    as (b & r' & es & Ht & Hes & Hp' & E1 & E2 & E3 & E4 & E5).
  { unfold TryGetClose, RequestCtx_closeResult. unM. rewrite Hco. cbn. rewrite Hp. cbn.
    destruct (rc_metrics r); cbn; eexists _, _, _; split; [reflexivity| |reflexivity|]; done. }
  pose proof (on_request_events l _ _ _ _ _ t c Hl Hc Ht) as Hrun.
  assert (forall t', cl_requests t' !! l = Some r' -> is_Some (cl_conn t') ->
    request_view t' = Some (mkRV (Close (rv_pump v)) (rv_delivered v) (rv_window v) true)) as Hview.
  { intros t' Hl' Hc'. unfold request_view. rewrite Hl', Hp'. rewrite decide_True.
    - rewrite Ev. cbn. by rewrite E3, E4, E5.
    - split_and!; congruence. }
  unfold cl_run. rewrite (stream_routed m _ t Hmt Hid) by auto. rewrite Hsm, Hmap.
  unfold processResponse, get_req. rewrite M_gets_bind, Hl.
  cbn [Z.eqb Pos.eqb FunctionResponse ErrorResponse StreamReady StreamValue StreamEnd]. rewrite Hf.
  rewrite (M_run_bind _ _ _ _ _ _ Hrun). set (t1 := upd_cl_requests (insert l r') t).
  cbn [default]. destruct b; cbn; rewrite app_nil_r; (split; [apply Hview; cbn; [by rewrite lookup_insert_eq|by eexists]|done]).
Qed.

(** A method of the request object, run by the pump goroutine or the caller. *)
Lemma request_method {A} t v (m : M rpcRequestCtx req_ev A) (f : rpcRequestCtx -> rpcRequestCtx) (gs : rpcRequestCtx -> list Z) p :
  request_view t = Some v ->
  (forall r, rc_resultPump r = Some (rv_pump v) -> rc_grantCredit r = true ->
     rc_recvDelivered r = rv_delivered v -> rc_creditWindow r = rv_window v ->
     exists a, m r = (a, f r, map RGrant (gs r)) /\ rc_resultPump (f r) = Some p /\
       rc_requestId (f r) = rc_requestId r /\ rc_grantCredit (f r) = rc_grantCredit r /\
       rc_getClosed (f r) = rc_getClosed r /\ rc_closeOnce (f r) = rc_closeOnce r) ->
  exists r c, rc_recvDelivered r = rv_delivered v /\ rc_creditWindow r = rv_window v /\ 
    cl_run (on_request_ d l m) t =
      (upd_cl_requests (insert l (f r)) t, map (fun n => NewStreamCredit d (Long rid) n) (gs r)) /\ cl_conn t = Some c /\
    request_view (upd_cl_requests (insert l (f r)) t) = Some (mkRV p (rc_recvDelivered (f r)) (rc_creditWindow (f r)) (rv_ended v)).
Proof.
  intros Hv Hm. destruct (request_view_inv t v Hv) as (r & c & Hl & Hc & Hp & Hrecv & Ev).
  assert (rc_recvDelivered r = rv_delivered v /\ rc_creditWindow r = rv_window v) as [Ed Ew] by (rewrite Ev; done).
  pose proof Hrecv as (Hid & Hg & _).
  destruct (Hm r Hp Hg Ed Ew) as (a & Hrun & Hp' & E1 & E2 & E3 & E4). exists r, c. split; [done|]. split; [done|].
  split; [|split; [done|]].
  - rewrite (cl_run_request l m r a (f r) _ t c Hl Hc Hrun). f_equal. rewrite Hid. clear.
    induction (gs r) as [|n l' IH]; cbn; [done|]. by f_equal.
  - rewrite (request_view_set t r (f r) p Hl Hrecv Hp' E1 E2) by (rewrite E3, E4; done). rewrite E3, Ev. done.
Qed.

Lemma request_pump t v f p' :
  request_view t = Some v -> f (rv_pump v) = Some p' ->
  request_view (cl_run (on_request_ d l (on_pump f)) t).1 = Some (rv_with_pump p' v).
Proof.
  intros Hv Hf.
  destruct (request_method t v (on_pump f) (rc_with_pump (Some p')) (fun _ => []) p' Hv) as (r & c & Ed & Ew & -> & _ & Hv').
  - intros r Hp _ _ _. exists true. unfold on_pump. unM. by rewrite Hp, Hf.
  - cbn [fst]. rewrite Hv'. cbn. by rewrite Ed, Ew.
Qed.

Lemma credits_sent ns :
  Forall in_int64 ns -> let out := map (fun n => NewStreamCredit d (Long rid) n) ns in
  omap (credit_of d rid) out = ns /\ all_parsed (credit_of d rid) out.
Proof.
  intros Hns out. assert (omap (credit_of d rid) out = ns) as E; [|split; [done|unfold all_parsed, out in *; by rewrite E, length_map]].
  unfold out. induction Hns as [|n ns Hn _ IH]; [done|]. cbn [map omap list_omap].
  destruct long_rid. rewrite (credit_frame d rid (Long rid)) by done. by f_equal.
Qed.

Lemma request_hook t v :
  request_view t = Some v -> let g := grantRecv (rv_window v) (rv_delivered v) in
  (forall n, g.2 = Some n -> in_int64 n) ->
  let out := cl_run (on_request_ d l RequestCtx_grantRecv) t in
  request_view out.1 = Some (mkRV (rv_pump v) g.1 (rv_window v) (rv_ended v)) /\ omap (credit_of d rid) out.2 = option_list g.2 /\ all_parsed (credit_of d rid) out.2.
Proof.
  intros Hv g Hg out.
  destruct (request_method t v RequestCtx_grantRecv (rc_with_delivered g.1) (fun _ => option_list g.2) (rv_pump v) Hv)
    as (r & c & Ed & Ew & Hrun & _ & Hv').
  - intros r Hp Hgr Ed Ew. exists tt. unfold RequestCtx_grantRecv. unM. rewrite Ed, Ew. fold g.
    destruct g as [n [k|]]; cbn; [by rewrite Hgr|done].
  - unfold out. rewrite Hrun. cbn [fst snd]. rewrite Hv'. cbn. rewrite Ew. split; [done|].
    apply credits_sent. destruct g as [n [k|]]; cbn; constructor; [by apply Hg|constructor].
Qed.

Lemma request_start t v :
  request_view t = Some v -> in_int64 (rv_window v) ->
  let out := cl_run (on_request_ d l sendInitialCredit) t in
  request_view out.1 = Some v /\ omap (credit_of d rid) out.2 = [rv_window v] /\ all_parsed (credit_of d rid) out.2.
Proof.
  intros Hv Hw out.
  destruct (request_method t v sendInitialCredit id (fun _ => [rv_window v]) (rv_pump v) Hv) as (r & c & Ed & Ew & Hrun & _ & Hv').
  - intros r Hp Hgr Ed Ew. exists tt. unfold sendInitialCredit. unM. rewrite Hp, Hgr, Ew. done.
  - unfold out. rewrite Hrun. cbn [fst snd]. rewrite Hv'. unfold id. rewrite Ed, Ew. split; [by destruct v|].
    apply credits_sent. constructor; [done|constructor].
Qed.

(** The client's request is a receiver that opened the stream. *)
Definition request_receiver : Receiver d growcap rid rpcClient.
Proof.
  refine (mkReceiver d growcap rid rpcClient true request_view (fun m => cl_run (handleFrame d growcap de m))
    (fun t => (cl_run (on_request_ d l (on_pump pump_take)) t).1)
    (fun t => (cl_run (on_request_ d l (on_pump pump_deliver)) t).1)
    (cl_run (on_request_ d l RequestCtx_grantRecv)) (cl_run (on_request_ d l sendInitialCredit)) _ _ _ _ _ _ _ _).
  - intros m t v p' Hv He _ (Hmt & Hid & _)%item_of_inv HP.
    destruct (request_notify t v m None p' StreamReady Hv He Hmt Hid ltac:(auto) HP) as [? ->]. done.
  - intros m x t v p' Hv He (Hmt & Hid & Hf)%item_of_inv HP _.
    destruct (request_notify t v m (Some x) p' StreamValue Hv He Hmt Hid ltac:(auto) HP) as [? ->]. done.
  - intros m t v Hv He _ (Hmt & Hid & Hf & _)%item_of_inv. by rewrite (request_null t v m Hv He Hmt Hid Hf).
  - intros m t v Hv He (Hmt & Hid & Hf & _)%item_of_inv. destruct (request_end t v m Hv He Hmt Hid Hf) as [? ->]. done.
  - intros t v p' Hv Hpc Hr. apply request_pump; [done|]. unfold pump_take. by rewrite Hpc.
  - intros t v x Hv Hpc. apply request_pump; [done|]. unfold pump_deliver. by rewrite Hpc.
  - apply request_hook.
  - intros t v Hv _. by apply request_start.
Defined.

End request_receiver.
(** ** The request as a sender *)

Section request_sender.
Context (l : nat).

(** streamOut's goroutine; [None] before PutStream or Chat starts it. *)
Abbreviation out_state := (rpcClient * option out_pc)%type.

Definition sending (t : rpcClient) (r : rpcRequestCtx) (g : CreditGate) : Prop :=
  rc_requestId r = rid /\ is_Some (cl_conn t) /\ closed g = false /\ rc_putClosed r = false /\
  cl_requestCtxMap t !! rid = Some l /\ cl_servingMap t !! rid = None.
#[local] Instance sending_dec t r g : Decision (sending t r g).
Proof. unfold sending. apply _. Defined.

Definition out_pos (pc : option out_pc) : send_pc :=
  match pc with
  | None => Unready
  | Some OutLoop => Idle
  | Some (OutAcquire v) => Holding v
  | Some (OutSend v) => Committed v
  | Some OutSendEnd => Closing
  | Some OutFinish | Some OutReturned => Done
  end.

Definition out_view (s : out_state) : option sview :=
  match out_pos s.2 with
  | Done => Some (mkSV Done NewCreditGate)
  | k =>
      match cl_requests s.1 !! l with
      | Some r =>
          match rc_sendCredit r with
          | Some g => if decide (sending s.1 r g) then Some (mkSV k g) else None
          | None => None
          end
      | None => None
      end
  end.

#[local] Arguments out_view : simpl never.

Lemma out_view_inv t pc sv :
  out_view (t, pc) = Some sv -> out_pos pc <> Done ->
  exists r c g, sv = mkSV (out_pos pc) g /\ cl_requests t !! l = Some r /\ cl_conn t = Some c /\
    rc_sendCredit r = Some g /\ sending t r g.
Proof.
  unfold out_view. cbn [fst snd]. intros Hv Hk.
  destruct (cl_requests t !! l) as [r|]; [|by destruct (out_pos pc)].
  destruct (rc_sendCredit r) as [g|] eqn:Eg; [|by destruct (out_pos pc)].
  case_decide as Hs; [|by destruct (out_pos pc)].
  pose proof Hs as (_ & [c Hc] & _). exists r, c, g. split; [destruct (out_pos pc); naive_solver|]. by do 3 (split; [done|]).
Qed.

Lemma out_view_set t pc r g :
  cl_requests t !! l = Some r -> rc_sendCredit r = Some g -> sending t r g -> out_pos pc <> Done ->
  out_view (t, pc) = Some (mkSV (out_pos pc) g).
Proof.
  intros Hl Hg Hs Hk. unfold out_view. cbn [fst snd]. destruct (out_pos pc); try done; rewrite Hl, Hg, decide_True by done; done.
Qed.

(** One action of the goroutine. *)
Definition out_act (x : option (option Value)) (s : out_state) : out_state * list VMap :=
  match s.2 with
  | None => ((s.1, Some OutLoop), [])
  | Some pc =>
      let y := streamOut_step d growcap l pc x s.1 in
      ((m_st y, Some (m_res y)), omap client_sent (m_out y))
  end.

Lemma send_frame_run m t c :
  cl_conn t = Some c -> getConn_SendRequest m t = (true, t, [CSend c m]).
Proof. intros Hc. unfold getConn_SendRequest. unM. by rewrite Hc. Qed.

Lemma TryPutClose_ends r : exists b r' es, TryPutClose d r = (b, r', map (fun nc : string * Z => RRequestEnd nc.1 nc.2) es).
Proof.
  unfold TryPutClose, RequestCtx_closeResult. unM. case_decide; cbn; [|by eexists _, _, []].
  destruct (rc_closeOnce r); cbn; [by eexists _, _, []|]. destruct (rc_metrics r); cbn; [|by eexists _, _, []].
  by eexists _, _, [(_, _)].
Qed.

Lemma out_act_law x s sv :
  out_view s = Some sv -> exists sv', out_view (out_act x s).1 = Some sv' /\
    sender_acts false sv x sv' (omap (item_of d rid) (out_act x s).2) /\ all_parsed (item_of d rid) (out_act x s).2.
Proof.
  destruct s as [t pc]. intros Hv. destruct long_rid as [Hn Hlr]. unfold out_act, all_parsed. cbn [fst snd].
  destruct pc as [[|v|v| | |]|]; try (destruct (out_view_inv _ _ _ Hv ltac:(done)) as (r & c & g & -> & Hl & Hc & Hg & Hs);
    pose proof Hs as (Hid & _ & Hcl & Hput & _)); cbn [out_pos] in *; unfold streamOut_step, get_req.
  - rewrite M_gets_bind, Hl. unfold IsPutOpen. rewrite Hput. cbn [negb]. destruct x as [v|]; cbn.
    + eexists. split; [by apply (out_view_set t (Some (OutAcquire v)) r g)|]. split; [constructor|done].
    + eexists. split; [by apply (out_view_set t (Some OutSendEnd) r g)|]. split; [constructor|done].
  - rewrite M_gets_bind, Hl, Hg. destruct (Acquire g) as [[[] g']|] eqn:Ea.
    + assert (run_req_op d growcap OpAcquireCredit r = (tt, rc_with_gate (Some g') r, [])) as Hop
        by (unfold run_req_op; unM; by rewrite Hg, Ea).
      pose proof (on_request_events l _ _ _ _ _ t c Hl Hc Hop) as Hrun.
      set (t1 := upd_cl_requests (insert l (rc_with_gate (Some g') r)) t) in Hrun.
      unfold on_request_. rewrite M_assoc, (M_run_bind _ _ _ _ _ _ Hrun). cbn.
      eexists. split; [apply (out_view_set t1 (Some (OutSend v)) (rc_with_gate (Some g') r) g'); [cbn; by rewrite lookup_insert_eq|done| |done]|].
      * destruct Hs as (? & ? & ? & ? & ? & ?). split_and!; try done.
        unfold Acquire in Ea. destruct (_ && _); [done|]. rewrite Hcl in Ea. by injection Ea as <-.
      * split; [by constructor|done].
    + exfalso. unfold Acquire in Ea. rewrite Hcl in Ea. by destruct (_ && _).
    + cbn. eexists. split; [by apply (out_view_set t (Some (OutAcquire v)) r g)|]. split; [by constructor|done].
  - rewrite M_gets_bind, Hl, Hid. rewrite (M_run_bind _ _ _ _ _ _ (send_frame_run _ t c Hc)). cbn.
    eexists. split; [by apply (out_view_set t (Some OutLoop) r g)|].
    rewrite (value_frame_item d rid (Long rid)) by done. split; [constructor|done].
  - rewrite M_gets_bind, Hl, Hid. rewrite (M_run_bind _ _ _ _ _ _ (send_frame_run _ t c Hc)). cbn.
    eexists. split; [reflexivity|].
    change (NewSystemRequest d rid StreamEnd) with (NewStreamEnd d (Long rid) None).
    rewrite (end_item d rid (Long rid)) by done. split; [constructor|done].
  - unfold out_view in Hv. cbn in Hv. injection Hv as <-. rewrite M_gets_bind.
    destruct (cl_requests t !! l) as [r|] eqn:Hl; [|cbn; eexists; split; [reflexivity|split; [constructor|done]]].
    destruct (TryPutClose_ends r) as (b & r' & es & Ht). rewrite (M_run_bind _ _ _ _ _ _ (on_request_run d l _ _ _ _ _ t Hl Ht)).
    assert (forall es, omap client_sent (map (fun nc : string * Z => CRequestEnd nc.1 nc.2) es ++ []) = []) as Ho
      by (clear; intros es; rewrite app_nil_r; by induction es).
    cbn [default]. destruct b; cbn; rewrite Ho; (eexists; split; [reflexivity|split; [constructor|done]]).
  - unfold out_view in Hv. cbn in Hv. injection Hv as <-. rewrite M_gets_bind.
    destruct (cl_requests t !! l); cbn; (eexists; split; [reflexivity|split; [constructor|done]]).
  - cbn. eexists. split; [by apply (out_view_set t (Some OutLoop) r g)|]. split; [constructor|done].
Qed.

Lemma out_credit_law m n s k g :
  out_view s = Some (mkSV k g) -> credit_of d rid m = Some n ->
  let out := cl_run (handleFrame d growcap de m) s.1 in
  exists g', out_view (out.1, s.2) = Some (mkSV k g') /\ (k <> Done -> g' = Grant n g) /\ out.2 = [].
Proof.
  destruct s as [t pc]. intros Hv (Hmt & Hid & cv & Hcv & <-)%credit_of_inv out. cbn [fst snd] in *.
  assert (out.2 = []) as -> by (unfold out, cl_run; cbn [snd]; by eapply credit_frame_silent).
  destruct (is_done (out_pos pc)) eqn:Ed.
  { assert (out_pos pc = Done) as Ep by by destruct (out_pos pc). unfold out_view in *. cbn [fst snd] in *. rewrite Ep in *.
    injection Hv as <- <-. by exists NewCreditGate. }
  destruct (out_view_inv _ _ _ Hv) as (r & c & g0 & [= -> ->] & Hl & Hc & Hg & Hs); [by intros E; rewrite E in Ed|].
  pose proof Hs as (Hi & Hco & Hcl & Hput & Hmap & Hsm).
  exists (Grant (longOf cv) g0). split; [|done].
  unfold out, cl_run. cbn [fst]. rewrite (stream_routed m _ t Hmt Hid) by auto. rewrite Hsm, Hmap.
  unfold processResponse, get_req. rewrite M_gets_bind, Hl.
  cbn [Z.eqb Pos.eqb FunctionResponse ErrorResponse StreamReady StreamValue StreamEnd CancelRequest StreamCredit]. rewrite Hcv.
  set (r' := rc_with_gate (Some (Grant (longOf cv) g0)) r). set (t1 := upd_cl_requests (insert l r') t).
  assert (on_request d l (RequestCtx_Grant (longOf cv)) t = (Some tt, t1, [])) as Hrun.
  { apply (on_request_run d l _ r tt r' [] t Hl). unfold RequestCtx_Grant. unM. by rewrite Hg. }
  unfold on_request_. rewrite (M_run_bind _ _ _ _ _ _ Hrun). cbn [m_st fst snd mret M_ret].
  apply (out_view_set t1 pc r'); [cbn; by rewrite lookup_insert_eq|done| |by intros E; rewrite E in Ed].
  split_and!; try done. by rewrite Grant_closed.
Qed.

(** The client's streamOut is a sender that opened the stream. *)
Definition request_sender : Sender d rid out_state :=
  mkSender d rid out_state false out_view out_act
    (fun m s => let y := cl_run (handleFrame d growcap de m) s.1 in ((y.1, s.2), y.2))
    out_act_law out_credit_law.

End request_sender.

(** ** A served stream *)

(** The events of a method of a served stream: the frames it sends and what it
    does to the client. *)
Definition vs_frame (e : vs_ev) : option VMap := match e with VReply m => Some m | _ => None end.
Definition vs_effect (t : rpcClient) (e : vs_ev) : rpcClient :=
  match e with
  | VReply _ => t
  | VDelete id => upd_cl_servingMap (delete id) t
  | VCancel c => upd_cl_cancelled (fun s => {[ c ]} ∪ s) t
  end.
Definition is_delete (e : vs_ev) : bool := match e with VDelete _ => true | _ => false end.

Lemma vs_effects evs t :
  cl_servings (foldl vs_effect t evs) = cl_servings t /\ cl_conn (foldl vs_effect t evs) = cl_conn t /\
  (existsb is_delete evs = false -> cl_servingMap (foldl vs_effect t evs) = cl_servingMap t).
Proof.
  revert t. induction evs as [|e evs IH]; intros t; [done|]. cbn [foldl existsb].
  destruct (IH (vs_effect t e)) as (-> & -> & Hm). destruct e; cbn in *; split_and!; try done; auto.
Qed.

Lemma cl_run_serving {A} l (m : M clientServingRequest vs_ev A) r a r' evs t c :
  cl_servings t !! l = Some r -> cl_conn t = Some c -> m r = (a, r', evs) ->
  on_serving l m t = (Some a, foldl vs_effect (upd_cl_servings (insert l r') t) evs, CSend c <$> omap vs_frame evs).
Proof.
  intros Hl Hc Hm. unfold on_serving. rewrite M_gets_bind. cbn [id]. rewrite Hl, Hm, M_modify_bind.
  set (t1 := upd_cl_servings (insert l r') t). assert (cl_conn t1 = Some c) as Hc1 by done. clearbody t1. clear Hm Hl.
  assert (seqM (map serving_callback evs) t1 = (tt, foldl vs_effect t1 evs, CSend c <$> omap vs_frame evs)) as Hs.
  { revert t1 Hc1. induction evs as [|e evs IH]; intros t1 Hc1; [done|]. cbn [map seqM foldl].
    assert (serving_callback e t1 = (tt, vs_effect t1 e, CSend c <$> option_list (vs_frame e))) as He.
    { destruct e; [|done|done]. cbn [serving_callback]. unfold reply, getConn_SendRequest, hasConn. unM. rewrite Hc1. cbn. by rewrite Hc1. }
    rewrite (M_run_bind _ _ _ _ _ _ He), IH by (by destruct e). cbn. by destruct e. }
  rewrite (M_run_bind _ _ _ _ _ _ Hs). cbn. by rewrite app_nil_r.
Qed.

Lemma sent_frames c (ms : list VMap) : omap client_sent (CSend c <$> ms) = ms.
Proof. induction ms; cbn; [done|]. by f_equal. Qed.

Section served.
Context (l : nat).

Definition served_ok (t : rpcClient) (r : clientServingRequest) : Prop :=
  kindOf (vs_requestId r) = NUMBER /\ longOf (vs_requestId r) = rid /\ is_Some (cl_conn t).

(** *** As a receiver *)

Definition inbound_ok (t : rpcClient) (r : clientServingRequest) : Prop :=
  served_ok t r /\ (vs_inClosed r = false -> cl_servingMap t !! rid = Some l).
#[local] Instance inbound_ok_dec t r : Decision (inbound_ok t r).
Proof. unfold inbound_ok, served_ok. apply _. Defined.

Definition served_view (t : rpcClient) : option rview :=
  match cl_servings t !! l with
  | Some r =>
      match vs_inPump r with
      | Some p => if decide (inbound_ok t r) then Some (mkRV p (vs_inboundDelivered r) (vs_creditWindow r) (vs_inClosed r)) else None
      | None => None
      end
  | None => None
  end.
#[local] Arguments served_view : simpl never.

Lemma served_view_inv t v :
  served_view t = Some v ->
  exists r c, cl_servings t !! l = Some r /\ cl_conn t = Some c /\ vs_inPump r = Some (rv_pump v) /\ inbound_ok t r /\
    v = mkRV (rv_pump v) (vs_inboundDelivered r) (vs_creditWindow r) (vs_inClosed r).
Proof.
  unfold served_view. destruct (cl_servings t !! l) as [r|]; [|done]. destruct (vs_inPump r) as [p|] eqn:Ep; [|done].
  case_decide as Hd; [|done]. intros [= <-]. pose proof Hd as ((_ & _ & [c Hc]) & _). exists r, c. do 3 (split; [done|]). by split.
Qed.

(** A method of the served stream and what the view becomes. *)
Lemma served_method {A} t v (m : M clientServingRequest vs_ev A) :
  served_view t = Some v ->
  exists r, cl_servings t !! l = Some r /\ vs_inPump r = Some (rv_pump v) /\ inbound_ok t r /\ vs_inClosed r = rv_ended v /\
    vs_inboundDelivered r = rv_delivered v /\ vs_creditWindow r = rv_window v /\
    forall a r' evs p', m r = (a, r', evs) -> vs_inPump r' = Some p' -> vs_requestId r' = vs_requestId r ->
      (vs_inClosed r' = false -> vs_inClosed r = false /\ existsb is_delete evs = false) ->
      served_view (cl_run (on_serving l m) t).1 = Some (mkRV p' (vs_inboundDelivered r') (vs_creditWindow r') (vs_inClosed r')) /\
      (cl_run (on_serving l m) t).2 = omap vs_frame evs.
Proof.
  intros Hv. destruct (served_view_inv t v Hv) as (r & c & Hl & Hc & Hp & Hok & Ev). exists r.
  assert (vs_inClosed r = rv_ended v /\ vs_inboundDelivered r = rv_delivered v /\ vs_creditWindow r = rv_window v) as (E1 & E2 & E3)
    by (rewrite Ev; done).
  do 6 (split; [done|]). intros a r' evs p' Hm Hp' Hid Hcl. unfold cl_run.
  rewrite (cl_run_serving l m r a r' evs t c Hl Hc Hm). cbn [m_st m_out fst snd]. rewrite sent_frames. split; [|done].
  set (t1 := upd_cl_servings (insert l r') t). destruct (vs_effects evs t1) as (Es & Ec & Em).
  unfold served_view. rewrite Es. cbn. rewrite lookup_insert_eq, Hp', decide_True; [done|].
  destruct Hok as ((K1 & K2 & K3) & K4). split; [split_and!|].
  - by rewrite Hid.
  - by rewrite Hid.
  - by rewrite Ec.
  - intros Hf. destruct (Hcl Hf) as [Hf' Hd]. rewrite (Em Hd). by apply K4.
Qed.

Lemma served_frame t v m mt :
  served_view t = Some v -> rv_ended v = false -> messageType d m = Some mt -> requestIdOf d m = Some rid ->
  mt = StreamReady \/ mt = StreamValue \/ mt = StreamEnd \/ mt = StreamCredit ->
  cl_run (handleFrame d growcap de m) t = cl_run (on_serving l (serveRunning d growcap mt m)) t.
Proof.
  intros Hv He Hmt Hid Hk. destruct (served_view_inv t v Hv) as (r & c & Hl & Hc & Hp & [_ Hreg] & Ev).
  rewrite Ev in He. unfold cl_run. rewrite (stream_routed m mt t Hmt Hid Hk), (Hreg He).
  by rewrite M_bind_st, M_bind_out, app_nil_r.
Qed.

Lemma served_value t v m x p' :
  served_view t = Some v -> rv_ended v = false -> messageType d m = Some StreamValue -> requestIdOf d m = Some rid ->
  match fieldOrNil m (ValueField d) with Some y => x = Some y /\ Push None growcap x (rv_pump v) = (true, p') | None => p' = rv_pump v end ->
  overflow p' = false ->
  served_view (cl_run (handleFrame d growcap de m) t).1 = Some (rv_with_pump p' v) /\ (cl_run (handleFrame d growcap de m) t).2 = [].
Proof.
  intros Hv He Hmt Hid Hx Ho. rewrite (served_frame t v m _ Hv He Hmt Hid) by auto.
  destruct (served_method t v (serveRunning d growcap StreamValue m) Hv) as (r & Hl & Hp & Hok & E1 & E2 & E3 & Hrun).
  set (r' := upd_vs_inPump (fun _ => Some p') r).
  assert (exists r0, serveRunning d growcap StreamValue m r = (tt, r0, []) /\ vs_inPump r0 = Some p' /\ vs_requestId r0 = vs_requestId r /\
    vs_inClosed r0 = vs_inClosed r /\ vs_inboundDelivered r0 = vs_inboundDelivered r /\ vs_creditWindow r0 = vs_creditWindow r)
    as (r0 & Hm & F1 & F2 & F3 & F4 & F5).
  { unfold serveRunning. cbn [Z.eqb Pos.eqb CancelRequest StreamValue]. unfold ClientServing_push. unM. rewrite Hp.
    destruct (fieldOrNil m (ValueField d)) as [y|]; cbn.
    - destruct Hx as [-> HP]. rewrite HP. cbn. unfold Overflowed. rewrite Ho. cbn. by eexists.
    - subst p'. rewrite Hp. unfold Overflowed. rewrite Ho. cbn. by eexists. }
  destruct (Hrun _ _ _ _ Hm F1 F2) as [Hv' ->]; [by rewrite F3|]. split; [|done].
  rewrite Hv', F3, F4, F5, E1, E2, E3. done.
Qed.

Lemma served_end t v m :
  served_view t = Some v -> rv_ended v = false -> messageType d m = Some StreamEnd -> requestIdOf d m = Some rid ->
  fieldOrNil m (ValueField d) = None ->
  served_view (cl_run (handleFrame d growcap de m) t).1 = Some (mkRV (Close (rv_pump v)) (rv_delivered v) (rv_window v) true) /\
  (cl_run (handleFrame d growcap de m) t).2 = [].
Proof.
  intros Hv He Hmt Hid Hf. rewrite (served_frame t v m _ Hv He Hmt Hid) by auto.
  destruct (served_method t v (serveRunning d growcap StreamEnd m) Hv) as (r & Hl & Hp & Hok & E1 & E2 & E3 & Hrun).
  rewrite He in E1.
  assert (exists r0 evs, serveRunning d growcap StreamEnd m r = (tt, r0, evs) /\ omap vs_frame evs = [] /\ vs_inPump r0 = Some (Close (rv_pump v)) /\
    vs_requestId r0 = vs_requestId r /\ vs_inClosed r0 = true /\ vs_inboundDelivered r0 = vs_inboundDelivered r /\ vs_creditWindow r0 = vs_creditWindow r)
    as (r0 & evs & Hm & F0 & F1 & F2 & F3 & F4 & F5).
  { unfold serveRunning. cbn [Z.eqb Pos.eqb CancelRequest StreamValue StreamEnd].
    unfold ClientServing_push, ClientServing_closeInboundChan, ClientServing_deleteServing, ClientServing_cancelCtx. unM.
    rewrite Hf. cbn. rewrite E1. cbn.
    case_decide; cbn; [|destruct (vs_cancel r); cbn]; (eexists _, _; split; [reflexivity|cbn; by rewrite Hp]). }
  destruct (Hrun _ _ _ _ Hm F1 F2) as [Hv' ->]; [by rewrite F3|]. split; [|done].
  rewrite Hv', F3, F4, F5, E2, E3. done.
Qed.

Lemma served_pump t v f p' :
  served_view t = Some v -> f (rv_pump v) = Some p' ->
  served_view (cl_run (on_serving l (on_inPump f)) t).1 = Some (rv_with_pump p' v).
Proof.
  intros Hv Hf. destruct (served_method t v (on_inPump f) Hv) as (r & Hl & Hp & Hok & E1 & E2 & E3 & Hrun).
  assert (on_inPump f r = (true, upd_vs_inPump (fun _ => Some p') r, [])) as Hm by (unfold on_inPump; unM; by rewrite Hp, Hf).
  destruct (Hrun _ _ _ p' Hm) as [-> _]; [done..|]. cbn. by rewrite E1, E2, E3.
Qed.

Lemma served_hook t v :
  served_view t = Some v -> let g := grantRecv (rv_window v) (rv_delivered v) in
  (forall n, g.2 = Some n -> in_int64 n) ->
  let out := cl_run (on_serving l (ClientServing_grantInbound d)) t in
  served_view out.1 = Some (mkRV (rv_pump v) g.1 (rv_window v) (rv_ended v)) /\ omap (credit_of d rid) out.2 = option_list g.2 /\ all_parsed (credit_of d rid) out.2.
Proof.
  intros Hv g Hg out.
  destruct (served_method t v (ClientServing_grantInbound d) Hv) as (r & Hl & Hp & ((K1 & K2 & _) & _) & E1 & E2 & E3 & Hrun).
  assert (ClientServing_grantInbound d r = (tt, upd_vs_inboundDelivered (fun _ => g.1) r,
    (fun k => VReply (NewStreamCredit d (vs_requestId r) k)) <$> option_list g.2)) as Hm.
  { unfold ClientServing_grantInbound. unM. rewrite E2, E3. fold g. by destruct g as [n [k|]]. }
  destruct (Hrun _ _ _ (rv_pump v) Hm) as [Hv' Ho]; [done|done|cbn; intros Hf; split; [done|by destruct g as [? []]]|].
  unfold out. rewrite Hv', Ho. cbn. rewrite E1, E3. split; [done|].
  unfold all_parsed. destruct g as [n [k|]]; cbn; [|done]. by rewrite (credit_frame d rid (vs_requestId r)) by (done || by apply Hg).
Qed.

(** A stream the client serves is a receiver that did not open it. *)
Definition served_receiver : Receiver d growcap rid rpcClient.
Proof.
  refine (mkReceiver d growcap rid rpcClient false served_view (fun m => cl_run (handleFrame d growcap de m))
    (fun t => (cl_run (on_serving l (on_inPump pump_take)) t).1)
    (fun t => (cl_run (on_serving l (on_inPump pump_deliver)) t).1)
    (cl_run (on_serving l (ClientServing_grantInbound d))) (fun t => (t, [])) _ _ _ _ _ _ _ _).
  - done.
  - intros m x t v p' Hv He (Hmt & Hid & Hf)%item_of_inv HP Ho.
    destruct (served_value t v m (Some x) p' Hv He Hmt Hid) as [? ->]; [by rewrite Hf|done|done].
  - intros m t v Hv He Ho (Hmt & Hid & Hf & _)%item_of_inv.
    destruct (served_value t v m None (rv_pump v) Hv He Hmt Hid) as [-> ->]; [by rewrite Hf|done|by destruct v].
  - intros m t v Hv He (Hmt & Hid & Hf & _)%item_of_inv. destruct (served_end t v m Hv He Hmt Hid Hf) as [? ->]. done.
  - intros t v p' Hv Hpc Hr. apply served_pump; [done|]. unfold pump_take. by rewrite Hpc.
  - intros t v x Hv Hpc. apply served_pump; [done|]. unfold pump_deliver. by rewrite Hpc.
  - apply served_hook.
  - done.
Defined.

(** *** As a sender *)

(** Where the streamer is: before the acknowledgement, or in its loop. *)
Inductive served_pc := ServedUnready | ServedAt (s : streamer_state).
Abbreviation served_state := (rpcClient * served_pc)%type.

Definition served_pos (pc : served_pc) : send_pc :=
  match pc with
  | ServedUnready => Unready
  | ServedAt Streaming => Idle
  | ServedAt (Waiting v) => Holding v
  | ServedAt Exited => Done
  end.

Definition outbound_ok (t : rpcClient) (r : clientServingRequest) (g : CreditGate) : Prop :=
  served_ok t r /\ closed g = false /\ vs_closed r = false /\ cl_servingMap t !! rid = Some l.
#[local] Instance outbound_ok_dec t r g : Decision (outbound_ok t r g).
Proof. unfold outbound_ok, served_ok. apply _. Defined.

Definition streamer_view (s : served_state) : option sview :=
  match served_pos s.2 with
  | Done => Some (mkSV Done NewCreditGate)
  | k =>
      match cl_servings s.1 !! l with
      | Some r =>
          match vs_sendCredit r with
          | Some g => if decide (outbound_ok s.1 r g) then Some (mkSV k g) else None
          | None => None
          end
      | None => None
      end
  end.
#[local] Arguments streamer_view : simpl never.

Lemma served_streamer_inv t pc sv :
  streamer_view (t, pc) = Some sv -> served_pos pc <> Done ->
  exists r c g, sv = mkSV (served_pos pc) g /\ cl_servings t !! l = Some r /\ cl_conn t = Some c /\
    vs_sendCredit r = Some g /\ outbound_ok t r g.
Proof.
  unfold streamer_view. cbn [fst snd]. intros Hv Hk.
  destruct (cl_servings t !! l) as [r|]; [|by destruct (served_pos pc)].
  destruct (vs_sendCredit r) as [g|] eqn:Eg; [|by destruct (served_pos pc)].
  case_decide as Hs; [|by destruct (served_pos pc)].
  pose proof Hs as ((_ & _ & [c Hc]) & _). exists r, c, g. split; [destruct (served_pos pc); naive_solver|]. by do 3 (split; [done|]).
Qed.

Lemma served_streamer_set t pc r g :
  cl_servings t !! l = Some r -> vs_sendCredit r = Some g -> outbound_ok t r g -> served_pos pc <> Done ->
  streamer_view (t, pc) = Some (mkSV (served_pos pc) g).
Proof.
  intros Hl Hg Hs Hk. unfold streamer_view. cbn [fst snd]. destruct (served_pos pc); try done; rewrite Hl, Hg, decide_True by done; done.
Qed.

(** A method of the stream run by the streamer. *)
Definition streamer_run {A} (m : M clientServingRequest vs_ev A) (next : A -> served_pc) (t : rpcClient) : served_state * list VMap :=
  let y := on_serving l m t in
  ((m_st y, match m_res y with Some a => next a | None => ServedAt Exited end), omap client_sent (m_out y)).

Definition streamer_act (x : option (option Value)) (s : served_state) : served_state * list VMap :=
  let t := s.1 in
  match s.2 with
  | ServedUnready => streamer_run (run_vs_op d growcap VOpReady) (fun _ => ServedAt Streaming) t
  | ServedAt Streaming =>
      match x with
      | None => streamer_run (streamer_iter d OutClosed) ServedAt t
      | Some v =>
          (* the value is received; the rest of the iteration is streamer_send *)
          match cl_servings t !! l with
          | Some r => if vs_closed r then streamer_run (streamer_iter d (OutValue v)) ServedAt t else ((t, ServedAt (Waiting v)), [])
          | None => ((t, ServedAt Exited), [])
          end
      end
  | ServedAt (Waiting v) => streamer_run (streamer_send d v) ServedAt t
  | ServedAt Exited => (s, [])
  end.

Lemma streamer_run_eq {A} (m : M clientServingRequest vs_ev A) next t r c a r' evs :
  cl_servings t !! l = Some r -> cl_conn t = Some c -> m r = (a, r', evs) ->
  streamer_run m next t = ((foldl vs_effect (upd_cl_servings (insert l r') t) evs, next a), omap vs_frame evs).
Proof. intros Hl Hc Hm. unfold streamer_run. by rewrite (cl_run_serving l m r a r' evs t c Hl Hc Hm), m_res_eq, m_st_eq, m_out_eq, sent_frames. Qed.

Lemma served_act_law x s sv :
  streamer_view s = Some sv -> exists sv', streamer_view (streamer_act x s).1 = Some sv' /\
    sender_acts true sv x sv' (omap (item_of d rid) (streamer_act x s).2) /\ all_parsed (item_of d rid) (streamer_act x s).2.
Proof.
  destruct s as [t pc]. intros Hv. unfold streamer_act, all_parsed. cbn [fst snd].
  destruct pc as [|[|v|]]; try (destruct (served_streamer_inv _ _ _ Hv ltac:(done)) as (r & c & g & -> & Hl & Hc & Hg & Hs);
    pose proof Hs as ((Hn & Hid & Hco) & Hcl & Hvc & Hmap)); cbn [served_pos] in *.
  - assert (run_vs_op d growcap VOpReady r = (tt, r, [VReply (NewStreamReady d (vs_requestId r))])) as Hm by done.
    rewrite (streamer_run_eq _ _ t r c _ r _ Hl Hc Hm). cbn [foldl vs_effect omap list_omap vs_frame fst snd].
    rewrite (ready_item d rid (vs_requestId r)) by done. eexists. split; [|split; [constructor|done]].
    apply (served_streamer_set _ (ServedAt Streaming) r g); [cbn; by rewrite lookup_insert_eq|done..].
  - destruct x as [v|].
    + rewrite Hl, Hvc. cbn. eexists. split; [by apply (served_streamer_set t (ServedAt (Waiting v)) r g)|split; [constructor|done]].
    + assert (exists r' evs, streamer_iter d OutClosed r = (Exited, r', VReply (NewStreamEnd d (vs_requestId r) None) :: evs) /\ omap vs_frame evs = [])
        as (r' & evs & Hm & He).
      { unfold streamer_iter, ClientServing_closeRequest, ClientServing_deleteServing, ClientServing_Close, ClientServing_cancelCtx. unM.
        rewrite Hvc. cbn. destruct (vs_cancel r); cbn; by eexists _, _. }
      rewrite (streamer_run_eq _ ServedAt t r c _ r' _ Hl Hc Hm), (omap_app vs_frame [_] evs : omap _ (_ :: _) = _), He.
      cbn [omap list_omap app vs_frame fst snd]. rewrite (end_item d rid (vs_requestId r)) by done. eexists. split; [reflexivity|split; [constructor|done]].
  - destruct (Acquire g) as [[[] g']|] eqn:Ea.
    + assert (closed g' = false) as Hcl' by (rewrite <- Hcl; by eapply Acquire_closed).
      assert (streamer_send d v r = (Streaming, upd_vs_sendCredit (fun _ => Some g') r, [VReply (NewStreamValue d (vs_requestId r) v)])) as Hm
        by (unfold streamer_send; unM; by rewrite Hg, Ea).
      rewrite (streamer_run_eq _ ServedAt t r c _ _ _ Hl Hc Hm). cbn [foldl vs_effect omap list_omap vs_frame fst snd].
      rewrite (value_frame_item d rid (vs_requestId r)) by done. eexists. split; [|split; [by constructor|done]].
      apply (served_streamer_set _ (ServedAt Streaming) (upd_vs_sendCredit (fun _ => Some g') r) g'); [cbn; by rewrite lookup_insert_eq|done..].
    + exfalso. unfold Acquire in Ea. rewrite Hcl in Ea. by destruct (_ && _).
    + assert (streamer_send d v r = (Waiting v, r, [])) as Hm by (unfold streamer_send; unM; by rewrite Hg, Ea).
      rewrite (streamer_run_eq _ ServedAt t r c _ _ _ Hl Hc Hm). cbn [foldl vs_effect omap list_omap vs_frame fst snd].
      eexists. split; [|split; [by constructor|done]].
      apply (served_streamer_set _ (ServedAt (Waiting v)) r g); [cbn; by rewrite lookup_insert_eq|done..].
  - unfold streamer_view in Hv. cbn in Hv. injection Hv as <-. eexists. split; [reflexivity|split; [constructor|done]].
Qed.

Lemma served_credit_law m n s k g :
  streamer_view s = Some (mkSV k g) -> credit_of d rid m = Some n ->
  let out := cl_run (handleFrame d growcap de m) s.1 in
  exists g', streamer_view (out.1, s.2) = Some (mkSV k g') /\ (k <> Done -> g' = Grant n g) /\ out.2 = [].
Proof.
  destruct s as [t pc]. intros Hv (Hmt & Hid & cv & Hcv & <-)%credit_of_inv out. cbn [fst snd] in *.
  assert (out.2 = []) as -> by (unfold out, cl_run; cbn [snd]; by eapply credit_frame_silent).
  destruct (is_done (served_pos pc)) eqn:Ed.
  { assert (served_pos pc = Done) as Ep by by destruct (served_pos pc). unfold streamer_view in *. cbn [fst snd] in *. rewrite Ep in *.
    injection Hv as <- <-. by exists NewCreditGate. }
  destruct (served_streamer_inv _ _ _ Hv) as (r & c & g0 & [= -> ->] & Hl & Hc & Hg & Hs); [by intros E; rewrite E in Ed|].
  pose proof Hs as ((Hn & Hi & Hco) & Hcl & Hvc & Hmap).
  exists (Grant (longOf cv) g0). split; [|done].
  unfold out, cl_run. cbn [fst]. rewrite (stream_routed m _ t Hmt Hid) by auto. rewrite Hmap, M_bind_st.
  set (r' := upd_vs_sendCredit (fun _ => Some (Grant (longOf cv) g0)) r).
  assert (serveRunning d growcap StreamCredit m r = (tt, r', [])) as Hm.
  { unfold serveRunning. cbn [Z.eqb Pos.eqb CancelRequest StreamValue StreamEnd StreamCredit]. rewrite Hcv. unM.
    unfold r', upd_vs_sendCredit. by rewrite Hg. }
  rewrite (cl_run_serving l _ r tt r' [] t c Hl Hc Hm), m_st_eq. cbn [foldl mret M_ret m_st fst snd].
  apply (served_streamer_set _ pc r'); [cbn; by rewrite lookup_insert_eq|done| |by intros E; rewrite E in Ed].
  split_and!; try done. by rewrite Grant_closed.
Qed.

(** The client's streamer is a sender that did not open the stream. *)
Definition served_sender : Sender d rid served_state :=
  mkSender d rid served_state true streamer_view streamer_act
    (fun m s => let y := cl_run (handleFrame d growcap de m) s.1 in ((y.1, s.2), y.2))
    served_act_law served_credit_law.

End served.

End client_ends.
