(* ===== verification/ServerEnds.v ===== *)
(** * The server's ends of a stream

    The served request as the receiver of a put stream or chat and as the sender
    of a get stream or chat, and the stream the server opened itself as their
    mirror images, shown to be a [Receiver] and a [Sender] (StreamLink.v).  The
    operations are the session's own (ServingClient.v): the read loop's
    processRequest, the pump's actions and deliver hook, outgoingStreamer,
    sendInitialCredit and streamOut. *)

From S2P Require Import Prelude Value RefValue Protocol Verify Credit Pump FlowControl Request Metadata.
From S2P Require Import ClientStream ServingClient ServingSystem ServingProps Framing MsgConn ClientProps EndToEnd StreamLink.

Section server_ends.
Context `{ValueLib} (d : Dialect) `{!dialect_ok d} (growcap : nat -> nat) (pickDone : servingClient -> VMap -> bool) (rid : Z).
Hypothesis rid_range : in_int64 rid.

Abbreviation SC := (M servingClient sc_ev).

(** A piece of session code as a transition that sends frames. *)
Definition sv_run {A} (m : SC A) (t : servingClient) : servingClient * list VMap :=
  (m_st (m t), omap session_sent (m_out (m t))).

(** ** Shared lemmas *)

(** Stream frames are routed to the opened stream or the served request of their
    id. *)
Lemma session_routed req mt t :
  messageType d req = Some mt -> requestIdOf d req = Some rid ->
  mt = StreamReady \/ mt = StreamValue \/ mt = StreamEnd \/ mt = StreamCredit ->
  processRequest d growcap pickDone req t =
    match sc_pendingStreams t !! rid with
    | Some l => handleInbound d growcap pickDone l mt req t
    | None =>
        match sc_requestMap t !! rid with
        | Some l => (serveRunningRequest d growcap pickDone l mt req ≫= fun e => mret (Handled e)) t
        | None => (serveNewRequest d pickDone mt req ≫= fun e => mret (Handled e)) t
        end
    end.
Proof.
  intros (v & Hv & Hl)%messageType_field Hid Hmt. unfold processRequest, requestIdOf in *. rewrite M_gets_bind, Hv, Hl. cbn [id].
  destruct (GetNumberField req (RequestIdField d)) as [idV|]; [|done]. injection Hid as Hid.
  unfold findPendingStream. rewrite M_gets_bind, Hid. destruct (sc_pendingStreams t !! rid) as [l|]; [done|].
  assert (mt <> FunctionResponse /\ mt <> ErrorResponse /\ mt <> CancelRequest) as (N1 & N2 & N3)
    by (destruct Hmt as [->|[->|[->| ->]]]; done).
  rewrite (proj2 (Z.eqb_neq _ _) N1), (proj2 (Z.eqb_neq _ _) N2), (proj2 (Z.eqb_neq _ _) N3). cbn [orb].
  by destruct (sc_requestMap t !! rid).
Qed.

(** A credit never makes the session send anything. *)
Lemma session_credit_silent m t c :
  messageType d m = Some StreamCredit -> requestIdOf d m = Some rid -> GetNumberField m (CreditField d) = Some c ->
  (sv_run (processRequest d growcap pickDone m) t).2 = [].
Proof.
  intros Hmt Hid Hc. unfold sv_run. cbn [snd]. rewrite (session_routed m _ t Hmt Hid) by auto.
  destruct (sc_pendingStreams t !! rid) as [l|].
  - unfold handleInbound. rewrite M_gets_bind. cbn [id]. destruct (sc_streams t !! l) as [cs|]; [|done].
    cbn [Z.eqb Pos.eqb StreamReady StreamValue StreamEnd StreamCredit]. by rewrite Hc.
  - destruct (sc_requestMap t !! rid) as [l|]; [|done]. rewrite M_bind_ret, m_out_eq.
    unfold serveRunningRequest, get_request. rewrite M_gets_bind. destruct (sc_requests t !! l) as [r|]; [|done].
    cbn [Z.eqb Pos.eqb CancelRequest StreamValue StreamEnd StreamCredit]. by rewrite Hc.
Qed.

Lemma credit_sent reqId (g : option Z) :
  kindOf reqId = NUMBER -> longOf reqId = rid -> (forall n, g = Some n -> in_int64 n) ->
  omap (credit_of d rid) (option_list ((fun n => NewStreamCredit d reqId n) <$> g)) = option_list g.
Proof.
  intros Hn Hl Hg. destruct g as [n|]; [|done]. cbn. by rewrite (credit_frame d rid reqId) by auto.
Qed.

(** Retiring a request sends nothing. *)
Lemma retire_silent reqId (r : servingRequest) t :
  exists t' evs, (deleteRequest reqId ≫= fun _ => cancelCtx r) t = (tt, t', evs) /\ omap session_sent evs = [] /\
    sc_requests t' = sc_requests t /\ sc_done t' = sc_done t.
Proof.
  unfold deleteRequest, cancelCtx, cancelContext. unM.
  destruct (sc_requestMap t !! longOf reqId) as [l|]; cbn; [destruct (sc_requests t !! l); cbn|];
    (destruct (sr_cancel r); cbn; by eexists _, _).
Qed.

Lemma closeRequest_silent l (r : servingRequest) t : omap session_sent (m_out (closeRequest l r t)) = [].
Proof.
  unfold closeRequest. rewrite M_bind_out, omap_app.
  assert (omap session_sent (m_out (deleteRequest (sr_requestId r) t)) = []) as ->.
  - unfold deleteRequest. unM. destruct (sc_requestMap t !! _) as [l'|]; cbn; [|done]. by destruct (sc_requests t !! l').
  - unfold ServingRequest_Close, get_request. rewrite M_gets_bind. destruct (sc_requests _ !! l) as [r'|]; [|done].
    destruct (sr_closed r'); [done|]. unfold cancelCtx. by destruct (sr_cancel r').
Qed.

(** ** A served request *)

Section served.
Context (l : nat).

Definition request_ok (t : servingClient) (r : servingRequest) : Prop :=
  kindOf (sr_requestId r) = NUMBER /\ longOf (sr_requestId r) = rid /\ sc_done t = false.
Definition registered (t : servingClient) : Prop :=
  sc_requestMap t !! rid = Some l /\ sc_pendingStreams t !! rid = None.

(** *** As a receiver *)

Definition inbound_ok (t : servingClient) (r : servingRequest) : Prop :=
  request_ok t r /\ (sr_inClosed r = false -> registered t).
#[local] Instance inbound_ok_dec t r : Decision (inbound_ok t r).
Proof. unfold inbound_ok, request_ok, registered. apply _. Defined.

Definition inbound_view (t : servingClient) : option rview :=
  match sc_requests t !! l with
  | Some r =>
      match sr_inPump r with
      | Some p => if decide (inbound_ok t r) then Some (mkRV p (sr_inboundDelivered r) (sr_creditWindow r) (sr_inClosed r)) else None
      | None => None
      end
  | None => None
  end.
#[local] Arguments inbound_view : simpl never.

Lemma inbound_view_inv t v :
  inbound_view t = Some v ->
  exists r, sc_requests t !! l = Some r /\ sr_inPump r = Some (rv_pump v) /\ inbound_ok t r /\
    sr_inboundDelivered r = rv_delivered v /\ sr_creditWindow r = rv_window v /\ sr_inClosed r = rv_ended v.
Proof.
  unfold inbound_view. destruct (sc_requests t !! l) as [r|]; [|done]. destruct (sr_inPump r) as [p|] eqn:Ep; [|done].
  case_decide as Hd; [|done]. intros [= <-]. exists r. do 2 (split; [done|]). by split.
Qed.

(** What a method leaves of the object and of its registration. *)
Lemma inbound_view_set t t' r r' p :
  inbound_ok t r -> sc_requests t' !! l = Some r' -> sr_inPump r' = Some p -> sr_requestId r' = sr_requestId r ->
  sc_done t' = sc_done t ->
  (sr_inClosed r' = false -> sr_inClosed r = false /\ sc_requestMap t' = sc_requestMap t /\ sc_pendingStreams t' = sc_pendingStreams t) ->
  inbound_view t' = Some (mkRV p (sr_inboundDelivered r') (sr_creditWindow r') (sr_inClosed r')).
Proof.
  intros [(K1 & K2 & K3) K4] Hl Hp Hid Hd Hreg. unfold inbound_view. rewrite Hl, Hp, decide_True; [done|].
  split; [split_and!; congruence|]. intros Hf. destruct (Hreg Hf) as (Hf' & E1 & E2). unfold registered. rewrite E1, E2. by apply K4.
Qed.

Lemma inbound_frame t r m mt :
  inbound_ok t r -> sr_inClosed r = false -> messageType d m = Some mt -> requestIdOf d m = Some rid ->
  mt = StreamReady \/ mt = StreamValue \/ mt = StreamEnd \/ mt = StreamCredit ->
  sv_run (processRequest d growcap pickDone m) t = sv_run (serveRunningRequest d growcap pickDone l mt m) t.
Proof.
  intros [_ Hreg] Hf Hmt Hid Hk. destruct (Hreg Hf) as [E1 E2]. unfold sv_run.
  by rewrite (session_routed m mt t Hmt Hid Hk), E2, E1, M_bind_ret.
Qed.

Lemma inbound_value t v m x p' :
  inbound_view t = Some v -> rv_ended v = false -> messageType d m = Some StreamValue -> requestIdOf d m = Some rid ->
  fieldOrNil m (ValueField d) = Some x -> Push None growcap (Some x) (rv_pump v) = (true, p') -> overflow p' = false ->
  let out := sv_run (processRequest d growcap pickDone m) t in
  inbound_view out.1 = Some (rv_with_pump p' v) /\ out.2 = [].
Proof.
  intros Hv He Hmt Hid (Hx & Hk)%fieldOrNil_value HP Ho out. destruct (inbound_view_inv t v Hv) as (r & Hl & Hp & Hok & E1 & E2 & E3).
  unfold out. rewrite (inbound_frame t r m _ Hok ltac:(congruence) Hmt Hid) by auto.
  set (r' := upd_sr_inPump (fun _ => Some p') r). set (t1 := upd_sc_requests (alter (fun r => (offer growcap (Some x) r).2) l) t).
  assert (sc_requests t1 !! l = Some r') as Hl1
    by (cbn; rewrite lookup_alter_eq, Hl; cbn; unfold offer; rewrite Hp, HP; done).
  assert (serveRunningRequest d growcap pickDone l StreamValue m t = (None, t1, [EStreamValue (sr_method r)])) as Hrun.
  { unfold serveRunningRequest, get_request. rewrite M_gets_bind, Hl. cbn [Z.eqb Pos.eqb CancelRequest StreamValue].
    unfold incomingStreamValue. rewrite Hp, Hx.
    rewrite (isNull_kind x Hk).
    unfold upd_request. rewrite M_assoc, M_modify_bind. fold t1. rewrite M_left_id.
    rewrite (M_run_bind (emit _) _ _ _ _ _ eq_refl), M_gets_bind, Hl1. unfold r'. cbn. unfold Overflowed. by rewrite Ho. }
  unfold sv_run. rewrite Hrun. cbn [m_st m_out fst snd]. split; [|done].
  rewrite (inbound_view_set t t1 r r' p' Hok Hl1) by done. cbn. by rewrite E1, E2, E3.
Qed.

Lemma inbound_null t v m :
  inbound_view t = Some v -> rv_ended v = false -> messageType d m = Some StreamValue -> requestIdOf d m = Some rid ->
  Get m (ValueField d) = Some Null -> overflow (rv_pump v) = false ->
  sv_run (processRequest d growcap pickDone m) t = (t, []).
Proof.
  intros Hv He Hmt Hid Hx Ho. destruct (inbound_view_inv t v Hv) as (r & Hl & Hp & Hok & E1 & E2 & E3).
  rewrite (inbound_frame t r m _ Hok ltac:(congruence) Hmt Hid) by auto. unfold sv_run.
  assert (isNull Null = true) as Hn by by apply isNull_spec.
  unfold serveRunningRequest, get_request. rewrite M_gets_bind, Hl. cbn [Z.eqb Pos.eqb CancelRequest StreamValue].
  unfold incomingStreamValue. rewrite Hp, Hx, Hn. rewrite M_left_id, (M_run_bind (emit _) _ _ _ _ _ eq_refl), M_gets_bind, Hl, Hp.
  unfold Overflowed. by rewrite Ho.
Qed.

Lemma inbound_end t v m :
  inbound_view t = Some v -> rv_ended v = false -> messageType d m = Some StreamEnd -> requestIdOf d m = Some rid ->
  Get m (ValueField d) = Some Null ->
  let out := sv_run (processRequest d growcap pickDone m) t in
  inbound_view out.1 = Some (mkRV (Close (rv_pump v)) (rv_delivered v) (rv_window v) true) /\ out.2 = [].
Proof.
  intros Hv He Hmt Hid Hx out. destruct (inbound_view_inv t v Hv) as (r & Hl & Hp & Hok & E1 & E2 & E3).
  unfold out. rewrite (inbound_frame t r m _ Hok ltac:(congruence) Hmt Hid) by auto.
  set (r' := closeInboundChan r). set (t1 := upd_sc_requests (alter closeInboundChan l) t).
  assert (sc_requests t1 !! l = Some r') as Hl1 by (unfold t1; cbn; by rewrite lookup_alter_eq, Hl).
  assert (r' = upd_sr_inPump (fmap Close) (upd_sr_inClosed (fun _ => true) r)) as Er
    by (unfold r', closeInboundChan; by rewrite E3, He).
  assert (exists t' evs, serveRunningRequest d growcap pickDone l StreamEnd m t = (None, t', evs) /\
    omap session_sent evs = [] /\ sc_requests t' = sc_requests t1 /\ sc_done t' = sc_done t) as (t' & evs & Hrun & Hev & Hr1 & Hd1).
  { unfold serveRunningRequest, get_request. rewrite M_gets_bind, Hl. cbn [Z.eqb Pos.eqb CancelRequest StreamValue StreamEnd].
    unfold incomingStreamEnd. rewrite Hp, Hx, isNull_Null, M_left_id. unfold upd_request. rewrite M_modify_bind. fold t1.
    case_decide; [by eexists t1, []|].
    destruct (retire_silent (sr_requestId r) r t1) as (t' & evs & Hq & Hev & Hr1 & Hd1). exists t', evs.
    rewrite <- M_assoc, M_bind_ret, Hq. done. }
  unfold sv_run. rewrite Hrun, m_st_eq, m_out_eq. cbn [fst snd]. split; [|done].
  rewrite <- Hr1 in Hl1. rewrite (inbound_view_set t t' r r' (Close (rv_pump v)) Hok Hl1); rewrite ?Er; cbn; rewrite ?Hp; try done.
  by rewrite E1, E2.
Qed.

(** The pump's actions and its hook. *)
Lemma inbound_pump t v f p' :
  inbound_view t = Some v -> f (rv_pump v) = Some p' ->
  inbound_view (sv_run (pump_request d pickDone l f false) t).1 = Some (rv_with_pump p' v).
Proof.
  intros Hv Hf. destruct (inbound_view_inv t v Hv) as (r & Hl & Hp & Hok & E1 & E2 & E3).
  set (r' := upd_sr_inPump (fun _ => Some p') r). set (t1 := upd_sc_requests (alter (upd_sr_inPump (fun _ => Some p')) l) t).
  assert (sc_requests t1 !! l = Some r') as Hl1 by (unfold t1; cbn; by rewrite lookup_alter_eq, Hl).
  unfold sv_run, pump_request. rewrite M_gets_bind. cbn [id]. rewrite Hl, Hp. cbn [mbind option_bind]. rewrite Hf.
  unfold upd_request. rewrite M_modify_bind. fold t1. cbn [when mret M_ret m_st fst snd].
  rewrite (inbound_view_set t t1 r r' p' Hok Hl1) by done. cbn. by rewrite E1, E2, E3.
Qed.

Lemma inbound_hook t v :
  inbound_view t = Some v -> let g := grantRecv (rv_window v) (rv_delivered v) in
  (forall n, g.2 = Some n -> in_int64 n) ->
  let out := sv_run (grantInbound d pickDone l) t in
  inbound_view out.1 = Some (mkRV (rv_pump v) g.1 (rv_window v) (rv_ended v)) /\ omap (credit_of d rid) out.2 = option_list g.2 /\ all_parsed (credit_of d rid) out.2.
Proof.
  intros Hv g Hg out. destruct (inbound_view_inv t v Hv) as (r & Hl & Hp & Hok & E1 & E2 & E3).
  pose proof Hok as [(K1 & K2 & K3) _].
  set (r' := upd_sr_inboundDelivered (fun _ => g.1) r). set (t1 := upd_sc_requests (alter (upd_sr_inboundDelivered (fun _ => g.1)) l) t).
  assert (sc_requests t1 !! l = Some r') as Hl1 by (unfold t1; cbn; by rewrite lookup_alter_eq, Hl).
  assert (grantInbound d pickDone l t = (tt, t1, ESend <$> option_list ((fun n => NewStreamCredit d (sr_requestId r) n) <$> g.2))) as Hrun.
  { unfold grantInbound, get_request. rewrite M_gets_bind, Hl, E1, E2. fold g. unfold t1. clearbody g. destruct g as [n [k|]];
      unfold upd_request; rewrite M_modify_bind; [|done]. by rewrite send_open. }
  unfold out, sv_run. rewrite Hrun, m_st_eq, m_out_eq. cbn [fst snd]. split.
  - rewrite (inbound_view_set t t1 r r' (rv_pump v) Hok Hl1) by done. cbn. by rewrite E2, E3.
  - unfold all_parsed. pose proof (credit_sent (sr_requestId r) g.2 K1 K2 Hg) as Hcs. destruct g.2; cbn in *; [|done]. by rewrite Hcs.
Qed.

(** The served request is a receiver that did not open the stream. *)
Definition inbound_receiver : Receiver d growcap rid servingClient.
Proof.
  refine (mkReceiver d growcap rid servingClient false inbound_view (fun m => sv_run (processRequest d growcap pickDone m))
    (fun t => (sv_run (pump_request d pickDone l pump_take false) t).1)
    (fun t => (sv_run (pump_request d pickDone l pump_deliver false) t).1)
    (sv_run (grantInbound d pickDone l)) (fun t => (t, [])) _ _ _ _ _ _ _ _).
  - done.
  - intros m x t v p' Hv He (Hmt & Hid & Hf)%item_of_inv HP Ho.
    by destruct (inbound_value t v m x p' Hv He Hmt Hid Hf HP Ho) as [? ->].
  - intros m t v Hv He Ho (Hmt & Hid & Hf & Hx)%item_of_inv. by rewrite (inbound_null t v m Hv He Hmt Hid Hx Ho).
  - intros m t v Hv He (Hmt & Hid & Hf & Hx)%item_of_inv. by destruct (inbound_end t v m Hv He Hmt Hid Hx) as [? ->].
  - intros t v p' Hv Hpc Hr. apply inbound_pump; [done|]. unfold pump_take. by rewrite Hpc.
  - intros t v x Hv Hpc. apply inbound_pump; [done|]. unfold pump_deliver. by rewrite Hpc.
  - apply inbound_hook.
  - done.
Defined.

(** *** As a sender *)

Abbreviation streamer_state := (servingClient * streamer_pc)%type.

Definition streamer_pos (pc : streamer_pc) : send_pc :=
  match pc with SReady => Unready | SSelect => Idle | SAcquire v => Holding v | SExit => Done end.

Definition outbound_ok (t : servingClient) (r : servingRequest) (g : CreditGate) : Prop :=
  request_ok t r /\ closed g = false /\ sr_closed r = false /\ registered t.
#[local] Instance outbound_ok_dec t r g : Decision (outbound_ok t r g).
Proof. unfold outbound_ok, request_ok, registered. apply _. Defined.

Definition streamer_view (s : streamer_state) : option sview :=
  match streamer_pos s.2 with
  | Done => Some (mkSV Done NewCreditGate)
  | k =>
      match sc_requests s.1 !! l with
      | Some r =>
          match sr_sendCredit r with
          | Some g => if decide (outbound_ok s.1 r g) then Some (mkSV k g) else None
          | None => None
          end
      | None => None
      end
  end.
#[local] Arguments streamer_view : simpl never.

Lemma streamer_view_inv t pc sv :
  streamer_view (t, pc) = Some sv -> streamer_pos pc <> Done ->
  exists r g, sv = mkSV (streamer_pos pc) g /\ sc_requests t !! l = Some r /\ sr_sendCredit r = Some g /\ outbound_ok t r g.
Proof.
  unfold streamer_view. cbn [fst snd]. intros Hv Hk.
  destruct (sc_requests t !! l) as [r|]; [|by destruct (streamer_pos pc)].
  destruct (sr_sendCredit r) as [g|] eqn:Eg; [|by destruct (streamer_pos pc)].
  case_decide as Hs; [|by destruct (streamer_pos pc)].
  exists r, g. split; [destruct (streamer_pos pc); naive_solver|]. by do 2 (split; [done|]).
Qed.

Lemma streamer_view_set t pc r g :
  sc_requests t !! l = Some r -> sr_sendCredit r = Some g -> outbound_ok t r g -> streamer_pos pc <> Done ->
  streamer_view (t, pc) = Some (mkSV (streamer_pos pc) g).
Proof.
  intros Hl Hg Hs Hk. unfold streamer_view. cbn [fst snd].
  destruct (streamer_pos pc); try done; rewrite Hl, Hg, decide_True by done; done.
Qed.

(** One action of outgoingStreamer. *)
Definition streamer_act (x : option (option Value)) (s : streamer_state) : streamer_state * list VMap :=
  let run {A} (m : SC A) (next : A -> streamer_pc) := ((m_st (m s.1), next (m_res (m s.1))), omap session_sent (m_out (m s.1))) in
  match s.2 with
  | SReady => run (streamer_ready d pickDone l) id
  | SSelect => run (streamer_select d pickDone l (match x with Some v => OutValue v | None => OutClosed end)) id
  | SAcquire v => run (streamer_acquire d pickDone l v) (default (SAcquire v))
  | SExit => (s, [])
  end.

Lemma streamer_act_law x s sv :
  streamer_view s = Some sv -> exists sv', streamer_view (streamer_act x s).1 = Some sv' /\
    sender_acts true sv x sv' (omap (item_of d rid) (streamer_act x s).2) /\ all_parsed (item_of d rid) (streamer_act x s).2.
Proof.
  destruct s as [t pc]. intros Hv. unfold streamer_act, all_parsed. cbn [fst snd].
  destruct pc as [| |v|]; try (destruct (streamer_view_inv _ _ _ Hv ltac:(done)) as (r & g & -> & Hl & Hg & Hs);
    pose proof Hs as ((Hn & Hid & Hd) & Hcl & Hsc & Hmap)); cbn [streamer_pos] in *.
  - assert (streamer_ready d pickDone l t = (SSelect, t, [ESend (NewStreamReady d (sr_requestId r))])) as ->.
    { unfold streamer_ready, get_request. rewrite M_gets_bind, Hl, (M_run_bind _ _ _ _ _ _ (send_open _ _ t Hd)). done. }
    cbn. rewrite (ready_item d rid (sr_requestId r)) by done.
    eexists. split; [by apply (streamer_view_set t SSelect r g)|split; [constructor|done]].
  - destruct x as [v|].
    + assert (streamer_select d pickDone l (OutValue v) t = (SAcquire v, t, [])) as ->
        by (unfold streamer_select, get_request; rewrite M_gets_bind, Hl, Hsc; done).
      cbn. eexists. split; [by apply (streamer_view_set t (SAcquire v) r g)|split; [constructor|done]].
    + assert (exists t' evs, streamer_select d pickDone l OutClosed t = (SExit, t', ESend (NewStreamEnd d (sr_requestId r) None) :: evs) /\
        omap session_sent evs = []) as (t' & evs & -> & He).
      { unfold streamer_select, get_request. rewrite M_gets_bind, Hl. cbn [negb orb].
        rewrite (M_run_bind _ _ _ _ _ _ (send_open _ _ t Hd)), M_bind_ret. eexists _, _. split; [reflexivity|]. apply closeRequest_silent. }
      rewrite m_st_eq, m_res_eq, m_out_eq. rewrite (omap_app session_sent [_] evs : omap _ (_ :: _) = _), He.
      cbn [omap list_omap app session_sent fst snd]. rewrite (end_item d rid (sr_requestId r)) by done.
      eexists. split; [reflexivity|split; [constructor|done]].
  - unfold streamer_acquire, get_request. rewrite M_gets_bind, Hl, Hg. destruct (Acquire g) as [[[] g']|] eqn:Ea.
    + assert (closed g' = false) as Hcl' by (rewrite <- Hcl; by eapply Acquire_closed).
      unfold upd_request. rewrite M_modify_bind. set (t1 := upd_sc_requests _ t).
      assert (sc_requests t1 !! l = Some (upd_sr_sendCredit (fun _ => Some g') r)) as Hl1 by (unfold t1; cbn; by rewrite lookup_alter_eq, Hl).
      rewrite (M_run_bind _ _ _ _ _ _ (send_open _ _ t1 Hd)). cbn [m_st m_res m_out emit mbind M_bind mret M_ret fst snd app omap list_omap session_sent default].
      rewrite (value_frame_item d rid (sr_requestId r)) by done. eexists. split; [|split; [by constructor|done]].
      by apply (streamer_view_set t1 SSelect _ g' Hl1).
    + exfalso. unfold Acquire in Ea. rewrite Hcl in Ea. by destruct (_ && _).
    + cbn. eexists. split; [by apply (streamer_view_set t (SAcquire v) r g)|split; [by constructor|done]].
  - unfold streamer_view in Hv. cbn in Hv. injection Hv as <-. eexists. split; [reflexivity|split; [constructor|done]].
Qed.

Lemma streamer_credit_law m n s k g :
  streamer_view s = Some (mkSV k g) -> credit_of d rid m = Some n ->
  let out := sv_run (processRequest d growcap pickDone m) s.1 in
  exists g', streamer_view (out.1, s.2) = Some (mkSV k g') /\ (k <> Done -> g' = Grant n g) /\ out.2 = [].
Proof.
  destruct s as [t pc]. intros Hv (Hmt & Hid & cv & Hcv & <-)%credit_of_inv out. cbn [fst snd] in *.
  assert (out.2 = []) as -> by by eapply session_credit_silent.
  destruct (is_done (streamer_pos pc)) eqn:Ed.
  { assert (streamer_pos pc = Done) as Ep by by destruct (streamer_pos pc). unfold streamer_view in *. cbn [fst snd] in *. rewrite Ep in *.
    injection Hv as <- <-. by exists NewCreditGate. }
  destruct (streamer_view_inv _ _ _ Hv) as (r & g0 & [= -> ->] & Hl & Hg & Hs); [by intros E; rewrite E in Ed|].
  pose proof Hs as (Hok & Hcl & Hsc & Hmap & Hps).
  exists (Grant (longOf cv) g0). split; [|done].
  unfold out, sv_run. cbn [fst]. rewrite (session_routed m _ t Hmt Hid) by auto. rewrite Hps, Hmap, M_bind_ret, m_st_eq.
  unfold serveRunningRequest, get_request. rewrite M_gets_bind, Hl. cbn [Z.eqb Pos.eqb CancelRequest StreamValue StreamEnd StreamCredit].
  rewrite Hcv. unfold upd_request. rewrite M_modify_bind. set (t1 := upd_sc_requests _ t). cbn [mret M_ret m_st fst snd].
  assert (sc_requests t1 !! l = Some (upd_sr_sendCredit (fmap (Grant (longOf cv))) r)) as Hl1 by (unfold t1; cbn; by rewrite lookup_alter_eq, Hl).
  apply (streamer_view_set t1 pc _ _ Hl1); [cbn; by rewrite Hg| |by intros E; rewrite E in Ed].
  split; [done|]. split; [by rewrite Grant_closed|done].
Qed.

(** outgoingStreamer is a sender that did not open the stream. *)
Definition streamer_sender : Sender d rid streamer_state :=
  mkSender d rid streamer_state true streamer_view streamer_act
    (fun m s => let y := sv_run (processRequest d growcap pickDone m) s.1 in ((y.1, s.2), y.2))
    streamer_act_law streamer_credit_law.

End served.

(** ** A stream the server opened *)

Section opened.
Context (l : nat).

Definition listed (t : servingClient) : Prop := sc_pendingStreams t !! rid = Some l.

Lemma on_stream_run {A} (m : M clientStream Z A) cs a cs' ns t :
  sc_streams t !! l = Some cs -> sc_done t = false -> m cs = (a, cs', ns) ->
  on_stream d pickDone l m t =
    (Some a, upd_sc_streams (insert l cs') t, (fun n => ESend (NewStreamCredit d (Long (cs_requestId cs)) n)) <$> ns).
Proof.
  intros Hl Hd Hm. unfold on_stream. rewrite M_gets_bind. cbn [id]. rewrite Hl, Hm, M_modify_bind.
  set (t1 := upd_sc_streams (insert l cs') t).
  assert (seqM (map (fun n => send_ pickDone (NewStreamCredit d (Long (cs_requestId cs)) n)) ns) t1 =
    (tt, t1, (fun n => ESend (NewStreamCredit d (Long (cs_requestId cs)) n)) <$> ns)) as Hs.
  { clear Hm. induction ns as [|n ns IH]; [done|]. cbn [map seqM].
    by rewrite (M_run_bind _ _ _ _ _ _ (send_open _ _ t1 Hd)), IH. }
  rewrite (M_run_bind _ _ _ _ _ _ Hs). cbn. by rewrite app_nil_r.
Qed.

Lemma credits_out ns :
  Forall in_int64 ns -> let out := omap session_sent ((fun n => ESend (NewStreamCredit d (Long rid) n)) <$> ns) in
  omap (credit_of d rid) out = ns /\ all_parsed (credit_of d rid) out.
Proof.
  unfold all_parsed. induction 1 as [|n ns Hn _ [IH1 IH2]]; [done|]. cbn [fmap list_fmap omap list_omap session_sent].
  rewrite (credit_frame d rid (Long rid)) by (done || apply kind_Long || by apply longOf_Long). cbn. split; by f_equal.
Qed.

(** *** As a receiver *)

Definition get_ok (t : servingClient) (cs : clientStream) : Prop :=
  cs_requestId cs = rid /\ cs_grantCredit cs = true /\ sc_done t = false /\
  (cs_getClosed cs = false -> listed t /\ cs_closeOnce cs = false).
#[local] Instance get_ok_dec t cs : Decision (get_ok t cs).
Proof. unfold get_ok, listed. apply _. Defined.

Definition get_view (t : servingClient) : option rview :=
  match sc_streams t !! l with
  | Some cs =>
      match cs_resultPump cs with
      | Some p => if decide (get_ok t cs) then Some (mkRV p (cs_recvDelivered cs) (cs_creditWindow cs) (cs_getClosed cs)) else None
      | None => None
      end
  | None => None
  end.
#[local] Arguments get_view : simpl never.

Lemma get_view_inv t v :
  get_view t = Some v ->
  exists cs, sc_streams t !! l = Some cs /\ cs_resultPump cs = Some (rv_pump v) /\ get_ok t cs /\
    cs_recvDelivered cs = rv_delivered v /\ cs_creditWindow cs = rv_window v /\ cs_getClosed cs = rv_ended v.
Proof.
  unfold get_view. destruct (sc_streams t !! l) as [cs|]; [|done]. destruct (cs_resultPump cs) as [p|] eqn:Ep; [|done].
  case_decide as Hd; [|done]. intros [= <-]. exists cs. do 2 (split; [done|]). by split.
Qed.

Lemma get_view_set t t' cs cs' p :
  get_ok t cs -> sc_streams t' !! l = Some cs' -> cs_resultPump cs' = Some p -> cs_requestId cs' = cs_requestId cs ->
  cs_grantCredit cs' = cs_grantCredit cs -> sc_done t' = sc_done t ->
  (cs_getClosed cs' = false -> cs_getClosed cs = false /\ cs_closeOnce cs' = cs_closeOnce cs /\ sc_pendingStreams t' = sc_pendingStreams t) ->
  get_view t' = Some (mkRV p (cs_recvDelivered cs') (cs_creditWindow cs') (cs_getClosed cs')).
Proof.
  intros (K1 & K2 & K3 & K4) Hl Hp Hid Hg Hd Hreg. unfold get_view. rewrite Hl, Hp, decide_True; [done|].
  split_and!; try congruence. intros Hf. destruct (Hreg Hf) as (Hf' & E1 & E2). destruct (K4 Hf'). unfold listed. split; congruence.
Qed.

(** A method of the stream that leaves its ends open. *)
Lemma get_method {A} t v (m : M clientStream Z A) :
  get_view t = Some v ->
  exists cs, sc_streams t !! l = Some cs /\ cs_resultPump cs = Some (rv_pump v) /\ get_ok t cs /\
    cs_recvDelivered cs = rv_delivered v /\ cs_creditWindow cs = rv_window v /\ cs_getClosed cs = rv_ended v /\
    forall a cs' ns p', m cs = (a, cs', ns) -> cs_resultPump cs' = Some p' -> cs_requestId cs' = cs_requestId cs ->
      cs_grantCredit cs' = cs_grantCredit cs -> cs_getClosed cs' = cs_getClosed cs -> cs_closeOnce cs' = cs_closeOnce cs ->
      on_stream d pickDone l m t = (Some a, upd_sc_streams (insert l cs') t, (fun n => ESend (NewStreamCredit d (Long rid) n)) <$> ns) /\
      get_view (upd_sc_streams (insert l cs') t) = Some (mkRV p' (cs_recvDelivered cs') (cs_creditWindow cs') (rv_ended v)).
Proof.
  intros Hv. destruct (get_view_inv t v Hv) as (cs & Hl & Hp & Hok & E1 & E2 & E3). exists cs. do 6 (split; [done|]).
  intros a cs' ns p' Hm Hp' Hid Hg Hgc Hco. pose proof Hok as (Hi & _ & Hd & _). split.
  - by rewrite (on_stream_run m cs a cs' ns t Hl Hd Hm), Hi.
  - rewrite (get_view_set t _ cs cs' p' Hok) by (done || (cbn; by rewrite lookup_insert_eq) || (intros; split_and!; done || congruence)). by rewrite Hgc, E3.
Qed.

Lemma get_frame t v m mt :
  get_view t = Some v -> rv_ended v = false -> messageType d m = Some mt -> requestIdOf d m = Some rid ->
  mt = StreamReady \/ mt = StreamValue \/ mt = StreamEnd \/ mt = StreamCredit ->
  processRequest d growcap pickDone m t = handleInbound d growcap pickDone l mt m t.
Proof.
  intros Hv He Hmt Hid Hk. destruct (get_view_inv t v Hv) as (cs & Hl & Hp & (_ & _ & _ & Hreg) & E1 & E2 & E3).
  rewrite E3 in Hreg. destruct (Hreg He) as [Hps _]. by rewrite (session_routed m mt t Hmt Hid Hk), Hps.
Qed.

Lemma value_or_nil_field m : value_or_nil d m = fieldOrNil m (ValueField d).
Proof. done. Qed.

Lemma get_notify t v m x p' mt :
  get_view t = Some v -> rv_ended v = false -> messageType d m = Some mt -> requestIdOf d m = Some rid ->
  (mt = StreamReady /\ x = None) \/ (mt = StreamValue /\ fieldOrNil m (ValueField d) = x /\ x <> None) ->
  Push None growcap x (rv_pump v) = (true, p') ->
  let out := sv_run (processRequest d growcap pickDone m) t in
  get_view out.1 = Some (rv_with_pump p' v) /\ out.2 = [].
Proof.
  intros Hv He Hmt Hid Hx HP out. unfold out, sv_run. rewrite (get_frame t v m mt Hv He Hmt Hid) by naive_solver.
  destruct (get_method t v (ClientStream_notifyResult growcap x) Hv) as (cs & Hl & Hp & Hok & E1 & E2 & E3 & Hrun).
  set (cs' := upd_cs_resultPump (fun _ => Some p') cs).
  assert (ClientStream_notifyResult growcap x cs = (Some true, cs', [])) as Hm
    by (unfold ClientStream_notifyResult; unM; by rewrite Hp, HP).
  destruct (Hrun _ _ _ p' Hm) as [Hr Hv']; [done..|]. cbn [fmap list_fmap] in Hr.
  assert (exists h, handleInbound d growcap pickDone l mt m t = (h, upd_sc_streams (insert l cs') t, [])) as [h ->].
  { unfold handleInbound. rewrite M_gets_bind. cbn [id]. rewrite Hl, value_or_nil_field.
    destruct Hx as [[-> ->]|(-> & -> & Hx)]; cbn [Z.eqb Pos.eqb StreamReady StreamValue].
    - rewrite (M_run_bind _ _ _ _ _ _ Hr). by eexists.
    - destruct x as [x|]; [|done]. rewrite (M_run_bind _ _ _ _ _ _ Hr). by eexists. }
  cbn [m_st m_out fst snd]. split; [|done]. rewrite Hv'. cbn. by rewrite E1, E2.
Qed.

Lemma get_null t v m :
  get_view t = Some v -> rv_ended v = false -> messageType d m = Some StreamValue -> requestIdOf d m = Some rid ->
  fieldOrNil m (ValueField d) = None -> sv_run (processRequest d growcap pickDone m) t = (t, []).
Proof.
  intros Hv He Hmt Hid Hf. unfold sv_run. rewrite (get_frame t v m _ Hv He Hmt Hid) by auto.
  destruct (get_view_inv t v Hv) as (cs & Hl & _). unfold handleInbound. rewrite M_gets_bind. cbn [id].
  rewrite Hl, value_or_nil_field, Hf. done.
Qed.

Lemma get_end t v m :
  get_view t = Some v -> rv_ended v = false -> messageType d m = Some StreamEnd -> requestIdOf d m = Some rid ->
  fieldOrNil m (ValueField d) = None ->
  let out := sv_run (processRequest d growcap pickDone m) t in
  get_view out.1 = Some (mkRV (Close (rv_pump v)) (rv_delivered v) (rv_window v) true) /\ out.2 = [].
Proof.
  intros Hv He Hmt Hid Hf out. unfold out, sv_run. rewrite (get_frame t v m _ Hv He Hmt Hid) by auto.
  destruct (get_view_inv t v Hv) as (cs & Hl & Hp & Hok & E1 & E2 & E3). pose proof Hok as (Hi & Hg & Hd & Hreg).
  rewrite E3 in Hreg. destruct (Hreg He) as [_ Hco].
  assert (exists b cs', tryGetClose cs = (b, cs', []) /\ cs_resultPump cs' = Some (Close (rv_pump v)) /\ cs_requestId cs' = cs_requestId cs /\
    cs_grantCredit cs' = cs_grantCredit cs /\ cs_getClosed cs' = true /\ cs_recvDelivered cs' = cs_recvDelivered cs /\
    cs_creditWindow cs' = cs_creditWindow cs) as (b & cs' & Hm & F1 & F2 & F3 & F4 & F5 & F6).
  { unfold tryGetClose, ClientStream_closeResult. unM. rewrite Hco. cbn. rewrite Hp. cbn. eexists _, _. split; [reflexivity|]. by split_and!. }
  pose proof (on_stream_run _ _ _ _ _ t Hl Hd Hm) as Hr. cbn [fmap list_fmap] in Hr. set (t1 := upd_sc_streams (insert l cs') t) in Hr.
  assert (exists h t', handleInbound d growcap pickDone l StreamEnd m t = (h, t', []) /\ sc_streams t' = sc_streams t1 /\ sc_done t' = sc_done t)
    as (h & t' & -> & Hs1 & Hd1).
  { unfold handleInbound. rewrite M_gets_bind. cbn [id]. rewrite Hl, value_or_nil_field, Hf.
    cbn [Z.eqb Pos.eqb StreamReady StreamValue StreamEnd]. rewrite M_left_id, (M_run_bind _ _ _ _ _ _ Hr).
    destruct b; cbn; by eexists _, _. }
  cbn [m_st m_out fst snd]. split; [|done].
  rewrite (get_view_set t t' cs cs' (Close (rv_pump v)) Hok); try done; try congruence.
  rewrite Hs1. unfold t1. cbn. by rewrite lookup_insert_eq.
Qed.

(** The pump's actions, on the shared object. *)
Definition on_resultPump (f : StreamPump (option Value) -> option (StreamPump (option Value))) : M clientStream Z bool :=
  cs ← gets id;
  match cs_resultPump cs ≫= f with
  | Some p' => modify (upd_cs_resultPump (fun _ => Some p')) ≫= fun _ => mret true
  | None => mret false
  end.

Lemma get_pump t v f p' :
  get_view t = Some v -> f (rv_pump v) = Some p' ->
  get_view (sv_run (on_stream d pickDone l (on_resultPump f)) t).1 = Some (rv_with_pump p' v).
Proof.
  intros Hv Hf. destruct (get_method t v (on_resultPump f) Hv) as (cs & Hl & Hp & Hok & E1 & E2 & E3 & Hrun).
  assert (on_resultPump f cs = (true, upd_cs_resultPump (fun _ => Some p') cs, [])) as Hm
    by (unfold on_resultPump; unM; rewrite Hp; cbn; by rewrite Hf).
  destruct (Hrun _ _ _ p' Hm) as [Hr Hv']; [done..|]. unfold sv_run. rewrite Hr. cbn [fst m_st snd]. rewrite Hv'. cbn. by rewrite E1, E2.
Qed.

Lemma get_hook t v :
  get_view t = Some v -> let g := grantRecv (rv_window v) (rv_delivered v) in
  (forall n, g.2 = Some n -> in_int64 n) ->
  let out := sv_run (on_stream d pickDone l ClientStream_grantRecv) t in
  get_view out.1 = Some (mkRV (rv_pump v) g.1 (rv_window v) (rv_ended v)) /\ omap (credit_of d rid) out.2 = option_list g.2 /\ all_parsed (credit_of d rid) out.2.
Proof.
  intros Hv g Hg out. destruct (get_method t v ClientStream_grantRecv Hv) as (cs & Hl & Hp & (_ & Hgr & _) & E1 & E2 & E3 & Hrun).
  assert (ClientStream_grantRecv cs = (tt, upd_cs_recvDelivered (fun _ => g.1) cs, option_list g.2)) as Hm.
  { unfold ClientStream_grantRecv. unM. rewrite E1, E2. fold g. destruct g as [n [k|]]; cbn; [by rewrite Hgr|done]. }
  destruct (Hrun _ _ _ (rv_pump v) Hm) as [Hr Hv']; [done..|]. unfold out, sv_run. rewrite Hr, m_st_eq, m_out_eq. cbn [fst snd].
  rewrite Hv'. cbn. rewrite E2. split; [done|]. apply credits_out.
  destruct g as [n [k|]]; cbn; constructor; [by apply Hg|constructor].
Qed.

Lemma get_start t v :
  get_view t = Some v -> in_int64 (rv_window v) ->
  let out := sv_run (on_stream d pickDone l ClientStream_sendInitialCredit) t in
  get_view out.1 = Some v /\ omap (credit_of d rid) out.2 = [rv_window v] /\ all_parsed (credit_of d rid) out.2.
Proof.
  intros Hv Hw out. destruct (get_method t v ClientStream_sendInitialCredit Hv) as (cs & Hl & Hp & (_ & Hgr & _) & E1 & E2 & E3 & Hrun).
  assert (ClientStream_sendInitialCredit cs = (tt, cs, [rv_window v])) as Hm
    by (unfold ClientStream_sendInitialCredit; unM; rewrite Hp, Hgr, E2; done).
  destruct (Hrun _ _ _ (rv_pump v) Hm) as [Hr Hv']; [done..|]. unfold out, sv_run. rewrite Hr, m_st_eq, m_out_eq. cbn [fst snd].
  rewrite Hv', E1, E2. split; [by destruct v|]. apply credits_out. constructor; [done|constructor].
Qed.

(** A get stream or chat the server opened is a receiver that opened it. *)
Definition get_receiver : Receiver d growcap rid servingClient.
Proof.
  refine (mkReceiver d growcap rid servingClient true get_view (fun m => sv_run (processRequest d growcap pickDone m))
    (fun t => (sv_run (on_stream d pickDone l (on_resultPump pump_take)) t).1)
    (fun t => (sv_run (on_stream d pickDone l (on_resultPump pump_deliver)) t).1)
    (sv_run (on_stream d pickDone l ClientStream_grantRecv)) (sv_run (on_stream d pickDone l ClientStream_sendInitialCredit)) _ _ _ _ _ _ _ _).
  - intros m t v p' Hv He _ (Hmt & Hid & _)%item_of_inv HP.
    by destruct (get_notify t v m None p' StreamReady Hv He Hmt Hid ltac:(auto) HP) as [? ->].
  - intros m x t v p' Hv He (Hmt & Hid & Hf)%item_of_inv HP _.
    by destruct (get_notify t v m (Some x) p' StreamValue Hv He Hmt Hid ltac:(auto) HP) as [? ->].
  - intros m t v Hv He _ (Hmt & Hid & Hf & _)%item_of_inv. by rewrite (get_null t v m Hv He Hmt Hid Hf).
  - intros m t v Hv He (Hmt & Hid & Hf & _)%item_of_inv. by destruct (get_end t v m Hv He Hmt Hid Hf) as [? ->].
  - intros t v p' Hv Hpc Hr. apply get_pump; [done|]. unfold pump_take. by rewrite Hpc.
  - intros t v x Hv Hpc. apply get_pump; [done|]. unfold pump_deliver. by rewrite Hpc.
  - apply get_hook.
  - intros t v Hv _. by apply get_start.
Defined.

(** *** As a sender *)

(** streamOut's goroutine: before PutStream or Chat starts it, at its channel, with
    a value it has no credit for yet, after its loop, returned. *)
Inductive put_pc := PutUnstarted | PutLoop | PutAcquire (v : option Value) | PutEnd | PutReturned.
Abbreviation put_state := (servingClient * put_pc)%type.

Definition put_pos (pc : put_pc) : send_pc :=
  match pc with PutUnstarted => Unready | PutLoop => Idle | PutAcquire v => Holding v | PutEnd | PutReturned => Done end.

Definition put_ok (t : servingClient) (cs : clientStream) (g : CreditGate) : Prop :=
  cs_requestId cs = rid /\ sc_done t = false /\ closed g = false /\ cs_putClosed cs = false /\ listed t.
#[local] Instance put_ok_dec t cs g : Decision (put_ok t cs g).
Proof. unfold put_ok, listed. apply _. Defined.

Definition put_view (s : put_state) : option sview :=
  match put_pos s.2 with
  | Done => Some (mkSV Done NewCreditGate)
  | k =>
      match sc_streams s.1 !! l with
      | Some cs =>
          match cs_sendCredit cs with
          | Some g => if decide (put_ok s.1 cs g) then Some (mkSV k g) else None
          | None => None
          end
      | None => None
      end
  end.
#[local] Arguments put_view : simpl never.

Lemma put_view_inv t pc sv :
  put_view (t, pc) = Some sv -> put_pos pc <> Done ->
  exists cs g, sv = mkSV (put_pos pc) g /\ sc_streams t !! l = Some cs /\ cs_sendCredit cs = Some g /\ put_ok t cs g.
Proof.
  unfold put_view. cbn [fst snd]. intros Hv Hk.
  destruct (sc_streams t !! l) as [cs|]; [|by destruct (put_pos pc)].
  destruct (cs_sendCredit cs) as [g|] eqn:Eg; [|by destruct (put_pos pc)].
  case_decide as Hs; [|by destruct (put_pos pc)].
  exists cs, g. split; [destruct (put_pos pc); naive_solver|]. by do 2 (split; [done|]).
Qed.

Lemma put_view_set t pc cs g :
  sc_streams t !! l = Some cs -> cs_sendCredit cs = Some g -> put_ok t cs g -> put_pos pc <> Done ->
  put_view (t, pc) = Some (mkSV (put_pos pc) g).
Proof.
  intros Hl Hg Hs Hk. unfold put_view. cbn [fst snd]. destruct (put_pos pc); try done; rewrite Hl, Hg, decide_True by done; done.
Qed.

(** Where the loop goes after an iteration with [v]. *)
Definition put_next (v : option (option Value)) (r : option bool) : put_pc :=
  match r, v with
  | Some true, _ => PutLoop
  | None, Some v => PutAcquire v
  | _, _ => PutEnd
  end.

(** One action of the goroutine; a value is received before the iteration that
    sends it. *)
Definition put_act (x : option (option Value)) (s : put_state) : put_state * list VMap :=
  let iterate v := let y := streamOut_step d pickDone l v s.1 in ((m_st y, put_next v (m_res y)), omap session_sent (m_out y)) in
  match s.2 with
  | PutUnstarted => ((s.1, PutLoop), [])
  | PutLoop => match x with None => iterate None | Some v => ((s.1, PutAcquire v), []) end
  | PutAcquire v => iterate (Some v)
  | PutEnd => let y := sv_run (streamOut_end d pickDone l rid) s.1 in ((y.1, PutReturned), y.2)
  | PutReturned => (s, [])
  end.

Lemma streamOut_end_silent t : (sv_run (streamOut_end d pickDone l rid) t).2 = [].
Proof.
  unfold sv_run, streamOut_end. cbn [snd]. rewrite M_bind_out. unfold on_stream. rewrite M_gets_bind. cbn [id].
  destruct (sc_streams t !! l) as [cs|]; [|done].
  assert (exists b cs', tryPutClose cs = (b, cs', [])) as (b & cs' & ->).
  { unfold tryPutClose, ClientStream_closeResult. unM. case_decide; cbn; [destruct (cs_closeOnce cs)|]; cbn; by eexists _, _. }
  rewrite M_modify_bind. cbn. by destruct b.
Qed.

Lemma put_act_law x s sv :
  put_view s = Some sv -> exists sv', put_view (put_act x s).1 = Some sv' /\
    sender_acts false sv x sv' (omap (item_of d rid) (put_act x s).2) /\ all_parsed (item_of d rid) (put_act x s).2.
Proof.
  destruct s as [t pc]. intros Hv. unfold put_act, all_parsed. cbn [fst snd].
  destruct pc as [| |v| |]; try (destruct (put_view_inv _ _ _ Hv ltac:(done)) as (cs & g & -> & Hl & Hg & Hs);
    pose proof Hs as (Hid & Hd & Hcl & Hput & Hmap)); cbn [put_pos] in *.
  - eexists. split; [by apply (put_view_set t PutLoop cs g)|split; [constructor|done]].
  - destruct x as [v|]; [eexists; split; [by apply (put_view_set t (PutAcquire v) cs g)|split; [constructor|done]]|].
    assert (streamOut_step d pickDone l None t = (Some false, t, [ESend (NewStreamEnd d (Long rid) None)])) as ->.
    { unfold streamOut_step, ClientStream_IsPutOpen. rewrite M_gets_bind. cbn [id]. rewrite Hl, Hput, Hid. cbn [negb].
      by rewrite (M_run_bind _ _ _ _ _ _ (send_open _ _ t Hd)). }
    cbn [m_st m_res m_out fst snd omap list_omap session_sent put_next]. rewrite (end_item d rid (Long rid)) by (apply kind_Long || by apply longOf_Long). eexists. split; [reflexivity|split; [constructor|done]].
  - unfold streamOut_step, ClientStream_IsPutOpen. rewrite M_gets_bind. cbn [id]. rewrite Hl, Hput, Hid, Hg. cbn [negb].
    destruct (Acquire g) as [[[] g']|] eqn:Ea.
    + assert (closed g' = false) as Hcl' by (rewrite <- Hcl; by eapply Acquire_closed).
      rewrite M_modify_bind. set (t1 := upd_sc_streams _ t).
      assert (sc_streams t1 !! l = Some (upd_cs_sendCredit (fun _ => Some g') cs)) as Hl1 by (unfold t1; cbn; by rewrite lookup_insert_eq).
      rewrite (M_run_bind _ _ _ _ _ _ (send_open _ _ t1 Hd)).
      cbn [m_st m_res m_out mret M_ret fst snd app omap list_omap session_sent put_next].
      rewrite (value_frame_item d rid (Long rid)) by (apply kind_Long || by apply longOf_Long). eexists. split; [|split; [by constructor|done]].
      by apply (put_view_set t1 PutLoop _ g' Hl1).
    + exfalso. unfold Acquire in Ea. rewrite Hcl in Ea. by destruct (_ && _).
    + cbn. eexists. split; [by apply (put_view_set t (PutAcquire v) cs g)|split; [by constructor|done]].
  - unfold put_view in Hv. cbn in Hv. injection Hv as <-. rewrite streamOut_end_silent. eexists. split; [reflexivity|split; [constructor|done]].
  - unfold put_view in Hv. cbn in Hv. injection Hv as <-. eexists. split; [reflexivity|split; [constructor|done]].
Qed.

Lemma put_credit_law m n s k g :
  put_view s = Some (mkSV k g) -> credit_of d rid m = Some n ->
  let out := sv_run (processRequest d growcap pickDone m) s.1 in
  exists g', put_view (out.1, s.2) = Some (mkSV k g') /\ (k <> Done -> g' = Grant n g) /\ out.2 = [].
Proof.
  destruct s as [t pc]. intros Hv (Hmt & Hid & cv & Hcv & <-)%credit_of_inv out. cbn [fst snd] in *.
  assert (out.2 = []) as -> by by eapply session_credit_silent.
  destruct (is_done (put_pos pc)) eqn:Ed.
  { assert (put_pos pc = Done) as Ep by by destruct (put_pos pc). unfold put_view in *. cbn [fst snd] in *. rewrite Ep in *.
    injection Hv as <- <-. by exists NewCreditGate. }
  destruct (put_view_inv _ _ _ Hv) as (cs & g0 & [= -> ->] & Hl & Hg & Hs); [by intros E; rewrite E in Ed|].
  pose proof Hs as (Hi & Hd & Hcl & Hput & Hmap).
  exists (Grant (longOf cv) g0). split; [|done].
  unfold out, sv_run. cbn [fst]. rewrite (session_routed m _ t Hmt Hid) by auto. rewrite Hmap.
  unfold handleInbound. rewrite M_gets_bind. cbn [id]. rewrite Hl. cbn [Z.eqb Pos.eqb StreamReady StreamValue StreamEnd StreamCredit].
  rewrite Hcv, M_modify_bind. set (t1 := upd_sc_streams _ t). cbn [mret M_ret m_st fst snd].
  assert (sc_streams t1 !! l = Some (upd_cs_sendCredit (fmap (Grant (longOf cv))) cs)) as Hl1 by (unfold t1; cbn; by rewrite lookup_alter_eq, Hl).
  apply (put_view_set t1 pc _ _ Hl1); [cbn; by rewrite Hg| |by intros E; rewrite E in Ed].
  split_and!; try done. by rewrite Grant_closed.
Qed.

(** The server's streamOut is a sender that opened the stream. *)
Definition put_sender : Sender d rid put_state :=
  mkSender d rid put_state false put_view put_act
    (fun m s => let y := sv_run (processRequest d growcap pickDone m) s.1 in ((y.1, s.2), y.2))
    put_act_law put_credit_law.

End opened.

End server_ends.
