(* ===== verification/Streams.v ===== *)
(** * Streams end to end

    The opening of a stream on both sides, with the code of both sides, and the
    guarantees of StreamLink.v for every stream opened that way: get streams, put
    streams and both directions of a chat opened by the client
    (valueclient/client.go against valueserver/serving_client.go), and the same
    opened by the server (valueserver/serving_stream.go against
    valueclient/serving.go).

    The values the consumer receives are exactly the values the producer handed
    over, in order; the receiver never buffers more than its window; it finishes
    only after the producer's channel was closed and everything was received; and
    from every reachable state the producer can hand over more values, close, and
    have them all received.  The one exception is proved too: a nil or null value
    costs a credit that never comes back ([null_values_starve]). *)

From S2P Require Import Prelude Value RefValue Protocol Verify Sha256 HashChain Credit Pump FlowControl Metadata ClientStream.
From S2P Require Import ClientServing ServingSystem ServingProps Framing MsgConn Client ClientProps ClientReconnect.
From S2P Require Import ClientCalls ReverseStreams ClientEnds ServerEnds EndToEnd Request ServingClient StreamLink.

Section streams.
Context `{ValueLib} (d : Dialect) `{!dialect_ok d} (growcap : nat -> nat) (pickDone : servingClient -> VMap -> bool).
Hypothesis growcap_larger : forall n, (n < growcap n)%nat.

(** ** What a stream between two ends guarantees *)

Section guarantee.
Context (rid : Z) {S R : Type} (tx : Sender d rid S) (rx : Receiver d growcap rid R).

(** In every state a stream with window [n] reaches from [w0] while no value is
    null: both ends are in operation, everything received so far is exact, and
    the rest can be received. *)
Definition stream_correct (n : Z) (w0 : world) : Prop :=
  forall w, reach (world_step d growcap rid tx rx) w0 w -> Forall nonnull (w_made w) ->
  exists k g r, sd_view tx (w_snd w) = Some (mkSV k g) /\ rcv_view rx (w_rcv w) = Some r /\
    exact d growcap rid rx n w k r /\
    forall vs, Forall nonnull vs -> (k = Closing \/ k = Done -> vs = []) -> completes d growcap rid tx rx w vs.

Lemma opened_correct n w0 :
  sd_acks tx = rcv_acked rx -> 0 < n < two63 -> opened d growcap rid tx rx n w0 -> stream_correct n w0.
Proof.
  intros Ha Hn Ho w Hr Hnn. destruct (stream_safe d growcap rid growcap_larger tx rx Ha n w0 w Hn Ho Hr Hnn) as (k & g & r & Hs & Hv & Hex).
  exists k, g, r. do 3 (split; [done|]). intros vs Hvs Hk.
  by apply (stream_live d growcap rid growcap_larger tx rx Ha n w0 w vs k g).
Qed.

(** At the start more values may come. *)
Lemma opened_fresh n w0 k g :
  opened d growcap rid tx rx n w0 -> sd_view tx (w_snd w0) = Some (mkSV k g) -> forall vs : list (option Value), k = Closing \/ k = Done -> vs = [].
Proof. intros Ho Hv vs Hk. rewrite (op_snd _ _ _ _ _ _ _ Ho) in Hv. injection Hv as <- _. by destruct Hk. Qed.

End guarantee.

(** ** The client opens a stream *)

Definition stream_request (mt : Z) (t : rpcClient) (ctx : reqctx) (until : option Z) (name : string) (args : option Value) : VMap :=
  Put (constructRequest d ctx mt name args (effectiveTimeout until t) t)
    (RequestIdField d) (Some (Long (wrap64 (cl_lastRequest t + 1)))).

Definition window_of (maxPending : Z) : Z := if maxPending <=? 0 then DefaultMaxPending else maxPending.

(** A connected client whose next id is free. *)
Definition can_open (t : rpcClient) : Prop :=
  is_Some (cl_conn t) /\ in_int64 (cl_lastRequest t + 1) /\ cl_servingMap t !! (cl_lastRequest t + 1) = None.

Lemma client_opens de ctx until mt k name args cap t :
  can_open t -> k <> unaryKind ->
  let rid := cl_lastRequest t + 1 in let l := cl_nextLoc t in let n := window_of (cl_maxPending t) in
  let x := startCall d growcap de ctx until mt k name args cap t in
  m_res x = inr l /\ omap client_sent (m_out x) = [stream_request mt t ctx until name args] /\
  (receives k = true -> ClientEnds.request_view rid l (m_st x) = Some (mkRV (NewStreamPump n) (-1) n false)) /\
  (sends k = true -> ClientEnds.out_view rid l (m_st x, None) = Some (mkSV Unready NewCreditGate)).
Proof.
  intros ([c Hc] & Hid & Hs) Hk rid l n x.
  assert (x = (inr l, m_st x, m_out x) /\ omap client_sent (m_out x) = [stream_request mt t ctx until name args] /\
    cl_requests (m_st x) !! l = Some (NewRequestCtx rid k (stream_request mt t ctx until name args) cap (cl_maxPending t) true true) /\
    cl_conn (m_st x) = Some c /\ cl_requestCtxMap (m_st x) !! rid = Some l /\ cl_servingMap (m_st x) !! rid = None)
    as (Hx & Ho & Hl & Hc' & Hm & Hsm).
  { subst x. unfold startCall, sendRequest, registerRequest, ensureConnection, hasConn, newRequestCtx, transmitRequest, get_req, getConn_SendRequest.
    unM. rewrite Hc. cbn. rewrite lookup_insert_eq. cbn. rewrite Hc. cbn. unfold stream_request, rid, l. rewrite wrap64_id by done.
    rewrite !lookup_insert_eq. done. }
  split_and!; [by rewrite Hx|done|intros Hr|intros Hr].
  - unfold ClientEnds.request_view. rewrite Hl. unfold NewRequestCtx. cbn. rewrite Hr. cbn. rewrite decide_True; [done|].
    unfold ClientEnds.receiving. cbn. rewrite Hc', Hm, Hsm. split_and!; try done.
  - unfold ClientEnds.out_view. cbn [ClientEnds.out_pos fst snd]. rewrite Hl. unfold NewRequestCtx. cbn. rewrite Hr. cbn. rewrite decide_True; [done|].
    unfold ClientEnds.sending. cbn. rewrite Hc', Hm, Hsm. by split_and!.
Qed.

(** ** The server serves it *)

(** What the server reads of a stream request. *)
Record stream_fields (req : VMap) (mt rid : Z) (name : string) (args : option Value) : Prop := {
  sf_type : GetNumberField req (MessageTypeField d) = Some (Long mt);
  sf_id : GetNumberField req (RequestIdField d) = Some (Long rid);
  sf_name : GetStringField req (FunctionNameField d) = Some (Utf8 name);
  sf_args : Get req (ArgumentsField d) = wire_arg args
}.

Lemma stream_fields_equiv m1 m2 mt rid name args :
  m1 ≡ m2 -> stream_fields m2 mt rid name args -> stream_fields m1 mt rid name args.
Proof. intros E []. by split; equiv_rw E. Qed.

Lemma stream_request_fields mt t ctx until name args :
  in_int64 (cl_lastRequest t + 1) ->
  stream_fields (stream_request mt t ctx until name args) mt (cl_lastRequest t + 1) name args.
Proof.
  intros Hid. unfold stream_request, constructRequest, wire_arg, MessageType_Long. rewrite wrap64_id by done.
  destruct (cl_metadata t) as [inj|]; [destruct (EncodeMetadata _)|]; destruct (0 <? _); split; destruct args; by env_simpl.
Qed.

(** A session that offers a stream of type [ft] under [name], has room for one
    more, and whose handler takes the arguments. *)
Record serves (s : servingClient) (ft : functionType) (rid : Z) (name : string) (args : option Value) (fn : function) : Prop := {
  of_open : sc_done s = false;
  of_free : sc_pendingStreams s !! rid = None /\ sc_requestMap s !! rid = None;
  of_fn : sc_functionMap s !! name = Some fn;
  of_ft : fn_ft fn = ft /\ ft <> singleFunction;
  of_args : Verify (wire_arg args) (fn_args fn) = true;
  of_streams : (0 <? cfg_maxConcurrentStreams (sc_cfg s)) && (cfg_maxConcurrentStreams (sc_cfg s) <=? sc_liveStreams s) = false;
  of_handler : forall cx, exists res, fn_handler fn cx (wire_arg args) = Returned res
}.

(** With a free handler slot besides. *)
Record offers (s : servingClient) (ft : functionType) (rid : Z) (name : string) (args : option Value) (fn : function) : Prop := {
  of_serves : serves s ft rid name args fn;
  of_requests : (0 <? cfg_maxConcurrentRequests (sc_cfg s)) && (cfg_maxConcurrentRequests (sc_cfg s) <? sc_inFlight s + 1) = false
}.

Lemma serves_inFlight f s ft rid name args fn : serves s ft rid name args fn -> serves (upd_sc_inFlight f s) ft rid name args fn.
Proof. intros []. by split. Qed.

Definition ft_message (ft : functionType) : Z :=
  match ft with
  | singleFunction => FunctionRequest | outgoingStream => GetStreamRequest
  | incomingStream => PutStreamRequest | chat => ChatRequest
  end.
Definition ft_in (ft : functionType) : bool := bool_decide (ft = incomingStream) || bool_decide (ft = chat).
Definition ft_out (ft : functionType) : bool := bool_decide (ft = outgoingStream) || bool_decide (ft = chat).

(** The read loop hands the request to a goroutine. *)
Lemma stream_accepted req ft rid name args fn s :
  stream_fields req (ft_message ft) rid name args -> in_int64 rid -> offers s ft rid name args fn ->
  processRequest d growcap pickDone req s = (Handled None, upd_sc_inFlight (fun n => n + 1) s, [EServe ft req]).
Proof.
  intros [] Hid [[] ?]. destruct of_free0 as [Hps Hrm]. destruct of_ft0 as [_ Hft].
  unfold processRequest, findPendingStream, serveNewRequest. unM. rewrite sf_type0, sf_id0. cbn.
  assert (in_int64 (ft_message ft)) as Hmt by (destruct ft; cbn; unfold GetStreamRequest, PutStreamRequest, ChatRequest, FunctionRequest; auto with vrpc).
  rewrite !longOf_Long by done. rewrite Hps. cbn. rewrite Hrm.
  destruct ft; try done; cbn; by rewrite of_requests0.
Qed.

Lemma stream_admitted req ft rid name args fn s :
  stream_fields req (ft_message ft) rid name args -> serves s ft rid name args fn ->
  exists cx, admitRequest d ft req s = (inr (mkAdmitted (Long rid) name fn (wire_arg args) cx), upd_sc_nextCtx S s, []).
Proof.
  intros [] []. destruct of_ft0 as [Ef Hft]. unfold admitRequest. rewrite M_gets_bind. cbn [Datatypes.id].
  rewrite sf_id0, sf_name0, sf_args0. cbn zeta.
  rewrite stringOf_Utf8, of_fn0, of_args0, Ef, bool_decide_true by done. cbn [negb].
  rewrite (bool_decide_false (ft = singleFunction)) by done. cbn [negb andb]. rewrite of_streams0.
  unfold newRequestContext. rewrite M_assoc, M_gets_bind, M_assoc, M_modify_bind, M_left_id. by eexists.
Qed.

(** The registered object, and what is sent while it is set up. *)
Definition served_request (ft : functionType) (rid : Z) (name : string) (cancel : nat) (maxPending : Z) : servingRequest :=
  let sr := upd_sr_method (fun _ => name) (upd_sr_cancel (fun _ => Some cancel) (NewServingRequest ft (Long rid))) in
  if ft_in ft then setupInbound maxPending sr else sr.

Lemma stream_started ft rid name cancel s :
  sc_done s = false -> in_int64 rid ->
  exists s' evs, newServingRequest d pickDone ft (Long rid) name cancel s = (sc_nextLoc s, s', evs) /\
    omap session_sent evs = (if ft_in ft then [NewStreamCredit d (Long rid) (cfg_maxPending (sc_cfg s))] else []) /\
    sc_done s' = false /\ sc_pendingStreams s' = sc_pendingStreams s /\ sc_requestMap s' !! rid = Some (sc_nextLoc s) /\
    sc_requests s' !! sc_nextLoc s = Some (served_request ft rid name cancel (cfg_maxPending (sc_cfg s))).
Proof.
  intros Hd Hid. unfold newServingRequest, grantInitialInbound, set_request, served_request. rewrite M_gets_bind. cbn [id].
  rewrite (M_run_bind (emit _) _ _ _ _ _ eq_refl), !M_modify_bind, longOf_Long by done. fold (ft_in ft).
  set (s1 := upd_sc_liveStreams _ _). destruct (ft_in ft); cbn [when].
  - assert (sc_done s1 = false) as Hd1 by done. rewrite (M_run_bind _ _ _ _ _ _ (send_open _ _ s1 Hd1)).
    eexists _, _. split; [reflexivity|]. unfold s1. cbn. rewrite !lookup_insert_eq. by split_and!.
  - rewrite M_left_id. eexists _, _. split; [reflexivity|]. unfold s1. cbn. rewrite !lookup_insert_eq. by split_and!.
Qed.

(** The goroutine up to the handler's return: the object, the frames sent. *)
Definition ready_reply (ft : functionType) (rid : Z) : list VMap :=
  if decide (ft = incomingStream) then [NewStreamReady d (Long rid)] else [].

Lemma stream_handled req ft rid name args fn s :
  stream_fields req (ft_message ft) rid name args -> in_int64 rid -> serves s ft rid name args fn ->
  exists s' evs, doServeFunctionRequest d pickDone ft req s = (Some (ready_reply ft rid !! 0%nat), s', evs) /\
    omap session_sent evs = (if ft_in ft then [NewStreamCredit d (Long rid) (cfg_maxPending (sc_cfg s))] else []) /\
    sc_done s' = false /\ sc_pendingStreams s' !! rid = None /\ sc_requestMap s' !! rid = Some (sc_nextLoc s) /\
    sc_requests s' !! sc_nextLoc s = Some (served_request ft rid name (sc_nextCtx s) (cfg_maxPending (sc_cfg s))).
Proof.
  intros Hf Hid Ho. destruct (stream_admitted req ft rid name args fn s Hf Ho) as [cx Ha]. destruct Ho. destruct of_ft0 as [Ef Hft].
  unfold doServeFunctionRequest. rewrite M_gets_bind. cbn [id]. rewrite (M_run_bind _ _ _ _ _ _ Ha).
  set (s1 := upd_sc_nextCtx S s). cbn [ad_fn ad_ctx ad_args]. destruct (of_handler0 cx) as [res ->].
  destruct (stream_started ft rid name (sc_nextCtx s) s1) as (s2 & evs & Hs & He & Hd & Hp & Hm & Hr); [done|done|].
  assert (startHandler d pickDone (sc_nextCtx s) (mkAdmitted (Long rid) name fn (wire_arg args) cx) s1 = (sc_nextLoc s, s2, evs)) as Hst
    by (unfold startHandler; cbn [ad_fn ad_reqId ad_name]; rewrite Ef; destruct ft; done).
  rewrite (M_run_bind _ _ _ _ _ _ Hst). unfold finishHandler. cbn [ad_fn ad_reqId]. rewrite Ef. destruct of_free0 as [Hps _].
  exists s2, (evs ++ if decide (ft = incomingStream) then [] else [EStreamer (sc_nextLoc s)]).
  split; [by destruct ft|]. rewrite omap_app, He, Hp. split; [destruct ft; cbn; by rewrite ?app_nil_r|]. by split_and!.
Qed.

Lemma handler_serves req ft rid name args fn s :
  stream_fields req (ft_message ft) rid name args -> in_int64 rid -> serves s ft rid name args fn ->
  let z := serveFunctionRequest d pickDone ft req s in let l := sc_nextLoc s in let n := cfg_maxPending (sc_cfg s) in
  omap session_sent (m_out z) = (if ft_in ft then [NewStreamCredit d (Long rid) n] else []) ++ ready_reply ft rid /\
  (ft_in ft = true -> ServerEnds.inbound_view rid l (m_st z) = Some (mkRV (NewStreamPump n) 0 n false)) /\
  (ft_out ft = true -> ServerEnds.streamer_view rid l (m_st z, SReady) = Some (mkSV Unready NewCreditGate)).
Proof.
  intros Hf Hid Ho z l n.
  destruct (stream_handled req ft rid name args fn s Hf Hid Ho) as (s1 & evs & Hd & He & Hdone & Hps & Hrm & Hr).
  assert (exists s2, z = (tt, s2, evs ++ map ESend (ready_reply ft rid)) /\ sc_done s2 = false /\ sc_pendingStreams s2 = sc_pendingStreams s1 /\
    sc_requestMap s2 = sc_requestMap s1 /\ sc_requests s2 = sc_requests s1) as (s2 & Hz & D2 & P2 & M2 & R2).
  { unfold z, serveFunctionRequest, serveBegin. destruct Ho. destruct of_ft0 as [_ Hft].
    rewrite (bool_decide_false (ft = singleFunction)) by done. cbn [when]. rewrite M_left_id, (M_run_bind _ _ _ _ _ _ Hd).
    unfold serveEnd. rewrite (bool_decide_false (ft = singleFunction)) by done. cbn [when]. unfold ready_reply.
    case_decide; cbn [lookup list_lookup map].
    - rewrite !M_assoc, M_left_id, (M_run_bind _ _ _ _ _ _ (send_open _ _ s1 Hdone)). by eexists.
    - rewrite !M_assoc, !M_left_id. by eexists. }
  rewrite Hz, !m_out_eq, !m_st_eq. split; [|split; intros Hio].
  - rewrite omap_app, He. f_equal. unfold ready_reply. by case_decide.
  - unfold ServerEnds.inbound_view. rewrite R2. unfold l. rewrite Hr. unfold served_request. rewrite Hio. cbn. rewrite decide_True; [done|].
    unfold ServerEnds.inbound_ok, ServerEnds.request_ok, ServerEnds.registered. cbn. rewrite longOf_Long, M2, P2 by done.
    split_and!; try done. apply kind_Long.
  - unfold ServerEnds.streamer_view. cbn [ServerEnds.streamer_pos fst snd]. rewrite R2. unfold l. rewrite Hr.
    set (sr := served_request _ _ _ _ _).
    assert (sr_sendCredit sr = Some NewCreditGate /\ sr_requestId sr = Long rid /\ sr_closed sr = false) as (-> & Hi & Hcl)
      by (unfold sr, served_request; destruct ft; done).
    rewrite decide_True; [done|].
    unfold ServerEnds.outbound_ok, ServerEnds.request_ok, ServerEnds.registered. rewrite Hi, Hcl, longOf_Long, M2, P2 by done.
    split_and!; try done. apply kind_Long.
Qed.

Lemma server_serves req ft rid name args fn s :
  stream_fields req (ft_message ft) rid name args -> in_int64 rid -> offers s ft rid name args fn ->
  let y := processRequest d growcap pickDone req s in
  let z := serveFunctionRequest d pickDone ft req (m_st y) in let l := sc_nextLoc s in
  let n := cfg_maxPending (sc_cfg s) in
  omap session_sent (m_out y ++ m_out z) = (if ft_in ft then [NewStreamCredit d (Long rid) n] else []) ++ ready_reply ft rid /\
  (ft_in ft = true -> ServerEnds.inbound_view rid l (m_st z) = Some (mkRV (NewStreamPump n) 0 n false)) /\
  (ft_out ft = true -> ServerEnds.streamer_view rid l (m_st z, SReady) = Some (mkSV Unready NewCreditGate)).
Proof.
  intros Hf Hid Ho y z l n. pose proof (stream_accepted req ft rid name args fn s Hf Hid Ho) as Hy. fold y in Hy.
  unfold z. rewrite Hy, m_out_eq, m_st_eq. destruct Ho as [Ho _].
  destruct (handler_serves req ft rid name args fn _ Hf Hid (serves_inFlight (fun n => n + 1) _ _ _ _ _ _ Ho)) as (Hs & Hi & Ht).
  split_and!; [|exact Hi|exact Ht]. exact Hs.
Qed.

(** ** Client-opened streams *)

(** The two sides once the client sent its request and the server, having read
    [req], called the handler; what the server sent meanwhile is on its way. *)
Definition server_call (ft : functionType) (req : VMap) (s : servingClient) : servingClient * list VMap :=
  let y := processRequest d growcap pickDone req s in
  let z := serveFunctionRequest d pickDone ft req (m_st y) in
  (m_st z, omap session_sent (m_out y ++ m_out z)).

Definition down_world (client : rpcClient) (server : servingClient * list VMap) : world :=
  mkWorld (server.1, SReady) client server.2 [] [] false false.
Definition up_world (client : rpcClient) (server : servingClient * list VMap) : world :=
  mkWorld (client, @None out_pc) server.1 [] server.2 [] false true.

Section client_opened.
Context (de : dial_env) (ctx : reqctx) (until : option Z) (name : string) (args : option Value) (req : VMap) (fn : function).
Context (t : rpcClient) (s : servingClient).
Abbreviation rid := (cl_lastRequest t + 1).
Hypothesis rid_range : in_int64 rid.
Hypothesis Hopen : can_open t.

Abbreviation streamer := (ServerEnds.streamer_sender d growcap pickDone rid (sc_nextLoc s)).
Abbreviation caller := (ClientEnds.request_receiver d growcap de rid rid_range (cl_nextLoc t)).
Abbreviation producer := (ClientEnds.request_sender d growcap de rid rid_range (cl_nextLoc t)).
Abbreviation handler := (ServerEnds.inbound_receiver d growcap pickDone rid (sc_nextLoc s)).

(** The request as the server reads it. *)
Definition reads (ft : functionType) : Prop := req ≡ stream_request (ft_message ft) t ctx until name args.

Lemma reads_fields ft : reads ft -> stream_fields req (ft_message ft) rid name args.
Proof. intros Hr. eapply stream_fields_equiv; [exact Hr|]. by apply stream_request_fields. Qed.

Lemma rid_value : kindOf (Long rid) = NUMBER /\ longOf (Long rid) = rid.
Proof. split; [apply kind_Long|by apply longOf_Long]. Qed.

(** The values of the server's handler. *)
Lemma down_opened mt k ft cap :
  receives k = true -> ft_out ft = true -> 0 < window_of (cl_maxPending t) < two63 ->
  reads ft -> offers s ft rid name args fn ->
  opened d growcap rid streamer caller (window_of (cl_maxPending t))
    (down_world (m_st (startCall d growcap de ctx until mt k name args cap t)) (server_call ft req s)).
Proof.
  intros Hk Hft Hw Hr Ho.
  destruct (client_opens de ctx until mt k name args cap t Hopen ltac:(by intros ->)) as (_ & _ & Hv & _).
  destruct (server_serves req ft rid name args fn s (reads_fields ft Hr) rid_range Ho) as (Hf & _ & Hs).
  split; cbn; try done.
  - by apply Hs.
  - by apply Hv.
  - rewrite Hf. destruct rid_value. unfold ready_reply. rewrite decide_False by (by intros ->). rewrite app_nil_r.
    destruct (ft_in ft); [|done]. cbn. by rewrite credit_frame_no_item.
Qed.

(** The values of the client's producer. *)
Lemma up_opened mt k ft cap :
  sends k = true -> ft_in ft = true -> 0 < cfg_maxPending (sc_cfg s) < two63 ->
  reads ft -> offers s ft rid name args fn ->
  opened d growcap rid producer handler (cfg_maxPending (sc_cfg s))
    (up_world (m_st (startCall d growcap de ctx until mt k name args cap t)) (server_call ft req s)).
Proof.
  intros Hk Hft Hw Hr Ho.
  destruct (client_opens de ctx until mt k name args cap t Hopen ltac:(by intros ->)) as (_ & _ & _ & Hv).
  destruct (server_serves req ft rid name args fn s (reads_fields ft Hr) rid_range Ho) as (Hf & Hs & _).
  split; cbn; try done.
  - by apply Hv.
  - by apply Hs.
  - rewrite Hf, Hft. destruct rid_value. rewrite omap_app. cbn. rewrite credit_frame by (done || unfold in_int64, two63 in *; lia).
    unfold ready_reply. case_decide; cbn; [by rewrite ready_no_credit|done].
Qed.

(** A get stream. *)
(** C3: A get stream, with the code of both sides: the client's GetStream and
    the server's dispatch and handler open it, the server's outgoingStreamer
    sends behind its credit gate, the client's response loop, pump and deliver
    hook receive and grant. In every state any interleaving reaches while no
    value is null, both ends are in operation, the receiver never overflows or
    buffers more than its window, what the consumer received is the ready
    marker and a prefix of what the handler's channel yielded, in order, and
    the receiver is finished only after the channel was closed and everything
    was received; and from every such state any further values and the close
    of the channel can be received completely. *)
Theorem get_stream_correct cap :
  0 < window_of (cl_maxPending t) < two63 -> reads outgoingStream -> offers s outgoingStream rid name args fn ->
  stream_correct rid streamer caller (window_of (cl_maxPending t))
    (down_world (m_st (GetStream_begin d growcap de ctx until name args cap t)) (server_call outgoingStream req s)).
Proof. intros Hw Hr Ho. apply opened_correct; [done|done|]. by apply down_opened. Qed.

(** A put stream. *)
(** C4: A put stream, with the code of both sides: the client's PutStream and
    streamOut against the server's session, which grants its window when it
    registers the request (a positive one: WithStreamMaxPending above 0). In
    every state any interleaving reaches while no value is null, the handler's
    channel has received exactly a prefix of what the producer handed over, in
    order, within the window, and ends only after the producer's channel was
    closed and everything was received; and any further values and the close
    can be received completely. *)
Theorem put_stream_correct :
  0 < cfg_maxPending (sc_cfg s) < two63 -> reads incomingStream -> offers s incomingStream rid name args fn ->
  stream_correct rid producer handler (cfg_maxPending (sc_cfg s))
    (up_world (m_st (PutStream_begin d growcap de ctx until name args t)) (server_call incomingStream req s)).
Proof. intros Hw Hr Ho. apply opened_correct; [done|done|]. by apply up_opened. Qed.

(** A chat, in both directions. *)
(** C5: Both directions of a chat, opened by Chat and served by a chat
    handler, each as long as the other is in operation, with a positive window
    on the server: the values of the handler reach the client and the values
    of the client's producer reach the handler exactly, in order, within each
    receiver's own window, and each direction can always be completed. *)
Theorem chat_correct cap :
  0 < window_of (cl_maxPending t) < two63 -> 0 < cfg_maxPending (sc_cfg s) < two63 -> reads chat -> offers s chat rid name args fn ->
  let client := m_st (Chat_begin d growcap de ctx until name args cap t) in let server := server_call chat req s in
  stream_correct rid streamer caller (window_of (cl_maxPending t)) (down_world client server) /\
  stream_correct rid producer handler (cfg_maxPending (sc_cfg s)) (up_world client server).
Proof.
  intros Hw Hw' Hr Ho client server. split; (apply opened_correct; [done|done|]); [by apply down_opened|by apply up_opened].
Qed.

(** Nil values on a get stream and on a put stream. *)
(** C29: A nil value takes a credit from the sender and is ignored by the
    receiver, which never grants it back: on a get stream and on a put stream,
    with a consumer that reads everything, at most as many nil values as the
    window has credits bring the stream to a state in which the sender waits
    with the next value in every continuation and nothing is ever received
    again. *)
Theorem null_values_starve cap v :
  (0 < window_of (cl_maxPending t) < two63 -> reads outgoingStream -> offers s outgoingStream rid name args fn ->
   exists w r c, Z.of_nat c <= window_of (cl_maxPending t) /\ w_made w = replicate c None ++ [v] /\ outSent (rv_pump r) = [None] /\
     reach (world_step d growcap rid streamer caller)
       (down_world (m_st (GetStream_begin d growcap de ctx until name args cap t)) (server_call outgoingStream req s)) w /\
     forall w', reach (world_step d growcap rid streamer caller) w w' ->
       w_made w' = w_made w /\ rcv_view caller (w_rcv w') = Some r /\
       exists g, sd_view streamer (w_snd w') = Some (mkSV (Holding v) g) /\ Acquire g = None) /\
  (0 < cfg_maxPending (sc_cfg s) < two63 -> reads incomingStream -> offers s incomingStream rid name args fn ->
   exists w r c, Z.of_nat c <= cfg_maxPending (sc_cfg s) /\ w_made w = replicate c None ++ [v] /\ outSent (rv_pump r) = [] /\
     reach (world_step d growcap rid producer handler)
       (up_world (m_st (PutStream_begin d growcap de ctx until name args t)) (server_call incomingStream req s)) w /\
     forall w', reach (world_step d growcap rid producer handler) w w' ->
       w_made w' = w_made w /\ rcv_view handler (w_rcv w') = Some r /\
       exists g, sd_view producer (w_snd w') = Some (mkSV (Holding v) g) /\ Acquire g = None).
Proof.
  split; intros Hw Hr Ho.
  - destruct (nulls_starve d growcap rid growcap_larger streamer caller eq_refl _ _ v Hw
      (down_opened GetStreamRequest getStreamKind outgoingStream cap eq_refl eq_refl Hw Hr Ho)) as (w & r & c & Hre & Hc & Hm & Hout & Hst).
    exists w, r, c. split_and!; try done. intros w' Hw'. destruct (Hst w' Hw') as [[[] Hx] ?]. by split_and!.
  - destruct (nulls_starve d growcap rid growcap_larger producer handler eq_refl _ _ v Hw
      (up_opened PutStreamRequest putStreamKind incomingStream 1 eq_refl eq_refl Hw Hr Ho)) as (w & r & c & Hre & Hc & Hm & Hout & Hst).
    exists w, r, c. split_and!; try done. intros w' Hw'. destruct (Hst w' Hw') as [[[] Hx] ?]. by split_and!.
Qed.

End client_opened.

(** ** The server opens a stream *)

Definition reverse_id (s : servingClient) : Z := wrap64 (- wrap64 (sc_lastServerRequest s + 1)).

Lemma reverse_id_range s : in_int64 (reverse_id s).
Proof. apply wrap64_range. Qed.

Definition api_gets (a : stream_api) : bool := match a with ApiPutStream => false | _ => true end.
Definition api_puts (a : stream_api) : bool := match a with ApiGetStream => false | _ => true end.

Lemma server_opens a name args cap s :
  sc_done s = false ->
  let rid := reverse_id s in let l := sc_nextLoc s in let x := open_begin d pickDone a name args cap s in
  m_res x = inr (rid, l) /\ omap session_sent (m_out x) = [NewStreamRequest d (api_message a) rid name args] /\
  (api_gets a = true -> ServerEnds.get_view rid l (m_st x) = Some (mkRV (NewStreamPump DefaultMaxPending) (-1) DefaultMaxPending false)) /\
  (api_puts a = true -> ServerEnds.put_view rid l (m_st x, PutUnstarted) = Some (mkSV Unready NewCreditGate)).
Proof.
  intros Hd rid l x.
  assert (x = (inr (rid, l), m_st x, [ESend (NewStreamRequest d (api_message a) rid name args)]) /\
    sc_done (m_st x) = false /\ sc_pendingStreams (m_st x) !! rid = Some l /\
    sc_streams (m_st x) !! l = Some (newClientStream rid (api_kind a) (api_capacity a cap) DefaultMaxPending true)) as (Hx & D & P & R).
  { subst x. unfold open_begin, openStream, nextServerRequestId. unM. rewrite send_none by exact Hd. cbn.
    unfold l, rid, reverse_id. rewrite !lookup_insert_eq. done. }
  rewrite Hx. split_and!; [done|done|intros Ha|intros Ha]; rewrite m_st_eq.
  - unfold ServerEnds.get_view. rewrite R. set (cs := newClientStream _ _ _ _ _) in *.
    assert (cs_resultPump cs = Some (NewStreamPump DefaultMaxPending)) as -> by by destruct a.
    rewrite decide_True; [by destruct a|]. unfold ServerEnds.get_ok, ServerEnds.listed. by split_and!.
  - unfold ServerEnds.put_view. cbn [ServerEnds.put_pos fst snd]. rewrite R. set (cs := newClientStream _ _ _ _ _) in *.
    assert (cs_sendCredit cs = Some NewCreditGate) as -> by by destruct a.
    rewrite decide_True; [done|]. unfold ServerEnds.put_ok, ServerEnds.listed. by split_and!.
Qed.

(** ** The client serves it *)

Record client_offers (t : rpcClient) (ft : clientFnKind) (name : string) (args : option Value) (cf : clientFunction) : Prop := {
  co_conn : is_Some (cl_conn t);
  co_fn : cl_functionMap t !! name = Some cf;
  co_ft : cf_ft cf = ft;
  co_args : Verify (wire_arg args) (cf_args cf) = true;
  co_handler : forall cx, exists res, cf_handler cf cx (wire_arg args) = inl res
}.

Definition api_serves (a : stream_api) : clientFnKind :=
  match a with ApiGetStream => cfnOut | ApiPutStream => cfnIn | ApiChat => cfnChat end.

Lemma reverse_request_fields a rid name args :
  stream_fields (NewStreamRequest d (api_message a) rid name args) (api_message a) rid name args.
Proof. unfold NewStreamRequest, wire_arg, MessageType_Long. split; destruct args; by env_simpl. Qed.

(** The handler goroutine; where the handler returns a stream, the first statement
    of its streamer is the sender's first action instead. *)
Definition client_job (e : cl_ev) : M rpcClient cl_ev unit :=
  match e with
  | CGo (JobStream l reqId name cf ctx args) =>
      if decide (cf_ft cf = cfnIn) then runInboundStream d l reqId name cf ctx args else mret tt
  | _ => mret tt
  end.

Definition client_serve (de : dial_env) (req : VMap) (t : rpcClient) : rpcClient * list VMap :=
  let y := handleFrame d growcap de req t in
  let z := seqM (map client_job (m_out y)) (m_st y) in
  (m_st z, omap client_sent (m_out y ++ m_out z)).

#[local] Arguments client_serve : simpl never.

Definition initial_credit (a : stream_api) (rid n : Z) : list VMap := if api_puts a then [NewStreamCredit d (Long rid) n] else [].
Definition put_reply (a : stream_api) (rid : Z) : list VMap := match a with ApiPutStream => [NewStreamReady d (Long rid)] | _ => [] end.

Lemma stream_taken de req a rid name args cf t c :
  stream_fields req (api_message a) rid name args -> in_int64 rid -> client_offers t (api_serves a) name args cf -> cl_conn t = Some c ->
  exists t' ctx, handleFrame d growcap de req t =
      (tt, t', (CSend c <$> initial_credit a rid (window_of (cl_maxPending t))) ++
               [CGo (JobStream (cl_nextServing t) (Long rid) name cf ctx (wire_arg args))]) /\
    cl_conn t' = Some c /\ cl_servingMap t' !! rid = Some (cl_nextServing t) /\
    cl_servings t' !! cl_nextServing t = Some (newServing (api_serves a) (Long rid) (cl_maxPending t) (cl_nextCtx t)).
Proof.
  intros [] Hid [] Hc. unfold handleFrame, getResponseHandler. rewrite sf_type0.
  assert (in_int64 (api_message a)) as Hmt by (destruct a; cbn; unfold GetStreamRequest, PutStreamRequest, ChatRequest; auto with vrpc).
  rewrite longOf_Long by done.
  assert ((api_message a =? HandshakeResponse) = false /\ (api_message a =? FunctionRequest) = false /\
    (api_message a =? GetStreamRequest) || (api_message a =? PutStreamRequest) || (api_message a =? ChatRequest) = true /\
    streamKindFor (api_message a) = api_serves a) as (-> & -> & -> & Ek) by by destruct a.
  unfold serveInboundStream. rewrite M_gets_bind. cbn [id]. rewrite sf_id0, sf_name0, sf_args0, stringOf_Utf8, co_fn0, Ek, co_ft0.
  rewrite bool_decide_true by done. cbn [negb]. rewrite co_args0. cbn [negb].
  unfold newContext. rewrite M_assoc, M_gets_bind, M_assoc, M_modify_bind, M_left_id, !M_modify_bind. cbn [id].
  rewrite longOf_Long by done. set (r := newServing _ _ _ _). set (t1 := upd_cl_servingMap _ _). set (l := cl_nextServing t).
  assert (cl_servings t1 !! l = Some r) as Hl1 by (unfold t1; cbn; by rewrite lookup_insert_eq).
  assert (cl_servingMap t1 !! rid = Some l) as Hm1 by (unfold t1; cbn; by rewrite lookup_insert_eq).
  assert (inbound (api_serves a) = api_puts a) as -> by by destruct a. unfold initial_credit. destruct (api_puts a) eqn:Ea.
  - assert (ClientServing_grantInitialInbound d r = (tt, r, [VReply (NewStreamCredit d (Long rid) (window_of (cl_maxPending t)))])) as Hg
      by (unfold ClientServing_grantInitialInbound, r, newServing; destruct a; done).
    rewrite (M_run_bind _ _ _ _ _ _ (cl_run_serving l _ r tt r _ t1 c Hl1 Hc Hg)).
    eexists _, _. split; [reflexivity|]. cbn. rewrite !lookup_insert_eq. by split_and!.
  - rewrite M_left_id. eexists t1, _. split; [reflexivity|]. by split_and!.
Qed.

Lemma client_serves de req a rid name args cf t :
  stream_fields req (api_message a) rid name args -> in_int64 rid -> client_offers t (api_serves a) name args cf ->
  let z := client_serve de req t in let l := cl_nextServing t in let n := window_of (cl_maxPending t) in
  z.2 = initial_credit a rid n ++ put_reply a rid /\
  (api_puts a = true -> ClientEnds.served_view rid l z.1 = Some (mkRV (NewStreamPump n) 0 n false)) /\
  (api_gets a = true -> ClientEnds.streamer_view rid l (z.1, ServedUnready) = Some (mkSV Unready NewCreditGate)).
Proof.
  intros Hf Hid Ho z l n. pose proof Ho as []. destruct co_conn0 as [c Hc].
  destruct (stream_taken de req a rid name args cf t c Hf Hid Ho Hc) as (t' & ctx & Hy & Hc' & Hm & Hs). fold l n in Hy, Hm, Hs.
  assert (z = (t', initial_credit a rid n ++ put_reply a rid)) as ->.
  { unfold z, client_serve. rewrite Hy, m_out_eq, m_st_eq, map_app.
    assert (seqM (map client_job (CSend c <$> initial_credit a rid n) ++ map client_job [CGo (JobStream l (Long rid) name cf ctx (wire_arg args))]) t' =
      (tt, t', CSend c <$> put_reply a rid)) as ->.
    { destruct (co_handler0 ctx) as [res Hres].
      assert (client_job (CGo (JobStream l (Long rid) name cf ctx (wire_arg args))) t' = (tt, t', CSend c <$> put_reply a rid)) as Hj.
      { cbn [client_job]. rewrite co_ft0. unfold runInboundStream, reply, getConn_SendRequest, hasConn. rewrite Hres.
        destruct a; [done| |done]. cbn [api_serves]. rewrite decide_True by done. cbn. unM. rewrite Hc'. cbn. by rewrite Hc'. }
      unfold initial_credit. destruct (api_puts a); cbn [map fmap list_fmap seqM app client_job]; rewrite ?M_left_id;
        rewrite (M_run_bind _ _ _ _ _ _ Hj); cbn; by rewrite app_nil_r. }
    rewrite m_st_eq, m_out_eq, !omap_app, !ClientEnds.sent_frames. f_equal. cbn. by rewrite app_nil_r. }
  cbn [fst snd]. split_and!; [done|intros Ha|intros Ha].
  - unfold ClientEnds.served_view. rewrite Hs. set (r := newServing _ _ _ _).
    assert (vs_inPump r = Some (NewStreamPump n) /\ vs_inboundDelivered r = 0 /\ vs_creditWindow r = n /\ vs_inClosed r = false /\ vs_requestId r = Long rid)
      as (-> & -> & -> & -> & Hi) by (unfold r, newServing; destruct a; done).
    rewrite decide_True; [done|]. unfold ClientEnds.inbound_ok, ClientEnds.served_ok. rewrite Hi, Hc', longOf_Long by done.
    split_and!; try done. apply kind_Long.
  - unfold ClientEnds.streamer_view. cbn [ClientEnds.served_pos fst snd]. rewrite Hs. set (r := newServing _ _ _ _).
    assert (vs_sendCredit r = Some NewCreditGate /\ vs_closed r = false /\ vs_requestId r = Long rid)
      as (-> & Hcl & Hi) by (unfold r, newServing; destruct a; done).
    rewrite decide_True; [done|]. unfold ClientEnds.outbound_ok, ClientEnds.served_ok. rewrite Hi, Hcl, Hc', longOf_Long by done.
    split_and!; try done. apply kind_Long.
Qed.

(** ** Server-opened streams *)

Definition reverse_down_world (server : servingClient) (client : rpcClient * list VMap) : world :=
  mkWorld (client.1, ServedUnready) server client.2 [] [] false false.
Definition reverse_up_world (server : servingClient) (client : rpcClient * list VMap) : world :=
  mkWorld (server, PutUnstarted) client.1 [] client.2 [] false true.

Section server_opened.
Context (de : dial_env) (name : string) (args : option Value) (cap : Z) (req : VMap) (cf : clientFunction).
Context (t : rpcClient) (s : servingClient) (a : stream_api).
Abbreviation rrid := (reverse_id s).
Hypothesis session_open : sc_done s = false.
Hypothesis client_reads : req ≡ NewStreamRequest d (api_message a) rrid name args.
Hypothesis client_has : client_offers t (api_serves a) name args cf.

Lemma reverse_fields : stream_fields req (api_message a) rrid name args.
Proof. eapply stream_fields_equiv; [exact client_reads|]. apply reverse_request_fields. Qed.

Lemma reverse_long : kindOf (Long rrid) = NUMBER /\ longOf (Long rrid) = rrid.
Proof. split; [apply kind_Long|apply longOf_Long, reverse_id_range]. Qed.

(** The values of the client's handler. *)
Lemma reverse_down_opened :
  api_gets a = true ->
  opened d growcap rrid (ClientEnds.served_sender d growcap de rrid (cl_nextServing t))
    (ServerEnds.get_receiver d growcap pickDone rrid (reverse_id_range s) (sc_nextLoc s)) DefaultMaxPending
    (reverse_down_world (m_st (open_begin d pickDone a name args cap s)) (client_serve de req t)).
Proof.
  intros Ha.
  destruct (server_opens a name args cap s session_open) as (_ & _ & Hv & _).
  destruct (client_serves de req a rrid name args cf t reverse_fields (reverse_id_range s) client_has) as (Hf & _ & Hs).
  split; cbn; try done.
  - by apply Hs.
  - by apply Hv.
  - destruct reverse_long. rewrite Hf. unfold initial_credit, put_reply. destruct a; try done. cbn. by rewrite credit_frame_no_item.
Qed.

(** The values of the server's producer. *)
Lemma reverse_up_opened :
  api_puts a = true -> 0 < window_of (cl_maxPending t) < two63 ->
  opened d growcap rrid (ServerEnds.put_sender d growcap pickDone rrid (reverse_id_range s) (sc_nextLoc s))
    (ClientEnds.served_receiver d growcap de rrid (cl_nextServing t)) (window_of (cl_maxPending t))
    (reverse_up_world (m_st (open_begin d pickDone a name args cap s)) (client_serve de req t)).
Proof.
  intros Ha Hw.
  destruct (server_opens a name args cap s session_open) as (_ & _ & _ & Hv).
  destruct (client_serves de req a rrid name args cf t reverse_fields (reverse_id_range s) client_has) as (Hf & Hs & _).
  split; cbn; try done.
  - by apply Hv.
  - by apply Hs.
  - destruct reverse_long. rewrite Hf. unfold initial_credit, put_reply. rewrite Ha, omap_app. cbn.
    rewrite credit_frame by (done || unfold in_int64, two63 in *; lia). destruct a; try done. cbn. by rewrite ready_no_credit.
Qed.

(** A stream the server opens: a get stream, a put stream or both directions of a
    chat. *)
(** C6: Streams the server opens (get, put and both directions of a chat),
    with openStream, handleInbound and streamOut of the session against the
    client's serveInboundStream, serveRunning and streamer: values arrive
    exactly, in order and within the window, the receiver ends only after
    everything was received, and every stream can be completed. *)
Theorem reverse_stream_correct :
  0 < window_of (cl_maxPending t) < two63 ->
  let server := m_st (open_begin d pickDone a name args cap s) in let client := client_serve de req t in
  (a <> ApiPutStream ->
     stream_correct rrid (ClientEnds.served_sender d growcap de rrid (cl_nextServing t))
       (ServerEnds.get_receiver d growcap pickDone rrid (reverse_id_range s) (sc_nextLoc s)) DefaultMaxPending
       (reverse_down_world server client)) /\
  (a <> ApiGetStream ->
     stream_correct rrid (ServerEnds.put_sender d growcap pickDone rrid (reverse_id_range s) (sc_nextLoc s))
       (ClientEnds.served_receiver d growcap de rrid (cl_nextServing t)) (window_of (cl_maxPending t))
       (reverse_up_world server client)).
Proof.
  intros Hw server client. split; intros Ha.
  - apply opened_correct; [done|unfold DefaultMaxPending, two63; lia|]. apply reverse_down_opened. by destruct a.
  - apply opened_correct; [done|done|]. apply reverse_up_opened; [by destruct a|done].
Qed.

End server_opened.

End streams.

(** ** Witnesses: streams of two values over fresh sessions *)

Section stream_witness.
#[local] Existing Instance RefValueLib.

Definition demo_stream_server (ft : functionType) : servingClient :=
  NewServingClient 7 "" "" {[ "feed" := mkFunction "feed" Any Void ft (fun _ _ => Returned None) ]} (mkServerConfig 2 1 4 None false).
Definition demo_req (ft : functionType) : VMap := stream_request NewDialect (ft_message ft) demo_caller demo_ctx0 None "feed" None.
Definition demo_values : list (option Value) := [Some (Long 1); Some (Long 2)].

Lemma demo_nonnull : Forall nonnull demo_values.
Proof. repeat constructor; done. Qed.
Lemma demo_larger n : (n < demo_cl_grow n)%nat.
Proof. unfold demo_cl_grow. lia. Qed.
Lemma demo_rid : in_int64 (cl_lastRequest demo_caller + 1).
Proof. by vm_compute. Qed.
Lemma demo_can_open : can_open demo_caller.
Proof. split_and!; [by eexists|apply demo_rid|done]. Qed.
Lemma demo_offers ft :
  ft <> singleFunction ->
  offers (demo_stream_server ft) ft (cl_lastRequest demo_caller + 1) "feed" None (mkFunction "feed" Any Void ft (fun _ _ => Returned None)).
Proof. intros Hft. split; [|done]. split; try done. by eexists. Qed.

Lemma demo_reads ft : reads NewDialect demo_ctx0 None "feed" None (demo_req ft) demo_caller ft.
Proof. unfold reads, demo_req. reflexivity. Qed.

Abbreviation demo_id := (cl_lastRequest demo_caller + 1).
Abbreviation demo_fn ft := (mkFunction "feed" Any Void ft (fun _ _ => Returned None)).
Abbreviation demo_streamer := (ServerEnds.streamer_sender NewDialect demo_cl_grow demo_pick demo_id 0).
Abbreviation demo_reader := (ClientEnds.request_receiver NewDialect demo_cl_grow demo_dial demo_id demo_rid 0).
Abbreviation demo_producer := (ClientEnds.request_sender NewDialect demo_cl_grow demo_dial demo_id demo_rid 0).
Abbreviation demo_handler := (ServerEnds.inbound_receiver NewDialect demo_cl_grow demo_pick demo_id 0).
Abbreviation demo_answered ft := (server_call NewDialect demo_cl_grow demo_pick ft (demo_req ft) (demo_stream_server ft)).

Lemma get_stream_correct_witness :
  completes NewDialect demo_cl_grow demo_id demo_streamer demo_reader
    (down_world (m_st (GetStream_begin NewDialect demo_cl_grow demo_dial demo_ctx0 None "feed" None 8 demo_caller)) (demo_answered outgoingStream))
    demo_values.
Proof.
  destruct (get_stream_correct NewDialect demo_cl_grow demo_pick demo_larger demo_dial demo_ctx0 None "feed" None (demo_req outgoingStream)
    (demo_fn outgoingStream) demo_caller (demo_stream_server outgoingStream) demo_rid demo_can_open 8 ltac:(vm_compute; done)
    (demo_reads outgoingStream) (demo_offers outgoingStream ltac:(done)) _ (reach_here _ _) ltac:(constructor)) as (k & g & r & Hs & _ & _ & Hc).
  apply Hc; [apply demo_nonnull|]. apply (opened_fresh _ _ _ _ _ _ _ _ _
      (down_opened NewDialect demo_cl_grow demo_pick demo_dial demo_ctx0 None "feed" None (demo_req outgoingStream) (demo_fn outgoingStream) demo_caller (demo_stream_server outgoingStream) demo_rid demo_can_open GetStreamRequest getStreamKind outgoingStream _ eq_refl eq_refl ltac:(vm_compute; done) (demo_reads outgoingStream) (demo_offers outgoingStream ltac:(done))) Hs).
Defined.

Lemma put_stream_correct_witness :
  completes NewDialect demo_cl_grow demo_id demo_producer demo_handler
    (up_world (m_st (PutStream_begin NewDialect demo_cl_grow demo_dial demo_ctx0 None "feed" None demo_caller)) (demo_answered incomingStream))
    demo_values.
Proof.
  destruct (put_stream_correct NewDialect demo_cl_grow demo_pick demo_larger demo_dial demo_ctx0 None "feed" None (demo_req incomingStream)
    (demo_fn incomingStream) demo_caller (demo_stream_server incomingStream) demo_rid demo_can_open ltac:(vm_compute; done)
    (demo_reads incomingStream) (demo_offers incomingStream ltac:(done)) _ (reach_here _ _) ltac:(constructor)) as (k & g & r & Hs & _ & _ & Hc).
  apply Hc; [apply demo_nonnull|]. apply (opened_fresh _ _ _ _ _ _ _ _ _
      (up_opened NewDialect demo_cl_grow demo_pick demo_dial demo_ctx0 None "feed" None (demo_req incomingStream) (demo_fn incomingStream) demo_caller (demo_stream_server incomingStream) demo_rid demo_can_open PutStreamRequest putStreamKind incomingStream _ eq_refl eq_refl ltac:(vm_compute; done) (demo_reads incomingStream) (demo_offers incomingStream ltac:(done))) Hs).
Defined.

Lemma chat_correct_witness :
  let client := m_st (Chat_begin NewDialect demo_cl_grow demo_dial demo_ctx0 None "feed" None 8 demo_caller) in
  completes NewDialect demo_cl_grow demo_id demo_streamer demo_reader (down_world client (demo_answered chat)) demo_values /\
  completes NewDialect demo_cl_grow demo_id demo_producer demo_handler (up_world client (demo_answered chat)) demo_values.
Proof.
  destruct (chat_correct NewDialect demo_cl_grow demo_pick demo_larger demo_dial demo_ctx0 None "feed" None (demo_req chat)
    (demo_fn chat) demo_caller (demo_stream_server chat) demo_rid demo_can_open 8 ltac:(vm_compute; done) ltac:(vm_compute; done)
    (demo_reads chat) (demo_offers chat ltac:(done))) as [Hd Hu]. split.
  - destruct (Hd _ (reach_here _ _) ltac:(constructor)) as (k & g & r & Hs & _ & _ & Hc).
    apply Hc; [apply demo_nonnull|]. apply (opened_fresh _ _ _ _ _ _ _ _ _
      (down_opened NewDialect demo_cl_grow demo_pick demo_dial demo_ctx0 None "feed" None (demo_req chat) (demo_fn chat) demo_caller (demo_stream_server chat) demo_rid demo_can_open ChatRequest chatKind chat _ eq_refl eq_refl ltac:(vm_compute; done) (demo_reads chat) (demo_offers chat ltac:(done))) Hs).
  - destruct (Hu _ (reach_here _ _) ltac:(constructor)) as (k & g & r & Hs & _ & _ & Hc).
    apply Hc; [apply demo_nonnull|]. apply (opened_fresh _ _ _ _ _ _ _ _ _
      (up_opened NewDialect demo_cl_grow demo_pick demo_dial demo_ctx0 None "feed" None (demo_req chat) (demo_fn chat) demo_caller (demo_stream_server chat) demo_rid demo_can_open ChatRequest chatKind chat _ eq_refl eq_refl ltac:(vm_compute; done) (demo_reads chat) (demo_offers chat ltac:(done))) Hs).
Defined.

Lemma null_values_starve_witness :
  exists w r c, Z.of_nat c <= 4 /\ w_made w = replicate c None ++ [Some (Long 1)] /\ outSent (rv_pump r) = [None] /\
    forall w', reach (world_step NewDialect demo_cl_grow demo_id demo_streamer demo_reader) w w' -> rcv_view demo_reader (w_rcv w') = Some r.
Proof.
  destruct (proj1 (null_values_starve NewDialect demo_cl_grow demo_pick demo_larger demo_dial demo_ctx0 None "feed" None (demo_req outgoingStream)
    (demo_fn outgoingStream) demo_caller (demo_stream_server outgoingStream) demo_rid demo_can_open 8 (Some (Long 1)))
    ltac:(vm_compute; done) (demo_reads outgoingStream) (demo_offers outgoingStream ltac:(done))) as (w & r & c & Hc & Hm & Ho & _ & Hst).
  exists w, r, c. split; [exact Hc|]. split; [exact Hm|]. split; [exact Ho|]. intros w' Hw'. apply (Hst w' Hw').
Defined.

Definition demo_stream_client : rpcClient :=
  upd_cl_functionMap (insert "feed" (mkCF cfnChat Any Void (fun _ _ => inl None))) demo_caller.
Definition demo_reverse_req : VMap :=
  NewStreamRequest NewDialect (api_message ApiChat) (reverse_id (demo_stream_server chat)) "feed" None.

Lemma reverse_stream_correct_witness :
  let s := demo_stream_server chat in let rrid := reverse_id s in
  let server := m_st (open_begin NewDialect demo_pick ApiChat "feed" None 8 s) in
  let client := client_serve NewDialect demo_cl_grow demo_dial demo_reverse_req demo_stream_client in
  completes NewDialect demo_cl_grow rrid (ClientEnds.served_sender NewDialect demo_cl_grow demo_dial rrid 0)
    (ServerEnds.get_receiver NewDialect demo_cl_grow demo_pick rrid (reverse_id_range s) 0) (reverse_down_world server client) demo_values /\
  completes NewDialect demo_cl_grow rrid (ServerEnds.put_sender NewDialect demo_cl_grow demo_pick rrid (reverse_id_range s) 0)
    (ClientEnds.served_receiver NewDialect demo_cl_grow demo_dial rrid 0) (reverse_up_world server client) demo_values.
Proof.
  assert (client_offers demo_stream_client (api_serves ApiChat) "feed" None (mkCF cfnChat Any Void (fun _ _ => inl None))) as Ho
    by (split; try done; by eexists).
  assert (demo_reverse_req ≡ NewStreamRequest NewDialect (api_message ApiChat) (reverse_id (demo_stream_server chat)) "feed" None) as Hreq by reflexivity.
  destruct (reverse_stream_correct NewDialect demo_cl_grow demo_pick demo_larger demo_dial "feed" None 8 demo_reverse_req _
    demo_stream_client (demo_stream_server chat) ApiChat eq_refl Hreq Ho ltac:(vm_compute; done)) as [Hd Hu]. split.
  - destruct (Hd ltac:(done) _ (reach_here _ _) ltac:(constructor)) as (k & g & r & Hs & _ & _ & Hc).
    apply Hc; [apply demo_nonnull|]. apply (opened_fresh _ _ _ _ _ _ _ _ _
      (reverse_down_opened NewDialect demo_cl_grow demo_pick demo_dial "feed" None 8 demo_reverse_req _ demo_stream_client (demo_stream_server chat) ApiChat eq_refl Hreq Ho eq_refl) Hs).
  - destruct (Hu ltac:(done) _ (reach_here _ _) ltac:(constructor)) as (k & g & r & Hs & _ & _ & Hc).
    apply Hc; [apply demo_nonnull|]. apply (opened_fresh _ _ _ _ _ _ _ _ _
      (reverse_up_opened NewDialect demo_cl_grow demo_pick demo_dial "feed" None 8 demo_reverse_req _ demo_stream_client (demo_stream_server chat) ApiChat eq_refl Hreq Ho eq_refl ltac:(vm_compute; done)) Hs).
Defined.

End stream_witness.
