(* ===== verification/StreamIsolation.v ===== *)
(** * Streams do not disturb each other

    One session and one client carry many requests at once.  Here: whatever the
    session (ServingClient.v) or the client (Client.v) does for other requests
    (frames with other ids, handlers, streamers, pumps, new calls and streams)
    leaves the two ends of a stream as they are and sends no frame of it.  These
    are the environment's steps of StreamLink.v's [world_step]. *)

From S2P Require Import Prelude Value RefValue Protocol Verify Credit Pump FlowControl Request Metadata.
From S2P Require Import ClientStream ServingClient ServingSystem SessionWork ServingProps EndToEnd StreamLink ServerEnds.

(** ** Frames of other streams *)

Section foreign.
Context `{ValueLib} (d : Dialect) `{!dialect_ok d} (rid : Z).

(** A frame that does not carry the id of stream [rid]. *)
Definition foreign (m : VMap) : Prop := requestIdOf d m <> Some rid.

Lemma foreign_unread m : foreign m -> item_of d rid m = None /\ credit_of d rid m = None.
Proof. intros Hm. unfold item_of, credit_of. by rewrite !bool_decide_false by done. Qed.

Lemma foreign_id m v : Get m (RequestIdField d) = Some v -> longOf v <> rid -> foreign m.
Proof. intros Hv Hid. unfold foreign, requestIdOf, GetNumberField. rewrite Hv. case_decide; congruence. Qed.

Definition stream_type (mt : Z) : bool := (mt =? StreamReady) || (mt =? StreamValue) || (mt =? StreamEnd) || (mt =? StreamCredit).

Ltac by_id v := apply (foreign_id _ v); [by env_simpl|done].

Context (reqId : Value) (Hid : longOf reqId <> rid).
Lemma foreign_error code msg : foreign (NewFunctionError d reqId code msg).
Proof. unfold NewFunctionError. by_id reqId. Qed.
Lemma foreign_handler_error where_ err : foreign (NewHandlerError d reqId where_ err).
Proof. unfold NewHandlerError. destruct err; apply foreign_error. Qed.
Lemma foreign_result res : foreign (NewFunctionResult d reqId res).
Proof. unfold NewFunctionResult. destruct res; by_id reqId. Qed.
Lemma foreign_ready : foreign (NewStreamReady d reqId).
Proof. unfold NewStreamReady. by_id reqId. Qed.
Lemma foreign_value v : foreign (NewStreamValue d reqId v).
Proof. unfold NewStreamValue. by_id reqId. Qed.
Lemma foreign_end v : foreign (NewStreamEnd d reqId v).
Proof. unfold NewStreamEnd. destruct v; by_id reqId. Qed.
Lemma foreign_credit n : foreign (NewStreamCredit d reqId n).
Proof. unfold NewStreamCredit. by_id reqId. Qed.
Context (id : Z) (Hlong : longOf (Long id) <> rid).
Lemma foreign_call name args md : foreign (PutMetadata d (NewFunctionRequest d id name args) md).
Proof. unfold PutMetadata, NewFunctionRequest. destruct (EncodeMetadata md), args; by_id (Long id). Qed.
Lemma foreign_cancel mt : foreign (NewSystemRequest d id mt).
Proof. unfold NewSystemRequest. by_id (Long id). Qed.
Lemma foreign_open mt name args : foreign (NewStreamRequest d mt id name args).
Proof. unfold NewStreamRequest. destruct args; by_id (Long id). Qed.
End foreign.
#[export] Hint Resolve foreign_error foreign_handler_error foreign_result foreign_call foreign_cancel
  foreign_ready foreign_value foreign_end foreign_credit : vrpc.

(** ** Objects that may not exist yet *)

Section owner.
Context {A : Type} (o : option nat).
Implicit Type m : gmap nat A.
Definition at_owner (m : gmap nat A) : option A := o ≫= fun l => m !! l.
Lemma at_owner_alter f l m : Some l <> o -> at_owner (alter f l m) = at_owner m.
Proof. unfold at_owner. destruct o as [l'|]; cbn; [|done]. intros Hl. by rewrite lookup_alter_ne by congruence. Qed.
Lemma at_owner_insert x l m : Some l <> o -> at_owner (<[l := x]> m) = at_owner m.
Proof. unfold at_owner. destruct o as [l'|]; cbn; [|done]. intros Hl. by rewrite lookup_insert_ne by congruence. Qed.
End owner.

(** ** The session *)

Section session_isolation.
Context `{ValueLib} (d : Dialect) `{!dialect_ok d} (growcap : nat -> nat) (pickDone : servingClient -> VMap -> bool).
Context (rid : Z) (l0 : option nat).

Abbreviation SC := (M servingClient sc_ev).

(** What a session keeps of the stream [rid] whose object is [l0]; [None] while
    the session has none. *)
Record footprint := mkFootprint {
  fp_request : option servingRequest;
  fp_stream : option clientStream;
  fp_registered : option nat;
  fp_listed : option nat;
  fp_done : bool
}.

Definition footprint_of (t : servingClient) : footprint :=
  mkFootprint (at_owner l0 (sc_requests t)) (at_owner l0 (sc_streams t)) (sc_requestMap t !! rid) (sc_pendingStreams t !! rid) (sc_done t).

Definition foreign_ev (e : sc_ev) : Prop := match e with ESend m => foreign d rid m | _ => True end.

(** A 64-bit id of another stream. *)
Definition other_id (id : Z) : Prop := id <> rid /\ in_int64 id.

Lemma other_long id : other_id id -> longOf (Long id) <> rid.
Proof. intros []. by rewrite longOf_Long. Qed.

(** The stream is the only one with its id and its object; the maps hold
    allocated objects. *)
Record distinct (t : servingClient) : Prop := {
  di_requests l r : Some l <> l0 -> sc_requests t !! l = Some r -> longOf (sr_requestId r) <> rid;
  di_streams l cs : Some l <> l0 -> sc_streams t !! l = Some cs -> other_id (cs_requestId cs);
  di_map id l : id <> rid -> sc_requestMap t !! id = Some l \/ sc_pendingStreams t !! id = Some l -> Some l <> l0;
  di_loc l : l0 = Some l -> (l < sc_nextLoc t)%nat;
  di_alloc id l : sc_requestMap t !! id = Some l \/ sc_pendingStreams t !! id = Some l -> (l < sc_nextLoc t)%nat
}.

Record spared (fp : footprint) (t : servingClient) (o : list sc_ev) : Prop := {
  sp_fp : footprint_of t = fp;
  sp_distinct : distinct t;
  sp_out : Forall foreign_ev o
}.

Lemma next_loc_free t : distinct t -> Some (sc_nextLoc t) <> l0.
Proof. intros Hd E. pose proof (di_loc t Hd _ (eq_sym E)). lia. Qed.

Section keep.
Context (fp : footprint).
Abbreviation P := (spared fp).

(** Updates of anything else. *)
Lemma spared_modify f :
  (forall t, distinct t -> footprint_of (f t) = footprint_of t /\ distinct (f t)) -> keeps P (modify f).
Proof.
  intros Hf. apply keeps_modify. intros t o [Hfp Hd Ho]. destruct (Hf t Hd) as [E D]. split; [congruence|done|done].
Qed.

Lemma spared_other f :
  (forall t, sc_requests (f t) = sc_requests t /\ sc_streams (f t) = sc_streams t /\ sc_requestMap (f t) = sc_requestMap t /\
     sc_pendingStreams (f t) = sc_pendingStreams t /\ sc_done (f t) = sc_done t /\ (sc_nextLoc t <= sc_nextLoc (f t))%nat) ->
  keeps P (modify f).
Proof.
  intros Hf. apply spared_modify. intros t []. destruct (Hf t) as (E1 & E2 & E3 & E4 & E5 & E6). split.
  - unfold footprint_of. congruence.
  - split; rewrite ?E1, ?E2, ?E3, ?E4; try done; [intros l Hl; specialize (di_loc0 l Hl)|intros id l Hl; specialize (di_alloc0 id l Hl)]; lia.
Qed.
Ltac other := apply spared_other; intros ?; cbn; split_and!; first [done | lia].

Lemma spared_emit e : foreign_ev e -> keeps P (emit e).
Proof. intros He. apply keeps_emit. intros t o []. split; [done|done|]. apply Forall_app. by repeat constructor. Qed.

Lemma spared_send m : foreign d rid m -> keeps P (send pickDone m).
Proof. intros Hm. unfold send. keeps_split. by apply spared_emit. Qed.
Lemma spared_send_ m : foreign d rid m -> keeps P (send_ pickDone m).
Proof. intros Hm. unfold send_. keeps_split. by apply spared_send. Qed.

Lemma spared_upd_request l f :
  Some l <> l0 -> (forall r, sr_requestId (f r) = sr_requestId r) -> keeps P (upd_request l f).
Proof.
  intros Hl Hf. apply spared_modify. intros t []. split.
  - unfold footprint_of. cbn. by rewrite at_owner_alter.
  - split; cbn; try done. intros l' r Hne. rewrite lookup_alter. case_decide; [|by apply di_requests0].
    subst. intros (r0 & Hr0 & ->)%fmap_Some. rewrite Hf. by eapply di_requests0.
Qed.

Lemma spared_delete id : id <> rid -> keeps P (modify (upd_sc_requestMap (delete id))).
Proof.
  intros Hid. apply spared_modify. intros t []. split.
  - unfold footprint_of. cbn. by rewrite lookup_delete_ne.
  - split; cbn; try done. all: intros id' l; rewrite !lookup_delete_Some; specialize (di_map0 id' l); specialize (di_alloc0 id' l); naive_solver.
Qed.

Lemma spared_deletePendingStream id : id <> rid -> keeps P (deletePendingStream id).
Proof.
  intros Hid. apply spared_modify. intros t []. split.
  - unfold footprint_of. cbn. by rewrite lookup_delete_ne.
  - split; cbn; try done. all: intros id' l; rewrite !lookup_delete_Some; specialize (di_map0 id' l); specialize (di_alloc0 id' l); naive_solver.
Qed.

(** Reading an object of another request. *)
Lemma spared_get_request {B} l (k : option servingRequest -> SC B) :
  Some l <> l0 -> keeps P (k None) -> (forall r, longOf (sr_requestId r) <> rid -> keeps P (k (Some r))) -> keeps P (get_request l ≫= k).
Proof.
  intros Hl Hn Hs t o HP. unfold get_request. rewrite M_gets_bind.
  destruct (sc_requests t !! l) as [r|] eqn:Er; [|by apply Hn]. apply Hs; [|done]. by eapply di_requests; [apply HP|..].
Qed.

Lemma spared_set_request l r : Some l <> l0 -> longOf (sr_requestId r) <> rid -> keeps P (set_request l r).
Proof.
  intros Hl Hr. apply spared_modify. intros t []. split.
  - unfold footprint_of. cbn. by rewrite at_owner_insert.
  - split; cbn; try done. intros l' r' Hne. rewrite lookup_insert. case_decide; [naive_solver|by apply di_requests0].
Qed.

(** Methods of the request objects. *)
Lemma spared_cancelCtx r : keeps P (cancelCtx r).
Proof. unfold cancelCtx, cancelContext. keeps_split. other. Qed.

Lemma spared_deleteRequest v : longOf v <> rid -> keeps P (deleteRequest v).
Proof. intros Hv. unfold deleteRequest. keeps_split; [by apply spared_delete|other|by apply spared_emit]. Qed.

Lemma spared_Close l : Some l <> l0 -> keeps P (ServingRequest_Close l).
Proof.
  intros Hl. unfold ServingRequest_Close, get_request. keeps_split; try (by apply spared_upd_request). apply spared_cancelCtx.
Qed.

Lemma spared_closeRequest l r : Some l <> l0 -> longOf (sr_requestId r) <> rid -> keeps P (closeRequest l r).
Proof. intros. unfold closeRequest. keeps_split; [by apply spared_deleteRequest|by apply spared_Close]. Qed.

Lemma spared_grantInbound l : Some l <> l0 -> keeps P (grantInbound d pickDone l).
Proof.
  intros Hl. unfold grantInbound. apply spared_get_request; [done|keeps_split|]. intros r Hr.
  keeps_split; [by apply spared_upd_request|]. apply spared_send_. auto with vrpc.
Qed.

Lemma spared_streamers l : Some l <> l0 -> keeps P (streamer_ready d pickDone l) /\
  (forall c, keeps P (streamer_select d pickDone l c)) /\ (forall v, keeps P (streamer_acquire d pickDone l v)).
Proof.
  intros Hl. unfold streamer_ready, streamer_select, streamer_acquire. split_and!; intros; (apply spared_get_request; [done|keeps_split|]);
    intros r Hr; keeps_split;
    first [ by apply spared_closeRequest | by apply spared_upd_request | apply spared_send_; by auto with vrpc | by apply spared_emit ].
Qed.

Lemma spared_pump_request l f b : Some l <> l0 -> keeps P (pump_request d pickDone l f b).
Proof. intros. unfold pump_request. keeps_split; [by apply spared_upd_request|by apply spared_grantInbound]. Qed.

Lemma spared_serveRunning l mt req : Some l <> l0 -> keeps P (serveRunningRequest d growcap pickDone l mt req).
Proof.
  intros Hl. unfold serveRunningRequest. apply spared_get_request; [done|keeps_split|]. intros r Hr.
  unfold incomingStreamValue, incomingStreamEnd, get_request. keeps_split;
    first [ by apply spared_closeRequest | by apply spared_deleteRequest | apply spared_cancelCtx
          | apply spared_upd_request; [done|intros; by rewrite ?setCode_id, ?closeInboundChan_id, ?offer_id]
          | apply spared_send_; by auto with vrpc | by apply spared_emit ].
Qed.

(** Methods of the streams the server opened. *)
Definition keeps_id {A} (m : M clientStream Z A) : Prop := forall cs, cs_requestId (m_st (m cs)) = cs_requestId cs.

Lemma stream_methods_keep_id :
  (forall v, keeps_id (ClientStream_notifyResult growcap v)) /\ keeps_id tryGetClose /\ keeps_id tryPutClose /\ keeps_id ClientStream_Close /\
  (forall e, keeps_id (ClientStream_setError e)) /\ keeps_id ClientStream_sendInitialCredit /\ keeps_id ClientStream_grantRecv.
Proof.
  unfold keeps_id, ClientStream_notifyResult, tryGetClose, tryPutClose, ClientStream_Close, ClientStream_closeResult, ClientStream_setError,
    ClientStream_sendInitialCredit, ClientStream_grantRecv. split_and!; intros; unM.
  - destruct (cs_resultPump cs) as [p|]; [destruct (Push None growcap v p); done|]. destruct (negb _); [done|]. by destruct (_ <? _).
  - destruct (cs_closeOnce cs); cbn; [done|]. by destruct (cs_resultPump cs).
  - case_decide; cbn; [|done]. destruct (cs_closeOnce cs); cbn; [done|]. by destruct (cs_resultPump cs).
  - destruct (cs_closeOnce cs); cbn; [done|]. by destruct (Stop <$> cs_resultPump cs).
  - done.
  - by destruct (_ && _).
  - destruct (grantRecv _ _) as [n [g|]]; cbn; [by destruct (cs_grantCredit cs)|done].
Qed.

Lemma spared_streams l cs : Some l <> l0 -> other_id (cs_requestId cs) -> keeps P (modify (upd_sc_streams (insert l cs))).
Proof.
  intros Hl Hc. apply spared_modify. intros t []. split.
  - unfold footprint_of. cbn. by rewrite at_owner_insert.
  - split; cbn; try done. intros l' cs' Hne. rewrite lookup_insert. case_decide; [naive_solver|by apply di_streams0].
Qed.

Lemma spared_on_stream {A} l (m : M clientStream Z A) : Some l <> l0 -> keeps_id m -> keeps P (on_stream d pickDone l m).
Proof.
  intros Hl Hm t o HP. unfold on_stream. rewrite M_gets_bind. cbn [id]. destruct (sc_streams t !! l) as [cs|] eqn:Ecs; [|by apply keeps_ret].
  assert (other_id (cs_requestId cs)) as Hc by (eapply di_streams; [apply HP|done|done]). apply other_long in Hc as Hc'.
  specialize (Hm cs). destruct (m cs) as [[a cs'] ns]. cbn in Hm.
  assert (keeps P (modify (upd_sc_streams (insert l cs')) ≫= fun _ =>
    seqM (map (fun n => send_ pickDone (NewStreamCredit d (Long (cs_requestId cs)) n)) ns) ≫= fun _ => mret (Some a))) as Hk; [|by apply Hk].
  keeps_split; [by apply spared_streams; [|congruence]|]. apply keeps_seqM, Forall_map, Forall_true. intros n. apply spared_send_. auto with vrpc.
Qed.

Lemma spared_alter_stream l f :
  Some l <> l0 -> (forall cs, cs_requestId (f cs) = cs_requestId cs) -> keeps P (modify (upd_sc_streams (alter f l))).
Proof.
  intros Hl Hf. apply spared_modify. intros t []. split.
  - unfold footprint_of. cbn. by rewrite at_owner_alter.
  - split; cbn; try done. intros l' cs Hne. rewrite lookup_alter. case_decide; [|by apply di_streams0].
    subst. intros (cs0 & Hcs0 & ->)%fmap_Some. rewrite Hf. by eapply di_streams0.
Qed.

Lemma spared_get_stream {B} l (k : servingClient -> SC B) :
  Some l <> l0 -> (forall t, (forall cs, sc_streams t !! l = Some cs -> other_id (cs_requestId cs)) -> keeps P (k t)) -> keeps P (gets id ≫= k).
Proof. intros Hl Hk t o HP. rewrite M_gets_bind. apply Hk; [|done]. intros cs Hcs. by eapply di_streams; [apply HP|..]. Qed.

Lemma spared_handleInbound l mt req : Some l <> l0 -> keeps P (handleInbound d growcap pickDone l mt req).
Proof.
  intros Hl. pose proof stream_methods_keep_id as (K1 & K2 & K3 & K4 & K5 & _). unfold handleInbound.
  apply (spared_get_stream l); [done|]. intros t Ht. destruct (sc_streams t !! l) as [cs|]; [|keeps_split].
  specialize (Ht cs eq_refl). pose proof (other_long _ Ht). destruct Ht as [Ht _].
  keeps_split; first [ by apply spared_on_stream | by apply spared_deletePendingStream | by apply spared_alter_stream
                     | apply spared_send_; by auto with vrpc | idtac ].
Qed.

Lemma spared_completePendingCall v mt req : keeps P (completePendingCall d v mt req).
Proof. unfold completePendingCall. keeps_split; other. Qed.

Lemma spared_serveNewRequest mt req : requestIdOf d req <> Some rid -> keeps P (serveNewRequest d pickDone mt req).
Proof.
  intros Hid. unfold serveNewRequest, requestIdOf in *. destruct (GetNumberField req (RequestIdField d)) as [v|]; [assert (longOf v <> rid) by congruence|].
  all: keeps_split; first [ other | by apply spared_emit | apply spared_send_; by auto with vrpc ].
Qed.

Lemma spared_processRequest req : requestIdOf d req <> Some rid -> keeps P (processRequest d growcap pickDone req).
Proof.
  intros Hid t o HP. unfold processRequest. rewrite M_gets_bind. cbn [id].
  destruct (GetNumberField req (MessageTypeField d)) as [mt|]; [|by apply keeps_ret].
  destruct (GetNumberField req (RequestIdField d)) as [reqId|] eqn:Er; [|by apply keeps_ret].
  assert (longOf reqId <> rid) as Hne by (unfold requestIdOf in Hid; rewrite Er in Hid; congruence). pose proof (fun l => di_map _ (sp_distinct _ _ _ HP) _ l Hne) as Hm.
  unfold findPendingStream. rewrite M_gets_bind. destruct (sc_pendingStreams t !! longOf reqId) as [l|].
  { apply spared_handleInbound; [|done]. apply Hm. by right. }
  assert (forall l, sc_requestMap t !! longOf reqId = Some l -> Some l <> l0) as Hl by (intros l Hl; apply Hm; by left).
  match goal with |- P (m_st (?m t)) _ => assert (keeps P m) as Hk; [|by apply Hk] end.
  destruct (sc_requestMap t !! longOf reqId) as [l|]; [specialize (Hl l eq_refl)|]; keeps_split;
    first [ by apply spared_serveRunning | apply spared_completePendingCall | by apply spared_serveNewRequest | unfold cancelContext; other ].
Qed.

(** Where the result of the first part matters. *)
Lemma spared_bind_res {A B} (m : SC A) (k : A -> SC B) :
  keeps P m -> (forall a, (exists t, m_res (m t) = a) -> keeps P (k a)) -> keeps P (m ≫= k).
Proof.
  intros Hm Hk t o HP. rewrite M_bind_st, M_bind_out, app_assoc. apply Hk; [by eexists|]. by apply Hm.
Qed.

(** A handler goroutine. *)
Lemma spared_serveEnd ft req r : (forall m, r = Some (Some m) -> foreign d rid m) -> keeps P (serveEnd d pickDone ft req r).
Proof. intros Hr. unfold serveEnd. keeps_split; first [ other | by apply spared_emit | apply spared_send_; subst; by apply Hr ]. Qed.

Lemma spared_admitRequest ft req : keeps P (admitRequest d ft req).
Proof. unfold admitRequest, newRequestContext. keeps_split. other. Qed.

Lemma admit_error_foreign ft req id t resp :
  requestIdOf d req = Some id -> id <> rid -> m_res (admitRequest d ft req t) = inl resp -> foreign d rid resp.
Proof.
  unfold admitRequest, requestIdOf. destruct (GetNumberField req (RequestIdField d)) as [v|]; [|done]. intros [= Hv] Hne.
  assert (longOf v <> rid) by congruence. rewrite M_gets_bind. cbn [Datatypes.id]. intros Hr.
  repeat (match type of Hr with context [match ?x with _ => _ end] => destruct x end; try (injection Hr as <-; by auto with vrpc)).
  all: try (cbn in Hr; injection Hr as <-; by auto with vrpc).
  all: rewrite M_bind_res in Hr; discriminate Hr.
Qed.

Lemma spared_serve_admit ft req id : requestIdOf d req = Some id -> id <> rid -> keeps P (serve_admit d pickDone ft req).
Proof.
  intros Hreq Hid. unfold serve_admit, serveBegin. apply keeps_bind; [keeps_split; by apply spared_emit|]. intros _.
  apply spared_bind_res; [apply spared_admitRequest|]. intros [resp|a] [t Ht]; keeps_split.
  apply spared_serveEnd. intros m [= <-]. by eapply admit_error_foreign.
Qed.

(** A new object under another id. *)
Definition with_request (id : Z) (r : servingRequest) (t : servingClient) : servingClient :=
  upd_sc_requestMap (insert id (sc_nextLoc t)) (upd_sc_requests (insert (sc_nextLoc t) r) (upd_sc_nextLoc S t)).

Lemma spared_with_request id r t o : id <> rid -> longOf (sr_requestId r) <> rid -> P t o -> P (with_request id r t) o.
Proof.
  intros Hid Hr [Hfp Hd Ho]. pose proof (next_loc_free t Hd) as Hl. destruct Hd. split; [|split; cbn|done].
  - rewrite <- Hfp. unfold footprint_of. cbn. by rewrite at_owner_insert, lookup_insert_ne by done.
  - intros l' r'. rewrite lookup_insert. case_decide; naive_solver.
  - done.
  - intros id' l' Hne. rewrite lookup_insert. specialize (di_map0 id' l' Hne). case_decide; naive_solver.
  - intros l' Hl'. specialize (di_loc0 l' Hl'). lia.
  - intros id' l'. rewrite lookup_insert. specialize (di_alloc0 id' l'). case_decide; [intros [[= <-]|?]|intros Hx]; try lia;
      [apply Nat.lt_lt_succ_r, di_alloc0; by right|by apply Nat.lt_lt_succ_r, di_alloc0].
Qed.

Lemma spared_startHandler c a : longOf (ad_reqId a) <> rid -> keeps P (startHandler d pickDone c a).
Proof.
  intros Hid. unfold startHandler.
  assert (forall ft, keeps P (newServingRequest d pickDone ft (ad_reqId a) (ad_name a) c)) as Hn.
  { intros ft t o HP. unfold newServingRequest, set_request. rewrite M_gets_bind. cbn [id].
    rewrite (M_run_bind (emit _) _ _ _ _ _ eq_refl), m_st_eq, m_out_eq, app_assoc, !M_modify_bind.
    match goal with |- context [upd_sc_requests (insert _ ?r)] => set (sr := r) end.
    assert (longOf (sr_requestId sr) <> rid) as Hsr by (unfold sr; by destruct (_ || _)).
    pose proof (spared_with_request (longOf (ad_reqId a)) sr t _ Hid Hsr (spared_emit (ERequestBegin (ad_name a)) I t o HP)) as HP'.
    fold (with_request (longOf (ad_reqId a)) sr t).
    match goal with |- P (m_st (?m ?x)) _ => assert (keeps P m) as Hk end; [|apply (Hk (upd_sc_liveStreams (fun n => n + 1) (with_request (longOf (ad_reqId a)) sr t))); destruct HP' as [Hf Hd Ho]; split; [exact Hf|by destruct Hd|exact Ho]].
    unfold grantInitialInbound. keeps_split. apply spared_send_. by apply foreign_credit. }
  keeps_split; try apply Hn. other.
Qed.

Lemma spared_finishHandler c a l o : longOf (ad_reqId a) <> rid -> (fn_ft (ad_fn a) = singleFunction \/ Some l <> l0) -> keeps P (finishHandler d c a l o).
Proof.
  intros Hid Hl. unfold finishHandler, cancelContext. destruct (fn_ft (ad_fn a)) eqn:Eft; [keeps_split; other|..];
    (destruct Hl as [|Hl]; [done|]); (destruct o as [res|err|]; [keeps_split; by apply spared_emit| |keeps_split]);
    (apply keeps_bind; [apply spared_upd_request; [done|intros; apply setCode_id]|intros _]);
    (apply spared_get_request; [done|keeps_split|intros r Hr; keeps_split; by apply spared_closeRequest]).
Qed.

Lemma finish_foreign c a l o t m : longOf (ad_reqId a) <> rid -> m_res (finishHandler d c a l o t) = Some (Some m) -> foreign d rid m.
Proof.
  intros Hid. unfold finishHandler. destruct (fn_ft (ad_fn a)).
  1: { rewrite !M_bind_res. destruct o as [res|err|]; cbn; [destruct (negb _); cbn| |]; intros [= <-]; by auto with vrpc. }
  all: destruct o as [res|err|]; [|rewrite !M_bind_res|]; cbn; try (intros [= <-]; by auto with vrpc); done.
Qed.

Lemma spared_serve_finish ft req c a l o :
  longOf (ad_reqId a) <> rid -> (fn_ft (ad_fn a) = singleFunction \/ Some l <> l0) -> keeps P (serve_finish d pickDone ft req c a l o).
Proof.
  intros Hid Hl. unfold serve_finish. apply spared_bind_res; [by apply spared_finishHandler|]. intros r [t Ht].
  apply spared_serveEnd. intros m ->. by eapply finish_foreign.
Qed.

Lemma admit_id ft req id t a : requestIdOf d req = Some id -> m_res (admitRequest d ft req t) = inr a -> longOf (ad_reqId a) = id.
Proof.
  unfold admitRequest, requestIdOf. destruct (GetNumberField req (RequestIdField d)) as [v|]; [|done]. intros [= Hv].
  rewrite M_gets_bind. cbn [Datatypes.id]. intros Hr.
  repeat (match type of Hr with context [match ?x with _ => _ end] => destruct x end; try discriminate Hr).
  all: rewrite M_bind_res in Hr; by injection Hr as <-.
Qed.

Lemma startHandler_loc c a t : fn_ft (ad_fn a) = singleFunction \/ m_res (startHandler d pickDone c a t) = sc_nextLoc t.
Proof.
  unfold startHandler, newServingRequest. destruct (fn_ft (ad_fn a)); [by left|right..];
    by rewrite M_gets_bind, !M_bind_res.
Qed.

(** The whole goroutine of a request. *)
Lemma spared_serveFunctionRequest ft req id : requestIdOf d req = Some id -> id <> rid -> keeps P (serveFunctionRequest d pickDone ft req).
Proof.
  intros Hreq Hid. unfold serveFunctionRequest, serveBegin. apply keeps_bind; [keeps_split; by apply spared_emit|]. intros _.
  unfold doServeFunctionRequest. intros t o HP. rewrite M_assoc, M_gets_bind. cbn [Datatypes.id]. generalize (sc_nextCtx t). intros c.
  revert t o HP.
  match goal with |- forall t o, P t o -> P (m_st (?m t)) _ => change (keeps P m) end.
  apply keeps_assoc, spared_bind_res; [apply spared_admitRequest|]. intros [resp|a] [t Ht].
  - intros t' o' HP'. rewrite M_left_id. apply spared_serveEnd; [|done]. intros m [= <-]. by eapply admit_error_foreign.
  - assert (longOf (ad_reqId a) <> rid) as Ha by (rewrite (admit_id ft req id t a Hreq Ht); done).
    intros t' o' HP'. rewrite M_assoc, M_bind_st, M_bind_out, app_assoc.
    pose proof (spared_startHandler c a Ha t' o' HP') as HP''.
    assert (fn_ft (ad_fn a) = singleFunction \/ Some (m_res (startHandler d pickDone c a t')) <> l0) as Hl.
    { destruct (startHandler_loc c a t') as [?|E]; [by left|rewrite E]. right. by eapply next_loc_free, HP'. }
    revert HP''. generalize (m_st (startHandler d pickDone c a t')) (o' ++ m_out (startHandler d pickDone c a t')).
    revert Hl. generalize (m_res (startHandler d pickDone c a t')). intros l Hl.
    match goal with |- forall t o, P t o -> P (m_st (?m t)) _ => change (keeps P m) end.
    apply spared_bind_res; [by apply spared_finishHandler|]. intros r [t1 Hr]. apply spared_serveEnd. intros m ->. by eapply finish_foreign.
Qed.

(** The session's own calls and streams. *)
Lemma spared_cancelClientStream l id : Some l <> l0 -> other_id id -> keeps P (cancelClientStream d pickDone l id).
Proof.
  intros Hl Hid. pose proof (other_long _ Hid). destruct Hid. unfold cancelClientStream. pose proof stream_methods_keep_id as (_ & _ & _ & K4 & _).
  keeps_split; first [ by apply spared_on_stream | by apply spared_deletePendingStream | apply spared_send_; by auto with vrpc ].
Qed.

Lemma spared_streamOut l v : Some l <> l0 -> keeps P (streamOut_step d pickDone l v).
Proof.
  intros Hl. unfold streamOut_step. apply (spared_get_stream l); [done|]. intros t Ht. destruct (sc_streams t !! l) as [cs|]; [|keeps_split].
  specialize (Ht cs eq_refl). pose proof (other_long _ Ht).
  keeps_split; first [ apply spared_send_; by auto with vrpc | by apply spared_streams ].
Qed.

Definition with_stream (id : Z) (cs : clientStream) (t : servingClient) : servingClient :=
  upd_sc_pendingStreams (insert id (sc_nextLoc t)) (upd_sc_streams (insert (sc_nextLoc t) cs) (upd_sc_nextLoc S t)).

Lemma spared_with_stream id cs t o : id <> rid -> other_id (cs_requestId cs) -> P t o -> P (with_stream id cs t) o.
Proof.
  intros Hid Hr [Hfp Hd Ho]. pose proof (next_loc_free t Hd) as Hl. destruct Hd. split; [|split; cbn|done].
  - rewrite <- Hfp. unfold footprint_of. cbn. by rewrite at_owner_insert, lookup_insert_ne by done.
  - done.
  - intros l' r'. rewrite lookup_insert. case_decide; naive_solver.
  - intros id' l' Hne. rewrite lookup_insert. specialize (di_map0 id' l' Hne). case_decide; naive_solver.
  - intros l' Hl'. specialize (di_loc0 l' Hl'). lia.
  - intros id' l'. rewrite lookup_insert. specialize (di_alloc0 id' l'). case_decide; [intros [?|[= <-]]|intros Hx]; try lia;
      [apply Nat.lt_lt_succ_r, di_alloc0; by left|by apply Nat.lt_lt_succ_r, di_alloc0].
Qed.

Lemma spared_openStream mt k name args cap t o :
  wrap64 (- wrap64 (sc_lastServerRequest t + 1)) <> rid -> P t o ->
  P (m_st (openStream d pickDone mt k name args cap t)) (o ++ m_out (openStream d pickDone mt k name args cap t)).
Proof.
  intros Hid HP. unfold openStream, nextServerRequestId. rewrite M_assoc, M_modify_bind, M_assoc, M_gets_bind, M_left_id, M_gets_bind. cbn [id].
  change (sc_lastServerRequest (upd_sc_lastServerRequest (fun n => wrap64 (n + 1)) t)) with (wrap64 (sc_lastServerRequest t + 1)).
  assert (P (upd_sc_lastServerRequest (fun n => wrap64 (n + 1)) t) o) as HP1 by (destruct HP as [? [] ?]; by split).
  revert HP1. generalize (upd_sc_lastServerRequest (fun n => wrap64 (n + 1)) t). intros t1 HP1.
  set (id := wrap64 (- _)) in *. assert (Some (sc_nextLoc t1) <> l0) as Hl by by eapply next_loc_free, HP1.
  assert (other_id id) as Hoid by (split; [done|apply wrap64_range]). pose proof (other_long _ Hoid).
  rewrite !M_modify_bind. fold (with_stream id (newClientStream id k cap DefaultMaxPending true) t1).
  pose proof (spared_with_stream id (newClientStream id k cap DefaultMaxPending true) t1 o Hid Hoid HP1) as HP2.
  pose proof stream_methods_keep_id as (_ & _ & _ & K4 & _).
  match goal with |- P (m_st (?m ?x)) _ => assert (keeps P m) as Hk; [|by apply Hk] end.
  keeps_split; first [ by apply spared_on_stream | by apply spared_deletePendingStream | apply spared_send; by apply foreign_open ].
Qed.

End keep.

(** *** The session's own work on the stream

    Nothing that serves a registered request or stream makes it share its id or
    its object with another. *)

Abbreviation D := (fun t (_ : list sc_ev) => distinct t).

Lemma distinct_modify f : (forall t, distinct t -> distinct (f t)) -> keeps D (modify f).
Proof. intros Hf. apply keeps_modify. intros t _. apply Hf. Qed.
Lemma distinct_emit e : keeps D (emit e).
Proof. by apply keeps_emit. Qed.
Lemma distinct_send_ m : keeps D (send_ pickDone m).
Proof. unfold send_, send. keeps_split. apply distinct_emit. Qed.
Lemma distinct_other f :
  (forall t, sc_requests (f t) = sc_requests t /\ sc_streams (f t) = sc_streams t /\ sc_requestMap (f t) = sc_requestMap t /\
     sc_pendingStreams (f t) = sc_pendingStreams t /\ (sc_nextLoc t <= sc_nextLoc (f t))%nat) ->
  keeps D (modify f).
Proof.
  intros Hf. apply distinct_modify. intros t []. destruct (Hf t) as (E1 & E2 & E3 & E4 & E5).
  split; rewrite ?E1, ?E2, ?E3, ?E4; try done; [intros l Hl; specialize (di_loc0 l Hl)|intros id l Hl; specialize (di_alloc0 id l Hl)]; lia.
Qed.
Lemma distinct_upd_request l f : (forall r, sr_requestId (f r) = sr_requestId r) -> keeps D (upd_request l f).
Proof.
  intros Hf. apply distinct_modify. intros t []. split; cbn; try done.
  intros l' r Hne. rewrite lookup_alter. case_decide; [|by apply di_requests0].
  subst. intros (r0 & Hr0 & ->)%fmap_Some. rewrite Hf. by eapply di_requests0.
Qed.
Lemma distinct_alter_stream l f : (forall cs, cs_requestId (f cs) = cs_requestId cs) -> keeps D (modify (upd_sc_streams (alter f l))).
Proof.
  intros Hf. apply distinct_modify. intros t []. split; cbn; try done.
  intros l' cs Hne. rewrite lookup_alter. case_decide; [|by apply di_streams0].
  subst. intros (cs0 & Hcs0 & ->)%fmap_Some. rewrite Hf. by eapply di_streams0.
Qed.
Lemma distinct_delete id : keeps D (modify (upd_sc_requestMap (delete id))).
Proof. apply distinct_modify. intros t []. split; cbn; try done. all: intros id' l; rewrite lookup_delete_Some; specialize (di_map0 id' l); specialize (di_alloc0 id' l); naive_solver. Qed.
Lemma distinct_deletePending id : keeps D (deletePendingStream id).
Proof. apply distinct_modify. intros t []. split; cbn; try done. all: intros id' l; rewrite lookup_delete_Some; specialize (di_map0 id' l); specialize (di_alloc0 id' l); naive_solver. Qed.
Lemma distinct_on_stream {A} l (m : M clientStream Z A) : keeps_id m -> keeps D (on_stream d pickDone l m).
Proof.
  intros Hm t o HD. unfold on_stream. rewrite M_gets_bind. cbn [id]. destruct (sc_streams t !! l) as [cs|] eqn:Ecs; [|done].
  specialize (Hm cs). destruct (m cs) as [[a cs'] ns]. cbn in Hm. rewrite M_modify_bind.
  assert (distinct (upd_sc_streams (insert l cs') t)) as HD'.
  { destruct HD. split; cbn; try done. intros l' cs0 Hne. rewrite lookup_insert. case_decide; [|by apply di_streams0].
    subst. intros [= <-]. rewrite Hm. by eapply di_streams0. }
  match goal with |- distinct (m_st (?m ?x)) => assert (keeps D m) as Hk; [|by apply (Hk x [])] end.
  keeps_split. apply keeps_seqM, Forall_map, Forall_true. intros n. apply distinct_send_.
Qed.

Ltac distinct_step :=
  keeps_split;
  first [ apply distinct_emit | apply distinct_send_ | apply distinct_delete | apply distinct_deletePending
        | apply distinct_upd_request; intros; by rewrite ?setCode_id, ?closeInboundChan_id, ?offer_id
        | by apply distinct_alter_stream | by apply distinct_on_stream
        | apply distinct_other; intros ?; cbn; split_and!; (done || lia) ].

Lemma distinct_closeRequest l r : keeps D (closeRequest l r).
Proof. unfold closeRequest, deleteRequest, ServingRequest_Close, get_request, cancelCtx, cancelContext. distinct_step. Qed.

Lemma distinct_grantInbound l : keeps D (grantInbound d pickDone l).
Proof. unfold grantInbound, get_request. distinct_step. Qed.

Lemma distinct_streamers l :
  keeps D (streamer_ready d pickDone l) /\ (forall c, keeps D (streamer_select d pickDone l c)) /\ (forall v, keeps D (streamer_acquire d pickDone l v)).
Proof.
  unfold streamer_ready, streamer_select, streamer_acquire, get_request.
  split_and!; intros; keeps_split; first [apply distinct_closeRequest | distinct_step].
Qed.

Lemma distinct_pump_request l f b : keeps D (pump_request d pickDone l f b).
Proof. unfold pump_request. keeps_split; first [apply distinct_grantInbound | distinct_step]. Qed.

Lemma distinct_streamOut l v : keeps D (streamOut_step d pickDone l v).
Proof.
  intros t o HD. unfold streamOut_step. rewrite M_gets_bind. cbn [id]. destruct (sc_streams t !! l) as [cs|] eqn:Ecs; [|done].
  assert (forall g, distinct (upd_sc_streams (insert l (upd_cs_sendCredit (fun _ => Some g) cs)) t)) as HD'.
  { intros g. destruct HD. split; cbn; try done. intros l' cs0 Hne. rewrite lookup_insert. case_decide; [|by apply di_streams0].
    subst. intros [= <-]. cbn. by eapply di_streams0. }
  repeat case_match; try done;
    try (match goal with |- distinct (m_st (?m ?x)) => assert (keeps D m) as Hk; [|by apply (Hk x [])] end; keeps_split; apply distinct_send_).
  rewrite M_modify_bind.
  match goal with |- distinct (m_st (?m ?x)) => assert (keeps D m) as Hk; [|by apply (Hk x [])] end. keeps_split. apply distinct_send_.
Qed.

(** The read loop, whatever the frame. *)
Lemma distinct_processRequest req : keeps D (processRequest d growcap pickDone req).
Proof.
  pose proof stream_methods_keep_id as (K1 & K2 & K3 & K4 & K5 & _).
  unfold processRequest, findPendingStream, handleInbound, completePendingCall, serveNewRequest, serveRunningRequest, get_request,
    incomingStreamValue, incomingStreamEnd, cancelContext, cancelCtx, get_request.
  keeps_split; first [apply distinct_closeRequest | unfold deleteRequest; distinct_step].
Qed.

(** *** Everything else the session does *)

Abbreviation run_work := (SessionWork.run_work d growcap pickDone).

(** An operation that is about another request, call or stream. *)
Definition reverse_elsewhere (t : servingClient) (op : reverse_op) : Prop :=
  match op with
  | RCall _ _ _ | ROpen _ _ _ _ _ => wrap64 (- wrap64 (sc_lastServerRequest t + 1)) <> rid
  | RCallEnd _ _ => True
  | RAwait l id _ | RStreamOutEnd l id | RCancel l id => Some l <> l0 /\ other_id id
  | RStreamOut l _ => Some l <> l0
  | RStream l m => Some l <> l0 /\ keeps_id m
  end.

Definition elsewhere (t : servingClient) (w : session_work) : Prop :=
  match w with
  | WFrame req => requestIdOf d req <> Some rid
  | WAdmit _ req => exists id, requestIdOf d req = Some id /\ id <> rid
  | WStart _ a => longOf (ad_reqId a) <> rid
  | WFinish _ _ _ a l _ => longOf (ad_reqId a) <> rid /\ (fn_ft (ad_fn a) = singleFunction \/ Some l <> l0)
  | WReady l | WSelect l _ | WAcquire l _ | WPump l _ _ => Some l <> l0
  | WReverse op => reverse_elsewhere t op
  end.

Lemma spared_reverse fp op t o :
  reverse_elsewhere t op -> spared fp t o ->
  spared fp (m_st (run_reverse d pickDone op t)) (o ++ m_out (run_reverse d pickDone op t)).
Proof.
  pose proof stream_methods_keep_id as (_ & _ & K3 & _). intros He HP.
  assert (forall (m : SC unit), keeps (spared fp) m -> spared fp (m_st (m t)) (o ++ m_out (m t))) as Hk by (intros m Hm; by apply Hm).
  destruct op as [ctx name args|id c|mt k name args cap|l id c|l v|l id|l id|l m]; cbn [run_reverse reverse_elsewhere] in *.
  - unfold CallFunction, nextServerRequestId. rewrite !M_assoc, M_modify_bind, M_assoc, M_gets_bind, M_left_id.
    change (sc_lastServerRequest (upd_sc_lastServerRequest (fun n => wrap64 (n + 1)) t)) with (wrap64 (sc_lastServerRequest t + 1)).
    set (id := wrap64 (- _)) in *. assert (longOf (Long id) <> rid) by (apply other_long; split; [done|apply wrap64_range]).
    assert (spared fp (upd_sc_lastServerRequest (fun n => wrap64 (n + 1)) t) o) as HP1 by (destruct HP as [? [] ?]; by split).
    match goal with |- spared _ (m_st (?m ?x)) _ => assert (keeps (spared fp) m) as Hm; [|by apply Hm] end.
    keeps_split; first [ apply spared_send; by auto with vrpc | apply spared_other; intros ?; cbn; split_and!; (done || lia) ].
  - apply Hk. unfold CallFunction_end. keeps_split. apply spared_other. intros ?. cbn. split_and!; (done || lia).
  - pose proof (spared_openStream fp mt k name args cap t o He HP) as Hx.
    rewrite M_bind_st, M_bind_out. cbn. by rewrite app_nil_r.
  - apply Hk. destruct He. unfold awaitReady. keeps_split; by apply spared_cancelClientStream.
  - apply Hk. keeps_split. by apply spared_streamOut.
  - apply Hk. destruct He as [? []]. unfold streamOut_end. keeps_split; [by apply spared_on_stream|by apply spared_deletePendingStream].
  - apply Hk. destruct He. by apply spared_cancelClientStream.
  - apply Hk. destruct He. keeps_split. by apply spared_on_stream.
Qed.

Lemma spared_work fp w t o :
  elsewhere t w -> spared fp t o -> spared fp (m_st (run_work w t)) (o ++ m_out (run_work w t)).
Proof.
  intros He HP.
  assert (forall (m : SC unit), keeps (spared fp) m -> spared fp (m_st (m t)) (o ++ m_out (m t))) as Hk by (intros m Hm; by apply Hm).
  destruct w as [req|ft req|c a|ft req c a l r|l|l c|l v|l f b|op]; cbn [run_work elsewhere] in *.
  - apply Hk. keeps_split. by apply spared_processRequest.
  - apply Hk. destruct He as (id & He & Hne). keeps_split. by apply (spared_serve_admit fp ft req id).
  - apply Hk. keeps_split. by apply spared_startHandler.
  - apply Hk. destruct He. by apply spared_serve_finish.
  - apply Hk. keeps_split. by apply spared_streamers.
  - apply Hk. keeps_split. by apply (proj1 (proj2 (spared_streamers fp l He))).
  - apply Hk. keeps_split. by apply (proj2 (proj2 (spared_streamers fp l He))).
  - apply Hk. by apply spared_pump_request.
  - by apply spared_reverse.
Qed.

(** The ends of the stream are functions of its footprint. *)
Lemma same_views l t t' :
  l0 = Some l -> footprint_of t' = footprint_of t ->
  inbound_view rid l t' = inbound_view rid l t /\ get_view rid l t' = get_view rid l t /\
  (forall pc, streamer_view rid l (t', pc) = streamer_view rid l (t, pc)) /\ (forall pc, put_view rid l (t', pc) = put_view rid l (t, pc)).
Proof.
  intros El. unfold footprint_of, at_owner. rewrite El. cbn. intros [= E1 E2 E3 E4 E5].
  unfold inbound_view, get_view, streamer_view, put_view. cbn [fst snd]. rewrite E1, E2. split_and!.
  - destruct (sc_requests t !! l) as [r|]; [|done]. destruct (sr_inPump r) as [p|]; [|done].
    apply decide_ext. unfold inbound_ok, request_ok, registered. by rewrite E3, E4, E5.
  - destruct (sc_streams t !! l) as [cs|]; [|done]. destruct (cs_resultPump cs) as [p|]; [|done].
    apply decide_ext. unfold get_ok, listed. by rewrite E4, E5.
  - intros pc. destruct (streamer_pos pc); try done; (destruct (sc_requests t !! l) as [r|]; [|done]; destruct (sr_sendCredit r) as [g|]; [|done]);
      apply decide_ext; unfold outbound_ok, request_ok, registered; by rewrite E3, E4, E5.
  - intros pc. destruct (put_pos pc); try done; (destruct (sc_streams t !! l) as [cs|]; [|done]; destruct (cs_sendCredit cs) as [g|]; [|done]);
      apply decide_ext; unfold put_ok, listed; by rewrite E4, E5.
Qed.

Lemma foreign_sent o : Forall foreign_ev o -> Forall (foreign d rid) (omap session_sent o).
Proof. induction 1 as [|e o He _ IH]; [constructor|]. destruct e; cbn; try done. by constructor. Qed.

(** What the session does for others is an environment step for both directions
    of the stream, and the stream stays the only one with its id. *)
(** C7: What a session does for other requests leaves a stream alone: frames
    with other ids, admissions, handlers, streamers and pumps of other
    requests, reverse calls, and opening, awaiting, feeding and cancelling
    other server streams keep the stream's objects, registrations and both its
    ends exactly as they were (served request or opened stream, as receiver
    and as sender), send no frame that carries its id, and keep its id and
    object its own; the same holds of an id the session has no object for yet.
    *)
Theorem session_streams_isolated t w :
  distinct t -> elsewhere t w ->
  let t' := m_st (run_work w t) in let out := omap session_sent (m_out (run_work w t)) in
  distinct t' /\ footprint_of t' = footprint_of t /\
  (forall l, l0 = Some l ->
     inbound_view rid l t' = inbound_view rid l t /\ get_view rid l t' = get_view rid l t /\
     (forall pc, streamer_view rid l (t', pc) = streamer_view rid l (t, pc)) /\
     (forall pc, put_view rid l (t', pc) = put_view rid l (t, pc))) /\
  Forall (foreign d rid) out.
Proof.
  intros Hd He t' out. destruct (spared_work (footprint_of t) w t [] He) as [Hf Hd' Ho]; [by split|].
  split_and!; try done; [intros l Hl; by apply same_views|by apply foreign_sent].
Qed.

End session_isolation.

(** ** Witness: a request for another stream arrives *)

Section session_isolation_witness.
#[local] Existing Instance RefValueLib.

Definition demo_iso_request : servingRequest := upd_sr_method (fun _ => "feed") (NewServingRequest outgoingStream (Long 1)).
Definition demo_iso_session : servingClient :=
  upd_sc_nextLoc (fun _ => 1%nat) (upd_sc_requestMap (insert 1 0%nat) (upd_sc_requests (insert 0%nat demo_iso_request)
    (NewServingClient 7 "" "" demo_functions demo_cfg))).
Definition demo_iso_frame : VMap := NewStreamRequest NewDialect GetStreamRequest 3 "feed" None.

Lemma demo_iso_distinct : distinct 1 (Some 0%nat) demo_iso_session.
Proof.
  split.
  - intros l r Hl. cbn. by rewrite lookup_insert_ne by congruence.
  - intros l cs Hl. cbn. by rewrite lookup_empty.
  - intros id l Hid. cbn. rewrite lookup_insert_ne, !lookup_empty by done. naive_solver.
  - intros l [= <-]. cbn. lia.
  - intros id l. cbn. rewrite lookup_empty, lookup_insert. case_decide; [intros [[= <-]|?]; [lia|done]|rewrite lookup_empty; naive_solver].
Qed.

Lemma session_streams_isolated_witness :
  streamer_view 1 0 (m_st (SessionWork.run_work NewDialect demo_growcap demo_pick (WFrame demo_iso_frame) demo_iso_session), SSelect) =
  Some (mkSV Idle NewCreditGate).
Proof.
  destruct (session_streams_isolated NewDialect demo_growcap demo_pick 1 (Some 0%nat) demo_iso_session (WFrame demo_iso_frame) demo_iso_distinct)
    as (_ & _ & Hv & _); [cbn [elsewhere]; vm_compute; intros [=]|].
  destruct (Hv 0%nat eq_refl) as (_ & _ & Hs & _). rewrite Hs. apply (streamer_view_set 1 0 demo_iso_session SSelect demo_iso_request NewCreditGate); done.
Defined.

End session_isolation_witness.
