(* ===== verification/ClientIsolation.v ===== *)
(** * Streams do not disturb each other: the client

    The counterpart of StreamIsolation.v: whatever the client (Client.v) does for
    other requests and served streams while its connection stands leaves the two
    ends of a stream as they are and sends no frame of it. *)

From S2P Require Import Prelude Value RefValue Protocol Verify Credit Pump FlowControl Metadata.
From S2P Require Import ClientServing Client ClientProps EndToEnd StreamLink ClientEnds StreamIsolation Request.

Section client_isolation.
Context `{ValueLib} (d : Dialect) `{!dialect_ok d} (growcap : nat -> nat).
Context (rid : Z) (l0 s0 : option nat).

Abbreviation CL := (M rpcClient cl_ev).

(** What a client keeps of the stream [rid] whose request is [l0] or whose served
    stream is [s0]; [None] while it has none. *)
Record cl_footprint := mkClFootprint {
  cf_request : option rpcRequestCtx;
  cf_serving : option clientServingRequest;
  cf_registered : option nat;
  cf_served : option nat;
  cf_conn : option nat
}.

Definition cl_footprint_of (t : rpcClient) : cl_footprint :=
  mkClFootprint (at_owner l0 (cl_requests t)) (at_owner s0 (cl_servings t)) (cl_requestCtxMap t !! rid) (cl_servingMap t !! rid) (cl_conn t).

Definition foreign_cl_ev (e : cl_ev) : Prop := match e with CSend _ m => foreign d rid m | _ => True end.

(** The stream is the only one with its id and its objects, the maps hold
    allocated objects, and there is a connection. *)
Record cl_distinct (t : rpcClient) : Prop := {
  cd_requests l r : Some l <> l0 -> cl_requests t !! l = Some r -> other_id rid (rc_requestId r);
  cd_servings l r : Some l <> s0 -> cl_servings t !! l = Some r -> longOf (vs_requestId r) <> rid;
  cd_map id l : id <> rid -> (cl_requestCtxMap t !! id = Some l -> Some l <> l0) /\ (cl_servingMap t !! id = Some l -> Some l <> s0);
  cd_loc l : (l0 = Some l -> (l < cl_nextLoc t)%nat) /\ (s0 = Some l -> (l < cl_nextServing t)%nat);
  cd_alloc id l : (cl_requestCtxMap t !! id = Some l -> (l < cl_nextLoc t)%nat) /\ (cl_servingMap t !! id = Some l -> (l < cl_nextServing t)%nat);
  cd_conn : is_Some (cl_conn t)
}.

Record cl_spared (fp : cl_footprint) (t : rpcClient) (o : list cl_ev) : Prop := {
  cs_fp : cl_footprint_of t = fp;
  cs_distinct : cl_distinct t;
  cs_out : Forall foreign_cl_ev o
}.

Lemma next_request_free t : cl_distinct t -> Some (cl_nextLoc t) <> l0.
Proof. intros Hd E. pose proof (proj1 (cd_loc t Hd _) (eq_sym E)). lia. Qed.
Lemma next_serving_free t : cl_distinct t -> Some (cl_nextServing t) <> s0.
Proof. intros Hd E. pose proof (proj2 (cd_loc t Hd _) (eq_sym E)). lia. Qed.

(** ** Methods of the objects *)

Definition req_keeps_id {A} (m : M rpcRequestCtx req_ev A) : Prop := forall id, keeps (fun r _ => rc_requestId r = id) m.

Lemma req_methods_keep_id :
  (forall op, req_keeps_id (run_req_op d growcap op)) /\ (forall v, req_keeps_id (notifyResult growcap v)) /\
  (forall e, req_keeps_id (SetError e)) /\ req_keeps_id (RequestCtx_Close d) /\ req_keeps_id (TryGetClose d) /\
  req_keeps_id (TryPutClose d) /\ (forall n, req_keeps_id (RequestCtx_Grant n)) /\
  (forall g, (forall r, rc_requestId (g r) = rc_requestId r) -> req_keeps_id (modify g)).
Proof.
  unfold req_keeps_id. 
  assert (forall g, (forall r, rc_requestId (g r) = rc_requestId r) -> forall id, keeps (fun r _ => rc_requestId r = id) (@modify rpcRequestCtx req_ev g)) as Hm
    by (intros g Hg id; apply keeps_modify; intros; congruence).
  assert (forall e id, keeps (fun r _ => rc_requestId r = id) (@emit rpcRequestCtx req_ev e)) as He by (intros; by apply keeps_emit).
  assert (forall id, keeps (fun r _ => rc_requestId r = id) (RequestCtx_closeResult d)) as Hc.
  { intros id. unfold RequestCtx_closeResult. keeps_split; first [apply He | apply Hm; intros r; try done; by destruct (rc_resultPump r)]. }
  assert (forall v id, keeps (fun r _ => rc_requestId r = id) (notifyResult growcap v)) as Hn
    by (intros; unfold notifyResult; keeps_split; apply Hm; done).
  assert (forall f id, keeps (fun r _ => rc_requestId r = id) (on_pump f)) as Hp by (intros; unfold on_pump; keeps_split; apply Hm; done).
  assert (forall id, keeps (fun r _ => rc_requestId r = id) (RequestCtx_Close d)) as Hcl
    by (intros; unfold RequestCtx_Close; keeps_split; first [apply Hc | apply Hm; done]).
  assert (forall id, keeps (fun r _ => rc_requestId r = id) (TryGetClose d)) as Hg
    by (intros; unfold TryGetClose; keeps_split; first [apply Hc | apply Hm; done]).
  assert (forall id, keeps (fun r _ => rc_requestId r = id) (TryPutClose d)) as Htp
    by (intros; unfold TryPutClose; keeps_split; first [apply Hc | apply Hm; done]).
  split_and!; try done.
  - intros op id. destruct op; cbn [run_req_op]; unfold RequestCtx_Grant, SetError, sendInitialCredit, RequestCtx_grantRecv; keeps_split;
      first [apply Hn | apply Hcl | apply Hg | apply Htp | apply Hp | apply He | apply Hm; done ].
  - intros e id. unfold SetError. by apply Hm.
  - intros n id. unfold RequestCtx_Grant. keeps_split. by apply Hm.
Qed.

(** What a served stream with id [v] does to the client. *)
Definition own_ev (v : Value) (e : vs_ev) : Prop :=
  match e with VReply m => foreign d rid m | VDelete id => id = longOf v | VCancel _ => True end.
Definition owned (v : Value) (r : clientServingRequest) (o : list vs_ev) : Prop := vs_requestId r = v /\ Forall (own_ev v) o.

Section served_methods.
Context (v : Value) (Hv : longOf v <> rid).
Abbreviation Q := (owned v).

Lemma owned_gets {B} (k : clientServingRequest -> M clientServingRequest vs_ev B) :
  (forall r, vs_requestId r = v -> keeps Q (k r)) -> keeps Q (gets id ≫= k).
Proof. intros Hk r o HQ. rewrite M_gets_bind. apply Hk; [apply HQ|done]. Qed.
Lemma owned_emit e : own_ev v e -> keeps Q (emit e).
Proof. intros He. apply keeps_emit. intros r o []. split; [done|]. apply Forall_app. by repeat constructor. Qed.
Lemma owned_modify f : (forall r, vs_requestId (f r) = vs_requestId r) -> keeps Q (modify f).
Proof. intros Hf. apply keeps_modify. intros r o []. split; [congruence|done]. Qed.

Ltac owned_split :=
  repeat first
    [ progress keeps_step_served
    | apply owned_modify; done ]
with keeps_step_served :=
  lazymatch goal with
  | |- keeps _ (gets id ≫= _) => let E := fresh in apply owned_gets; intros ? E; rewrite ?E in *
  | _ => keeps_step
  end.

Lemma owned_Close : keeps Q ClientServing_Close.
Proof. unfold ClientServing_Close, ClientServing_cancelCtx. owned_split. by apply owned_emit. Qed.
Lemma owned_closeRequest : keeps Q ClientServing_closeRequest.
Proof. unfold ClientServing_closeRequest, ClientServing_deleteServing. owned_split; [by apply owned_emit|apply owned_Close]. Qed.
Lemma owned_grantInbound : keeps Q (ClientServing_grantInbound d).
Proof. unfold ClientServing_grantInbound. owned_split. apply owned_emit. cbn. auto with vrpc. Qed.
Lemma owned_on_inPump f : keeps Q (on_inPump f).
Proof. unfold on_inPump. owned_split. Qed.
Lemma owned_push req : keeps Q (ClientServing_push d growcap req).
Proof. unfold ClientServing_push. owned_split. Qed.
Lemma owned_send x : keeps Q (streamer_send d x).
Proof. unfold streamer_send. owned_split; first [apply owned_closeRequest | apply owned_emit; cbn; by auto with vrpc]. Qed.

Lemma owned_serveRunning mt req : keeps Q (serveRunning d growcap mt req).
Proof.
  unfold serveRunning, ClientServing_closeInboundChan, ClientServing_deleteServing, ClientServing_cancelCtx. owned_split;
    first [apply owned_closeRequest | apply owned_push | apply owned_emit; cbn; by auto with vrpc ].
Qed.

Lemma owned_op op : keeps Q (run_vs_op d growcap op).
Proof.
  destruct op; cbn [run_vs_op]; unfold ClientServing_grantInitialInbound, streamer_iter; owned_split;
    first [apply owned_serveRunning | apply owned_closeRequest | apply owned_Close | apply owned_send | apply owned_on_inPump
          | apply owned_grantInbound | apply owned_emit; cbn; by auto with vrpc].
Qed.

End served_methods.

(** ** The client's code *)

Section keep.
Context (fp : cl_footprint).
Abbreviation P := (cl_spared fp).

Lemma cl_spared_modify f :
  (forall t, cl_distinct t -> cl_footprint_of (f t) = cl_footprint_of t /\ cl_distinct (f t)) -> keeps P (modify f).
Proof.
  intros Hf. apply keeps_modify. intros t o [Hfp Hd Ho]. destruct (Hf t Hd) as [E D]. split; [congruence|done|done].
Qed.

Lemma cl_spared_other f :
  (forall t, cl_requests (f t) = cl_requests t /\ cl_servings (f t) = cl_servings t /\ cl_requestCtxMap (f t) = cl_requestCtxMap t /\
     cl_servingMap (f t) = cl_servingMap t /\ cl_conn (f t) = cl_conn t /\ (cl_nextLoc t <= cl_nextLoc (f t))%nat /\
     (cl_nextServing t <= cl_nextServing (f t))%nat) ->
  keeps P (modify f).
Proof.
  intros Hf. apply cl_spared_modify. intros t []. destruct (Hf t) as (E1 & E2 & E3 & E4 & E5 & E6 & E7). split.
  - unfold cl_footprint_of. congruence.
  - split; rewrite ?E1, ?E2, ?E3, ?E4, ?E5; try done; [intros l; destruct (cd_loc0 l) as [L1 L2]|intros id l; destruct (cd_alloc0 id l) as [L1 L2]]; (split; intros El; [specialize (L1 El)|specialize (L2 El)]; lia).
Qed.
Ltac other := apply cl_spared_other; intros ?; cbn; split_and!; first [done | lia].

Lemma cl_spared_emit e : foreign_cl_ev e -> keeps P (emit e).
Proof. intros He. apply keeps_emit. intros t o []. split; [done|done|]. apply Forall_app. by repeat constructor. Qed.

Lemma cl_spared_SendRequest m : foreign d rid m -> keeps P (getConn_SendRequest m).
Proof. intros Hm. unfold getConn_SendRequest. keeps_split. by apply cl_spared_emit. Qed.
Lemma cl_spared_reply m : foreign d rid m -> keeps P (reply m).
Proof. intros Hm. unfold reply. keeps_split. by apply cl_spared_SendRequest. Qed.

Lemma cl_spared_ensureConnection de : keeps P (ensureConnection d growcap de).
Proof.
  intros t o HP. unfold ensureConnection, hasConn. rewrite M_gets_bind. cbn [id].
  destruct (cd_conn _ (cs_distinct _ _ _ HP)) as [c Hc]. rewrite Hc. cbn [is_some negb]. by apply keeps_ret.
Qed.

Lemma cl_spared_cancel de id : other_id rid id -> keeps P (Client_CancelRequest d growcap de id).
Proof.
  intros Hid. pose proof (other_long _ _ Hid). unfold Client_CancelRequest, sendSystemRequest. keeps_split; [apply cl_spared_ensureConnection|]. apply cl_spared_SendRequest. auto with vrpc.
Qed.

Lemma cl_spared_get_req {B} l (k : option rpcRequestCtx -> CL B) :
  Some l <> l0 -> keeps P (k None) -> (forall r, other_id rid (rc_requestId r) -> keeps P (k (Some r))) -> keeps P (get_req l ≫= k).
Proof.
  intros Hl Hn Hs t o HP. unfold get_req. rewrite M_gets_bind.
  destruct (cl_requests t !! l) as [r|] eqn:Er; [|by apply Hn]. apply Hs; [|done]. by eapply cd_requests; [apply HP|..].
Qed.

Lemma cl_spared_requests l r : Some l <> l0 -> other_id rid (rc_requestId r) -> keeps P (modify (upd_cl_requests (insert l r))).
Proof.
  intros Hl Hr. apply cl_spared_modify. intros t []. split.
  - unfold cl_footprint_of. cbn. by rewrite at_owner_insert.
  - split; cbn; try done. intros l' r' Hne. rewrite lookup_insert. case_decide; [naive_solver|by apply cd_requests0].
Qed.

Lemma cl_spared_on_request {A} l (m : M rpcRequestCtx req_ev A) : Some l <> l0 -> req_keeps_id m -> keeps P (on_request d l m).
Proof.
  intros Hl Hm. unfold on_request. apply cl_spared_get_req; [done|keeps_split|]. intros r Hr. apply other_long in Hr as Hr'.
  pose proof (Hm _ r [] eq_refl) as Hid. destruct (m r) as [[a r'] es]. cbn in Hid.
  keeps_split; [by apply cl_spared_requests; [|rewrite Hid]|]. apply keeps_seqM, Forall_map, Forall_true. intros e.
  destruct e; cbn [req_callback]; [|by apply cl_spared_emit]. unfold sendStreamCredit. keeps_split. apply cl_spared_SendRequest. auto with vrpc.
Qed.
Lemma cl_spared_on_request_ {A} l (m : M rpcRequestCtx req_ev A) : Some l <> l0 -> req_keeps_id m -> keeps P (on_request_ d l m).
Proof. intros. unfold on_request_. keeps_split. by apply cl_spared_on_request. Qed.

Lemma cl_spared_removeRequest id : id <> rid -> keeps P (removeRequest id).
Proof.
  intros Hid. apply cl_spared_modify. intros t []. split.
  - unfold cl_footprint_of. cbn. by rewrite lookup_delete_ne.
  - split; cbn; try done. all: intros id' l'; rewrite lookup_delete_Some; specialize (cd_map0 id' l'); specialize (cd_alloc0 id' l'); naive_solver.
Qed.

Lemma cl_spared_on_serving {A} l (m : M clientServingRequest vs_ev A) :
  Some l <> s0 -> (forall v, longOf v <> rid -> keeps (owned v) m) -> keeps P (on_serving l m).
Proof.
  intros Hl Hm t o HP. unfold on_serving. rewrite M_gets_bind. cbn [id]. destruct (cl_servings t !! l) as [r|] eqn:Er; [|by apply keeps_ret].
  assert (longOf (vs_requestId r) <> rid) as Hr by (eapply cd_servings; [apply HP|done|done]).
  destruct (Hm _ Hr r [] ltac:(by split)) as [Hid Hev]. destruct (m r) as [[a r'] evs]. cbn in Hid, Hev.
  assert (keeps P (modify (upd_cl_servings (insert l r')) ≫= fun _ => seqM (map serving_callback evs) ≫= fun _ => mret (Some a))) as Hk; [|by apply Hk].
  keeps_split.
  - apply cl_spared_modify. intros t' []. split.
    + unfold cl_footprint_of. cbn. by rewrite at_owner_insert.
    + split; cbn; try done. intros l' r0 Hne. rewrite lookup_insert. case_decide; [|by apply cd_servings0]. intros [= <-]. by rewrite Hid.
  - apply keeps_seqM, Forall_map. eapply Forall_impl; [exact Hev|]. intros [m'|id|c] He; cbn [serving_callback own_ev] in *.
    + by apply cl_spared_reply.
    + subst id. apply cl_spared_modify. intros t' []. split.
      * unfold cl_footprint_of. cbn. by rewrite lookup_delete_ne.
      * split; cbn; try done. all: intros id' l'; rewrite lookup_delete_Some; specialize (cd_map0 id' l'); specialize (cd_alloc0 id' l'); naive_solver.
    + other.
Qed.

Lemma cl_spared_notify_then l id v (k : bool -> CL unit) :
  Some l <> l0 -> (forall b, keeps P (k b)) -> keeps P (notify_then d growcap l id v k).
Proof.
  intros Hl Hk. pose proof req_methods_keep_id as (_ & Kn & _). unfold notify_then.
  keeps_split; first [by apply cl_spared_on_request | by apply cl_spared_emit | apply Hk].
Qed.

Lemma cl_spared_processResponse de mt resp l :
  Some l <> l0 -> keeps P (processResponse d growcap (Client_CancelRequest d growcap de) mt resp l).
Proof.
  intros Hl. pose proof req_methods_keep_id as (_ & Kn & Ke & Kc & Kg & _ & Kgr & Km). unfold processResponse.
  apply cl_spared_get_req; [done|keeps_split|]. intros r Hrr. pose proof Hrr as [Hr _].
  destruct (fieldOrNil resp (ValueField d)); keeps_split; try (apply cl_spared_notify_then; [done|intros ?; keeps_split]);
    first [ by apply cl_spared_on_request_ | by apply cl_spared_on_request | by apply cl_spared_removeRequest | by apply cl_spared_emit
          | by apply cl_spared_cancel | apply cl_spared_on_request_; [done|]; by apply Km ].
Qed.

Lemma cl_spared_serveInboundCall req : requestIdOf d req <> Some rid -> keeps P (serveInboundCall d req).
Proof.
  intros Hid. unfold serveInboundCall, requestIdOf in *. destruct (GetNumberField req (RequestIdField d)) as [v|]; [assert (longOf v <> rid) by congruence|].
  all: keeps_split; first [by apply cl_spared_emit | apply cl_spared_reply; by auto with vrpc]. Qed.

(** New objects under other ids. *)
Definition with_serving (id : Z) (r : clientServingRequest) (t : rpcClient) : rpcClient :=
  upd_cl_servingMap (insert id (cl_nextServing t)) (upd_cl_servings (insert (cl_nextServing t) r) (upd_cl_nextServing S t)).
Definition with_req (id : Z) (r : rpcRequestCtx) (t : rpcClient) : rpcClient :=
  upd_cl_requestCtxMap (insert id (cl_nextLoc t)) (upd_cl_requests (insert (cl_nextLoc t) r) (upd_cl_nextLoc S t)).

Lemma cl_spared_with_serving id r t o : id <> rid -> longOf (vs_requestId r) <> rid -> P t o -> P (with_serving id r t) o.
Proof.
  intros Hid Hr [Hfp Hd Ho]. pose proof (next_serving_free t Hd) as Hl. destruct Hd. split; [|split; cbn|done].
  - rewrite <- Hfp. unfold cl_footprint_of. cbn. by rewrite at_owner_insert, lookup_insert_ne by done.
  - done.
  - intros l' r'. rewrite lookup_insert. case_decide; naive_solver.
  - intros id' l' Hne. rewrite lookup_insert. destruct (cd_map0 id' l' Hne). case_decide; naive_solver.
  - intros l'. destruct (cd_loc0 l') as [L1 L2]. split; [done|]. intros El. specialize (L2 El). lia.
  - intros id' l'. rewrite lookup_insert. destruct (cd_alloc0 id' l') as [L1 L2]. split; [done|].
    case_decide; [intros [= <-]; lia|]. intros Hx. specialize (L2 Hx). lia.
  - done.
Qed.

Lemma cl_spared_with_req id r t o : id <> rid -> other_id rid (rc_requestId r) -> P t o -> P (with_req id r t) o.
Proof.
  intros Hid Hr [Hfp Hd Ho]. pose proof (next_request_free t Hd) as Hl. destruct Hd. split; [|split; cbn|done].
  - rewrite <- Hfp. unfold cl_footprint_of. cbn. by rewrite at_owner_insert, lookup_insert_ne by done.
  - intros l' r'. rewrite lookup_insert. case_decide; naive_solver.
  - done.
  - intros id' l' Hne. rewrite lookup_insert. destruct (cd_map0 id' l' Hne). case_decide; naive_solver.
  - intros l'. destruct (cd_loc0 l') as [L1 L2]. split; [|done]. intros El. specialize (L1 El). lia.
  - intros id' l'. rewrite lookup_insert. destruct (cd_alloc0 id' l') as [L1 L2]. split; [|done].
    case_decide; [intros [= <-]; lia|]. intros Hx. specialize (L1 Hx). lia.
  - done.
Qed.

Lemma cl_spared_serveInboundStream mt req : requestIdOf d req <> Some rid -> keeps P (serveInboundStream d mt req).
Proof.
  intros Hid t o HP. unfold serveInboundStream, requestIdOf in *. rewrite M_gets_bind. cbn [id].
  assert (Some (cl_nextServing t) <> s0) as Hl by by eapply next_serving_free, HP.
  assert (forall m : CL unit, keeps P m -> P (m_st (m t)) (o ++ m_out (m t))) as Hk by (intros m Hm; by apply Hm).
  destruct (GetNumberField req (RequestIdField d)) as [reqId|]; [|apply Hk; by apply cl_spared_emit]. assert (longOf reqId <> rid) as Hne by congruence.
  repeat (match goal with |- P (m_st (match ?x with _ => _ end _)) _ => destruct x end);
    try (apply Hk; first [by apply cl_spared_emit | apply cl_spared_reply; by auto with vrpc]).
  unfold newContext. rewrite M_assoc, M_gets_bind, M_assoc, M_modify_bind, M_left_id, !M_modify_bind.
  match goal with |- context [upd_cl_servings (insert _ ?x)] => set (r := x) end.
  assert (longOf (vs_requestId r) <> rid) as Hr by (unfold r, newServing; by destruct (inbound _)).
  assert (P (upd_cl_nextCtx S t) o) as HP1 by (destruct HP as [? [] ?]; by split).
  pose proof (cl_spared_with_serving (longOf reqId) r _ o Hne Hr HP1) as HP2. fold (with_serving (longOf reqId) r (upd_cl_nextCtx S t)).
  match goal with |- P (m_st (?m ?x)) _ => assert (keeps P m) as Hm; [|by apply Hm] end.
  keeps_split; first [by apply cl_spared_emit | apply cl_spared_on_serving; [done|intros w Hw; apply (owned_op w Hw VOpGrantInitial)] ].
Qed.

Lemma cl_spared_handleFrame de resp : requestIdOf d resp <> Some rid -> keeps P (handleFrame d growcap de resp).
Proof.
  intros Hid t o HP. unfold handleFrame, getResponseHandler.
  assert (forall m : CL unit, keeps P m -> P (m_st (m t)) (o ++ m_out (m t))) as Hk by (intros m Hm; by apply Hm).
  destruct (GetNumberField resp (MessageTypeField d)) as [mt|]; [|apply Hk; by apply cl_spared_emit].
  destruct (longOf mt =? HandshakeResponse); [apply Hk; keeps_split; [other|by apply cl_spared_emit]|].
  destruct (longOf mt =? FunctionRequest); [apply Hk; by apply cl_spared_serveInboundCall|].
  destruct (_ || _ || _); [apply Hk; by apply cl_spared_serveInboundStream|]. unfold requestIdOf in Hid.
  destruct (GetNumberField resp (RequestIdField d)) as [idV|]; [|apply Hk; by apply cl_spared_emit].
  assert (longOf idV <> rid) as Hne by congruence. pose proof (fun l => cd_map _ (cs_distinct _ _ _ HP) _ l Hne) as Hm.
  rewrite M_gets_bind. cbn [id]. destruct (cl_servingMap t !! longOf idV) as [ls|].
  { apply Hk. keeps_split. apply cl_spared_on_serving; [by apply Hm|]. intros v Hv. by apply owned_serveRunning. }
  destruct (cl_requestCtxMap t !! longOf idV) as [l|]; [|apply Hk; by apply cl_spared_emit].
  apply Hk. apply cl_spared_processResponse. by apply Hm.
Qed.

Lemma cl_spared_singleResp de l c : Some l <> l0 -> keeps P (singleResp d growcap de l c).
Proof.
  intros Hl. pose proof req_methods_keep_id as (Ko & _ & Ke & Kc & _). unfold singleResp.
  apply cl_spared_get_req; [done|keeps_split|]. intros r Hrr. pose proof Hrr as [Hr _]. destruct (SingleResp r c) as [res timedOut].
  keeps_split; first [by apply cl_spared_on_request_ | by apply cl_spared_cancel].
Qed.

Lemma cl_spared_streamOut l pc recv : Some l <> l0 -> keeps P (streamOut_step d growcap l pc recv).
Proof.
  intros Hl. pose proof req_methods_keep_id as (Ko & _ & _ & _ & _ & Kp & _). unfold streamOut_step.
  apply cl_spared_get_req; [done|keeps_split|]. intros r Hr. apply other_long in Hr as Hr'. destruct Hr as [Hr _].
  keeps_split; first [by apply cl_spared_on_request_ | by apply cl_spared_on_request | by apply cl_spared_removeRequest | by apply cl_spared_emit
    | apply cl_spared_SendRequest; change (NewSystemRequest d (rc_requestId r) StreamEnd) with (NewStreamEnd d (Long (rc_requestId r)) None); by auto with vrpc
    | apply cl_spared_SendRequest; by auto with vrpc].
Qed.

Lemma cl_spared_watchFired de l : Some l <> l0 -> keeps P (watchFired d growcap de l).
Proof.
  intros Hl. pose proof req_methods_keep_id as (_ & _ & _ & Kc & _). unfold watchFired.
  apply cl_spared_get_req; [done|keeps_split|]. intros r Hr. keeps_split; [by apply cl_spared_cancel|by apply cl_spared_on_request_].
Qed.

Lemma cl_spared_jobs j :
  match j with JobStream l reqId _ _ _ _ => Some l <> s0 /\ longOf reqId <> rid | JobCall reqId _ _ _ _ => longOf reqId <> rid | _ => True end ->
  keeps P (run_cl_op d growcap (COpJob j)).
Proof.
  intros Hj. destruct j as [reqId name cf args req|l reqId name cf ctx args|l|l]; cbn [run_cl_op]; [| |keeps_split..].
  - unfold runInboundCall, newContext. keeps_split; first [other | apply cl_spared_reply; repeat case_match; by auto with vrpc].
  - destruct Hj as [Hl Hr]. unfold runInboundStream.
    keeps_split; first [apply cl_spared_reply; by auto with vrpc | apply cl_spared_on_serving; [done|intros v Hv; by apply owned_closeRequest]].
Qed.

Lemma cl_spared_register de kind req cap t o :
  wrap64 (cl_lastRequest t + 1) <> rid -> P t o ->
  P (m_st (registerRequest d growcap de kind req cap t)) (o ++ m_out (registerRequest d growcap de kind req cap t)).
Proof.
  intros Hid HP. unfold registerRequest, ensureConnection, hasConn. rewrite M_assoc, M_gets_bind. cbn [id].
  pose proof (cs_distinct _ _ _ HP) as Hd. destruct (cd_conn _ Hd) as [c Hc]. rewrite Hc. cbn [is_some negb]. rewrite M_left_id, M_modify_bind.
  rewrite M_gets_bind. cbn [id]. change (cl_lastRequest (upd_cl_lastRequest (fun n => wrap64 (n + 1)) t)) with (wrap64 (cl_lastRequest t + 1)).
  set (id := wrap64 (cl_lastRequest t + 1)) in *. assert (other_id rid id) as Hoid by (split; [done|apply wrap64_range]).
  assert (P (upd_cl_lastRequest (fun n => wrap64 (n + 1)) t) o) as HP1 by (destruct HP as [? [] ?]; by split).
  unfold newRequestCtx. rewrite M_assoc, M_gets_bind. cbn [Datatypes.id].
  revert HP1. generalize (upd_cl_lastRequest (fun n => wrap64 (n + 1)) t). intros t1 HP1.
  rewrite M_assoc, M_modify_bind, M_assoc, M_modify_bind, M_assoc, (M_run_bind (emit _) _ _ _ _ _ eq_refl), m_st_eq, m_out_eq, app_assoc, M_assoc, M_modify_bind.
  match goal with |- context [upd_cl_requests (insert _ ?x)] => set (r := x) end. fold (with_req id r t1).
  assert (other_id rid (rc_requestId r)) as Hr by done.
  pose proof (cl_spared_with_req id r t1 _ Hid Hr (cl_spared_emit (CRequestBegin (RequestCtx_Name d r)) I t1 o HP1)) as HP2.
  match goal with |- P (m_st (?m ?x)) _ => assert (keeps P m) as Hm; [|by apply Hm] end. keeps_split.
Qed.

End keep.

(** ** The client's own work on the stream

    Nothing that serves a registered request or stream makes it share its id or
    its objects with another. *)

Abbreviation D := (fun t (_ : list cl_ev) => cl_distinct t).

Lemma cl_distinct_modify f : (forall t, cl_distinct t -> cl_distinct (f t)) -> keeps D (modify f).
Proof. intros Hf. apply keeps_modify. intros t _. apply Hf. Qed.
Lemma cl_distinct_emit e : keeps D (emit e).
Proof. by apply keeps_emit. Qed.
Lemma cl_distinct_other f :
  (forall t, cl_requests (f t) = cl_requests t /\ cl_servings (f t) = cl_servings t /\ cl_requestCtxMap (f t) = cl_requestCtxMap t /\
     cl_servingMap (f t) = cl_servingMap t /\ cl_conn (f t) = cl_conn t /\ (cl_nextLoc t <= cl_nextLoc (f t))%nat /\
     (cl_nextServing t <= cl_nextServing (f t))%nat) ->
  keeps D (modify f).
Proof.
  intros Hf. apply cl_distinct_modify. intros t []. destruct (Hf t) as (E1 & E2 & E3 & E4 & E5 & E6 & E7).
  split; rewrite ?E1, ?E2, ?E3, ?E4, ?E5; try done; [intros l; destruct (cd_loc0 l) as [L1 L2]|intros id l; destruct (cd_alloc0 id l) as [L1 L2]]; (split; intros El; [specialize (L1 El)|specialize (L2 El)]; lia).
Qed.
Lemma cl_distinct_SendRequest m : keeps D (getConn_SendRequest m).
Proof. unfold getConn_SendRequest. keeps_split. apply cl_distinct_emit. Qed.
Lemma cl_distinct_reply m : keeps D (reply m).
Proof. unfold reply. keeps_split. apply cl_distinct_SendRequest. Qed.
Lemma cl_distinct_cancel de id : keeps D (Client_CancelRequest d growcap de id).
Proof.
  intros t o HD. unfold Client_CancelRequest, sendSystemRequest, ensureConnection, hasConn. destruct (cd_conn _ HD) as [c Hc].
  rewrite M_assoc, M_gets_bind. cbn [Datatypes.id]. rewrite Hc. cbn [is_some negb]. rewrite M_left_id.
  match goal with |- cl_distinct (m_st (?m ?x)) => assert (keeps D m) as Hk; [|by apply (Hk x [])] end. keeps_split. apply cl_distinct_SendRequest.
Qed.
Lemma cl_distinct_removeRequest id : keeps D (removeRequest id).
Proof. apply cl_distinct_modify. intros t []. split; cbn; try done. all: intros id' l; rewrite lookup_delete_Some; specialize (cd_map0 id' l); specialize (cd_alloc0 id' l); naive_solver. Qed.

Lemma cl_distinct_on_request {A} l (m : M rpcRequestCtx req_ev A) : req_keeps_id m -> keeps D (on_request d l m).
Proof.
  intros Hm t o HD. unfold on_request, get_req. rewrite M_gets_bind. destruct (cl_requests t !! l) as [r|] eqn:Er; [|done].
  pose proof (Hm _ r [] eq_refl) as Hid. destruct (m r) as [[a r'] es]. cbn in Hid. rewrite M_modify_bind.
  assert (cl_distinct (upd_cl_requests (insert l r') t)) as HD'.
  { destruct HD. split; cbn; try done. intros l' r0 Hne. rewrite lookup_insert. case_decide; [|by apply cd_requests0].
    subst. intros [= <-]. rewrite Hid. by eapply cd_requests0. }
  match goal with |- cl_distinct (m_st (?m ?x)) => assert (keeps D m) as Hk; [|by apply (Hk x [])] end.
  keeps_split. apply keeps_seqM, Forall_map, Forall_true. intros e. destruct e; cbn [req_callback]; [|apply cl_distinct_emit].
  unfold sendStreamCredit. keeps_split. apply cl_distinct_SendRequest.
Qed.
Lemma cl_distinct_on_request_ {A} l (m : M rpcRequestCtx req_ev A) : req_keeps_id m -> keeps D (on_request_ d l m).
Proof. intros. unfold on_request_. keeps_split. by apply cl_distinct_on_request. Qed.

Lemma cl_distinct_on_serving {A} l (m : M clientServingRequest vs_ev A) :
  (forall v, keeps (fun r _ => vs_requestId r = v) m) -> keeps D (on_serving l m).
Proof.
  intros Hm t o HD. unfold on_serving. rewrite M_gets_bind. cbn [id]. destruct (cl_servings t !! l) as [r|] eqn:Er; [|done].
  pose proof (Hm _ r [] eq_refl) as Hid. destruct (m r) as [[a r'] evs]. cbn in Hid. rewrite M_modify_bind.
  assert (cl_distinct (upd_cl_servings (insert l r') t)) as HD'.
  { destruct HD. split; cbn; try done. intros l' r0 Hne. rewrite lookup_insert. case_decide; [|by apply cd_servings0].
    subst. intros [= <-]. rewrite Hid. by eapply cd_servings0. }
  match goal with |- cl_distinct (m_st (?m ?x)) => assert (keeps D m) as Hk; [|by apply (Hk x [])] end.
  keeps_split. apply keeps_seqM, Forall_map, Forall_true. intros [m'|id|c]; cbn [serving_callback].
  - apply cl_distinct_reply.
  - apply cl_distinct_modify. intros t' []. split; cbn; try done. all: intros id' l'; rewrite lookup_delete_Some; specialize (cd_map0 id' l'); specialize (cd_alloc0 id' l'); naive_solver.
  - apply cl_distinct_other. intros ?. cbn. split_and!; (done || lia).
Qed.

Ltac vs_keep_id :=
  intros v; keeps_split; first [by apply keeps_emit | apply keeps_modify; intros; cbn; congruence].
Lemma serveRunning_keeps_id mt req v : keeps (fun r _ => vs_requestId r = v) (serveRunning d growcap mt req).
Proof.
  revert v. unfold serveRunning, ClientServing_closeRequest, ClientServing_closeInboundChan, ClientServing_deleteServing, ClientServing_cancelCtx,
    ClientServing_push, ClientServing_Close, ClientServing_cancelCtx. vs_keep_id.
Qed.

(** The response loop, on a frame of a stream. *)
Lemma cl_distinct_handleFrame de resp mt :
  messageType d resp = Some mt -> stream_type mt = true -> keeps D (handleFrame d growcap de resp).
Proof.
  intros (v & Hv & Hl)%messageType_field Hst. pose proof req_methods_keep_id as (_ & Kn & Ke & Kc & Kg & _ & Kgr & Km).
  unfold handleFrame, getResponseHandler. rewrite Hv, Hl.
  assert ((mt =? HandshakeResponse) = false /\ (mt =? FunctionRequest) = false /\
    (mt =? GetStreamRequest) || (mt =? PutStreamRequest) || (mt =? ChatRequest) = false) as (-> & -> & ->).
  { unfold stream_type in Hst. repeat (apply orb_true_iff in Hst as [Hst|Hst]); apply Z.eqb_eq in Hst as ->; done. }
  keeps_split; try apply cl_distinct_emit.
  - apply cl_distinct_on_serving. intros w. apply serveRunning_keeps_id.
  - unfold processResponse, notify_then, get_req.
    destruct (fieldOrNil resp (ValueField d)); keeps_split;
      first [ by apply cl_distinct_on_request_ | by apply cl_distinct_on_request | apply cl_distinct_removeRequest | apply cl_distinct_emit
            | apply cl_distinct_cancel | apply cl_distinct_on_request_; by apply Km ].
Qed.

Lemma cl_distinct_streamOut l pc recv : keeps D (streamOut_step d growcap l pc recv).
Proof.
  pose proof req_methods_keep_id as (Ko & _ & _ & _ & _ & Kp & _). unfold streamOut_step, get_req.
  keeps_split; first [ by apply cl_distinct_on_request_ | by apply cl_distinct_on_request | apply cl_distinct_removeRequest | apply cl_distinct_emit
    | apply cl_distinct_SendRequest ].
Qed.

(** ** Everything else the client does *)

(** An operation that is about another request or served stream, and leaves the
    connection alone. *)
Definition cl_elsewhere (t : rpcClient) (op : cl_op) : Prop :=
  match op with
  | COpRegister _ _ _ _ => wrap64 (cl_lastRequest t + 1) <> rid
  | COpTransmit l => Some l <> l0 /\ (forall r, cl_requests t !! l = Some r -> foreign d rid (rc_req r))
  | COpFrame _ resp => requestIdOf d resp <> Some rid
  | COpSingleResp _ l _ | COpRequest l _ | COpStreamOut l _ _ | COpWatchFired _ l => Some l <> l0
  | COpServing l _ => Some l <> s0
  | COpJob (JobStream l reqId _ _ _ _) => Some l <> s0 /\ longOf reqId <> rid
  | COpJob (JobCall reqId _ _ _ _) => longOf reqId <> rid
  | COpJob _ => True
  | COpCancel _ id => other_id rid id
  | _ => False
  end.

Lemma cl_spared_op fp op t o :
  cl_elsewhere t op -> cl_spared fp t o -> cl_spared fp (m_st (run_cl_op d growcap op t)) (o ++ m_out (run_cl_op d growcap op t)).
Proof.
  intros He HP. pose proof req_methods_keep_id as (Ko & _).
  assert (forall m : CL unit, keeps (cl_spared fp) m -> cl_spared fp (m_st (m t)) (o ++ m_out (m t))) as Hk by (intros m Hm; by apply Hm).
  destruct op as [de kind req cap|l|de resp|de l c|l op|l pc recv|de l|l op|j|de id| | | | |]; cbn [cl_elsewhere] in He; try done.
  - cbn [run_cl_op]. rewrite M_bind_st, M_bind_out. cbn. rewrite app_nil_r. by apply cl_spared_register.
  - destruct He as [Hl Hf]. cbn [run_cl_op]. unfold transmitRequest, get_req. rewrite M_assoc, M_gets_bind.
    destruct (cl_requests t !! l) as [r|]; apply Hk; keeps_split. apply cl_spared_SendRequest. by apply Hf.
  - apply Hk. by apply cl_spared_handleFrame.
  - apply Hk. cbn [run_cl_op]. keeps_split. by apply cl_spared_singleResp.
  - apply Hk. by apply cl_spared_on_request_.
  - apply Hk. cbn [run_cl_op]. keeps_split. by apply cl_spared_streamOut.
  - apply Hk. by apply cl_spared_watchFired.
  - apply Hk. cbn [run_cl_op]. keeps_split. apply cl_spared_on_serving; [done|]. intros v Hv. by apply owned_op.
  - apply Hk. apply cl_spared_jobs. by destruct j.
  - apply Hk. by apply cl_spared_cancel.
Qed.

(** The ends of the stream are functions of its footprint. *)
Lemma cl_same_views t t' :
  cl_footprint_of t' = cl_footprint_of t ->
  (forall l, l0 = Some l -> request_view rid l t' = request_view rid l t /\
     forall pc, out_view rid l (t', pc) = out_view rid l (t, pc)) /\
  (forall l, s0 = Some l -> served_view rid l t' = served_view rid l t /\
     forall pc, ClientEnds.streamer_view rid l (t', pc) = ClientEnds.streamer_view rid l (t, pc)).
Proof.
  unfold cl_footprint_of, at_owner. intros [= E1 E2 E3 E4 E5].
  unfold request_view, served_view, out_view, ClientEnds.streamer_view. cbn [fst snd].
  split; intros l El; rewrite El in E1 || rewrite El in E2; cbn in *; rewrite ?E1, ?E2; (split; [|intros pc]).
  - destruct (cl_requests t !! l) as [r|]; [|done]. destruct (rc_resultPump r) as [p|]; [|done].
    apply decide_ext. unfold receiving. by rewrite E3, E4, E5.
  - destruct (out_pos pc); try done; (destruct (cl_requests t !! l) as [r|]; [|done]; destruct (rc_sendCredit r) as [g|]; [|done]);
      apply decide_ext; unfold sending; by rewrite E3, E4, E5.
  - destruct (cl_servings t !! l) as [r|]; [|done]. destruct (vs_inPump r) as [p|]; [|done].
    apply decide_ext. unfold ClientEnds.inbound_ok, served_ok. by rewrite E4, E5.
  - destruct (served_pos pc); try done; (destruct (cl_servings t !! l) as [r|]; [|done]; destruct (vs_sendCredit r) as [g|]; [|done]);
      apply decide_ext; unfold ClientEnds.outbound_ok, served_ok; by rewrite E4, E5.
Qed.

Lemma cl_foreign_sent o : Forall foreign_cl_ev o -> Forall (foreign d rid) (omap client_sent o).
Proof. induction 1 as [|e o He _ IH]; [constructor|]. destruct e; cbn; try done. by constructor. Qed.

(** C8: What the client does for other requests and served streams while its
    connection stands leaves a stream alone: registering and sending other
    requests, frames with other ids, waiting, pumps, streamOut and
    cancellation of other requests, serving other reverse calls and streams
    keep the stream's objects, registrations and both its ends exactly as they
    were, send no frame that carries its id, and keep its id and objects its
    own; the same holds of an id the client has no object for yet. *)
Theorem client_streams_isolated t op :
  cl_distinct t -> cl_elsewhere t op ->
  let t' := m_st (run_cl_op d growcap op t) in let out := omap client_sent (m_out (run_cl_op d growcap op t)) in
  cl_distinct t' /\ cl_footprint_of t' = cl_footprint_of t /\
  (forall l, l0 = Some l -> request_view rid l t' = request_view rid l t /\
     forall pc, out_view rid l (t', pc) = out_view rid l (t, pc)) /\
  (forall l, s0 = Some l -> served_view rid l t' = served_view rid l t /\
     forall pc, ClientEnds.streamer_view rid l (t', pc) = ClientEnds.streamer_view rid l (t, pc)) /\
  Forall (foreign d rid) out.
Proof.
  intros Hd He t' out. destruct (cl_spared_op (cl_footprint_of t) op t [] He) as [Hf Hd' Ho]; [by split|].
  destruct (cl_same_views t t' Hf) as [V1 V2]. split_and!; try done. by apply cl_foreign_sent.
Qed.

End client_isolation.

(** ** Witness: a value of another stream arrives *)

Section client_isolation_witness.
#[local] Existing Instance RefValueLib.

Definition demo_iso_object : rpcRequestCtx := NewRequestCtx 1 getStreamKind EmptyMap 4 4 true true.
Definition demo_iso_client : rpcClient :=
  upd_cl_nextLoc (fun _ => 1%nat) (upd_cl_requestCtxMap (insert 1 0%nat)
    (upd_cl_requests (insert 0%nat demo_iso_object) demo_caller)).
Definition demo_iso_value : VMap := NewStreamValue NewDialect (Long 9) (Some (Long 5)).

Lemma demo_iso_cl_distinct : cl_distinct 1 (Some 0%nat) None demo_iso_client.
Proof.
  split.
  - intros l r Hl. cbn. by rewrite lookup_insert_ne by congruence.
  - intros l r Hl. cbn. by rewrite lookup_empty.
  - intros id l Hid. cbn. by rewrite lookup_insert_ne, !lookup_empty.
  - intros l. cbn. split; [intros [= <-]; lia|done].
  - intros id l. cbn. rewrite lookup_empty, lookup_insert. split; [|done]. case_decide; [intros [= <-]; lia|]. by rewrite lookup_empty.
  - by eexists.
Qed.

Lemma client_streams_isolated_witness :
  request_view 1 0 (m_st (run_cl_op NewDialect demo_cl_grow (COpFrame demo_dial demo_iso_value) demo_iso_client)) =
  Some (mkRV (NewStreamPump 4) (-1) 4 false).
Proof.
  destruct (client_streams_isolated NewDialect demo_cl_grow 1 (Some 0%nat) None demo_iso_client (COpFrame demo_dial demo_iso_value) demo_iso_cl_distinct)
    as (_ & _ & Hv & _); [cbn [cl_elsewhere]; vm_compute; intros [=]|].
  rewrite (proj1 (Hv 0%nat eq_refl)). unfold request_view. assert (cl_requests demo_iso_client !! 0%nat = Some demo_iso_object) as -> by done.
  assert (rc_resultPump demo_iso_object = Some (NewStreamPump 4)) as -> by done.
  rewrite decide_True; [done|]. unfold receiving. by split_and!.
Defined.

End client_isolation_witness.
