(* ===== verification/Multiplex.v ===== *)
(** * Many streams over one connection

    A client and its session, connected by one connection that carries the frames
    of all requests in both directions, in order.  Any number of get streams and
    put streams are opened by the client while others run: the request is sent,
    read, admitted and handled by the code of both sides, and from then on the
    goroutines of each stream run in any interleaving with the two read loops, the
    goroutines of the other streams and everything else the two programs do.

    [mux_step] is that system.  Its invariant keeps, for every stream, its id and
    its objects its own (StreamIsolation.v, ClientIsolation.v), its frames on the
    wires its own, and its two ends in a state that the stream alone could have
    reached (StreamLink.v); so the guarantees of a single stream hold of every
    stream of the connection. *)

From S2P Require Import Prelude Value RefValue Protocol Verify Credit Pump FlowControl Metadata ClientStream ClientServing.
From S2P Require Import ServingSystem ServingProps SessionWork Client ClientProps ClientCalls EndToEnd Request ServingClient.
From S2P Require Import StreamLink ClientEnds ServerEnds StreamIsolation ClientIsolation Streams.

Section mux.
Context `{ValueLib} (d : Dialect) `{!dialect_ok d} (growcap : nat -> nat) (pickDone : servingClient -> VMap -> bool).
Hypothesis growcap_larger : forall n, (n < growcap n)%nat.
Context (de : dial_env).

Abbreviation SC := (M servingClient sc_ev).
Abbreviation CL := (M rpcClient cl_ev).

(** ** The system *)

(** A stream: its request is on the way; its handler is about to run; values flow
    to the client ([StDown]) or to the server ([StUp]), with the position of the
    sending goroutine and the ghosts of StreamLink.v.  [lc] and [ls] are its
    objects on the two sides. *)
Inductive stream :=
| StRequested (up : bool) (lc : nat) (name : string) (args : option Value)
| StAccepted (up : bool) (lc : nat) (name : string) (args : option Value) (req : VMap)
| StDown (lc ls : nat) (pc : streamer_pc) (made : list (option Value)) (hook est : bool)
| StUp (lc ls : nat) (pc : option out_pc) (made : list (option Value)) (hook est : bool).

Definition client_object (e : stream) : nat :=
  match e with StRequested _ lc _ _ | StAccepted _ lc _ _ _ | StDown lc _ _ _ _ _ | StUp lc _ _ _ _ _ => lc end.
Definition server_object (e : stream) : option nat :=
  match e with StRequested _ _ _ _ | StAccepted _ _ _ _ _ => None | StDown _ ls _ _ _ _ | StUp _ ls _ _ _ _ => Some ls end.

(** The client, the session, the two directions of the connection and the streams
    by request id. *)
Record mux := mkMux {
  mx_client : rpcClient;
  mx_server : servingClient;
  mx_up : list VMap;
  mx_down : list VMap;
  mx_streams : gmap Z stream
}.

Definition stream_ft (up : bool) : functionType := if up then incomingStream else outgoingStream.

Definition open_stream (up : bool) (de : dial_env) ctx until name args cap : CL (goerror + nat) :=
  if up then PutStream_begin d growcap de ctx until name args else GetStream_begin d growcap de ctx until name args cap.

(** The two ends of a running stream. *)
Abbreviation down_tx rid ls := (ServerEnds.streamer_sender d growcap pickDone rid ls).
Abbreviation down_rx rid Hr lc := (ClientEnds.request_receiver d growcap de rid Hr lc).
Abbreviation up_tx rid Hr lc := (ClientEnds.request_sender d growcap de rid Hr lc).
Abbreviation up_rx rid ls := (ServerEnds.inbound_receiver d growcap pickDone rid ls).

Definition down_of (c : mux) (pc : streamer_pc) made hook est : world :=
  mkWorld (mx_server c, pc) (mx_client c) (mx_down c) (mx_up c) made hook est.
Definition up_of (c : mux) (pc : option out_pc) made hook est : world :=
  mkWorld (mx_client c, pc) (mx_server c) (mx_up c) (mx_down c) made hook est.
Definition after_down (c : mux) (rid : Z) (lc ls : nat) (w : @world _ (servingClient * streamer_pc) rpcClient) : mux :=
  mkMux (w_rcv w) (w_snd w).1 (w_back w) (w_fwd w)
    (<[rid := StDown lc ls (w_snd w).2 (w_made w) (w_hook w) (w_est w)]> (mx_streams c)).
Definition after_up (c : mux) (rid : Z) (lc ls : nat) (w : @world _ (rpcClient * option out_pc) servingClient) : mux :=
  mkMux (w_snd w).1 (w_rcv w) (w_fwd w) (w_back w)
    (<[rid := StUp lc ls (w_snd w).2 (w_made w) (w_hook w) (w_est w)]> (mx_streams c)).

(** A frame that the session accepts starts the handler of its stream. *)
Definition starts (o : list sc_ev) : bool := existsb (fun e => match e with EServe _ _ => true | _ => false end) o.
Definition note (req : VMap) (o : list sc_ev) (ss : gmap Z stream) : gmap Z stream :=
  match requestIdOf d req with
  | Some rid =>
      match ss !! rid with
      | Some (StRequested up lc name args) => if starts o then <[rid := StAccepted up lc name args req]> ss else delete rid ss
      | _ => ss
      end
  | None => ss
  end.
Definition started (up : bool) (lc ls : nat) : stream :=
  if up then StUp lc ls None [] false true else StDown lc ls SReady [] false false.

(** An id nobody has used on this connection. *)
Record unused (rid : Z) (c : mux) : Prop := {
  un_client : cl_distinct rid None None (mx_client c);
  un_server : distinct rid None (mx_server c);
  un_maps : sc_requestMap (mx_server c) !! rid = None /\ sc_pendingStreams (mx_server c) !! rid = None;
  un_wires : Forall (foreign d rid) (mx_up c) /\ Forall (foreign d rid) (mx_down c);
  un_streams : mx_streams c !! rid = None
}.

Definition is_frame_op (op : cl_op) : bool := match op with COpFrame _ _ => true | _ => false end.
Definition is_frame_work (w : session_work) : bool := match w with WFrame _ => true | _ => false end.

Inductive mux_step : mux -> mux -> Prop :=
(** The client opens a stream. *)
| mx_open c up de' ctx until name args cap :
    let rid := cl_lastRequest (mx_client c) + 1 in let x := open_stream up de' ctx until name args cap (mx_client c) in
    can_open (mx_client c) -> unused rid c -> 0 < window_of (cl_maxPending (mx_client c)) < two63 ->
    mux_step c (mkMux (m_st x) (mx_server c) (mx_up c ++ omap client_sent (m_out x)) (mx_down c)
      (<[rid := StRequested up (cl_nextLoc (mx_client c)) name args]> (mx_streams c)))
(** The session's read loop. *)
| mx_read c m m' rest :
    mx_up c = m :: rest -> m' ≡ m -> let y := processRequest d growcap pickDone m' (mx_server c) in
    mux_step c (mkMux (mx_client c) (m_st y) rest (mx_down c ++ omap session_sent (m_out y)) (note m' (m_out y) (mx_streams c)))
(** The goroutine of an accepted request: the handler returns its stream, or the
    stream does not come about. *)
| mx_serve c rid up lc name args req fn :
    mx_streams c !! rid = Some (StAccepted up lc name args req) ->
    serves (mx_server c) (stream_ft up) rid name args fn -> 0 < cfg_maxPending (sc_cfg (mx_server c)) < two63 ->
    let z := serveFunctionRequest d pickDone (stream_ft up) req (mx_server c) in
    mux_step c (mkMux (mx_client c) (m_st z) (mx_up c) (mx_down c ++ omap session_sent (m_out z))
      (<[rid := started up lc (sc_nextLoc (mx_server c))]> (mx_streams c)))
| mx_refuse c rid up lc name args req :
    mx_streams c !! rid = Some (StAccepted up lc name args req) ->
    let z := serveFunctionRequest d pickDone (stream_ft up) req (mx_server c) in
    mux_step c (mkMux (mx_client c) (m_st z) (mx_up c) (mx_down c ++ omap session_sent (m_out z)) (delete rid (mx_streams c)))
(** The client's response loop. *)
| mx_respond c m m' rest :
    mx_down c = m :: rest -> m' ≡ m -> let y := handleFrame d growcap de m' (mx_client c) in
    mux_step c (mkMux (m_st y) (mx_server c) (mx_up c ++ omap client_sent (m_out y)) rest (mx_streams c))
(** The goroutines of a stream, which yields no nil value. *)
| mx_down_local c rid lc ls pc made hook est Hr w' :
    mx_streams c !! rid = Some (StDown lc ls pc made hook est) ->
    local_step d growcap rid (down_tx rid ls) (down_rx rid Hr lc) (down_of c pc made hook est) w' -> Forall nonnull (w_made w') ->
    mux_step c (after_down c rid lc ls w')
| mx_up_local c rid lc ls pc made hook est Hr w' :
    mx_streams c !! rid = Some (StUp lc ls pc made hook est) ->
    local_step d growcap rid (up_tx rid Hr lc) (up_rx rid ls) (up_of c pc made hook est) w' -> Forall nonnull (w_made w') ->
    mux_step c (after_up c rid lc ls w')
(** PutStream takes the acknowledgement. *)
| mx_up_ready c rid lc ls pc made hook est :
    mx_streams c !! rid = Some (StUp lc ls pc made hook est) ->
    let y := on_request_ d lc (run_req_op d growcap OpReceive) (mx_client c) in
    mux_step c (mkMux (m_st y) (mx_server c) (mx_up c ++ omap client_sent (m_out y)) (mx_down c) (mx_streams c))
(** Everything else the two programs do, on other objects. *)
| mx_client_other c op :
    is_frame_op op = false ->
    (forall rid e, mx_streams c !! rid = Some e -> cl_elsewhere d rid (Some (client_object e)) None (mx_client c) op) ->
    let y := run_cl_op d growcap op (mx_client c) in
    mux_step c (mkMux (m_st y) (mx_server c) (mx_up c ++ omap client_sent (m_out y)) (mx_down c) (mx_streams c))
| mx_server_other c w :
    is_frame_work w = false ->
    (forall rid e, mx_streams c !! rid = Some e -> elsewhere d rid (server_object e) (mx_server c) w) ->
    let y := run_work d growcap pickDone w (mx_server c) in
    mux_step c (mkMux (mx_client c) (m_st y) (mx_up c) (mx_down c ++ omap session_sent (m_out y)) (mx_streams c))
(** A stream that is cancelled, fails or yields a nil value is no longer followed. *)
| mx_forget c rid : mux_step c (mkMux (mx_client c) (mx_server c) (mx_up c) (mx_down c) (delete rid (mx_streams c))).

(** ** The invariant *)

(** Frames of stream [rid] among [l] all mean something to [f]. *)
Definition pure {A} (f : VMap -> option A) (rid : Z) (l : list VMap) : Prop :=
  Forall (fun m => requestIdOf d m = Some rid -> is_Some (f m)) l.

(** What the server sends a put stream: credits and the acknowledgement. *)
Definition reply_of (rid : Z) (m : VMap) : option unit :=
  match credit_of d rid m, item_of d rid m with
  | Some _, _ | None, Some IReady => Some tt
  | _, _ => None
  end.

(** The client's end before anything happened. *)
Definition fresh_end (up : bool) (rid : Z) (lc : nat) (t : rpcClient) : Prop :=
  if up then ClientEnds.out_view rid lc (t, None) = Some (mkSV Unready NewCreditGate)
  else exists n, 0 < n < two63 /\ request_view rid lc t = Some (mkRV (NewStreamPump n) (-1) n false).
Definition absent (rid : Z) (s : servingClient) : Prop := sc_requestMap s !! rid = None /\ sc_pendingStreams s !! rid = None.

Definition requests (up : bool) (rid : Z) name args (m : VMap) : Prop := stream_fields d m (ft_message (stream_ft up)) rid name args.

Definition phase_ok (rid : Z) (e : stream) (c : mux) : Prop :=
  match e with
  | StRequested up lc name args =>
      fresh_end up rid lc (mx_client c) /\ absent rid (mx_server c) /\ Forall (foreign d rid) (mx_down c) /\
      exists l1 m l2, mx_up c = l1 ++ m :: l2 /\ Forall (foreign d rid) l1 /\ Forall (foreign d rid) l2 /\ requests up rid name args m
  | StAccepted up lc name args req =>
      fresh_end up rid lc (mx_client c) /\ absent rid (mx_server c) /\
      Forall (foreign d rid) (mx_down c) /\ Forall (foreign d rid) (mx_up c) /\ requests up rid name args req
  | StDown lc ls pc made hook est =>
      Forall nonnull made /\ pure (item_of d rid) rid (mx_down c) /\ pure (credit_of d rid) rid (mx_up c) /\
      exists Hr n w0, 0 < n < two63 /\ opened d growcap rid (down_tx rid ls) (down_rx rid Hr lc) n w0 /\
        reach (world_step d growcap rid (down_tx rid ls) (down_rx rid Hr lc)) w0 (down_of c pc made hook est)
  | StUp lc ls pc made hook est =>
      Forall nonnull made /\ pure (item_of d rid) rid (mx_up c) /\ pure (reply_of rid) rid (mx_down c) /\
      exists Hr n w0, 0 < n < two63 /\ opened d growcap rid (up_tx rid Hr lc) (up_rx rid ls) n w0 /\
        reach (world_step d growcap rid (up_tx rid Hr lc) (up_rx rid ls)) w0 (up_of c pc made hook est)
  end.

Record stream_inv (rid : Z) (e : stream) (c : mux) : Prop := {
  si_range : in_int64 rid;
  si_client : cl_distinct rid (Some (client_object e)) None (mx_client c);
  si_server : distinct rid (server_object e) (mx_server c);
  si_phase : phase_ok rid e c
}.

(** Two streams share no object. *)
Definition apart (e1 e2 : stream) : Prop :=
  client_object e1 <> client_object e2 /\ forall l, server_object e1 = Some l -> server_object e2 <> Some l.

Definition all_apart (ss : gmap Z stream) : Prop :=
  forall r1 r2 e1 e2, r1 <> r2 -> ss !! r1 = Some e1 -> ss !! r2 = Some e2 -> apart e1 e2.

Record mux_inv (c : mux) : Prop := {
  mi_stream rid e : mx_streams c !! rid = Some e -> stream_inv rid e c;
  mi_apart : all_apart (mx_streams c)
}.

Lemma apart_sym e1 e2 : apart e1 e2 -> apart e2 e1.
Proof. intros [H1 H2]. split; [done|]. intros l Hl Hl'. by apply (H2 l). Qed.
Lemma all_apart_delete rid ss : all_apart ss -> all_apart (delete rid ss).
Proof. intros Hs r1 r2 e1 e2 Hne [_ H1]%lookup_delete_Some [_ H2]%lookup_delete_Some. by eapply Hs. Qed.
Lemma all_apart_insert rid e ss : all_apart ss -> (forall r e', r <> rid -> ss !! r = Some e' -> apart e e') -> all_apart (<[rid := e]> ss).
Proof.
  intros Hs He r1 r2 e1 e2 Hne. rewrite !lookup_insert_Some. intros [[<- <-]|[N1 H1]] [[<- <-]|[N2 H2]]; [congruence| | |by eapply (Hs r1 r2)].
  - by apply (He r2).
  - apply apart_sym. by apply (He r1).
Qed.
(** A stream that moves on keeps its objects. *)
Lemma all_apart_update rid e e' ss :
  all_apart ss -> ss !! rid = Some e -> client_object e' = client_object e -> server_object e' = server_object e -> all_apart (<[rid := e']> ss).
Proof.
  intros Hs He E1 E2. apply all_apart_insert; [done|]. intros r e1 Hne H1. unfold apart. rewrite E1, E2. by eapply (Hs rid r).
Qed.

(** ** Steps of others *)

Lemma foreign_pure {A} (f : VMap -> option A) rid l : Forall (foreign d rid) l -> pure f rid l.
Proof. intros Hl. eapply Forall_impl; [exact Hl|]. intros m Hm Hid. by destruct Hm. Qed.
Lemma pure_app {A} (f : VMap -> option A) rid l1 l2 : pure f rid l1 -> pure f rid l2 -> pure f rid (l1 ++ l2).
Proof. intros. by apply Forall_app. Qed.
Lemma foreign_nothing rid o : Forall (foreign d rid) o -> omap (item_of d rid) o = [] /\ omap (credit_of d rid) o = [].
Proof.
  induction 1 as [|m o Hm _ [IH1 IH2]]; [done|]. destruct (foreign_unread _ _ _ Hm) as [E1 E2]. cbn. by rewrite E1, E2.
Qed.

(** Code of one side that leaves stream [rid] alone. *)
Record client_spares (rid : Z) (lc : nat) (t : rpcClient) (y : rpcClient * list VMap) : Prop := {
  cp_distinct : cl_distinct rid (Some lc) None y.1;
  cp_footprint : cl_footprint_of rid (Some lc) None y.1 = cl_footprint_of rid (Some lc) None t;
  cp_frames : Forall (foreign d rid) y.2
}.
Record server_spares (rid : Z) (ls : option nat) (s : servingClient) (y : servingClient * list VMap) : Prop := {
  vp_distinct : distinct rid ls y.1;
  vp_footprint : footprint_of rid ls y.1 = footprint_of rid ls s;
  vp_frames : Forall (foreign d rid) y.2
}.

Lemma client_keeps_spares {A} rid lc t (m : CL A) :
  cl_distinct rid (Some lc) None t -> keeps (cl_spared d rid (Some lc) None (cl_footprint_of rid (Some lc) None t)) m ->
  client_spares rid lc t (cl_run m t).
Proof. intros Hd Hm. destruct (Hm t [] ltac:(by split)) as [Hf Hd' Ho]. split; [done|done|]. by apply cl_foreign_sent. Qed.
Lemma server_keeps_spares {A} rid ls s (m : SC A) :
  distinct rid ls s -> keeps (spared d rid ls (footprint_of rid ls s)) m -> server_spares rid ls s (sv_run m s).
Proof. intros Hd Hm. destruct (Hm s [] ltac:(by split)) as [Hf Hd' Ho]. split; [done|done|]. by apply foreign_sent. Qed.

Lemma spared_footprint rid ls s s' : footprint_of rid ls s' = footprint_of rid ls s -> absent rid s -> absent rid s'.
Proof. intros [= _ _ E1 E2 _]. unfold absent. by rewrite E1, E2. Qed.

Lemma fresh_end_same up rid lc t t' :
  request_view rid lc t' = request_view rid lc t -> out_view rid lc (t', None) = out_view rid lc (t, None) ->
  fresh_end up rid lc t -> fresh_end up rid lc t'.
Proof. unfold fresh_end. intros -> ->. done. Qed.

Lemma client_other rid e c y ss :
  stream_inv rid e c -> client_spares rid (client_object e) (mx_client c) y ->
  stream_inv rid e (mkMux y.1 (mx_server c) (mx_up c ++ y.2) (mx_down c) ss).
Proof.
  intros [Hr Hc Hs Hp] [Hd Hf Ho]. destruct (cl_same_views rid (Some (client_object e)) None _ _ Hf) as [Hv _].
  destruct (Hv _ eq_refl) as [Vr Vo]. destruct (foreign_nothing rid y.2 Ho) as [Ei Ec]. split; [done|done|done|].
  destruct e as [up lc name args|up lc name args req|lc ls pc made hook est|lc ls pc made hook est]; cbn [phase_ok client_object] in *.
  - destruct Hp as (Hfe & Ha & Hdn & l1 & m & l2 & Hup & H1 & H2 & H3). split_and!; try done.
    + eapply fresh_end_same; [exact Vr|exact (Vo None)|done].
    + exists l1, m, (l2 ++ y.2). cbn. rewrite Hup, <- app_assoc. split_and!; try done. by apply Forall_app.
  - destruct Hp as (Hfe & Ha & Hdn & Hup & H3). split_and!; try done.
    + eapply fresh_end_same; [exact Vr|exact (Vo None)|done].
    + cbn. by apply Forall_app.
  - destruct Hp as (Hm & Hdn & Hup & Hrr & n & w0 & Hn & Hop & Hre). split_and!; try done.
    + apply pure_app; [done|by apply foreign_pure].
    + exists Hrr, n, w0. refine (conj Hn (conj Hop _)). eapply reach_next; [exact Hre|].
      apply (ws_rcv_other d growcap rid (down_tx rid ls) (down_rx rid Hrr lc) (down_of c pc made hook est) y.1 y.2); [exact Vr|exact Ec].
  - destruct Hp as (Hm & Hup & Hdn & Hrr & n & w0 & Hn & Hop & Hre). split_and!; try done.
    + apply pure_app; [done|by apply foreign_pure].
    + exists Hrr, n, w0. refine (conj Hn (conj Hop _)). eapply reach_next; [exact Hre|].
      apply (ws_snd_other d growcap rid (up_tx rid Hrr lc) (up_rx rid ls) (up_of c pc made hook est) (y.1, pc) y.2); [exact (Vo pc)|exact Ei].
Qed.

Lemma server_other rid e c y ss :
  stream_inv rid e c -> server_spares rid (server_object e) (mx_server c) y ->
  stream_inv rid e (mkMux (mx_client c) y.1 (mx_up c) (mx_down c ++ y.2) ss).
Proof.
  intros [Hr Hc Hs Hp] [Hd Hf Ho]. destruct (foreign_nothing rid y.2 Ho) as [Ei Ec]. split; [done|done|done|].
  destruct e as [up lc name args|up lc name args req|lc ls pc made hook est|lc ls pc made hook est]; cbn [phase_ok server_object] in *.
  - destruct Hp as (Hfe & Ha & Hdn & Hx). split_and!; try done; [by eapply spared_footprint|]. by apply Forall_app.
  - destruct Hp as (Hfe & Ha & Hdn & Hup & H3). split_and!; try done; [by eapply spared_footprint|]. by apply Forall_app.
  - destruct (same_views rid (Some ls) ls _ _ eq_refl Hf) as (_ & _ & Vs & _).
    destruct Hp as (Hm & Hdn & Hup & Hrr & n & w0 & Hn & Hop & Hre). split_and!; try done.
    + apply pure_app; [done|by apply foreign_pure].
    + exists Hrr, n, w0. refine (conj Hn (conj Hop _)). eapply reach_next; [exact Hre|].
      apply (ws_snd_other d growcap rid (down_tx rid ls) (down_rx rid Hrr lc) (down_of c pc made hook est) (y.1, pc) y.2); [exact (Vs pc)|exact Ei].
  - destruct (same_views rid (Some ls) ls _ _ eq_refl Hf) as (Vi & _ & _ & _).
    destruct Hp as (Hm & Hup & Hdn & Hrr & n & w0 & Hn & Hop & Hre). split_and!; try done.
    + apply pure_app; [done|by apply foreign_pure].
    + exists Hrr, n, w0. refine (conj Hn (conj Hop _)). eapply reach_next; [exact Hre|].
      apply (ws_rcv_other d growcap rid (up_tx rid Hrr lc) (up_rx rid ls) (up_of c pc made hook est) y.1 y.2); [exact Vi|exact Ec].
Qed.

(** The head of a wire is read: nothing to a stream whose id it does not carry. *)
Lemma foreign_suffix rid m rest l1 m1 l2 :
  m :: rest = l1 ++ m1 :: l2 -> Forall (foreign d rid) l1 -> foreign d rid m -> requestIdOf d m1 = Some rid ->
  exists l1', rest = l1' ++ m1 :: l2 /\ Forall (foreign d rid) l1'.
Proof.
  intros E H1 Hm Hid. destruct l1 as [|a l1]; injection E as -> ->; [by destruct Hm|].
  exists l1. split; [done|]. by inv H1.
Qed.

Lemma requests_id up rid name args m : in_int64 rid -> requests up rid name args m -> requestIdOf d m = Some rid.
Proof. intros Hr []. unfold requestIdOf. rewrite sf_id. cbn. by rewrite longOf_Long. Qed.

Lemma pop_up rid e c m rest ss :
  stream_inv rid e c -> mx_up c = m :: rest -> foreign d rid m ->
  stream_inv rid e (mkMux (mx_client c) (mx_server c) rest (mx_down c) ss).
Proof.
  intros [Hr Hc Hs Hp] Hup Hm. destruct (foreign_unread _ _ _ Hm) as [Ei Ec]. split; [done|done|done|].
  destruct e as [up lc name args|up lc name args req|lc ls pc made hook est|lc ls pc made hook est]; cbn [phase_ok] in *; rewrite Hup in Hp.
  - destruct Hp as (Hfe & Ha & Hdn & l1 & m1 & l2 & E & H1 & H2 & H3). split_and!; try done.
    destruct (foreign_suffix _ _ _ _ _ _ E H1 Hm (requests_id _ _ _ _ _ Hr H3)) as (l1' & ? & ?). by exists l1', m1, l2.
  - destruct Hp as (Hfe & Ha & Hdn & Hup' & H3). split_and!; try done. by inv Hup'.
  - destruct Hp as (Hm' & Hdn & Hup' & Hrr & n & w0 & Hn & Hop & Hre). split_and!; try done; [by inv Hup'|].
    exists Hrr, n, w0. refine (conj Hn (conj Hop _)). eapply reach_next; [exact Hre|].
    by apply (ws_back_other d growcap rid (down_tx rid ls) (down_rx rid Hrr lc) (down_of c pc made hook est) m rest).
  - destruct Hp as (Hm' & Hup' & Hdn & Hrr & n & w0 & Hn & Hop & Hre). split_and!; try done; [by inv Hup'|].
    exists Hrr, n, w0. refine (conj Hn (conj Hop _)). eapply reach_next; [exact Hre|].
    by apply (ws_fwd_other d growcap rid (up_tx rid Hrr lc) (up_rx rid ls) (up_of c pc made hook est) m rest).
Qed.

Lemma pop_down rid e c m rest ss :
  stream_inv rid e c -> mx_down c = m :: rest -> foreign d rid m ->
  stream_inv rid e (mkMux (mx_client c) (mx_server c) (mx_up c) rest ss).
Proof.
  intros [Hr Hc Hs Hp] Hdn Hm. destruct (foreign_unread _ _ _ Hm) as [Ei Ec]. split; [done|done|done|].
  destruct e as [up lc name args|up lc name args req|lc ls pc made hook est|lc ls pc made hook est]; cbn [phase_ok] in *; rewrite Hdn in Hp.
  - destruct Hp as (Hfe & Ha & Hdn' & Hx). split_and!; try done. by inv Hdn'.
  - destruct Hp as (Hfe & Ha & Hdn' & Hup & H3). split_and!; try done. by inv Hdn'.
  - destruct Hp as (Hm' & Hdn' & Hup & Hrr & n & w0 & Hn & Hop & Hre). split_and!; try done; [by inv Hdn'|].
    exists Hrr, n, w0. refine (conj Hn (conj Hop _)). eapply reach_next; [exact Hre|].
    by apply (ws_fwd_other d growcap rid (down_tx rid ls) (down_rx rid Hrr lc) (down_of c pc made hook est) m rest).
  - destruct Hp as (Hm' & Hup & Hdn' & Hrr & n & w0 & Hn & Hop & Hre). split_and!; try done; [by inv Hdn'|].
    exists Hrr, n, w0. refine (conj Hn (conj Hop _)). eapply reach_next; [exact Hre|].
    by apply (ws_back_other d growcap rid (up_tx rid Hrr lc) (up_rx rid ls) (up_of c pc made hook est) m rest).
Qed.

(** ** Frames of the stream itself *)

(** The acknowledgement of a put stream goes to PutStream, not to the sending
    goroutine. *)
Lemma notifyResult_silent v r :
  exists b r', notifyResult growcap v r = (b, r', []) /\ rc_sendCredit r' = rc_sendCredit r /\ rc_requestId r' = rc_requestId r /\
    rc_putClosed r' = rc_putClosed r.
Proof.
  unfold notifyResult. unM. destruct (rc_resultPump r) as [p|].
  - destruct (Push None growcap v p) as [b p']. by eexists _, _.
  - destruct (negb _); [by eexists _, _|]. destruct (_ <? _); by eexists _, _.
Qed.

Lemma out_view_touched rid l lc t pc r r' :
  cl_requests t !! l = Some r -> rc_sendCredit r' = rc_sendCredit r -> rc_requestId r' = rc_requestId r -> rc_putClosed r' = rc_putClosed r ->
  out_view rid lc (upd_cl_requests (insert l r') t, pc) = out_view rid lc (t, pc).
Proof.
  intros Hl E1 E2 E3. unfold out_view. cbn [fst snd]. destruct (decide (l = lc)) as [->|Hne].
  - cbn. rewrite lookup_insert_eq, Hl, E1. destruct (out_pos pc); try done; (destruct (rc_sendCredit r) as [g|]; [|done]);
      apply decide_ext; unfold sending; cbn; by rewrite E2, E3.
  - cbn. rewrite lookup_insert_ne by done. done.
Qed.

Lemma ready_other rid lc pc m t :
  item_of d rid m = Some IReady ->
  let y := cl_run (handleFrame d growcap de m) t in out_view rid lc (y.1, pc) = out_view rid lc (t, pc) /\ y.2 = [].
Proof.
  intros (Hmt & Hid & _)%item_of_inv. unfold cl_run. cbn [item_type] in Hmt. rewrite (stream_routed d growcap de rid m _ t Hmt Hid) by auto.
  destruct (cl_servingMap t !! rid) as [ls|].
  - unfold on_serving. unM. destruct (cl_servings t !! ls) as [vs|]; done.
  - destruct (cl_requestCtxMap t !! rid) as [lr|]; [|done].
    unfold processResponse, get_req. rewrite M_gets_bind. destruct (cl_requests t !! lr) as [r|] eqn:Hl; [|done].
    cbn [Z.eqb Pos.eqb FunctionResponse ErrorResponse StreamReady]. destruct (notifyResult_silent None r) as (b & r' & Hn & E1 & E2 & E3).
    unfold notify_then. rewrite (M_run_bind _ _ _ _ _ _ (on_request_run d lr _ r b r' [] t Hl Hn)).
    destruct b; cbn [m_st m_out fst snd app map]; (split; [by eapply out_view_touched|done]).
Qed.

Lemma item_stream_type rid m i : item_of d rid m = Some i -> exists mt, messageType d m = Some mt /\ stream_type mt = true.
Proof. intros (Hmt & _ & _)%item_of_inv. eexists. split; [exact Hmt|]. by destruct i. Qed.
Lemma credit_stream_type rid m n : credit_of d rid m = Some n -> exists mt, messageType d m = Some mt /\ stream_type mt = true.
Proof. intros (Hmt & _ & _)%credit_of_inv. by eexists. Qed.

Lemma client_frame_distinct rid lc m t :
  (exists mt, messageType d m = Some mt /\ stream_type mt = true) -> cl_distinct rid (Some lc) None t ->
  cl_distinct rid (Some lc) None (cl_run (handleFrame d growcap de m) t).1.
Proof. intros (mt & Hmt & Hst) Hd. exact (cl_distinct_handleFrame d growcap rid (Some lc) None de m mt Hmt Hst t [] Hd). Qed.
Lemma server_frame_distinct rid ls m s :
  distinct rid ls s -> distinct rid ls (sv_run (processRequest d growcap pickDone m) s).1.
Proof. intros Hd. exact (distinct_processRequest d growcap pickDone rid ls m s [] Hd). Qed.

(** The response loop reads a frame of the stream. *)
Lemma respond_own rid e c m m' rest ss :
  stream_inv rid e c -> mx_down c = m :: rest -> m' ≡ m -> requestIdOf d m = Some rid ->
  let y := cl_run (handleFrame d growcap de m') (mx_client c) in
  stream_inv rid e (mkMux y.1 (mx_server c) (mx_up c ++ y.2) rest ss).
Proof.
  intros [Hr Hc Hs Hp] Hdn Heq Hid y.
  destruct e as [up lc name args|up lc name args req|lc ls pc made hook est|lc ls pc made hook est]; cbn [phase_ok client_object] in *; rewrite Hdn in Hp.
  - destruct Hp as (_ & _ & Hf & _). by inv Hf.
  - destruct Hp as (_ & _ & Hf & _). by inv Hf.
  - destruct Hp as (Hm & Hdn' & Hup & Hrr & n & w0 & Hn & Hop & Hre). inv Hdn'.
    match goal with Hx : _ -> is_Some _ |- _ => destruct (Hx Hid) as [i Hi] end.
    pose proof (stream_in_order d growcap rid growcap_larger (down_tx rid ls) (down_rx rid Hrr lc) eq_refl n w0 _ Hn Hop Hre Hm) as [_ _ _ Hio _].
    specialize (Hio m m' rest i Hdn Heq Hi). cbn in Hio.
    assert (item_of d rid m' = Some i) as Hi' by by rewrite (item_of_proper d rid _ _ Heq).
    split; cbn; [done| |done|]; [apply client_frame_distinct; [by eapply item_stream_type|done]|].
    split_and!; try done; [by unfold y; rewrite Hio, app_nil_r|].
    exists Hrr, n, w0. refine (conj Hn (conj Hop _)). eapply reach_next; [exact Hre|].
    by apply (ws_recv d growcap rid (down_tx rid ls) (down_rx rid Hrr lc) (down_of c pc made hook est) m m' rest i).
  - destruct Hp as (Hm & Hup & Hdn' & Hrr & n & w0 & Hn & Hop & Hre). inv Hdn'.
    match goal with Hx : _ -> is_Some _ |- _ => destruct (Hx Hid) as [u Hu] end. unfold reply_of in Hu.
    assert (item_of d rid m' = item_of d rid m) as Ei by by rewrite (item_of_proper d rid _ _ Heq).
    assert (credit_of d rid m' = credit_of d rid m) as Ecr by by rewrite (credit_of_proper d rid _ _ Heq).
    destruct (credit_of d rid m) as [k|] eqn:Hk.
    + pose proof (stream_in_order d growcap rid growcap_larger (up_tx rid Hrr lc) (up_rx rid ls) eq_refl n w0 _ Hn Hop Hre Hm) as [_ _ _ _ Hio].
      specialize (Hio m' k Ecr). cbn in Hio.
      split; cbn; [done| |done|]; [apply client_frame_distinct; [by eapply credit_stream_type|done]|].
      split_and!; try done; [by unfold y; rewrite Hio, app_nil_r|].
      exists Hrr, n, w0. refine (conj Hn (conj Hop _)). eapply reach_next; [exact Hre|].
      by apply (ws_credit d growcap rid (up_tx rid Hrr lc) (up_rx rid ls) (up_of c pc made hook est) m m' rest k).
    + destruct (item_of d rid m) as [[]|] eqn:Hi; try done.
      destruct (ready_other rid lc pc m' (mx_client c) Ei) as [Hv Ho]. cbn in Ho.
      split; cbn; [done| |done|]; [apply client_frame_distinct; [by eapply item_stream_type|done]|].
      split_and!; try done; [by unfold y; rewrite Ho, app_nil_r|].
      exists Hrr, n, w0. refine (conj Hn (conj Hop _)). eapply reach_next; [eapply reach_next; [exact Hre|]|].
      * by apply (ws_back_other d growcap rid (up_tx rid Hrr lc) (up_rx rid ls) (up_of c pc made hook est) m rest).
      * apply (ws_snd_other d growcap rid (up_tx rid Hrr lc) (up_rx rid ls) (up_of (mkMux (mx_client c) (mx_server c) (mx_up c) rest ss) pc made hook est) (y.1, pc) y.2);
          [exact Hv|]. unfold y. cbn. by rewrite Ho.
Qed.

(** The session's read loop reads a frame of a running stream. *)
Lemma read_own rid e c m m' rest ss :
  stream_inv rid e c -> is_Some (server_object e) -> mx_up c = m :: rest -> m' ≡ m -> requestIdOf d m = Some rid ->
  let y := sv_run (processRequest d growcap pickDone m') (mx_server c) in
  stream_inv rid e (mkMux (mx_client c) y.1 rest (mx_down c ++ y.2) ss).
Proof.
  intros [Hr Hc Hs Hp] Hso Hup Heq Hid y. destruct Hso as [ls0 Hls].
  destruct e as [up lc name args|up lc name args req|lc ls pc made hook est|lc ls pc made hook est]; try done; clear Hls ls0; cbn [phase_ok server_object] in *; rewrite Hup in Hp.
  - destruct Hp as (Hm & Hdn & Hup' & Hrr & n & w0 & Hn & Hop & Hre). inv Hup'.
    match goal with Hx : _ -> is_Some _ |- _ => destruct (Hx Hid) as [k Hk] end.
    assert (credit_of d rid m' = Some k) as Hk' by by rewrite (credit_of_proper d rid _ _ Heq).
    pose proof (stream_in_order d growcap rid growcap_larger (down_tx rid ls) (down_rx rid Hrr lc) eq_refl n w0 _ Hn Hop Hre Hm) as [_ _ _ _ Hio].
    specialize (Hio m' k Hk'). cbn in Hio.
    split; cbn; [done|done|by apply server_frame_distinct|].
    split_and!; try done; [by unfold y; rewrite Hio, app_nil_r|].
    exists Hrr, n, w0. refine (conj Hn (conj Hop _)). eapply reach_next; [exact Hre|].
    by apply (ws_credit d growcap rid (down_tx rid ls) (down_rx rid Hrr lc) (down_of c pc made hook est) m m' rest k).
  - destruct Hp as (Hm & Hup' & Hdn & Hrr & n & w0 & Hn & Hop & Hre). inv Hup'.
    match goal with Hx : _ -> is_Some _ |- _ => destruct (Hx Hid) as [i Hi] end.
    pose proof (stream_in_order d growcap rid growcap_larger (up_tx rid Hrr lc) (up_rx rid ls) eq_refl n w0 _ Hn Hop Hre Hm) as [_ _ _ Hio _].
    specialize (Hio m m' rest i Hup Heq Hi). cbn in Hio.
    split; cbn; [done|done|by apply server_frame_distinct|].
    split_and!; try done; [by unfold y; rewrite Hio, app_nil_r|].
    exists Hrr, n, w0. refine (conj Hn (conj Hop _)). eapply reach_next; [exact Hre|].
    by apply (ws_recv d growcap rid (up_tx rid Hrr lc) (up_rx rid ls) (up_of c pc made hook est) m m' rest i).
Qed.

(** The session takes the request of a stream. *)
Lemma request_read up rid name args m s :
  in_int64 rid -> requests up rid name args m -> absent rid s ->
  let y := processRequest d growcap pickDone m s in
  starts (m_out y) = true -> m_st y = upd_sc_inFlight (fun n => n + 1) s /\ omap session_sent (m_out y) = [].
Proof.
  intros Hr [] [Hm Hp]. unfold processRequest, findPendingStream, serveNewRequest, send_, send. unM. rewrite sf_type, sf_id. cbn.
  assert (longOf (Long (ft_message (stream_ft up))) = ft_message (stream_ft up)) as -> by (apply longOf_Long; by destruct up).
  rewrite longOf_Long by done. rewrite Hp. cbn.
  destruct up; cbn; rewrite Hm; cbn; (destruct (_ && _); cbn; [|done]); destruct (sc_done s); cbn; try done; by destruct (pickDone _ _).
Qed.

Lemma read_request rid up lc name args c m m' rest ss :
  stream_inv rid (StRequested up lc name args) c -> mx_up c = m :: rest -> m' ≡ m -> requestIdOf d m = Some rid ->
  let y := processRequest d growcap pickDone m' (mx_server c) in starts (m_out y) = true ->
  stream_inv rid (StAccepted up lc name args m') (mkMux (mx_client c) (m_st y) rest (mx_down c ++ omap session_sent (m_out y)) ss).
Proof.
  intros [Hr Hc Hs (Hfe & Ha & Hdn & l1 & m1 & l2 & E & H1 & H2 & H3)] Hup Heq Hid y Hy.
  rewrite Hup in E. destruct l1 as [|a l1]; injection E as -> ->; [|inv H1; by exfalso].
  assert (requests up rid name args m') as H3' by by eapply stream_fields_equiv.
  destruct (request_read up rid name args m' (mx_server c) Hr H3' Ha Hy) as [Es Eo]. fold y in Es, Eo.
  split; [done|done| |].
  - apply (server_frame_distinct rid None m' (mx_server c) Hs).
  - cbn [phase_ok mx_client mx_server mx_up mx_down]. rewrite Eo, Es, app_nil_r. by split_and!.
Qed.

(** ** The goroutines of a stream *)

Lemma streamer_act_keeps (P : servingClient -> list sc_ev -> Prop) ls x s :
  keeps P (streamer_ready d pickDone ls) /\ (forall c, keeps P (streamer_select d pickDone ls c)) /\ (forall v, keeps P (streamer_acquire d pickDone ls v)) ->
  P s.1 [] -> exists o, P (streamer_act d pickDone ls x s).1.1 o /\ (streamer_act d pickDone ls x s).2 = omap session_sent o.
Proof.
  intros (K1 & K2 & K3) HP. destruct s as [s pc]. unfold ServerEnds.streamer_act. cbn [fst snd] in *. destruct pc as [| |v|]; cbn [fst snd].
  - eexists. split; [|reflexivity]. by apply (K1 s []).
  - eexists. split; [|reflexivity]. by apply (K2 _ s []).
  - eexists. split; [|reflexivity]. by apply (K3 v s []).
  - by exists [].
Qed.

Lemma out_act_keeps (P : rpcClient -> list cl_ev -> Prop) lc x s :
  (forall pc r, keeps P (Client.streamOut_step d growcap lc pc r)) ->
  P s.1 [] -> exists o, P (out_act d growcap lc x s).1.1 o /\ (out_act d growcap lc x s).2 = omap client_sent o.
Proof.
  intros K HP. destruct s as [s [pc|]]; unfold out_act; cbn [fst snd] in *; [|by exists []].
  eexists. split; [|reflexivity]. by apply (K _ _ s []).
Qed.

Lemma receiver_methods_keep_id : (forall f, req_keeps_id (on_pump f)) /\ req_keeps_id RequestCtx_grantRecv /\ req_keeps_id sendInitialCredit.
Proof.
  unfold req_keeps_id, on_pump, RequestCtx_grantRecv, sendInitialCredit. split_and!; intros; keeps_split;
    first [by apply keeps_emit | apply keeps_modify; intros; cbn; congruence].
Qed.

(** Code of one side whose frames are not sent. *)
Lemma client_spares_silent rid lc t y : client_spares rid lc t y -> client_spares rid lc t (y.1, []).
Proof. intros []. by split. Qed.
Lemma server_spares_silent rid ls s y : server_spares rid ls s y -> server_spares rid ls s (y.1, []).
Proof. intros []. by split. Qed.

Lemma down_local_any rid Hr Hr' lc ls w w' :
  local_step d growcap rid (down_tx rid ls) (down_rx rid Hr lc) w w' -> local_step d growcap rid (down_tx rid ls) (down_rx rid Hr' lc) w w'.
Proof.
  destruct 1 as [w x|w r p' H1 H2 H3 H4|w r v H1 H2|w H1|w r H1 H2 H3 H4].
  - exact (lo_act d growcap rid (down_tx rid ls) (down_rx rid Hr' lc) w x).
  - exact (lo_take d growcap rid (down_tx rid ls) (down_rx rid Hr' lc) w r p' H1 H2 H3 H4).
  - exact (lo_deliver d growcap rid (down_tx rid ls) (down_rx rid Hr' lc) w r v H1 H2).
  - exact (lo_hook d growcap rid (down_tx rid ls) (down_rx rid Hr' lc) w H1).
  - exact (lo_start d growcap rid (down_tx rid ls) (down_rx rid Hr' lc) w r H1 H2 H3 H4).
Qed.

Lemma up_local_any rid Hr Hr' lc ls w w' :
  local_step d growcap rid (up_tx rid Hr lc) (up_rx rid ls) w w' -> local_step d growcap rid (up_tx rid Hr' lc) (up_rx rid ls) w w'.
Proof.
  destruct 1 as [w x|w r p' H1 H2 H3 H4|w r v H1 H2|w H1|w r H1 H2 H3 H4].
  - exact (lo_act d growcap rid (up_tx rid Hr' lc) (up_rx rid ls) w x).
  - exact (lo_take d growcap rid (up_tx rid Hr' lc) (up_rx rid ls) w r p' H1 H2 H3 H4).
  - exact (lo_deliver d growcap rid (up_tx rid Hr' lc) (up_rx rid ls) w r v H1 H2).
  - exact (lo_hook d growcap rid (up_tx rid Hr' lc) (up_rx rid ls) w H1).
  - exact (lo_start d growcap rid (up_tx rid Hr' lc) (up_rx rid ls) w r H1 H2 H3 H4).
Qed.

(** *** As other streams see them *)

Lemma client_method_spares {A} rid l l' t (m : M rpcRequestCtx req_ev A) :
  cl_distinct rid (Some l) None t -> l' <> l -> req_keeps_id m -> client_spares rid l t (cl_run (on_request_ d l' m) t).
Proof. intros Hd Hl Hm. apply client_keeps_spares; [done|]. apply (cl_spared_on_request_ d growcap); [congruence|done]. Qed.

Lemma other_down_local rid e c rid' lc ls pc made hook est Hr w' :
  stream_inv rid e c -> lc <> client_object e -> server_object e <> Some ls ->
  local_step d growcap rid' (down_tx rid' ls) (down_rx rid' Hr lc) (down_of c pc made hook est) w' ->
  stream_inv rid e (after_down c rid' lc ls w').
Proof.
  intros Hi Hlc Hls Hl. pose proof receiver_methods_keep_id as (K1 & K2 & K3). pose proof (si_client _ _ _ Hi) as Hc. pose proof (si_server _ _ _ Hi) as Hs.
  inv Hl; unfold after_down; cbn [w_snd w_rcv w_fwd w_back w_made w_hook w_est down_of].
  - set (y := sd_act (down_tx rid' ls) x (mx_server c, pc)).
    apply (server_other rid e c (y.1.1, y.2)); [done|].
    destruct (streamer_act_keeps (spared d rid (server_object e) (footprint_of rid (server_object e) (mx_server c))) ls x (mx_server c, pc)) as (o & [Hf Hd Ho] & Eo).
    + apply spared_streamers; congruence.
    + by split.
    + split; [done|done|]. cbn [snd]. unfold y. cbn [sd_act ServerEnds.streamer_sender]. rewrite Eo. by apply foreign_sent.
  - pose proof (client_other rid e c _ (<[rid' := StDown lc ls pc made hook est]> (mx_streams c)) Hi (client_spares_silent _ _ _ _
      (client_method_spares rid _ lc (mx_client c) (on_pump pump_take) Hc Hlc (K1 _)))) as Hx.
    cbn [snd] in Hx. by rewrite app_nil_r in Hx.
  - pose proof (client_other rid e c _ (<[rid' := StDown lc ls pc made true est]> (mx_streams c)) Hi (client_spares_silent _ _ _ _
      (client_method_spares rid _ lc (mx_client c) (on_pump pump_deliver) Hc Hlc (K1 _)))) as Hx.
    cbn [snd] in Hx. by rewrite app_nil_r in Hx.
  - by apply (client_other rid e c), client_method_spares.
  - by apply (client_other rid e c), client_method_spares.
Qed.

Lemma other_up_local rid e c rid' lc ls pc made hook est Hr w' :
  stream_inv rid e c -> lc <> client_object e -> server_object e <> Some ls ->
  local_step d growcap rid' (up_tx rid' Hr lc) (up_rx rid' ls) (up_of c pc made hook est) w' ->
  stream_inv rid e (after_up c rid' lc ls w').
Proof.
  intros Hi Hlc Hls Hl. pose proof (si_client _ _ _ Hi) as Hc. pose proof (si_server _ _ _ Hi) as Hs.
  assert (Some ls <> server_object e) as Hls' by congruence. set (fp := footprint_of rid (server_object e) (mx_server c)).
  inv Hl; unfold after_up; cbn [w_snd w_rcv w_fwd w_back w_made w_hook w_est up_of].
  - set (y := sd_act (up_tx rid' Hr lc) x (mx_client c, pc)).
    apply (client_other rid e c (y.1.1, y.2)); [done|].
    destruct (out_act_keeps (cl_spared d rid (Some (client_object e)) None (cl_footprint_of rid (Some (client_object e)) None (mx_client c))) lc x (mx_client c, pc)) as (o & [Hf Hd Ho] & Eo).
    + intros pc' r. apply cl_spared_streamOut; congruence.
    + by split.
    + split; [done|done|]. cbn [snd]. unfold y. cbn [sd_act ClientEnds.request_sender]. rewrite Eo. by apply cl_foreign_sent.
  - pose proof (server_other rid e c _ (<[rid' := StUp lc ls pc made hook est]> (mx_streams c)) Hi (server_spares_silent _ _ _ _
      (server_keeps_spares rid _ (mx_server c) _ Hs (spared_pump_request d pickDone rid _ fp ls pump_take false Hls')))) as Hx.
    cbn [snd] in Hx. by rewrite app_nil_r in Hx.
  - pose proof (server_other rid e c _ (<[rid' := StUp lc ls pc made true est]> (mx_streams c)) Hi (server_spares_silent _ _ _ _
      (server_keeps_spares rid _ (mx_server c) _ Hs (spared_pump_request d pickDone rid _ fp ls pump_deliver false Hls')))) as Hx.
    cbn [snd] in Hx. by rewrite app_nil_r in Hx.
  - apply (server_other rid e c); [done|]. apply server_keeps_spares; [done|]. by apply spared_grantInbound.
Qed.

(** *** As the stream sees them *)

Lemma parsed_pure {A} (f : VMap -> option A) rid l : all_parsed f l -> pure f rid l.
Proof. intros Hl. eapply Forall_impl; [exact (all_parsed_each f l Hl)|]. done. Qed.
Lemma credit_pure rid l : pure (credit_of d rid) rid l -> pure (reply_of rid) rid l.
Proof.
  intros Hl. eapply Forall_impl; [exact Hl|]. intros m Hm Hid. unfold reply_of. destruct (Hm Hid) as [k ->]. by eexists.
Qed.

Lemma own_down_local rid c lc ls pc made hook est Hr w' :
  stream_inv rid (StDown lc ls pc made hook est) c ->
  local_step d growcap rid (down_tx rid ls) (down_rx rid Hr lc) (down_of c pc made hook est) w' -> Forall nonnull (w_made w') ->
  stream_inv rid (StDown lc ls (w_snd w').2 (w_made w') (w_hook w') (w_est w')) (after_down c rid lc ls w').
Proof.
  intros [Hrr Hc Hs (Hm & Hdn & Hup & Hr' & n & w0 & Hn & Hop & Hre)] Hl Hm'. cbn [client_object server_object] in *.
  pose proof receiver_methods_keep_id as (K1 & K2 & K3).
  assert (cl_distinct rid (Some lc) None (w_rcv w') /\ distinct rid (Some ls) (w_snd w').1) as [Hc' Hs'].
  { inv Hl; cbn [w_snd w_rcv down_of fst]; split; try done;
      try (match goal with |- cl_distinct _ _ _ (?f ?t) => apply (cl_distinct_on_request_ d rid (Some lc) None lc _ ltac:(eauto) t [] Hc) end).
    - destruct (streamer_act_keeps (fun t _ => distinct rid (Some ls) t) ls x (mx_server c, pc)) as (o & Hd & _); [by apply distinct_streamers|done|done].
    - apply (cl_distinct_on_request_ d rid (Some lc) None lc _ (K1 pump_take) (mx_client c) [] Hc).
    - apply (cl_distinct_on_request_ d rid (Some lc) None lc _ (K1 pump_deliver) (mx_client c) [] Hc).
    - apply (cl_distinct_on_request_ d rid (Some lc) None lc _ K2 (mx_client c) [] Hc).
    - apply (cl_distinct_on_request_ d rid (Some lc) None lc _ K3 (mx_client c) [] Hc). }
  pose proof (stream_in_order d growcap rid growcap_larger (down_tx rid ls) (down_rx rid Hr' lc) eq_refl n w0 _ Hn Hop Hre Hm) as Hio.
  apply (down_local_any _ _ Hr') in Hl. destruct (local_wires d growcap rid _ _ _ _ Hio Hl) as (o1 & o2 & E1 & E2 & P1 & P2).
  cbn [w_fwd w_back down_of] in E1, E2. split; [done|done|done|]. cbn [phase_ok].
  split; [done|]. split; [|split]; [cbn; rewrite E1; apply pure_app; [done|by apply parsed_pure]|cbn; rewrite E2; apply pure_app; [done|by apply parsed_pure]|].
  exists Hr', n, w0. refine (conj Hn (conj Hop _)). eapply reach_next; [exact Hre|]. apply local_world in Hl. destruct w' as [[]]. exact Hl.
Qed.

Lemma own_up_local rid c lc ls pc made hook est Hr w' :
  stream_inv rid (StUp lc ls pc made hook est) c ->
  local_step d growcap rid (up_tx rid Hr lc) (up_rx rid ls) (up_of c pc made hook est) w' -> Forall nonnull (w_made w') ->
  stream_inv rid (StUp lc ls (w_snd w').2 (w_made w') (w_hook w') (w_est w')) (after_up c rid lc ls w').
Proof.
  intros [Hrr Hc Hs (Hm & Hup & Hdn & Hr' & n & w0 & Hn & Hop & Hre)] Hl Hm'. cbn [client_object server_object] in *.
  assert (cl_distinct rid (Some lc) None (w_snd w').1 /\ distinct rid (Some ls) (w_rcv w')) as [Hc' Hs'].
  { inv Hl; cbn [w_snd w_rcv up_of fst]; split; try done.
    - destruct (out_act_keeps (fun t _ => cl_distinct rid (Some lc) None t) lc x (mx_client c, pc)) as (o & Hd & _); [intros; apply cl_distinct_streamOut|done|done].
    - apply (distinct_pump_request d pickDone rid (Some ls) ls pump_take false (mx_server c) [] Hs).
    - apply (distinct_pump_request d pickDone rid (Some ls) ls pump_deliver false (mx_server c) [] Hs).
    - apply (distinct_grantInbound d pickDone rid (Some ls) ls (mx_server c) [] Hs). }
  pose proof (stream_in_order d growcap rid growcap_larger (up_tx rid Hr' lc) (up_rx rid ls) eq_refl n w0 _ Hn Hop Hre Hm) as Hio.
  apply (up_local_any _ _ Hr') in Hl. destruct (local_wires d growcap rid _ _ _ _ Hio Hl) as (o1 & o2 & E1 & E2 & P1 & P2).
  cbn [w_fwd w_back up_of] in E1, E2. split; [done|done|done|]. cbn [phase_ok]. split; [done|]. split; [|split].
  - cbn. rewrite E1. apply pure_app; [done|by apply parsed_pure].
  - cbn. rewrite E2. apply pure_app; [done|by apply credit_pure, parsed_pure].
  - exists Hr', n, w0. refine (conj Hn (conj Hop _)). eapply reach_next; [exact Hre|]. apply local_world in Hl. destruct w' as [[]]. exact Hl.
Qed.

(** ** Opening *)

Lemma open_state de' ctx until mt k name args cap t c :
  cl_conn t = Some c -> in_int64 (cl_lastRequest t + 1) ->
  m_st (startCall d growcap de' ctx until mt k name args cap t) =
  with_req (cl_lastRequest t + 1)
    (NewRequestCtx (cl_lastRequest t + 1) k (stream_request d mt t ctx until name args) cap (cl_maxPending t) true true)
    (upd_cl_lastRequest (fun n => wrap64 (n + 1)) t).
Proof.
  intros Hc Hid. unfold startCall, sendRequest, registerRequest, ensureConnection, hasConn, newRequestCtx, transmitRequest, get_req, getConn_SendRequest.
  unM. rewrite Hc. cbn. rewrite lookup_insert_eq. cbn. rewrite Hc. cbn. unfold stream_request, with_req. cbn. rewrite wrap64_id by done. done.
Qed.

Lemma cl_distinct_new rid r t : cl_distinct rid None None t -> cl_distinct rid (Some (cl_nextLoc t)) None (with_req rid r t).
Proof.
  intros []. split; cbn; try done.
  - intros l r' Hl. rewrite lookup_insert_ne by congruence. by apply cd_requests.
  - intros id l Hid. rewrite lookup_insert_ne by done. split; [|done]. intros Hl [= ->]. pose proof (proj1 (cd_alloc _ _) Hl). lia.
  - intros l. split; [intros [= <-]; lia|done].
  - intros id l. rewrite lookup_insert. destruct (cd_alloc id l) as [A1 A2]. split; [|done]. case_decide; [intros [= <-]; lia|]. intros Hl. specialize (A1 Hl). lia.
Qed.

Definition up_kind (up : bool) : streamKind := if up then putStreamKind else getStreamKind.

Lemma open_stream_call up de' ctx until name args cap :
  exists cap', open_stream up de' ctx until name args cap =
    startCall d growcap de' ctx until (ft_message (stream_ft up)) (up_kind up) name args cap'.
Proof. destruct up; eexists; reflexivity. Qed.

Section open_step.
Context (c : mux) (up : bool) (de' : dial_env) (ctx : reqctx) (until : option Z) (name : string) (args : option Value) (cap : Z).
Abbreviation nrid := (cl_lastRequest (mx_client c) + 1).
Let x := open_stream up de' ctx until name args cap (mx_client c).
Hypothesis Hopen : can_open (mx_client c).
Hypothesis Hunused : unused nrid c.
Hypothesis Hwindow : 0 < window_of (cl_maxPending (mx_client c)) < two63.
Let y := (m_st x, omap client_sent (m_out x)).

Lemma opened_stream_inv ss :
  stream_inv nrid (StRequested up (cl_nextLoc (mx_client c)) name args) (mkMux y.1 (mx_server c) (mx_up c ++ y.2) (mx_down c) ss).
Proof.
  pose proof Hopen as ([k Hk] & Hid & _). destruct Hunused as [U1 U2 U3 [U4 U5] _].
  destruct (open_stream_call up de' ctx until name args cap) as [cap' E]. unfold y, x. rewrite E.
  destruct (client_opens d growcap de' ctx until (ft_message (stream_ft up)) (up_kind up) name args cap' (mx_client c) Hopen ltac:(by destruct up))
    as (_ & Ho & Hrv & Hov). cbn [fst snd].
  split; [done| |done|].
  - cbn [mx_client client_object]. rewrite (open_state _ _ _ _ _ _ _ _ _ k Hk Hid).
    apply (cl_distinct_new nrid _ (upd_cl_lastRequest (fun n => wrap64 (n + 1)) (mx_client c))). destruct U1. by split.
  - cbn [phase_ok mx_client mx_server mx_up mx_down]. rewrite Ho. split; [|split; [|split]]; [|done|done|].
    + destruct up; cbn [fresh_end]; [by apply Hov|]. exists (window_of (cl_maxPending (mx_client c))). split; [done|]. by apply Hrv.
    + exists (mx_up c), (stream_request d (ft_message (stream_ft up)) (mx_client c) ctx until name args), [].
      split_and!; [done|done|constructor|]. by apply stream_request_fields.
Qed.

Lemma opening_spares rid l :
  rid <> nrid -> cl_distinct rid (Some l) None (mx_client c) -> client_spares rid l (mx_client c) y.
Proof.
  intros Hne Hd. pose proof Hopen as ([k Hk] & Hid & _).
  destruct (open_stream_call up de' ctx until name args cap) as [cap' E]. unfold y, x. rewrite E.
  destruct (client_opens d growcap de' ctx until (ft_message (stream_ft up)) (up_kind up) name args cap' (mx_client c) Hopen ltac:(by destruct up))
    as (_ & Ho & _ & _). rewrite (open_state _ _ _ _ _ _ _ _ _ k Hk Hid), Ho.
  set (r := NewRequestCtx _ _ _ _ _ _ _). set (t1 := upd_cl_lastRequest _ _).
  destruct (cl_spared_with_req d growcap rid (Some l) None (cl_footprint_of rid (Some l) None (mx_client c)) nrid r t1 []) as [Hf Hd' _];
    [done|by split|split; [done|by destruct Hd|done]|].
  split; [done|done|]. repeat constructor.
  destruct (stream_request_fields d (ft_message (stream_ft up)) (mx_client c) ctx until name args Hid).
  unfold foreign, requestIdOf. cbn [fst snd]. rewrite sf_id. cbn. rewrite longOf_Long by done. congruence.
Qed.

End open_step.

(** ** Serving *)

Lemma distinct_new rid r s : distinct rid None s -> distinct rid (Some (sc_nextLoc s)) (with_request rid r s).
Proof.
  intros []. split; cbn; try done.
  - intros l r' Hl. rewrite lookup_insert_ne by congruence. by apply di_requests.
  - intros l cs Hl. by apply di_streams.
  - intros id l Hid. rewrite lookup_insert_ne by done. intros Hl [= ->]. pose proof (di_alloc _ _ Hl). lia.
  - intros l [= <-]. lia.
  - intros id l. rewrite lookup_insert. case_decide; [intros [[= <-]|Hl]; [lia|]|intros Hl];
      [pose proof (di_alloc id l (or_intror Hl))|pose proof (di_alloc id l Hl)]; lia.
Qed.

Lemma distinct_newServing rid ft name cancel s :
  in_int64 rid -> distinct rid None s -> distinct rid (Some (sc_nextLoc s)) (m_st (newServingRequest d pickDone ft (Long rid) name cancel s)).
Proof.
  intros Hr Hd. unfold newServingRequest, set_request. rewrite M_gets_bind. cbn [id].
  rewrite (M_run_bind (emit _) _ _ _ _ _ eq_refl), m_st_eq, !M_modify_bind, longOf_Long by done.
  match goal with |- context [upd_sc_requests (insert _ ?r)] => set (sr := r) end. fold (with_request rid sr s).
  match goal with |- distinct _ _ (m_st (?m ?x)) => assert (keeps (fun t _ => distinct rid (Some (sc_nextLoc s)) t) m) as Hk end.
  { unfold grantInitialInbound. keeps_split. apply distinct_send_. }
  apply (Hk _ []). pose proof (distinct_new rid sr s Hd) as []. by split.
Qed.

Lemma distinct_rest rid ls :
  (forall c a l o, keeps (fun t _ => distinct rid ls t) (finishHandler d c a l o)) /\
  (forall ft req r, keeps (fun t _ => distinct rid ls t) (serveEnd d pickDone ft req r)).
Proof.
  unfold finishHandler, serveEnd, cancelContext, get_request. split; intros; keeps_split;
    first [ apply (distinct_closeRequest growcap pickDone) | apply distinct_emit | apply distinct_send_ | apply distinct_upd_request; intros; apply setCode_id
          | apply distinct_other; intros ?; cbn; split_and!; (done || lia) ].
Qed.

Lemma distinct_served req ft rid name args fn s :
  stream_fields d req (ft_message ft) rid name args -> in_int64 rid -> serves s ft rid name args fn -> distinct rid None s ->
  distinct rid (Some (sc_nextLoc s)) (m_st (serveFunctionRequest d pickDone ft req s)).
Proof.
  intros Hf Hr Ho Hd. destruct (stream_admitted d req ft rid name args fn s Hf Ho) as [cx Ha]. destruct Ho. destruct of_ft as [Ef Hft].
  destruct (distinct_rest rid (Some (sc_nextLoc s))) as [Kf Ke].
  unfold serveFunctionRequest, serveBegin. rewrite (bool_decide_false (ft = singleFunction)) by done. cbn [when]. rewrite M_left_id, M_bind_st.
  apply (Ke _ _ _ _ []). unfold doServeFunctionRequest. rewrite M_gets_bind. cbn [id]. rewrite (M_run_bind _ _ _ _ _ _ Ha), m_st_eq.
  cbn [ad_fn ad_ctx ad_args]. rewrite M_bind_st. apply (Kf _ _ _ _ _ []).
  unfold startHandler. cbn [ad_fn ad_reqId ad_name]. rewrite Ef.
  assert (distinct rid None (upd_sc_nextCtx S s)) as Hd1 by (destruct Hd; by split).
  destruct ft; try done; by apply (distinct_newServing rid _ name (sc_nextCtx s) (upd_sc_nextCtx S s)).
Qed.

(** The handler returned: the stream runs. *)
Lemma served_stream_inv rid up lc name args req fn c ss :
  stream_inv rid (StAccepted up lc name args req) c ->
  serves (mx_server c) (stream_ft up) rid name args fn -> 0 < cfg_maxPending (sc_cfg (mx_server c)) < two63 ->
  let z := serveFunctionRequest d pickDone (stream_ft up) req (mx_server c) in
  stream_inv rid (started up lc (sc_nextLoc (mx_server c))) (mkMux (mx_client c) (m_st z) (mx_up c) (mx_down c ++ omap session_sent (m_out z)) ss).
Proof.
  intros [Hr Hc Hs (Hfe & Ha & Hdn & Hup & H3)] Hsv Hw z.
  pose proof (distinct_served req (stream_ft up) rid name args fn (mx_server c) H3 Hr Hsv Hs) as Hd. fold z in Hd.
  destruct (handler_serves d pickDone req (stream_ft up) rid name args fn (mx_server c) H3 Hr Hsv) as (Ho & Hin & Hout). fold z in Ho, Hin, Hout.
  destruct (foreign_nothing rid _ Hdn) as [Di Dc]. destruct (foreign_nothing rid _ Hup) as [Ui Uc]. destruct (long_rid rid Hr) as [Lk Ll].
  rewrite Ho. destruct up; (split; [done|done|done|]); cbn [phase_ok started mx_up mx_down].
  - change (ft_in (stream_ft true)) with true. change (ready_reply d (stream_ft true) rid) with [NewStreamReady d (Long rid)]. cbn [app].
    set (n := cfg_maxPending (sc_cfg (mx_server c))) in *. assert (in_int64 n) as Hni by (unfold in_int64, two63 in *; lia).
    split_and!; [constructor|by apply foreign_pure| |].
    + apply pure_app; [by apply foreign_pure|]. repeat constructor; intros _; unfold reply_of.
      * rewrite (credit_frame d rid (Long rid) Lk Ll n Hni). by eexists.
      * rewrite (ready_no_credit d rid (Long rid) Lk Ll), (ready_item d rid (Long rid) Lk Ll). by eexists.
    + exists Hr, n, (up_of (mkMux (mx_client c) (m_st z) (mx_up c) (mx_down c ++ [NewStreamCredit d (Long rid) n; NewStreamReady d (Long rid)]) ss) None [] false true).
      split; [done|]. split; [|constructor]. split; cbn [up_of w_snd w_rcv w_fwd w_back w_made w_hook w_est mx_client mx_server mx_up mx_down]; try done.
      * by apply Hin.
      * rewrite omap_app, Dc. cbn. by rewrite (credit_frame d rid (Long rid) Lk Ll n Hni), (ready_no_credit d rid (Long rid) Lk Ll).
  - change (ft_in (stream_ft false)) with false. change (ready_reply d (stream_ft false) rid) with (@nil VMap). rewrite app_nil_r.
    destruct Hfe as (n & Hn & Hv). split_and!; [constructor|by apply foreign_pure|by apply foreign_pure|].
    exists Hr, n, (down_of (mkMux (mx_client c) (m_st z) (mx_up c) (mx_down c) ss) SReady [] false false).
    split; [done|]. split; [|constructor]. split; cbn [down_of w_snd w_rcv w_fwd w_back w_made w_hook w_est mx_client mx_server mx_up mx_down]; try done.
    by apply Hout.
Qed.

Lemma accepted_spares rid ls rid' up req name args s :
  in_int64 rid' -> requests up rid' name args req -> rid <> rid' -> distinct rid ls s ->
  server_spares rid ls s (sv_run (serveFunctionRequest d pickDone (stream_ft up) req) s).
Proof.
  intros Hr Hq Hne Hd. apply server_keeps_spares; [done|]. apply (spared_serveFunctionRequest d growcap pickDone rid ls _ (stream_ft up) req rid'); [|done].
  by eapply requests_id.
Qed.

(** PutStream takes the acknowledgement. *)
Lemma ready_own rid lc ls pc made hook est c ss :
  stream_inv rid (StUp lc ls pc made hook est) c ->
  let y := cl_run (on_request_ d lc (run_req_op d growcap OpReceive)) (mx_client c) in
  stream_inv rid (StUp lc ls pc made hook est) (mkMux y.1 (mx_server c) (mx_up c ++ y.2) (mx_down c) ss).
Proof.
  intros [Hr Hc Hs (Hm & Hup & Hdn & Hrr & n & w0 & Hn & Hop & Hre)] y. pose proof (req_methods_keep_id d growcap) as (Ko & _).
  assert (out_view rid lc (y.1, pc) = out_view rid lc (mx_client c, pc) /\ y.2 = []) as [Hv Ho].
  { unfold y, cl_run, on_request_. destruct (cl_requests (mx_client c) !! lc) as [r|] eqn:El.
    - rewrite (M_run_bind _ _ _ _ _ _ (on_request_run d lc _ r tt _ [] (mx_client c) El eq_refl)). cbn [m_st m_out fst snd app map].
      split; [by eapply out_view_touched|done].
    - unfold on_request, get_req. unM. by rewrite El. }
  split; [done| |done|].
  - apply (cl_distinct_on_request_ d rid (Some lc) None lc _ (Ko OpReceive) (mx_client c) [] Hc).
  - cbn [phase_ok mx_up mx_down]. split_and!; try done; [by rewrite Ho, app_nil_r|].
    exists Hrr, n, w0. refine (conj Hn (conj Hop _)). eapply reach_next; [exact Hre|].
    apply (ws_snd_other d growcap rid (up_tx rid Hrr lc) (up_rx rid ls) (up_of c pc made hook est) (y.1, pc) y.2); [exact Hv|by rewrite Ho].
Qed.

(** ** Every step keeps the invariant *)

Lemma read_step c m m' rest :
  mux_inv c -> mx_up c = m :: rest -> m' ≡ m -> let y := processRequest d growcap pickDone m' (mx_server c) in
  mux_inv (mkMux (mx_client c) (m_st y) rest (mx_down c ++ omap session_sent (m_out y)) (note m' (m_out y) (mx_streams c))).
Proof.
  intros [Hi Ha] Hup Heq y.
  assert (requestIdOf d m' = requestIdOf d m) as Eid by by rewrite (requestIdOf_proper d m' m Heq).
  assert (forall rid e ss, mx_streams c !! rid = Some e -> requestIdOf d m <> Some rid ->
    stream_inv rid e (mkMux (mx_client c) (m_st y) rest (mx_down c ++ omap session_sent (m_out y)) ss)) as Hoth.
  { intros rid e ss He Hne. pose proof (pop_up rid e c m rest ss (Hi _ _ He) Hup Hne) as Hi1.
    apply (server_other rid e _ (sv_run (processRequest d growcap pickDone m') (mx_server c)) ss Hi1).
    apply server_keeps_spares; [apply Hi1|]. apply (spared_processRequest d growcap pickDone); congruence. }
  unfold note. rewrite Eid. destruct (requestIdOf d m) as [rid|] eqn:Er; [|split; [intros r e He; by apply Hoth|done]].
  destruct (mx_streams c !! rid) as [e|] eqn:Ee.
  2: { split; [|done]. intros r e He. cbn in He. apply Hoth; [done|congruence]. }
  destruct e as [up lc name args|up lc name args req| |].
  - destruct (starts (m_out y)) eqn:Ey; (split; [intros r e; cbn [mx_streams]|]).
    + rewrite lookup_insert_Some. intros [[<- <-]|[Hne He]]; [by apply (read_request rid up lc name args c m m' rest); auto|].
      apply Hoth; [done|congruence].
    + by eapply all_apart_update.
    + rewrite lookup_delete_Some. intros [Hne He]. apply Hoth; [done|congruence].
    + by apply all_apart_delete.
  - destruct (si_phase _ _ _ (Hi _ _ Ee)) as (_ & _ & _ & Hf & _). rewrite Hup in Hf. by inv Hf.
  - split; [|done]. intros r e He. cbn in He. destruct (decide (r = rid)) as [->|Hne]; [|apply Hoth; [done|congruence]].
    rewrite Ee in He. injection He as <-. apply (read_own rid _ c m m' rest); eauto.
  - split; [|done]. intros r e He. cbn in He. destruct (decide (r = rid)) as [->|Hne]; [|apply Hoth; [done|congruence]].
    rewrite Ee in He. injection He as <-. apply (read_own rid _ c m m' rest); eauto.
Qed.

Lemma respond_step c m m' rest :
  mux_inv c -> mx_down c = m :: rest -> m' ≡ m -> let y := handleFrame d growcap de m' (mx_client c) in
  mux_inv (mkMux (m_st y) (mx_server c) (mx_up c ++ omap client_sent (m_out y)) rest (mx_streams c)).
Proof.
  intros [Hi Ha] Hdn Heq y. split; [|done]. intros rid e He. cbn [mx_streams] in He.
  assert (requestIdOf d m' = requestIdOf d m) as Eid by by rewrite (requestIdOf_proper d m' m Heq).
  destruct (decide (requestIdOf d m = Some rid)) as [Hid|Hne]; [by apply (respond_own rid e c m m' rest); auto|].
  pose proof (pop_down rid e c m rest (mx_streams c) (Hi _ _ He) Hdn Hne) as Hi1.
  apply (client_other rid e _ (cl_run (handleFrame d growcap de m') (mx_client c)) (mx_streams c) Hi1).
  apply client_keeps_spares; [apply Hi1|]. apply (cl_spared_handleFrame d growcap); congruence.
Qed.

Lemma client_others rid e c t' o ss :
  stream_inv rid e c -> client_spares rid (client_object e) (mx_client c) (t', o) ->
  stream_inv rid e (mkMux t' (mx_server c) (mx_up c ++ o) (mx_down c) ss).
Proof. exact (client_other rid e c (t', o) ss). Qed.
Lemma server_others rid e c s' o ss :
  stream_inv rid e c -> server_spares rid (server_object e) (mx_server c) (s', o) ->
  stream_inv rid e (mkMux (mx_client c) s' (mx_up c) (mx_down c ++ o) ss).
Proof. exact (server_other rid e c (s', o) ss). Qed.

Lemma mux_step_inv c c' : mux_inv c -> mux_step c c' -> mux_inv c'.
Proof.
  intros [Hi Ha] Hst.
  destruct Hst as [c up de' ctx until name args cap rid x Ho Hu Hw|c m m' rest Hup Heq y|c rid up lc name args req fn He Hsv Hw z|c rid up lc name args req He z
    |c m m' rest Hdn Heq y|c rid lc ls pc made hook est Hr w' He Hl Hm|c rid lc ls pc made hook est Hr w' He Hl Hm
    |c rid lc ls pc made hook est He y|c op Hop Helse y|c w Hw Helse y|c rid].
  - assert (forall r e, mx_streams c !! r = Some e -> r <> rid) as Hne by (intros r e He ->; rewrite (un_streams _ _ Hu) in He; done). split.
    + intros r e. cbn [mx_streams]. rewrite lookup_insert_Some. intros [[<- <-]|[_ He]]; [by apply opened_stream_inv|].
      apply client_others; [by apply Hi|]. apply opening_spares; [done|by eapply Hne|by apply Hi].
    + apply all_apart_insert; [done|]. intros r e _ He. split; [|done]. cbn.
      pose proof (proj1 (cd_loc _ _ _ _ (si_client _ _ _ (Hi _ _ He)) _) eq_refl). lia.
  - by apply (read_step c m m' rest).
  - pose proof (Hi _ _ He) as Hown. destruct (si_phase _ _ _ Hown) as (_ & _ & _ & _ & Hq). split.
    + intros r e. cbn [mx_streams]. rewrite lookup_insert_Some. intros [[<- <-]|[Hne He']]; [by apply (served_stream_inv rid up lc name args req fn c)|].
      apply server_others; [by apply Hi|]. by eapply (accepted_spares r _ rid); [apply Hown|done|done|apply Hi].
    + apply all_apart_insert; [done|]. intros r e Hne He'. destruct (Ha rid r _ _ (not_eq_sym Hne) He He') as [A1 _].
      pose proof (di_loc _ _ _ (si_server _ _ _ (Hi _ _ He'))) as Hlt.
      destruct up; (split; [exact A1|]); intros l [= <-] Hl; specialize (Hlt _ Hl); lia.
  - pose proof (Hi _ _ He) as Hown. destruct (si_phase _ _ _ Hown) as (_ & _ & _ & _ & Hq). split; [|by apply all_apart_delete].
    intros r e. cbn [mx_streams]. rewrite lookup_delete_Some. intros [Hne He'].
    apply server_others; [by apply Hi|]. by eapply (accepted_spares r _ rid); [apply Hown|done|done|apply Hi].
  - by apply (respond_step c m m' rest).
  - split; [|by eapply all_apart_update]. intros r e. cbn [mx_streams after_down]. rewrite lookup_insert_Some.
    intros [[<- <-]|[Hne He']]; [by eapply own_down_local; [apply Hi|..]|].
    destruct (Ha rid r _ _ Hne He He') as [A1 A2]. eapply other_down_local; [by apply Hi|exact A1|by apply A2|exact Hl].
  - split; [|by eapply all_apart_update]. intros r e. cbn [mx_streams after_up]. rewrite lookup_insert_Some.
    intros [[<- <-]|[Hne He']]; [by eapply own_up_local; [apply Hi|..]|].
    destruct (Ha rid r _ _ Hne He He') as [A1 A2]. eapply other_up_local; [by apply Hi|exact A1|by apply A2|exact Hl].
  - split; [|done]. intros r e He'. cbn [mx_streams] in He'. destruct (decide (r = rid)) as [->|Hne].
    + rewrite He in He'. injection He' as <-. by apply ready_own, Hi.
    + destruct (Ha rid r _ _ (not_eq_sym Hne) He He') as [A1 _]. apply client_others; [by apply Hi|].
      apply client_method_spares; [by apply Hi|done|]. by apply (req_methods_keep_id d growcap).
  - split; [|done]. intros r e He. cbn [mx_streams] in He. apply client_others; [by apply Hi|].
    destruct (cl_spared_op d growcap r (Some (client_object e)) None (cl_footprint_of r (Some (client_object e)) None (mx_client c)) op (mx_client c) [] (Helse _ _ He)) as [Hf Hd Ho];
      [split; [done|by apply Hi|done]|]. split; [done|done|]. by apply cl_foreign_sent.
  - split; [|done]. intros r e He. cbn [mx_streams] in He. apply server_others; [by apply Hi|].
    destruct (spared_work d growcap pickDone r (server_object e) (footprint_of r (server_object e) (mx_server c)) w (mx_server c) [] (Helse _ _ He)) as [Hf Hd Ho];
      [split; [done|by apply Hi|done]|]. split; [done|done|]. by apply foreign_sent.
  - split; [|by apply all_apart_delete]. intros r e. cbn [mx_streams]. rewrite lookup_delete_Some. intros [_ He]. destruct (Hi _ _ He). by split.
Qed.

Lemma mux_inv_reach c0 c : mx_streams c0 = ∅ -> reach mux_step c0 c -> mux_inv c.
Proof.
  intros H0 Hr. induction Hr as [|a b Hr IH Hst]; [|by eapply mux_step_inv].
  split; [intros rid e|intros r1 r2 e1 e2 _]; by rewrite H0, lookup_empty.
Qed.

(** ** The connection hosts each of its streams *)

Lemma note_other rid m o ss : requestIdOf d m <> Some rid -> note m o ss !! rid = ss !! rid.
Proof.
  intros Hm. unfold note. destruct (requestIdOf d m) as [r|]; [|done]. destruct (ss !! r) as [[]|]; try done.
  destruct (starts o); [by rewrite lookup_insert_ne by congruence|by rewrite lookup_delete_ne by congruence].
Qed.
Lemma note_running rid m o ss e : ss !! rid = Some e -> is_Some (server_object e) -> note m o ss !! rid = Some e.
Proof.
  intros He Hs. destruct (decide (requestIdOf d m = Some rid)) as [E|Hne]; [|by rewrite note_other].
  unfold note. rewrite E, He. destruct e; by destruct Hs.
Qed.

(** A frame that is not the stream's, at the head of a wire. *)
Lemma respond_foreign rid e c m :
  mux_inv c -> mx_streams c !! rid = Some e -> foreign d rid m ->
  client_spares rid (client_object e) (mx_client c) (cl_run (handleFrame d growcap de m) (mx_client c)).
Proof.
  intros Hc He Hm. apply client_keeps_spares; [apply (mi_stream _ Hc _ _ He)|]. by apply (cl_spared_handleFrame d growcap).
Qed.
Lemma read_foreign rid e c m :
  mux_inv c -> mx_streams c !! rid = Some e -> foreign d rid m ->
  server_spares rid (server_object e) (mx_server c) (sv_run (processRequest d growcap pickDone m) (mx_server c)).
Proof.
  intros Hc He Hm. apply server_keeps_spares; [apply (mi_stream _ Hc _ _ He)|]. by apply (spared_processRequest d growcap pickDone).
Qed.

Lemma pure_head {A} (f : VMap -> option A) rid m rest : pure f rid (m :: rest) -> f m = None -> foreign d rid m.
Proof. intros Hp Hm Hid. inv Hp. match goal with Hx : _ -> is_Some _ |- _ => destruct (Hx Hid) end. congruence. Qed.

Section hosts.
Context (rid : Z) (Hr : in_int64 rid) (lc ls : nat).

Definition down_at (c : mux) (w : world) : Prop :=
  mux_inv c /\ exists pc made hook est, mx_streams c !! rid = Some (StDown lc ls pc made hook est) /\ w = down_of c pc made hook est.
Definition up_at (c : mux) (w : world) : Prop :=
  mux_inv c /\ exists pc made hook est, mx_streams c !! rid = Some (StUp lc ls pc made hook est) /\ w = up_of c pc made hook est.

Definition down_host : Host d growcap rid (down_tx rid ls) (down_rx rid Hr lc) mux.
Proof.
  refine (mkHost _ _ _ _ _ mux mux_step down_at _ _ _ _ _).
  - intros c w w' (Hc & pc & made & hook & est & He & ->) Hl Hm. assert (mux_step c (after_down c rid lc ls w')) as Hst by by eapply mx_down_local.
    exists (after_down c rid lc ls w'). split; [done|]. split; [by eapply mux_step_inv|].
    exists (w_snd w').2, (w_made w'), (w_hook w'), (w_est w'). split; [apply lookup_insert_eq|]. by destruct w' as [[]].
  - intros c w m rest i (Hc & pc & made & hook & est & He & ->) Hf Hm. pose proof (mx_respond c m m rest Hf ltac:(done)) as Hst.
    eexists. split; [exact Hst|]. split; [by eapply mux_step_inv|]. by exists pc, made, hook, est.
  - intros c w m rest n (Hc & pc & made & hook & est & He & ->) Hf Hm. pose proof (mx_read c m m rest Hf ltac:(done)) as Hst.
    eexists. split; [exact Hst|]. split; [by eapply mux_step_inv|]. exists pc, made, hook, est. split; [by eapply note_running; eauto|done].
  - intros c w m rest (Hc & pc & made & hook & est & He & ->) Hf Hm. pose proof (mx_respond c m m rest Hf ltac:(done)) as Hst.
    pose proof (si_phase _ _ _ (mi_stream _ Hc _ _ He)) as (_ & Hp & _). cbn in Hf. rewrite Hf in Hp.
    destruct (respond_foreign rid _ c m Hc He (pure_head _ _ _ _ Hp Hm)) as [Hd Hfp Ho].
    eexists _, _, _. split; [exact Hst|]. split; [|split; [|split; [by eapply mux_step_inv|by exists pc, made, hook, est]]].
    + by apply (cl_same_views rid (Some lc) None _ _ Hfp).
    + by apply foreign_nothing.
  - intros c w m rest (Hc & pc & made & hook & est & He & ->) Hf Hm. pose proof (mx_read c m m rest Hf ltac:(done)) as Hst.
    pose proof (si_phase _ _ _ (mi_stream _ Hc _ _ He)) as (_ & _ & Hp & _). cbn in Hf. rewrite Hf in Hp.
    pose proof (pure_head _ _ _ _ Hp Hm) as Hfo. destruct (read_foreign rid _ c m Hc He Hfo) as [Hd Hfp Ho].
    eexists _, (_, pc), _. split; [exact Hst|]. split; [|split; [|split; [by eapply mux_step_inv|exists pc, made, hook, est; split; [by eapply note_running; eauto|done]]]].
    + by apply (same_views rid (Some ls) ls _ _ eq_refl Hfp).
    + by apply foreign_nothing.
Defined.

Definition up_host : Host d growcap rid (up_tx rid Hr lc) (up_rx rid ls) mux.
Proof.
  refine (mkHost _ _ _ _ _ mux mux_step up_at _ _ _ _ _).
  - intros c w w' (Hc & pc & made & hook & est & He & ->) Hl Hm. assert (mux_step c (after_up c rid lc ls w')) as Hst by by eapply mx_up_local.
    exists (after_up c rid lc ls w'). split; [done|]. split; [by eapply mux_step_inv|].
    exists (w_snd w').2, (w_made w'), (w_hook w'), (w_est w'). split; [apply lookup_insert_eq|]. by destruct w' as [[]].
  - intros c w m rest i (Hc & pc & made & hook & est & He & ->) Hf Hm. pose proof (mx_read c m m rest Hf ltac:(done)) as Hst.
    eexists. split; [exact Hst|]. split; [by eapply mux_step_inv|]. exists pc, made, hook, est. split; [by eapply note_running; eauto|done].
  - intros c w m rest n (Hc & pc & made & hook & est & He & ->) Hf Hm. pose proof (mx_respond c m m rest Hf ltac:(done)) as Hst.
    eexists. split; [exact Hst|]. split; [by eapply mux_step_inv|]. by exists pc, made, hook, est.
  - intros c w m rest (Hc & pc & made & hook & est & He & ->) Hf Hm. pose proof (mx_read c m m rest Hf ltac:(done)) as Hst.
    pose proof (si_phase _ _ _ (mi_stream _ Hc _ _ He)) as (_ & Hp & _). cbn in Hf. rewrite Hf in Hp.
    pose proof (pure_head _ _ _ _ Hp Hm) as Hfo. destruct (read_foreign rid _ c m Hc He Hfo) as [Hd Hfp Ho].
    eexists _, _, _. split; [exact Hst|]. split; [|split; [|split; [by eapply mux_step_inv|exists pc, made, hook, est; split; [by eapply note_running; eauto|done]]]].
    + by apply (same_views rid (Some ls) ls _ _ eq_refl Hfp).
    + by apply foreign_nothing.
  - intros c w m rest (Hc & pc & made & hook & est & He & ->) Hf Hm. pose proof (mx_respond c m m rest Hf ltac:(done)) as Hst.
    pose proof (si_phase _ _ _ (mi_stream _ Hc _ _ He)) as (_ & _ & Hp & _). cbn in Hf. rewrite Hf in Hp.
    set (y := cl_run (handleFrame d growcap de m) (mx_client c)).
    assert (out_view rid lc (y.1, pc) = out_view rid lc (mx_client c, pc) /\ omap (item_of d rid) y.2 = []) as [Hv Ho].
    { destruct (reply_of rid m) as [u|] eqn:Hu.
      - unfold reply_of in Hu. rewrite Hm in Hu. destruct (item_of d rid m) as [[]|] eqn:Hi; try done.
        destruct (ready_other rid lc pc m (mx_client c) Hi) as [? Ho]. fold y in Ho. by rewrite Ho.
      - destruct (respond_foreign rid _ c m Hc He (pure_head _ _ _ _ Hp Hu)) as [Hd Hfp Ho].
        split; [by apply (cl_same_views rid (Some lc) None _ _ Hfp)|by apply foreign_nothing]. }
    eexists _, (_, pc), _. split; [exact Hst|]. split; [exact Hv|]. split; [exact Ho|]. split; [by eapply mux_step_inv|by exists pc, made, hook, est].
Defined.

End hosts.

(** ** Every stream of the connection *)

(** What a receiver with window [n] holds of the values [sent] while its sender is
    at [k]. *)
Record delivered (n : Z) (sent : list (option Value)) (k : send_pc) (r : rview) : Prop := {
  dv_overflow : overflow (rv_pump r) = false;
  dv_bounded : zlen (live (rv_pump r)) <= n;
  dv_order : exists transit, sent = outSent (rv_pump r) ++ in_hand (rv_pump r) ++ live (rv_pump r) ++ transit;
  dv_finished : pc (rv_pump r) = Finished -> k = Done /\ outSent (rv_pump r) = sent
}.

(** The system can go on until the stream has ended with everything received:
    [made] was handed over so far, [vs] comes on top. *)
Definition down_completes (rid : Z) (lc ls : nat) (c : mux) (made vs : list (option Value)) : Prop :=
  exists c' pc' hook' est' g r, reach mux_step c c' /\ mx_streams c' !! rid = Some (StDown lc ls pc' (made ++ vs) hook' est') /\
    streamer_view rid ls (mx_server c', pc') = Some (mkSV Done g) /\ request_view rid lc (mx_client c') = Some r /\
    pc (rv_pump r) = Finished /\ outSent (rv_pump r) = None :: made ++ vs.
Definition up_completes (rid : Z) (lc ls : nat) (c : mux) (made vs : list (option Value)) : Prop :=
  exists c' pc' hook' est' g r, reach mux_step c c' /\ mx_streams c' !! rid = Some (StUp lc ls pc' (made ++ vs) hook' est') /\
    out_view rid lc (mx_client c', pc') = Some (mkSV Done g) /\ inbound_view rid ls (mx_server c') = Some r /\
    pc (rv_pump r) = Finished /\ outSent (rv_pump r) = made ++ vs.

Definition stream_delivered (rid : Z) (e : stream) (c : mux) : Prop :=
  match e with
  | StRequested _ _ _ _ | StAccepted _ _ _ _ _ => absent rid (mx_server c)
  | StDown lc ls pc made hook est => exists n k g r, 0 < n < two63 /\
      streamer_view rid ls (mx_server c, pc) = Some (mkSV k g) /\ request_view rid lc (mx_client c) = Some r /\
      delivered n (None :: made) k r /\
      forall vs, Forall nonnull vs -> (k = Closing \/ k = Done -> vs = []) -> down_completes rid lc ls c made vs
  | StUp lc ls pc made hook est => exists n k g r, 0 < n < two63 /\
      out_view rid lc (mx_client c, pc) = Some (mkSV k g) /\ inbound_view rid ls (mx_server c) = Some r /\
      delivered n made k r /\
      forall vs, Forall nonnull vs -> (k = Closing \/ k = Done -> vs = []) -> up_completes rid lc ls c made vs
  end.

Lemma running_delivered c rid e : mux_inv c -> mx_streams c !! rid = Some e -> stream_delivered rid e c.
Proof.
  intros Hc He. pose proof (si_phase _ _ _ (mi_stream _ Hc _ _ He)) as Hp.
  destruct e as [up lc name args|up lc name args req|lc ls pc made hook est|lc ls pc made hook est]; cbn [phase_ok stream_delivered] in *.
  - apply Hp.
  - apply Hp.
  - destruct Hp as (Hm & _ & _ & Hr & n & w0 & Hn & Hop & Hw).
    destruct (stream_safe d growcap rid growcap_larger (down_tx rid ls) (down_rx rid Hr lc) eq_refl n w0 _ Hn Hop Hw Hm) as (k & g & r & Hs & Hv & []).
    destruct (reach_sim d growcap rid growcap_larger (down_tx rid ls) (down_rx rid Hr lc) eq_refl n w0 _ Hn Hop Hw Hm) as [fl Hsim].
    exists n, k, g, r. refine (conj Hn (conj Hs (conj Hv (conj _ _)))); [by split|]. intros vs Hvs Hk.
    destruct (hosted_live d growcap rid growcap_larger (down_tx rid ls) (down_rx rid Hr lc) eq_refl (down_host rid Hr lc ls) n c (down_of c pc made hook est) fl k g vs)
      as (c' & w' & g' & r' & Hr' & (_ & pc' & made' & hook' & est' & He' & ->) & Hs' & Hv' & Hf & Hm' & Ho); [|exact Hsim|exact Hs|done|done|].
    + split; [done|]. by exists pc, made, hook, est.
    + exists c', pc', hook', est', g', r'. cbn in Hm'. subst made'. by split_and!.
  - destruct Hp as (Hm & _ & _ & Hr & n & w0 & Hn & Hop & Hw).
    destruct (stream_safe d growcap rid growcap_larger (up_tx rid Hr lc) (up_rx rid ls) eq_refl n w0 _ Hn Hop Hw Hm) as (k & g & r & Hs & Hv & []).
    destruct (reach_sim d growcap rid growcap_larger (up_tx rid Hr lc) (up_rx rid ls) eq_refl n w0 _ Hn Hop Hw Hm) as [fl Hsim].
    exists n, k, g, r. refine (conj Hn (conj Hs (conj Hv (conj _ _)))); [by split|]. intros vs Hvs Hk.
    destruct (hosted_live d growcap rid growcap_larger (up_tx rid Hr lc) (up_rx rid ls) eq_refl (up_host rid Hr lc ls) n c (up_of c pc made hook est) fl k g vs)
      as (c' & w' & g' & r' & Hr' & (_ & pc' & made' & hook' & est' & He' & ->) & Hs' & Hv' & Hf & Hm' & Ho); [|exact Hsim|exact Hs|done|done|].
    + split; [done|]. by exists pc, made, hook, est.
    + exists c', pc', hook', est', g', r'. cbn in Hm'. subst made'. by split_and!.
Qed.

(** C2: Any number of get and put streams over one connection, opened,
    accepted, refused, run and dropped in any interleaving with the two read
    loops and with everything else the client and the session do for other
    requests: in every reachable state every running stream that yields no nil
    value has both ends in operation, its receiver never overflows or buffers
    more than its window, what was received is a prefix of what was handed
    over (after the ready marker on a get stream), in order, and the receiver
    is finished only when the sender is done and everything was received; and
    from every such state steps of the whole system, which handle the frames
    of the other streams they meet, lead to one in which any further values
    and the close of that stream have been received completely. *)
Theorem multiplexed_streams_correct c0 c rid e :
  mx_streams c0 = ∅ -> reach mux_step c0 c -> mx_streams c !! rid = Some e -> stream_delivered rid e c.
Proof. intros H0 Hre He. apply running_delivered; [by eapply mux_inv_reach|done]. Qed.

End mux.

(** ** Witness: a get stream and a put stream over one connection *)

Section mux_witness.
#[local] Existing Instance RefValueLib.

Abbreviation demo_feed := (mkFunction "feed" Any Void outgoingStream (fun _ _ => Returned None)).
Abbreviation demo_sink := (mkFunction "sink" Any Void incomingStream (fun _ _ => Returned None)).
Definition demo_mux : mux :=
  mkMux demo_caller (NewServingClient 7 "" "" {[ "feed" := demo_feed; "sink" := demo_sink ]} (mkServerConfig 2 2 4 None false)) [] [] ∅.

Definition demo_open (up : bool) (name : string) (c : mux) : mux :=
  let x := open_stream NewDialect demo_cl_grow up demo_dial demo_ctx0 None name None 8 (mx_client c) in
  mkMux (m_st x) (mx_server c) (mx_up c ++ omap client_sent (m_out x)) (mx_down c)
    (<[cl_lastRequest (mx_client c) + 1 := StRequested up (cl_nextLoc (mx_client c)) name None]> (mx_streams c)).
Definition demo_read (m : VMap) (rest : list VMap) (c : mux) : mux :=
  let y := processRequest NewDialect demo_cl_grow demo_pick m (mx_server c) in
  mkMux (mx_client c) (m_st y) rest (mx_down c ++ omap session_sent (m_out y)) (note NewDialect m (m_out y) (mx_streams c)).
Definition demo_run (rid : Z) (up : bool) (lc : nat) (req : VMap) (c : mux) : mux :=
  let z := serveFunctionRequest NewDialect demo_pick (stream_ft up) req (mx_server c) in
  mkMux (mx_client c) (m_st z) (mx_up c) (mx_down c ++ omap session_sent (m_out z)) (<[rid := started up lc (sc_nextLoc (mx_server c))]> (mx_streams c)).

Definition demo_mux1 : mux := demo_open false "feed" demo_mux.
Definition demo_mux2 : mux := demo_open true "sink" demo_mux1.
Abbreviation demo_frame1 := (stream_request NewDialect GetStreamRequest demo_caller demo_ctx0 None "feed" None).
Abbreviation demo_frame2 := (stream_request NewDialect PutStreamRequest (mx_client demo_mux1) demo_ctx0 None "sink" None).
Definition demo_mux3 : mux := demo_read demo_frame1 [demo_frame2] demo_mux2.
Definition demo_mux4 : mux := demo_read demo_frame2 [] demo_mux3.
Definition demo_mux5 : mux := demo_run 2 true 1 demo_frame2 demo_mux4.
Definition demo_mux6 : mux := demo_run 1 false 0 demo_frame1 demo_mux5.

Lemma demo_unused1 : unused NewDialect (cl_lastRequest (mx_client demo_mux) + 1) demo_mux.
Proof. split; [split|split| | |]; cbn; try done. intros id l [Hl|Hl]; by rewrite lookup_empty in Hl. Qed.

Lemma demo_unused2 : unused NewDialect (cl_lastRequest (mx_client demo_mux1) + 1) demo_mux1.
Proof.
  assert (mx_client demo_mux1 = with_req 1 (NewRequestCtx 1 getStreamKind demo_frame1 8 4 true true) (upd_cl_lastRequest (fun n => wrap64 (n + 1)) demo_caller)) as E
    by (by apply (open_state NewDialect demo_cl_grow demo_dial demo_ctx0 None GetStreamRequest getStreamKind "feed" None 8 demo_caller 0)).
  split; [rewrite E; split|split| | |]; cbn; try done.
  - intros l r _. rewrite lookup_insert_Some. intros [[_ <-]|[_ Hr]]; [|by rewrite lookup_empty in Hr]. cbn. done.
  - intros id l. rewrite lookup_insert_Some. split; [|done]. intros [[_ <-]|[_ Hr]]; [lia|by rewrite lookup_empty in Hr].
  - intros id l [Hl|Hl]; by rewrite lookup_empty in Hl.
  - split; [|constructor]. repeat constructor. unfold foreign. vm_compute. done.
Qed.

Lemma demo_feed_served : serves (mx_server demo_mux5) outgoingStream 1 "feed" None demo_feed.
Proof. split; [by vm_compute|split; by vm_compute|reflexivity|done|by vm_compute|by vm_compute|by eexists]. Qed.
Lemma demo_sink_served : serves (mx_server demo_mux4) incomingStream 2 "sink" None demo_sink.
Proof. split; [by vm_compute|split; by vm_compute|reflexivity|done|by vm_compute|by vm_compute|by eexists]. Qed.

Abbreviation demo_mux_step := (mux_step NewDialect demo_cl_grow demo_pick demo_dial).

Lemma demo_mux_reach : reach demo_mux_step demo_mux demo_mux6.
Proof.
  apply (reach_next _ _ demo_mux5 _); [apply (reach_next _ _ demo_mux4 _); [apply (reach_next _ _ demo_mux3 _); [apply (reach_next _ _ demo_mux2 _);
    [apply (reach_next _ _ demo_mux1 _); [apply (reach_next _ _ demo_mux _); [constructor|]|]|]|]|]|].
  - apply (mx_open NewDialect demo_cl_grow demo_pick demo_dial demo_mux false demo_dial demo_ctx0 None "feed" None 8);
      [apply demo_can_open|apply demo_unused1|by vm_compute].
  - apply (mx_open NewDialect demo_cl_grow demo_pick demo_dial demo_mux1 true demo_dial demo_ctx0 None "sink" None 8);
      [split_and!; [by eexists|by vm_compute|by vm_compute]|apply demo_unused2|by vm_compute].
  - apply (mx_read NewDialect demo_cl_grow demo_pick demo_dial demo_mux2 demo_frame1 demo_frame1 [demo_frame2]); [vm_compute; reflexivity|reflexivity].
  - apply (mx_read NewDialect demo_cl_grow demo_pick demo_dial demo_mux3 demo_frame2 demo_frame2 []); [reflexivity|reflexivity].
  - apply (mx_serve NewDialect demo_cl_grow demo_pick demo_dial demo_mux4 2 true 1 "sink" None demo_frame2 demo_sink); [reflexivity|apply demo_sink_served|by vm_compute].
  - apply (mx_serve NewDialect demo_cl_grow demo_pick demo_dial demo_mux5 1 false 0 "feed" None demo_frame1 demo_feed); [reflexivity|apply demo_feed_served|by vm_compute].
Qed.

Lemma multiplexed_streams_correct_witness :
  stream_delivered NewDialect demo_cl_grow demo_pick demo_dial 1 (started false 0 1) demo_mux6 /\
  stream_delivered NewDialect demo_cl_grow demo_pick demo_dial 2 (started true 1 0) demo_mux6.
Proof.
  split.
  - apply (multiplexed_streams_correct NewDialect demo_cl_grow demo_pick demo_larger demo_dial demo_mux demo_mux6 1 _ eq_refl demo_mux_reach). reflexivity.
  - apply (multiplexed_streams_correct NewDialect demo_cl_grow demo_pick demo_larger demo_dial demo_mux demo_mux6 2 _ eq_refl demo_mux_reach). reflexivity.
Defined.

End mux_witness.
