(* ===== verification/Examples.v ===== *)
(** * Example services

    Handlers of src/examples, as clients of the library's theorems: what the
    programs print about their streams and calls is what the model gives.
    examples/streaming over a multiplexed connection (Multiplex.v), the codecs of
    examples/typed (Typed.v), the relay of examples/peer, the error check of
    examples/cancellation and the names and the reversal of examples/first.  The hooks of examples/auth, mtls and unix are in
    ServerHooks.v, the counters of examples/observability in Metrics.v. *)

From S2P Require Import Prelude Value RefValue Protocol Verify Credit Pump FlowControl Request Metadata ServingSystem Client EndToEnd Typed.
From S2P Require Import StreamLink ClientEnds ServerEnds Streams Multiplex Server ServingClient.

(** ** examples/streaming *)

Section streaming.
Context `{ValueLib} (d : Dialect) `{!dialect_ok d} (growcap : nat -> nat) (pickDone : servingClient -> VMap -> bool).
Hypothesis growcap_larger : forall n, (n < growcap n)%nat.
Context (de : dial_env).

(** [a.(value.String)] and [a.(value.Number)]: a failed assertion panics. *)
Definition asString (a : option Value) : option string :=
  match a with Some v => if decide (kindOf v = STRING) then Some (stringOf v) else None | None => None end.
Definition asNumber (a : option Value) : option Z :=
  match a with Some v => if decide (kindOf v = NUMBER) then Some (longOf v) else None | None => None end.

Definition upper (_ : reqctx) (a : option Value) : outcome Value :=
  match asString a with Some s => Returned (Some (Utf8 ("UPPER:" +:+ s))) | None => Panicked end.

(** What count's goroutine puts on its channel, from [i] on; [fuel] is the number
    of iterations left. *)
Fixpoint count_loop (fuel : nat) (i : Z) : list (option Value) :=
  match fuel with O => [] | S fuel => Some (Long i) :: count_loop fuel (wrap64 (i + 1)) end.
Definition count (a : option Value) : option (list (option Value)) :=
  match asNumber a with Some n => Some (count_loop (Z.to_nat n) 0) | None => None end.

(** sum's goroutine, over what its channel yields; [None] is a panic. *)
Definition sum_step (total : option Z) (v : option Value) : option Z :=
  match total, v with
  | Some total, Some _ => match asNumber v with Some n => Some (wrap64 (total + n)) | None => None end
  | total, _ => total
  end.
Definition sum (ins : list (option Value)) : option Z := foldl sum_step (Some 0) ins.

(** shout's goroutine. *)
Fixpoint shout (ins : list (option Value)) : option (list (option Value)) :=
  match ins with
  | [] => Some []
  | v :: ins =>
      match asString v, shout ins with
      | Some s, Some out => Some (Some (Utf8 (s +:+ "!")) :: out)
      | _, _ => None
      end
  end.

Definition longs (i : Z) (n : nat) : list (option Value) := map (fun k => Some (Long (i + Z.of_nat k))) (seq 0 n).

Lemma longs_S i n : longs i (S n) = Some (Long i) :: longs (i + 1) n.
Proof.
  unfold longs. cbn [seq map]. rewrite Z.add_0_r. f_equal. rewrite <- seq_shift, map_map. apply map_ext. intros k. do 2 f_equal. lia.
Qed.
Lemma longs_nonnull i n : Forall nonnull (longs i n).
Proof. apply Forall_map, Forall_true. intros k. cbn. rewrite kind_Long. apply NUMBER_ne_NULL. Qed.

(** The loop's values are the numbers below the argument, and its counter never
    wraps. *)
Lemma count_loop_longs n i : 0 <= i -> i + Z.of_nat n < two63 -> count_loop n i = longs i n.
Proof.
  revert i. induction n as [|n IH]; intros i Hi Hn; [done|]. rewrite longs_S. cbn [count_loop]. f_equal.
  rewrite wrap64_id by (unfold in_int64, two63 in *; lia). apply IH; lia.
Qed.
Lemma count_values n : 0 <= n < two63 -> count (Some (Long n)) = Some (longs 0 (Z.to_nat n)).
Proof.
  intros Hn. unfold count, asNumber. rewrite decide_True by apply kind_Long. rewrite longOf_Long by (unfold in_int64, two63 in *; lia).
  f_equal. apply count_loop_longs; lia.
Qed.

(** "server-stream: received n of n values": once the handler has returned, with
    any other streams on the connection, the client can receive every value of
    count(n) and the end. *)
Theorem count_received c0 c rid lc ls n :
  mx_streams c0 = ∅ -> reach (mux_step d growcap pickDone de) c0 c -> mx_streams c !! rid = Some (started false lc ls) -> 0 <= n < two63 ->
  exists vs, count (Some (Long n)) = Some vs /\ length vs = Z.to_nat n /\ down_completes d growcap pickDone de rid lc ls c [] vs.
Proof.
  intros H0 Hr He Hn. exists (longs 0 (Z.to_nat n)). split; [by apply count_values|]. split; [unfold longs; by rewrite length_map, length_seq|].
  destruct (running_delivered d growcap pickDone growcap_larger de c rid _ (mux_inv_reach d growcap pickDone growcap_larger de c0 c H0 Hr) He)
    as (w & k & g & r & _ & Hs & _ & _ & Hc).
  destruct (streamer_view_inv growcap pickDone rid ls _ _ _ Hs ltac:(done)) as (sr & g' & [= -> _] & _). apply Hc; [apply longs_nonnull|]. by intros [[=]|[=]].
Qed.

(** The sum of numbers that arrived, modulo the width of int64. *)
Lemma sum_longs zs : Forall in_int64 zs -> sum (map (fun z => Some (Long z)) zs) = Some (wrap64 (zsum zs)).
Proof.
  unfold sum. assert (forall a, Forall in_int64 zs -> foldl sum_step (Some (wrap64 a)) (map (fun z => Some (Long z)) zs) = Some (wrap64 (a + zsum zs))) as Hgen.
  { induction zs as [|z zs IH]; intros a Hz; cbn; [by rewrite Z.add_0_r|]. inv Hz.
    unfold asNumber. rewrite decide_True by apply kind_Long. rewrite longOf_Long by done.
    rewrite wrap64_add, IH by done. do 2 f_equal. unfold zsum. cbn. lia. }
  intros Hz. by apply (Hgen 0).
Qed.

(** "client-stream: server summed 1..100 = 5050", once the handler has returned
    and with any other streams on the connection. *)
Theorem sum_received c0 c rid lc ls :
  mx_streams c0 = ∅ -> reach (mux_step d growcap pickDone de) c0 c -> mx_streams c !! rid = Some (started true lc ls) ->
  exists c' r, reach (mux_step d growcap pickDone de) c c' /\ inbound_view rid ls (mx_server c') = Some r /\
    pc (rv_pump r) = Finished /\ sum (outSent (rv_pump r)) = Some 5050.
Proof.
  intros H0 Hr He.
  destruct (running_delivered d growcap pickDone growcap_larger de c rid _ (mux_inv_reach d growcap pickDone growcap_larger de c0 c H0 Hr) He)
    as (w & k & g & r & _ & Hs & _ & _ & Hc).
  destruct (out_view_inv growcap rid lc _ _ _ Hs ltac:(done)) as (sr & cn & g' & [= -> _] & _).
  set (zs := map (fun k => 1 + Z.of_nat k) (seq 0 100)).
  destruct (Hc (map (fun z => Some (Long z)) zs)) as (c' & pc' & h' & e' & g1 & r' & Hr' & _ & _ & Hv & Hf & Ho).
  - unfold zs. rewrite map_map. apply Forall_map, Forall_true. intros z. cbn. rewrite kind_Long. apply NUMBER_ne_NULL.
  - by intros [[=]|[=]].
  - exists c', r'. split_and!; try done. rewrite Ho. cbn [app]. rewrite sum_longs; [done|].
    unfold zs. apply Forall_map, Forall_seq. intros j Hj. unfold in_int64, two63. lia.
Qed.

(** shout answers every string, in order. *)
Lemma shout_strings ss : shout (map (fun s => Some (Utf8 s)) ss) = Some (map (fun s => Some (Utf8 (s +:+ "!"))) ss).
Proof. induction ss as [|s ss IH]; [done|]. cbn. rewrite decide_True by apply kind_Utf8. by rewrite stringOf_Utf8, IH. Qed.

End streaming.

(** ** examples/typed *)

Section users.
Context `{ValueLib}.
(** [Map.GetNumber(k)], as documented by the value package. *)
Context (GetNumber : VMap -> string -> Value).
Hypothesis GetNumber_present : forall m k v, Get m k = Some v -> kindOf v = NUMBER -> GetNumber m k = v.

Record GetUserReq := mkGetUserReq { gu_ID : Z }.
Record User := mkUser { us_ID : Z; us_Name : string; us_Email : string }.

Definition asMap (v : option Value) : option VMap :=
  match v with Some v => if decide (kindOf v = MAP) then Some (mapOf v) else None | None => None end.

Definition getUserReqCodec : Codec GetUserReq := mkCodec
  (fun r => Some (MapV (Put EmptyMap "id" (Some (Long (gu_ID r))))))
  (fun v => match asMap v with
            | None => inl (ErrPlain "expected a map")
            | Some m => inr (mkGetUserReq (longOf (GetNumber m "id")))
            end).

Definition userCodec : Codec User := mkCodec
  (fun u => Some (MapV (Put (Put (Put EmptyMap "id" (Some (Long (us_ID u)))) "name" (Some (Utf8 (us_Name u)))) "email" (Some (Utf8 (us_Email u))))))
  (fun v => match asMap v with
            | None => inl (ErrPlain "expected a map")
            | Some m => inr (mkUser (longOf (GetNumber m "id")) (stringOf (GetString m "name")) (stringOf (GetString m "email")))
            end).

Definition users_get (db : gmap Z User) (_ : reqctx) (r : GetUserReq) : typed_outcome User :=
  match db !! gu_ID r with
  | Some u => TReturned u
  | None => TFailed (ErrRpc CodeNotFound ("no user " +:+ pretty (gu_ID r)))
  end.

(** Both codecs survive the wire, as arguments, results and stream values, for
    ids of 64 bits. *)
Theorem user_codecs_lawful r u :
  in_int64 (gu_ID r) -> in_int64 (us_ID u) ->
  lawful_arg getUserReqCodec r /\ lawful_result userCodec u /\ lawful_stream userCodec u.
Proof.
  intros Hr Hu.
  assert (Decode userCodec (Encode userCodec u) = inr u) as Hd.
  { cbn. unfold asMap. rewrite decide_True by apply kind_MapV. rewrite mapOf_MapV.
    rewrite (GetNumber_present _ "id" (Long (us_ID u))) by (try apply kind_Long; by rewrite !Get_Put_ne, Get_Put_eq by done).
    rewrite (GetString_present _ "name" (Utf8 (us_Name u))) by (try apply kind_Utf8; by rewrite Get_Put_ne, Get_Put_eq by done).
    rewrite (GetString_present _ "email" (Utf8 (us_Email u))) by (try apply kind_Utf8; by rewrite Get_Put_eq).
    rewrite longOf_Long, !stringOf_Utf8 by done. by destruct u. }
  assert (forall m, kindOf (MapV m) <> NULL) as Hm by (intros m; rewrite kind_MapV; apply MAP_ne_NULL).
  split_and!.
  - unfold lawful_arg. cbn. unfold asMap. rewrite decide_True by apply kind_MapV. rewrite mapOf_MapV.
    rewrite (GetNumber_present _ "id" (Long (gu_ID r))) by (try apply kind_Long; by rewrite Get_Put_eq).
    rewrite longOf_Long by done. by destruct r.
  - unfold lawful_result, wire_result. cbn [Encode userCodec]. by rewrite decide_False.
  - eexists. split; [reflexivity|]. by split.
Qed.

(** GetUser over any link: the database's entry, or NotFound with the handler's
    message (the caller's view of the typed handler). *)
Lemma users_get_seen db cx r :
  typed_spec "users.get" (users_get db cx r) = Some (match db !! gu_ID r with
    | Some u => inl u
    | None => inr (ErrRpc CodeNotFound ("function users.get: " +:+ wireMessage (ErrRpc CodeNotFound ("no user " +:+ pretty (gu_ID r)))))
    end).
Proof. unfold users_get. by destruct (db !! gu_ID r). Qed.

End users.

(** ** examples/peer *)

Section relay.
Context `{ValueLib}.
(** fmt's %q. *)
Context (quoted : string -> string).

(** The registry: principal to session. *)
Definition register_ (self : nat) (ctx : reqctx) (clients : gmap string nat) : outcome Value * gmap string nat :=
  let who := PrincipalFromContext ctx in
  if negb (ctx_peer ctx) then (Failed (ErrRpc CodeInternal "no client handle on connection"), clients)
  else (Returned (Some (Utf8 ("registered as " +:+ who))), <[who := self]> clients).

(** call up to the reverse call it makes: the error, or the session to call and
    the arguments of onMessage. *)
Definition call_ (ctx : reqctx) (args : option Value) (clients : gmap string nat) : option (goerror + nat * VMap) :=
  match asMap args with
  | None => None
  | Some req =>
      let to := stringOf (GetString req "to") in
      match clients !! to with
      | None => Some (inl (ErrRpc CodeNotFound (quoted to +:+ " is not connected")))
      | Some peer =>
          let from := PrincipalFromContext ctx in
          Some (inr (peer, Put (Put EmptyMap "from" (Some (Utf8 from))) "text" (Some (GetString req "text"))))
      end
  end.

(** The context of a request of session [s] carries the session's principal,
    whatever metadata the request has and whatever the extractor makes of it. *)
Lemma handler_principal s eff md : sc_principal s <> "" -> PrincipalFromContext (handler_ctx s eff md) = sc_principal s.
Proof. intros Hp. unfold handler_ctx, context_for. by rewrite bool_decide_false. Qed.

(** The relay stamps the authenticated sender: whatever the caller put into its
    arguments, [from] is the principal of its session and [text] its text, and the
    session called is the one that registered under the name asked for. *)
Theorem relay_stamps_sender s eff md args clients peer fwd :
  sc_principal s <> "" -> call_ (handler_ctx s eff md) args clients = Some (inr (peer, fwd)) ->
  exists req, asMap args = Some req /\ clients !! stringOf (GetString req "to") = Some peer /\
    Get fwd "from" = Some (Utf8 (sc_principal s)) /\ Get fwd "text" = Some (GetString req "text").
Proof.
  intros Hp. unfold call_. destruct (asMap args) as [req|]; [|done]. destruct (clients !! _) as [l|] eqn:El; [|done].
  intros [= <- <-]. exists req. rewrite (handler_principal s eff md Hp). split_and!; try done.
  - by rewrite Get_Put_ne, Get_Put_eq by done.
  - by rewrite Get_Put_eq.
Qed.

(** A session is found under its own principal only: registering never redirects
    another name. *)
Theorem register_own_name self s eff md clients :
  sc_principal s <> "" ->
  let '(o, clients') := register_ self (handler_ctx s eff md) clients in
  o = Returned (Some (Utf8 ("registered as " +:+ sc_principal s))) /\ clients' !! sc_principal s = Some self /\
  forall who, who <> sc_principal s -> clients' !! who = clients !! who.
Proof.
  intros Hp. unfold register_. rewrite (handler_principal s eff md Hp). unfold handler_ctx, context_for, contextWithPeer. cbn [ctx_peer negb].
  split_and!; [done|apply lookup_insert_eq|]. intros who Hne. by rewrite lookup_insert_ne.
Qed.

End relay.

(** ** examples/cancellation *)

Definition isDeadline (err : goerror) : bool := errors_Is err ErrDeadlineExceeded || (CodeOf (Some err) =? CodeDeadlineExceeded).

(** Whichever end notices the deadline first, the caller sees a deadline: its own
    context's error, or the handler's, which the session sends with its code. *)
Theorem deadline_seen_either_way name :
  isDeadline ErrDeadlineExceeded = true /\
  isDeadline (ErrRpc (HandlerErrorCode ErrDeadlineExceeded) ("function " +:+ name +:+ ": " +:+ wireMessage ErrDeadlineExceeded)) = true.
Proof. done. Qed.

(** ** examples/first *)

Section names.
Context `{ValueLib}.
(** [List.GetStringAt(i)], as documented by the value package. *)
Context (GetStringAt : Value -> nat -> Value).
Hypothesis GetStringAt_present : forall l i v, listGetAt l i = Some v -> kindOf v = STRING -> GetStringAt l i = v.

(** The package variables firstName and lastName. *)
Record names := mkNames { firstName : string; lastName : string }.

Definition setName (args : option Value) (t : names) : outcome Value * names :=
  match args with
  | Some l =>
      if decide (kindOf l = LIST) then (Returned None, mkNames (stringOf (GetStringAt l 0)) (stringOf (GetStringAt l 1)))
      else (Panicked, t)
  | None => (Panicked, t)
  end.
Definition getName (_ : option Value) (t : names) : outcome Value :=
  Returned (Some (Utf8 (firstName t +:+ " " +:+ lastName t))).

(** The arguments that pass the type setName is registered with make it succeed,
    and getName then answers the two names. *)
Theorem checked_names_stored args any t :
  Verify args (ListOf [Arg STRING true; Arg STRING true]) = true ->
  exists v a b, args = Some v /\ listGetAt v 0 = Some a /\ listGetAt v 1 = Some b /\ (setName args t).1 = Returned None /\
    getName any (setName args t).2 = Returned (Some (Utf8 (stringOf a +:+ " " +:+ stringOf b))).
Proof.
  intros [Hc _]%VerifyArgs_sound. inversion Hc as [| | | | | |v defs -> Hk Hl Hall Ed| |]; subst.
  pose proof (Hall 0%nat _ eq_refl) as H0. pose proof (Hall 1%nat _ eq_refl) as H1.
  destruct H0 as [[_ [=]]|(a & Ea & H0)], H1 as [[_ [=]]|(b & Eb & H1)]. cbn in H0, H1.
  exists v, a, b. unfold setName, getName. rewrite decide_True by done. cbn.
  by rewrite (GetStringAt_present _ _ _ Ea H0), (GetStringAt_present _ _ _ Eb H1).
Qed.

End names.

Section reversal.

(** The loop of reverse on its rune slice, from [i] and [j] on; the slice's length
    is fuel enough.  Both reads of the simultaneous assignment come first. *)
Fixpoint reverse_loop (fuel : nat) (i j : Z) (runes : list Z) : list Z :=
  match fuel with
  | O => runes
  | S fuel =>
      if i <? j then
        match runes !! Z.to_nat i, runes !! Z.to_nat j with
        | Some a, Some b => reverse_loop fuel (i + 1) (j - 1) (<[Z.to_nat j := a]> (<[Z.to_nat i := b]> runes))
        | _, _ => runes
        end
      else runes
  end.
Definition reverse (runes : list Z) : list Z := reverse_loop (length runes) 0 (Z.of_nat (length runes) - 1) runes.

Lemma insert_middle_at {A} (l1 : list A) x y l2 : <[length l1 := y]> (l1 ++ x :: l2) = l1 ++ y :: l2.
Proof. induction l1 as [|z l1 IH]; [done|]. cbn. f_equal. apply IH. Qed.

(** What is left to swap lies between a part that is done at each end. *)
Lemma reverse_loop_middle fuel pre mid post :
  (length mid <= fuel)%nat -> length pre = length post ->
  reverse_loop fuel (Z.of_nat (length pre)) (Z.of_nat (length pre) + Z.of_nat (length mid) - 1) (pre ++ mid ++ post) = pre ++ rev mid ++ post.
Proof.
  revert pre mid post. induction fuel as [|fuel IH]; intros pre mid post Hf Hl; cbn [reverse_loop]; [by destruct mid; [|cbn in Hf; lia]|].
  destruct mid as [|a mid]; [by rewrite (proj2 (Z.ltb_ge _ _)) by (cbn; lia)|].
  destruct mid as [|b mid _] using rev_ind; [by rewrite (proj2 (Z.ltb_ge _ _)) by (cbn; lia)|].
  rewrite (proj2 (Z.ltb_lt _ _)) by (cbn; rewrite length_app; cbn; lia).
  rewrite Nat2Z.id.
  replace (Z.to_nat _) with (length pre + S (length mid))%nat by (cbn; rewrite length_app; cbn; lia).
  replace (pre ++ (a :: mid ++ [b]) ++ post) with (pre ++ a :: mid ++ b :: post) by (cbn; by rewrite <- app_assoc).
  assert (pre ++ a :: mid ++ b :: post = (pre ++ a :: mid) ++ b :: post) as Eab by (by rewrite <- app_assoc).
  assert (length (pre ++ a :: mid) = length pre + S (length mid))%nat as Lab by (by rewrite length_app).
  rewrite list_lookup_middle by done. rewrite Eab, list_lookup_middle by done. rewrite <- Eab.
  rewrite (insert_middle_at pre a b).
  replace (pre ++ b :: mid ++ b :: post) with ((pre ++ b :: mid) ++ b :: post) by (by rewrite <- app_assoc).
  replace (length pre + S (length mid))%nat with (length (pre ++ b :: mid)) by (by rewrite length_app).
  rewrite insert_middle_at, <- app_assoc. cbn [app].
  pose proof (IH (pre ++ [b]) mid (a :: post)) as IH'. rewrite !length_app in IH'. cbn [length] in IH'.
  replace (pre ++ b :: mid ++ a :: post) with ((pre ++ [b]) ++ mid ++ a :: post) by (by rewrite <- app_assoc).
  replace (Z.of_nat (length pre) + 1) with (Z.of_nat (length pre + 1)) by lia.
  replace (_ - 1 - 1) with (Z.of_nat (length pre + 1) + Z.of_nat (length mid) - 1) by (cbn; rewrite length_app; cbn; lia).
  cbn in Hf. rewrite length_app in Hf. cbn in Hf. rewrite IH' by lia.
  rewrite <- app_assoc. f_equal. cbn. rewrite rev_app_distr. cbn. by rewrite <- app_assoc.
Qed.

(** The in-place reversal is the reversal of the list. *)
Theorem reverse_correct runes : reverse runes = rev runes.
Proof.
  pose proof (reverse_loop_middle (length runes) [] runes [] ltac:(lia) eq_refl) as Hm. cbn in Hm. by rewrite !app_nil_r in Hm.
Qed.

End reversal.
